(* ===== verification/_CoqProject ===== *)
-Q . S2P
Prelude.v
Bytes.v
NativePolicy.v
Bitcoin.v
Program.v
SignedView.v
Guest.v
Vault.v
TemplateHash.v
Evaluator.v
GuestRuntime.v
EndToEnd.v
Keys.v
KeysTests.v
Deployment.v
ArkSigner.v
Contract.v
SignerContract.v
ArkExamples.v
Scenario.v
SigningProtocol.v
SignerTests.v
OwnershipTests.v
CapacityTests.v
ProtocolExamples.v
OwnershipExamples.v
Nsm.v
App.v
Service.v
Admission.v
ServiceContract.v
VaultService.v
HttpSigning.v
ServiceTest.v
AppExamples.v
ServiceExamples.v
HttpExamples.v
Client.v
Lifecycle.v
Driver.v
Wallet.v
OracleDemo.v
DemoHost.v
VaultDemo.v
TemplateDemo.v
DemoExamples.v
LifecycleExamples.v
Fixtures.v
PredicateTests.v
EvaluatorTests.v
PredicateExamples.v
EvaluatorExamples.v
