(* ===== verification/Prelude.v ===== *)
(** * sapio_tee: a verification development

    sapio_tee is a signing oracle for Sapio programs that runs in an AWS Nitro
    enclave.  It derives one BIP32 root from a KMS key through an attesting
    proxy, publishes an attested identity, and releases a nested MuSig partial
    signature only after a WASM predicate, or a native ownership policy,
    authorized the request.  This development models the Rust code of src/ and
    of the example guests as executable functions and proves what makes each
    part correct.  Files are named relative to the crate.

    ** Parts and files

    - [Prelude], [Bytes]: results with errors and panics kept apart, the loops
      of the sources ([try_map], [try_fold], [find_from]), machine integers and
      the [slice]/[str] operations of Rust's library.
    - [NativePolicy] (src/native_policy.rs): the policy envelope; [parse],
      [NativePolicy_enforce], [encode].
    - [Bitcoin], [Program]: the transaction, PSBT and program-instance data the
      sources read, as records; interfaces for upstream's hashes.
    - [SignedView] (src/evaluator.rs, encode_view): the byte view a predicate
      reads, against the reference layout [view_layout].
    - [Evaluator] (src/evaluator.rs): [authorize], [check_compilation_budget],
      [evaluate] with its allocate-all, copy-all, call-once protocol.
    - [Guest] (examples/vault/guest.rs): the arena, [sapio_alloc_v1],
      [input_slice], the [Reader] and the entry point of the example guests.
    - [Vault] (examples/vault/predicate.rs, contract.rs) and [TemplateHash]
      (examples/templatehash/predicate.rs, main.rs): the two predicates with
      the client code that makes their parameters.
    - [GuestRuntime], [EndToEnd]: an instance of the WASM interface whose
      modules are those predicates linked with the guest adapter, and the
      composition of host and guest.
    - [Keys] (src/keys.rs), [Deployment] (src/deployment.rs), [Nsm]
      (src/nsm.rs): settings and root derivation, the advertised profile and
      the registry behind it, the attestation device.
    - [ArkSigner] (src/ark_signer.rs): [prepare], [finish], [cancel] on the
      pending map; [run] executes a sequence of calls.  [ArkExamples] holds its
      concrete executions.
    - [Contract]: what a signing session promises, as an abstract ledger of
      grants with no map, protocol or program in it ([ledger_step], [lawful]).
      [SignerContract] states that contract for [ArkSigner] and relates the two.
    - [Scenario], [SigningProtocol]: the tests of src/ark_signer.rs as programs
      over a signer, a clock and entropy ([Test], with the rules of [wp]), and
      the wallet's and the server's side of the protocol they play ([Fixture],
      [Prepared], [Fixture_sign]).
    - [SignerTests], [OwnershipTests], [CapacityTests], [PredicateTests],
      [EvaluatorTests] (same file, mod tests): the tests of sessions, of the
      native policy, of the pool's bounds, of the example programs, and of
      evaluators and guests that must fail; [Fixtures] builds the spends.
      [KeysTests] (src/keys.rs, mod tests): the tests of the key derivation.
      [ProtocolExamples], [OwnershipExamples], [PredicateExamples] and
      [EvaluatorExamples] run them on concrete schemes.
    - [App] (src/app.rs): setup, publication and the handlers as the transition
      system [app_step] over [System].  [AppExamples] holds its executions.
    - [Service] (src/app.rs, build_router and the handlers' HTTP side): the
      served router as steps [server_step] over [Server], the application with
      the requests in flight on each route, their permits and deadlines and the
      blocking evaluations.  [Admission] holds its invariant and
      its executions under a fair scheduler, [ServiceContract] what reaches a
      client through it, [VaultService] the same down to the rule of the vault,
      [HttpSigning] the wallet of [SigningProtocol] in front of it,
      [ServiceTest] (same file, mod tests) the test of the deadline over a
      socket, [ServiceExamples] and [HttpExamples] their concrete executions.
    - [Client] (src/main.rs, examples/support/mod.rs): the command lines and
      the identity check of the clients.
    - [Lifecycle] (src/app.rs, run): the local-dev start, the supervision of the
      process, the termination measure of a setup and the published identity
      as a client reads it.  [LifecycleExamples] holds its executions.
    - [Driver], [Wallet]: the example clients as interaction trees ([Io]) that
      send signing requests to an oracle, the tables of expectations that
      specify them, and the wallet library they build requests with.
    - [OracleDemo] (examples/program_oracle.rs), [VaultDemo]
      (examples/vault/main.rs, contract.rs), [TemplateDemo]
      (examples/templatehash/main.rs): the three demonstrations.  [DemoHost] is
      an oracle that runs a guest program on the signed view of a request;
      [DemoExamples] instantiates the libraries.

    The demonstrations call Client and send their requests to an oracle, which
    DemoHost answers by Evaluator.evaluate on a guest.
    A test calls ArkSigner's operations in the order it states; a thread of a
    test is a sequence of them, and a schedule a permutation of the threads.
    Service runs the handlers of App, one request at a time between two awaits;
    App calls Keys, Deployment, ArkSigner and Nsm; ArkSigner.prepare calls
    NativePolicy and Evaluator.authorize; Evaluator.evaluate calls
    SignedView.encode_view and a guest.  A definition has the name of the Rust
    item it translates; a loop body or a match that the source writes inline is
    a definition of its own, composed as the source composes it.

    ** What the theorems show

    - Signing.  [partial_authorized]: in any execution a partial signature
      answers an earlier prepare that passed every check, within its lifetime,
      with that prepare's nonce and program key; [check_request_iff] says what
      those checks are and [authorize_iff] what authorizes a spend.
      [nonce_used_once] and [consumed_once] show that a secret nonce is consumed
      by one call; [sessions_bounded], [pool_exhaustion_cost], [prepare_live]
      and [prepare_keeps_live_sessions] are the bounds of the pool, and that a
      checked request gets a session when they leave room.
      [signer_refines_contract]: every execution of a fresh signer is a trace
      of the ledger, of which [contract_one_share] says that each share redeems
      one grant, in time and at most once.
    - Protocol.  [honest_signing_completes]: prepare, finish and the wallet's
      own share give a Schnorr signature of the authenticated spend.  The tests
      of the crate pass for every key, nonce, clock and session id of their
      hypotheses, not for one run: [malformed_finish_passes],
      [cancellation_and_expiry_pass], [fresh_signer_passes],
      [deferred_server_share_passes], [delayed_claim_passes]; under every
      schedule of the threads, [one_terminal_winner] and [exactly_one_share];
      on a full pool, [capacity_tests_pass]; in front of a reservation,
      [native_policy_tests_pass]; through the evaluator and the guests,
      [generic_sweep_passes] and [templatehash_rejects_passes]; against guests
      that misbehave, [evaluator_tests_pass]; on the key
      material, [keys_tests_pass], [root_vector_iff] and [nums_vector_iff].
    - Evaluation.  [evaluate_verdict]: a verdict is what the guest returned
      with its inputs in place, each whole and in a region of its own.
      [budget_iff]: the modules that pass the static check, against a table of
      the crypto functions they may import.  [encode_view_spec],
      [encode_view_inj]: the view is the layout of a table of typed fields
      ([view_fields]) within its size limit and determines every field it
      carries.
    - Programs.  [vault_evaluate_spec] and [templatehash_evaluate_spec] relate
      the predicates to their documented rules, [vault_authorize] and
      [templatehash_authorize] compose them with the host,
      [template_hash_binding] reduces a second preimage of a template to a
      collision of one of the three pairs of strings the two hashes are made of; [allocations_disjoint] and [input_slice_iff] cover the
      guest's unsafe memory accesses.
    - Demonstrations.  [vault_demo_passes] and [template_demo_passes]: against
      an oracle that signs exactly the bound spends the predicate accepts, the
      drivers succeed, so that each of their boundary cases has the verdict
      they expect of the predicate on the signed view.  [oracle_demo_table]:
      the third driver is a test of its table.  [request_bound]: its fixtures
      spend the Taproot output their PSBTs record, by key or by the leaf they
      carry; [template_request_spec]: the requests of the second are complete
      native contexts; [crosscheck_components]: what the driver's comparison with the
      library's signature hash establishes.
    - Policy.  [parse_some_iff], [parse_fails_closed],
      [encode_parse_roundtrip], [enforce_iff]; [enforce_no_outputs] records
      that a proof with no outputs is accepted whatever the lists hold.
    - Keys.  [key_region_iff], [nums_point_first], [root_info_inj],
      [derive_root_iff], [derive_root_hides_sdk_error].
    - Service.  [published_identity_consistent] (whose Ark signer is an
      execution of a fresh signer, to which the theorems on signing apply),
      [identity_immutable],
      [ark_signer_iff_published], [setup_exclusive], [setup_completes],
      [evaluations_bounded], [attestation_iff]; [orphaned_signer] records that
      dropping the setup request between the signer's readiness and publication
      leaves the TCP signer serving without an identity.  [profile_resolves]
      ties the advertised profile to the registry; [production_requires_device],
      [options_iff] and [load_identity_iff] cover the two command lines.
      [setup_terminates] bounds the steps of a setup under any interleaving and
      drives it to its reply; [published_identity_loads] is the round trip of
      the identity to a client; [local_dev_contained] says what a process
      without a device can and cannot do; [open_releases] covers the device's
      descriptor.
    - Requests.  [service_refines_app]: arrivals, deadlines and disconnects
      reach the application by its own transitions only, so the theorems on the
      service hold behind the router.  [sheds_iff_full]: when a
      request is shed; [no_client_pins_a_route]: under a
      fair scheduler no client keeps a permit; [timed_out_prepare_retained]: the
      deadline answers without cancelling an evaluation; [http_share_authorized]:
      what a 200 answer to a finish stands for; [vault_share_over_http]: for a
      vault program, the transaction it signs keeps the vault's rule;
      [http_signing_completes]: an honest wallet's two requests end in a
      signature; [stalled_body_test_passes]: the test over a socket.

    ** Parameters

    Code outside the repository is an interface (a type class), with its laws,
    where any are used, in a separate class: serde_json, script and policy
    codecs ([PolicyCodec]); wasmparser, wasmer and the crypto imports
    ([WasmRuntime]); PSBT authentication and sighash ([NativeAuth]); consensus
    encoding of an outpoint ([OutPointCodec]); evaluator ids ([SapioProgram]);
    SHA-256, P-256, HKDF and BIP32 ([KeyPrimitives]); the oracle constructors
    ([Upstream]); MuSig nonces, sessions and the Ark requests ([ArkLib],
    [ArkRequests]); the members' and the server's MuSig algorithms
    ([NestedMusig]), whose laws are the correctness of honest signing; programs,
    VTXOs and JSON values as the tests build them ([OwnershipLib]), Taproot trees
    and signing inputs ([FixtureLib]), extended public keys ([KeyTestLib]); the
    device driver ([NsmDriver]); HTTP encodings ([AppLib]);
    axum's extractors and encoders ([Axum]), tower's limit and timer ([Tower]),
    the bytes of an HTTP response ([HttpWire]); files and addresses ([ClientLib]); the wallet constructors ([WalletLib]),
    the CTV and text-assembler calls ([OracleDemoLib], the assembler also in the
    tests), the Sapio compiler and
    the finalizer ([VaultLib]), SHA-256, hexadecimal and BIP 341
    ([TemplateDemoLib]); JSON values and the entries of an object
    ([IdentityWire]), from which the derived encoders of the two identity
    structs are defined.
    The modules named Sample... instantiate
    each of them, so every theorem with a hypothesis is applied to a concrete
    case.

    ** Bounds and fuel

    The NUMS counter runs over all 2^32 values of a u32: [find_from] iterates on
    the binary representation of the bound, so the definition runs and the
    theorem needs no fuel.  The loop that draws a session id recurses on the
    ids that the entropy source yields; [prepare_live] shows that as many
    distinct ids as the pool has places are enough, and when they run out the
    source has failed and the code panics.  Every other loop recurses on the
    data it traverses, and a demonstration is a finite tree.  The while loop
    that fills the pool in a test has one round of fuel more than the pool has
    slots, and each of its rounds takes a slot; [str::replace] has the length of
    the text.  A setup needs no
    fuel either: [setup_terminates] counts its steps with [measure].  An integer keeps the width of the source where the
    source checks or wraps it: 32-bit guest addresses and slot counts, u32
    counts in the view, the i32 casts of the call protocol.

    ** Concurrency

    The signer locks its map once per operation and reads no mutable state
    before the lock, so an interleaving is a sequence of operations ([run]).
    The setup future can be dropped at both of its await points, and the
    signer thread, the requests and the blocking evaluations are scheduled in
    any order ([app_step], [reaches]).  What one handler does between two
    await points is one step.  The router's requests arrive, complete their
    bodies, time out and disconnect in any order ([server_step], [serves]); an
    endless execution is a function of its position, and [fair] asks only that
    the clock goes on and that a due timer fires.  In the tests that start threads every thread makes
    one call behind a barrier, so the theorems quantify over their order.

    ** Not modelled

    Of the HTTP transport: the bytes of a request and its decoding from JSON,
    which are parameters, the empty body of a response to HEAD, the CORS headers and the response to a path outside
    the table, which never reach a handler; [Service] starts from a process that
    has a device or none, and [Lifecycle] has the local-dev start.  The TCP
    protocol of the upstream oracle;
    zeroization of secrets; console output; the compiled artifacts, and so the
    tests of the pay-at-least module; the Python and Terraform tooling of
    deploy/ and scripts/.  Of the tests of src/ark_signer.rs: those whose
    outcome is decided in the Ark, PSBT and MuSig libraries or in serde_json
    (annexes, tap scripts, leaves, finalized inputs, inverse nonces, free
    prevouts, deserialized requests): a model could only assume what they test.
    A guest written in WAT is modelled by what its few instructions do
    ([assembled]), not by an interpreter of WebAssembly.  A panic is a value of the model: the enclave's release
    profile aborts the process there, the examples are run with the development
    profile, whose checked arithmetic is the one modelled for them.

    The development is complete for this revision of the sources: what is left
    out is left out for the reasons above. *)

From Stdlib Require Export NArith ZArith Lia Strings.Byte.
From Stdlib Require Strings.String.
From stdpp Require Export base tactics list gmap strings option.

Declare Scope tee_scope.
Delimit Scope tee_scope with tee.

(* ------------------------------------------------------------------ *)
(** ** Fallible code

    A Rust function of type [Result<A, E>] either returns [Ok], returns
    [Err], or panics ([expect], [unwrap], a slice index out of range).  The
    three outcomes are kept apart: [map_err] and [context] rewrite errors,
    never panics. *)

Inductive Result (E A : Type) : Type :=
| Ok (a : A)
| Err (e : E)
| Panic (why : string).
Arguments Ok {E A} a.
Arguments Err {E A} e.
Arguments Panic {E A} why.

#[export] Instance Result_ret {E} : MRet (Result E) := fun A a => Ok a.
#[export] Instance Result_bind {E} : MBind (Result E) :=
  fun A B f m =>
    match m with
    | Ok a => f a
    | Err e => Err e
    | Panic w => Panic w
    end.
#[export] Instance Result_fmap {E} : FMap (Result E) :=
  fun A B f m =>
    match m with
    | Ok a => Ok (f a)
    | Err e => Err e
    | Panic w => Panic w
    end.

(** [ensure!(b, e)]. *)
Definition ensure {E} (b : bool) (e : E) : Result E unit :=
  if b then Ok tt else Err e.

(** [r.map_err(f)]. *)
Definition map_err {E F A} (f : E -> F) (r : Result E A) : Result F A :=
  match r with
  | Ok a => Ok a
  | Err e => Err (f e)
  | Panic w => Panic w
  end.

(** [o.ok_or(e)], and [Option::context]. *)
Definition ok_or {E A} (o : option A) (e : E) : Result E A :=
  match o with
  | Some a => Ok a
  | None => Err e
  end.

(** [o.expect(why)]. *)
Definition expect {E A} (o : option A) (why : string) : Result E A :=
  match o with
  | Some a => Ok a
  | None => Panic why
  end.

(** [r.expect(why)] on a result. *)
Definition unwrap_ok {E F A} (r : Result E A) (why : string) : Result F A :=
  match r with
  | Ok a => Ok a
  | Err _ => Panic why
  | Panic w => Panic w
  end.

(** [o.transpose()] after [o.map(f)] for an optional argument. *)
Definition transpose {E A} (o : option (Result E A)) : Result E (option A) :=
  match o with
  | None => Ok None
  | Some r => Some <$> r
  end.

(** [l.iter().map(f).collect::<Result<Vec<_>>>()]: left to right, stopping at
    the first failure. *)
Fixpoint try_map {E A B} (f : A -> Result E B) (l : list A) : Result E (list B) :=
  match l with
  | [] => Ok []
  | x :: l =>
      y ← f x;
      ys ← try_map f l;
      Ok (y :: ys)
  end.

(** A [for] loop whose body may leave the function with [?]. *)
Fixpoint try_fold {E A S} (f : S -> A -> Result E S) (s : S) (l : list A) : Result E S :=
  match l with
  | [] => Ok s
  | x :: l =>
      s' ← f s x;
      try_fold f s' l
  end.

Definition is_ok {E A} (r : Result E A) : bool :=
  match r with Ok _ => true | _ => false end.

Definition is_panic {E A} (r : Result E A) : bool :=
  match r with Panic _ => true | _ => false end.

(** [anyhow::Error], by the ways the program builds one.  [Foreign] is an
    error value of a library, carried by its display string. *)
Inductive Error :=
| Message (text : string)
| Context (text : string) (cause : Error)
| Foreign (text : string)
| Program (error : ProgramError)
with ProgramError :=
| RootDepth (depth : N)
| Psbt (text : string)
| FinalizedInput
| UnknownEvaluator (id : list byte)
| Evaluation (text : string)
| Rejected.

(** [r.context(text)] on a [Result]: the cause stays below the new message. *)
Definition context {A} (text : string) (r : Result Error A) : Result Error A :=
  map_err (Context text) r.

(* ------------------------------------------------------------------ *)
(** ** Decidable equality and finite keys for bytes *)

#[export] Instance byte_eq_dec : EqDecision byte := Byte.byte_eq_dec.

#[export] Instance byte_countable : Countable byte :=
  inj_countable Byte.to_N Byte.of_N Byte.of_to_N.

(** Byte strings: the contents of a [&[u8]], a [Vec<u8>] or a [str]. *)
Abbreviation bytes := (list byte).

(** An ASCII literal, [b"..."]. *)
Definition lit (s : string) : bytes := String.list_byte_of_string s.

(* ------------------------------------------------------------------ *)
(** ** Inversion and rewriting for results *)

Create HintDb result.

(** Unlike [injection], this keeps the two results folded. *)
Lemma Ok_inj {E A} (a b : A) : @Ok E A a = Ok b -> a = b.
Proof. by intros [=]. Qed.

Lemma Some_inj {A} (a b : A) : Some a = Some b -> a = b.
Proof. by intros [=]. Qed.

Lemma bind_ok {E A B} (m : Result E A) (f : A -> Result E B) b :
  (x ← m; f x) = Ok b <-> exists a, m = Ok a /\ f a = Ok b.
Proof.
  destruct m; cbn; split; intros H; try discriminate; naive_solver.
Qed.

(** A step that succeeds. *)
Lemma bind_step {E A B} (m : Result E A) (f : A -> Result E B) a :
  m = Ok a -> (x ← m; f x) = f a.
Proof. by intros ->. Qed.

(** The same for options; rewriting with it keeps the terms folded where
    reduction would leave a conversion between two binds to the kernel. *)
Lemma obind_step {A B} (f : A -> option B) a : (Some a ≫= f) = f a.
Proof. reflexivity. Qed.

Lemma bind_ext {E A B} (m : Result E A) (f g : A -> Result E B) :
  (forall a, f a = g a) -> (x ← m; f x) = (x ← m; g x).
Proof. intros H. destruct m; cbn; auto. Qed.

Lemma fmap_ok {E A B} (m : Result E A) (f : A -> B) b :
  f <$> m = Ok b <-> exists a, m = Ok a /\ f a = b.
Proof. destruct m; cbn; split; intros H; try discriminate; naive_solver. Qed.

Lemma ensure_ok {E} (c : bool) (e : E) u :
  ensure c e = Ok u <-> c = true.
Proof. destruct c, u; cbn; split; congruence. Qed.

Lemma map_err_ok {E F A} (f : E -> F) (r : Result E A) a :
  map_err f r = Ok a <-> r = Ok a.
Proof. destruct r; cbn; split; congruence. Qed.

Lemma context_ok {A} text (r : Result Error A) a :
  context text r = Ok a <-> r = Ok a.
Proof. apply map_err_ok. Qed.

Lemma ok_or_ok {E A} (o : option A) (e : E) a :
  ok_or o e = Ok a <-> o = Some a.
Proof. destruct o; cbn; split; congruence. Qed.

Lemma expect_ok {E A} (o : option A) why a :
  @expect E A o why = Ok a <-> o = Some a.
Proof. destruct o; cbn; split; congruence. Qed.

Lemma unwrap_ok_ok {E F A} (r : Result E A) why a :
  @unwrap_ok E F A r why = Ok a <-> r = Ok a.
Proof. destruct r; cbn; split; congruence. Qed.

Lemma bind_panic {E A B} (m : Result E A) (f : A -> Result E B) w :
  (x ← m; f x) = Panic w <-> m = Panic w \/ exists a, m = Ok a /\ f a = Panic w.
Proof.
  destruct m; cbn; split; intros H; try discriminate; naive_solver.
Qed.

Lemma bind_not_panic {E A B} (m : Result E A) (f : A -> Result E B) w :
  m <> Panic w -> (forall a, f a <> Panic w) -> (x ← m; f x) <> Panic w.
Proof. destruct m; cbn; congruence || auto. Qed.

Lemma ensure_no_panic {E} (c : bool) (e : E) w : ensure c e <> Panic w.
Proof. by destruct c. Qed.

Lemma ok_or_no_panic {E A} (o : option A) (e : E) w : ok_or o e <> Panic w.
Proof. by destruct o. Qed.

Lemma map_err_no_panic {E F A} (f : E -> F) (r : Result E A) w :
  r <> Panic w -> map_err f r <> Panic w.
Proof. destruct r; cbn; congruence. Qed.

#[export] Hint Resolve @bind_not_panic @ensure_no_panic @ok_or_no_panic
  @map_err_no_panic : result.

#[export] Hint Rewrite @bind_ok @fmap_ok @ensure_ok @map_err_ok @context_ok
  @ok_or_ok @expect_ok : result.

(** Open every [Ok]-valued computation of the context into its steps. *)
Ltac inv_ok :=
  repeat match goal with
  | H : Ok _ = Ok _ |- _ => apply Ok_inj in H; try subst; try discriminate
  | H : Some _ = Some _ |- _ => apply Some_inj in H; try subst; try discriminate
  | H : Err _ = Ok _ |- _ => discriminate H
  | H : Panic _ = Ok _ |- _ => discriminate H
  | H : exists _, _ |- _ => destruct H
  | H : _ /\ _ |- _ => destruct H
  | H : _ = Ok _ |- _ => progress (autorewrite with result in H)
  end.

Lemma try_map_ok {E A B} (f : A -> Result E B) l ys :
  try_map f l = Ok ys <-> Forall2 (fun x y => f x = Ok y) l ys.
Proof.
  revert ys; induction l as [|x l IH]; intros ys; cbn [try_map].
  - split; [intros [= <-]; constructor | inversion 1; reflexivity].
  - split.
    + intros H. inv_ok. constructor; [done|]. by apply IH.
    + inversion 1 as [|? y ? ys' Hx Hl]; subst. apply IH in Hl.
      rewrite Hx; cbn. by rewrite Hl.
Qed.

Lemma try_map_total {E A B} (f : A -> Result E B) l :
  Forall (fun x => exists y, f x = Ok y) l -> exists ys, try_map f l = Ok ys.
Proof.
  induction 1 as [|x l [y Hy] _ [ys Hys]]; cbn; [by eexists|]. rewrite Hy. cbn. rewrite Hys. cbn. by eexists.
Qed.

Lemma try_map_length {E A B} (f : A -> Result E B) l ys :
  try_map f l = Ok ys -> length ys = length l.
Proof. intros H%try_map_ok. symmetry. by eapply Forall2_length. Qed.

Lemma try_map_no_panic {E A B} (f : A -> Result E B) l w :
  (forall x w, f x <> Panic w) -> try_map f l <> Panic w.
Proof.
  intros Hf. induction l as [|x l IH]; cbn; [done|].
  destruct (f x) eqn:Hx; cbn; [|done|by eapply Hf in Hx].
  destruct (try_map f l); cbn; congruence.
Qed.

Lemma try_fold_no_panic {E A S} (f : S -> A -> Result E S) s l w :
  (forall s x, f s x <> Panic w) -> try_fold f s l <> Panic w.
Proof.
  intros Hf. revert s; induction l as [|x l IH]; intros s; [done|]. cbn [try_fold].
  apply bind_not_panic; [apply Hf|apply IH].
Qed.

Lemma try_fold_app {E A S} (f : S -> A -> Result E S) s l1 l2 :
  try_fold f s (l1 ++ l2) = s' ← try_fold f s l1; try_fold f s' l2.
Proof.
  revert s; induction l1 as [|x l1 IH]; intros s; cbn; [done|].
  destruct (f s x); cbn; auto.
Qed.

(* ------------------------------------------------------------------ *)
(** ** Slices *)

(** [&s[start..start+len]] where it is in range. *)
Definition slice {A} (s : list A) (start len : N) : list A :=
  take (N.to_nat len) (drop (N.to_nat start) s).

Definition len {A} (s : list A) : N := N.of_nat (length s).

Lemma len_app {A} (a b : list A) : len (a ++ b) = (len a + len b)%N.
Proof. unfold len. rewrite length_app. lia. Qed.

Lemma len_nil {A} : len (@nil A) = 0%N.
Proof. reflexivity. Qed.

Lemma len_cons {A} (x : A) l : len (x :: l) = (1 + len l)%N.
Proof. unfold len; cbn [length]; lia. Qed.

Lemma len_zero {A} (s : list A) : len s = 0%N <-> s = [].
Proof. destruct s; cbn; split; unfold len; cbn; congruence || lia. Qed.

Lemma slice_app {A} (a b c : list A) :
  slice (a ++ b ++ c) (len a) (len b) = b.
Proof.
  unfold slice, len. rewrite !Nat2N.id.
  by rewrite drop_app_length, take_app_length.
Qed.

Create HintDb len.
#[export] Hint Rewrite @len_app @len_nil @len_cons : len.

(* ------------------------------------------------------------------ *)
(** ** Bounded search loops

    [for c in c0..c0+n { if let Some(a) = f(c) { return a } }] over a counter
    range too long for unary fuel: [p] is binary, and the loop stops at the
    first hit ([inr]). *)

Fixpoint find_from {A} (f : N -> option A) (p : positive) (state : N + A) : N + A :=
  match state with
  | inr a => inr a
  | inl c =>
      let step state :=
        match state with
        | inr a => inr a
        | inl c => match f c with Some a => inr a | None => inl (N.succ c) end
        end in
      match p with
      | xH => step (inl c)
      | xO p => find_from f p (find_from f p (inl c))
      | xI p => find_from f p (find_from f p (step (inl c)))
      end
  end.

(** The first hit at or after [c], or none among the next [n] counters. *)
Definition first_hit {A} (f : N -> option A) (c n : N) (result : N + A) : Prop :=
  (exists k a, (c <= k < c + n)%N /\ f k = Some a /\ result = inr a /\
     forall m, (c <= m < k)%N -> f m = None) \/
  (result = inl (c + n)%N /\ forall m, (c <= m < c + n)%N -> f m = None).

Lemma first_hit_seq {A} (f : N -> option A) c n1 n2 r1 r2 :
  first_hit f c n1 r1 ->
  match r1 with inr a => r2 = inr a | inl c' => first_hit f c' n2 r2 end ->
  first_hit f c (n1 + n2) r2.
Proof.
  intros [(k & a & Hk & Hf & -> & Hn)|(-> & Hn)].
  - intros ->. left. exists k, a. repeat split; (done || lia).
  - intros [(k & a & Hk & Hf & -> & Hn')|(-> & Hn')].
    + left. exists k, a. repeat split; try (done || lia). intros m Hm.
      destruct (N.lt_ge_cases m (c + n1)); [apply Hn | apply Hn']; lia.
    + right. rewrite N.add_assoc. split; [done|]. intros m Hm.
      destruct (N.lt_ge_cases m (c + n1)); [apply Hn | apply Hn']; lia.
Qed.

Lemma first_hit_one {A} (f : N -> option A) c :
  first_hit f c 1 match f c with Some a => inr a | None => inl (N.succ c) end.
Proof.
  destruct (f c) as [a|] eqn:E; [left|right].
  - exists c, a. repeat split; (done || lia).
  - rewrite N.add_1_r. split; [done|]. intros m Hm. by replace m with c by lia.
Qed.

Lemma find_from_inr {A} (f : N -> option A) p a : find_from f p (inr a) = inr a.
Proof. by destruct p. Qed.

Lemma find_from_spec {A} (f : N -> option A) p c :
  first_hit f c (N.pos p) (find_from f p (inl c)).
Proof.
  revert c; induction p as [p IH|p IH|]; intros c; cbn [find_from].
  - replace (N.pos p~1) with (1 + (N.pos p + N.pos p))%N by lia.
    eapply first_hit_seq; [apply first_hit_one|].
    destruct (f c); [by rewrite !find_from_inr|].
    eapply first_hit_seq; [apply IH|]. destruct (find_from f p (inl _)); [apply IH | by rewrite find_from_inr].
  - replace (N.pos p~0) with (N.pos p + N.pos p)%N by lia.
    eapply first_hit_seq; [apply IH|]. destruct (find_from f p (inl c)); [apply IH | by rewrite find_from_inr].
  - apply first_hit_one.
Qed.

Lemma length_filter_twice {A} (P Q : A -> Prop) `{forall x, Decision (P x)} `{forall x, Decision (Q x)} l :
  (length (filter P (filter Q l)) <= length (filter P l))%nat.
Proof.
  induction l as [|x l IH]; [done|]. rewrite !filter_cons. destruct (decide (Q x)), (decide (P x));
    rewrite ?filter_cons; repeat case_decide; cbn; (done || lia).
Qed.

(** If no value occurs more than [k] times, the distinct values number at least
    a [k]-th of the list. *)
Lemma length_le_distinct {A} `{EqDecision A} (k : nat) (ds l : list A) :
  (forall x, x ∈ l -> x ∈ ds) ->
  (forall x, (length (filter (eq x) l) <= k)%nat) ->
  (length l <= k * length ds)%nat.
Proof.
  revert l; induction ds as [|d ds IH]; intros l Hin Hk.
  - destruct l as [|x l]; [cbn; lia|]. destruct (not_elem_of_nil x). apply Hin, elem_of_cons. by left.
  - pose proof (Permutation_length (filter_app_complement (eq d) l)) as Hp. rewrite length_app in Hp.
    rewrite <- Hp. pose proof (Hk d).
    assert (length (filter (fun x => ~ d = x) l) <= k * length ds)%nat; [|cbn; lia].
    apply IH.
    + intros x [Hne Hx]%list_elem_of_filter. apply Hin, elem_of_cons in Hx as [->|?]; done.
    + intros x. etransitivity; [apply length_filter_twice|apply (Hk x)].
Qed.
