(* ===== verification/Bytes.v ===== *)
(** * Bytes: machine integers as bytes, and the byte-string operations of Rust

    Little- and big-endian encodings of unsigned integers ([to_le_bytes],
    [from_le_bytes], [to_be_bytes]), two's complement casts between [i32] and
    [u32], [checked_add] at a width, and the [str]/[slice] operations the
    sources use ([strip_prefix], [split], [starts_with]).  The round-trip and
    injectivity lemmas here carry the codec theorems of every component. *)

From S2P Require Import Prelude.

Open Scope N_scope.

(* ------------------------------------------------------------------ *)
(** ** Definitions *)

(** [n as u8]: the low eight bits. *)
Definition byte_of_N (n : N) : byte := default Byte.x00 (Byte.of_N (n mod 256)).

(** [v.to_le_bytes()] of a [k]-byte unsigned integer. *)
Fixpoint le_bytes (k : nat) (v : N) : bytes :=
  match k with
  | O => []
  | S k => byte_of_N v :: le_bytes k (v / 256)
  end.

(** [uN::from_le_bytes(bs)]. *)
Fixpoint of_le (bs : bytes) : N :=
  match bs with
  | [] => 0
  | b :: bs => Byte.to_N b + 256 * of_le bs
  end.

(** [v.to_be_bytes()]. *)
Definition be_bytes (k : nat) (v : N) : bytes := rev (le_bytes k v).

(** [v.to_le_bytes()] of an [i32]: two's complement. *)
Definition i32_le_bytes (v : Z) : bytes := le_bytes 4 (Z.to_N (v mod 2 ^ 32)).

(** [a.checked_add(b)] on a [w]-bit unsigned integer. *)
Definition checked_add (w a b : N) : option N :=
  if a + b <? 2 ^ w then Some (a + b) else None.

(** [u32::try_from(n)]. *)
Definition u32_try_from (n : N) : option N :=
  if n <? 2 ^ 32 then Some n else None.

(** [v as i32] of an unsigned integer, and [v as u32] of an [i32]. *)
Definition as_i32 (n : N) : Z :=
  let m := Z.of_N (n mod 2 ^ 32) in
  if (m <? 2 ^ 31)%Z then m else (m - 2 ^ 32)%Z.
Definition i32_as_u32 (z : Z) : N := Z.to_N (z mod 2 ^ 32).

(** [s.strip_prefix(p)]. *)
Fixpoint strip_prefix (p s : bytes) : option bytes :=
  match p, s with
  | [], _ => Some s
  | _ :: _, [] => None
  | x :: p, y :: s => if Byte.eqb x y then strip_prefix p s else None
  end.

(** [s.starts_with(p)]. *)
Definition starts_with (p s : bytes) : bool :=
  match strip_prefix p s with Some _ => true | None => false end.

(** [s.split(sep)] of a one-byte separator: at least one field, one more than
    the occurrences of [sep]. *)
Fixpoint split_on (sep : byte) (s : bytes) : list bytes :=
  match s with
  | [] => [[]]
  | c :: s =>
      if Byte.eqb c sep then [] :: split_on sep s
      else match split_on sep s with
           | [] => [[c]]
           | field :: fields => (c :: field) :: fields
           end
  end.

(** Joining fields back: the inverse of [split_on]. *)
Fixpoint join_with (sep : byte) (fields : list bytes) : bytes :=
  match fields with
  | [] => []
  | [f] => f
  | f :: fields => f ++ sep :: join_with sep fields
  end.

(** A [u8] range test, [matches!(b, lo..=hi)]. *)
Definition byte_in (lo hi b : byte) : bool :=
  (Byte.to_N lo <=? Byte.to_N b) && (Byte.to_N b <=? Byte.to_N hi).

Definition is_ascii_digit (b : byte) : bool := byte_in "0"%byte "9"%byte b.

(** Lower-case hexadecimal, a concrete instance for the hex interfaces of the
    components (the sources call the hex and bitcoin crates). *)
Definition hex_digit (n : N) : byte :=
  byte_of_N (if n <? 10 then 48 + n else 87 + n).

Definition hex_value (b : byte) : option N :=
  let n := Byte.to_N b in
  if byte_in "0"%byte "9"%byte b then Some (n - 48)
  else if byte_in "a"%byte "f"%byte b then Some (n - 87)
  else if byte_in "A"%byte "F"%byte b then Some (n - 55)
  else None.

Fixpoint hex_encode (bs : bytes) : bytes :=
  match bs with
  | [] => []
  | b :: bs => hex_digit (Byte.to_N b / 16) :: hex_digit (Byte.to_N b mod 16) :: hex_encode bs
  end.

Fixpoint hex_decode (s : bytes) : option bytes :=
  match s with
  | [] => Some []
  | [_] => None
  | hi :: lo :: s =>
      h ← hex_value hi;
      l ← hex_value lo;
      bs ← hex_decode s;
      Some (byte_of_N (16 * h + l) :: bs)
  end.

(* ------------------------------------------------------------------ *)
(** ** One byte *)

Lemma to_N_bound (b : byte) : Byte.to_N b < 256.
Proof. pose proof (Byte.to_N_bounded b). lia. Qed.

Lemma to_N_byte_of_N n : Byte.to_N (byte_of_N n) = n mod 256.
Proof.
  unfold byte_of_N. destruct (Byte.of_N (n mod 256)) as [b|] eqn:H; cbn.
  - by apply Byte.to_of_N.
  - apply Byte.of_N_None_iff in H. pose proof (N.mod_lt n 256). lia.
Qed.

Lemma byte_of_to_N b : byte_of_N (Byte.to_N b) = b.
Proof.
  unfold byte_of_N. rewrite N.mod_small by apply to_N_bound.
  by rewrite Byte.of_to_N.
Qed.

Lemma to_N_inj a b : Byte.to_N a = Byte.to_N b -> a = b.
Proof. intros H. by rewrite <- (byte_of_to_N a), <- (byte_of_to_N b), H. Qed.

Lemma byte_eqb_eq (a b : byte) : Byte.eqb a b = true <-> a = b.
Proof.
  split; [|intros ->; apply Byte.byte_dec_lb; reflexivity].
  apply Byte.byte_dec_bl.
Qed.

Lemma byte_eqb_refl (b : byte) : Byte.eqb b b = true.
Proof. by apply byte_eqb_eq. Qed.

(* ------------------------------------------------------------------ *)
(** ** Integer encodings *)

Lemma length_le_bytes k v : length (le_bytes k v) = k.
Proof. revert v; induction k; intros v; cbn; auto. Qed.

Lemma len_le_bytes k v : len (le_bytes k v) = N.of_nat k.
Proof. unfold len. by rewrite length_le_bytes. Qed.

Lemma length_be_bytes k v : length (be_bytes k v) = k.
Proof. unfold be_bytes. by rewrite length_rev, length_le_bytes. Qed.

Lemma length_i32_le_bytes v : length (i32_le_bytes v) = 4%nat.
Proof. apply length_le_bytes. Qed.

Lemma pow256_succ k : 256 ^ N.of_nat (S k) = 256 * 256 ^ N.of_nat k.
Proof. rewrite Nat2N.inj_succ, N.pow_succ_r'. reflexivity. Qed.

(** Decoding an encoding keeps the value modulo the width. *)
Lemma of_le_le_bytes k v : of_le (le_bytes k v) = v mod 256 ^ N.of_nat k.
Proof.
  revert v; induction k as [|k IH]; intros v; cbn [le_bytes of_le].
  - by rewrite N.mod_1_r.
  - rewrite IH, to_N_byte_of_N, pow256_succ.
    rewrite (N.Div0.mod_mul_r v 256 (256 ^ N.of_nat k)). lia.
Qed.

Lemma of_le_le_bytes_small k v :
  v < 256 ^ N.of_nat k -> of_le (le_bytes k v) = v.
Proof. intros H. rewrite of_le_le_bytes. by apply N.mod_small. Qed.

Lemma le_bytes_of_le bs : le_bytes (length bs) (of_le bs) = bs.
Proof.
  induction bs as [|b bs IH]; cbn [length le_bytes of_le]; [done|].
  pose proof (to_N_bound b). f_equal.
  - apply to_N_inj. rewrite to_N_byte_of_N, (N.mul_comm 256), N.Div0.mod_add.
    by apply N.mod_small.
  - rewrite (N.mul_comm 256), N.div_add by lia. by rewrite N.div_small.
Qed.

Lemma of_le_bound bs : of_le bs < 256 ^ len bs.
Proof.
  induction bs as [|b bs IH]; cbn [of_le].
  - cbn. lia.
  - rewrite len_cons, N.pow_add_r, N.pow_1_r. pose proof (to_N_bound b). nia.
Qed.

Lemma le_bytes_inj k a b :
  a < 256 ^ N.of_nat k -> b < 256 ^ N.of_nat k ->
  le_bytes k a = le_bytes k b -> a = b.
Proof.
  intros Ha Hb H. rewrite <- (of_le_le_bytes_small k a Ha), H.
  by apply of_le_le_bytes_small.
Qed.

Lemma be_bytes_inj k a b :
  a < 256 ^ N.of_nat k -> b < 256 ^ N.of_nat k ->
  be_bytes k a = be_bytes k b -> a = b.
Proof.
  unfold be_bytes. intros Ha Hb H. apply (f_equal (@rev byte)) in H.
  rewrite !rev_involutive in H. by eapply le_bytes_inj.
Qed.

Lemma i32_le_bytes_inj a b :
  (- 2 ^ 31 <= a < 2 ^ 31)%Z -> (- 2 ^ 31 <= b < 2 ^ 31)%Z ->
  i32_le_bytes a = i32_le_bytes b -> a = b.
Proof.
  unfold i32_le_bytes. intros Ha Hb H. apply le_bytes_inj in H;
    [|change (256 ^ N.of_nat 4) with (Z.to_N (2 ^ 32));
      pose proof (Z.mod_pos_bound a (2 ^ 32)); pose proof (Z.mod_pos_bound b (2 ^ 32)); lia ..].
  pose proof (Z.mod_pos_bound a (2 ^ 32)). pose proof (Z.mod_pos_bound b (2 ^ 32)).
  assert (a mod 2 ^ 32 = b mod 2 ^ 32)%Z as E by lia.
  pose proof (Z.div_mod a (2 ^ 32)). pose proof (Z.div_mod b (2 ^ 32)). lia.
Qed.

(** Casting a small unsigned integer to [i32] and back. *)
Lemma i32_as_u32_as_i32 n : n < 2 ^ 32 -> i32_as_u32 (as_i32 n) = n.
Proof.
  intros H. unfold i32_as_u32, as_i32. rewrite N.mod_small by done.
  destruct (Z.ltb_spec (Z.of_N n) (2 ^ 31)).
  - rewrite Z.mod_small by lia. lia.
  - rewrite <- (Z.mod_add _ 1) by lia. rewrite Z.mod_small by lia. lia.
Qed.

Lemma i32_as_u32_bound z : i32_as_u32 z < 2 ^ 32.
Proof. unfold i32_as_u32. pose proof (Z.mod_pos_bound z (2 ^ 32)). lia. Qed.

Lemma hex_decode_encode bs : hex_decode (hex_encode bs) = Some bs.
Proof.
  induction bs as [|b bs IH]; [done|]. cbn [hex_encode hex_decode]. rewrite IH.
  by destruct b.
Qed.

(* ------------------------------------------------------------------ *)
(** ** Prefixes and separators *)

Lemma strip_prefix_app p s : strip_prefix p (p ++ s) = Some s.
Proof. induction p as [|x p IH]; cbn; [done|]. by rewrite byte_eqb_refl. Qed.

Lemma strip_prefix_spec p s r : strip_prefix p s = Some r <-> s = p ++ r.
Proof.
  split; [|intros ->; apply strip_prefix_app].
  revert s; induction p as [|x p IH]; intros s; cbn; [by intros [= ->]|].
  destruct s as [|y s]; [done|].
  destruct (Byte.eqb x y) eqn:E; [|done].
  apply byte_eqb_eq in E as ->. intros H. by rewrite (IH _ H).
Qed.

Lemma strip_prefix_none p s : strip_prefix p s = None <-> forall r, s <> p ++ r.
Proof.
  split.
  - intros H r ->. by rewrite strip_prefix_app in H.
  - intros H. destruct (strip_prefix p s) as [r|] eqn:E; [|done].
    apply strip_prefix_spec in E. by apply H in E.
Qed.

Lemma starts_with_spec p s : starts_with p s = true <-> exists r, s = p ++ r.
Proof.
  unfold starts_with. destruct (strip_prefix p s) as [r|] eqn:E.
  - apply strip_prefix_spec in E. naive_solver.
  - rewrite strip_prefix_none in E. naive_solver.
Qed.

Lemma split_on_nonempty sep s : split_on sep s <> [].
Proof. destruct s; cbn; [done|]. repeat case_match; done. Qed.

Lemma join_split sep s : join_with sep (split_on sep s) = s.
Proof.
  induction s as [|c s IH]; cbn; [done|].
  destruct (Byte.eqb c sep) eqn:E.
  - apply byte_eqb_eq in E as ->. pose proof (split_on_nonempty sep s).
    cbn. destruct (split_on sep s) eqn:Es; [done|]. cbn in *. by rewrite IH.
  - destruct (split_on sep s) as [|f fs] eqn:Es; [by apply split_on_nonempty in Es|].
    cbn in *. destruct fs; cbn in *; by rewrite IH.
Qed.

Lemma split_on_fields_free sep s : Forall (fun f => sep ∉ f) (split_on sep s).
Proof.
  induction s as [|c s IH]; cbn; [repeat constructor; apply not_elem_of_nil|].
  destruct (Byte.eqb c sep) eqn:E.
  - constructor; [apply not_elem_of_nil | done].
  - assert (c <> sep) by (intros ->; by rewrite byte_eqb_refl in E).
    destruct (split_on sep s) as [|f fs]; inversion IH; subst;
      repeat constructor; try done; rewrite ?list_elem_of_singleton, ?not_elem_of_cons; auto.
Qed.

Lemma split_on_app_free sep f s :
  sep ∉ f ->
  split_on sep (f ++ s) =
    match split_on sep s with
    | [] => [f]
    | g :: gs => (f ++ g) :: gs
    end.
Proof.
  induction f as [|c f IH]; intros Hf; cbn.
  - destruct (split_on sep s) eqn:E; [by apply split_on_nonempty in E | done].
  - apply not_elem_of_cons in Hf as [Hc Hf]. rewrite (IH Hf).
    assert (Byte.eqb c sep = false) as ->.
    { destruct (Byte.eqb c sep) eqn:E; [|done]. apply byte_eqb_eq in E. congruence. }
    by destruct (split_on sep s).
Qed.

Lemma split_join sep fs :
  fs <> [] -> Forall (fun f => sep ∉ f) fs -> split_on sep (join_with sep fs) = fs.
Proof.
  intros Hne Hf. induction Hf as [|f fs Hff Hfs IH]; [done|].
  destruct fs as [|g fs].
  - cbn. rewrite <- (app_nil_r f) at 1. rewrite split_on_app_free by done. cbn. by rewrite app_nil_r.
  - change (join_with sep (f :: g :: fs)) with (f ++ sep :: join_with sep (g :: fs)).
    rewrite split_on_app_free by done. cbn [split_on]. rewrite byte_eqb_refl.
    rewrite IH by done. by rewrite app_nil_r.
Qed.

#[export] Hint Rewrite len_le_bytes : len.

#[global] Arguments le_bytes : simpl never.
#[global] Arguments be_bytes : simpl never.
#[global] Arguments of_le : simpl never.
#[global] Arguments i32_le_bytes : simpl never.
