(* ===== verification/NativePolicy.v ===== *)
(** * NativePolicy: the native ownership policy envelope (src/native_policy.rs)

    A program may prefix its parameters with
    [MAGIC || u32_le(len) || JSON(document) || inner parameters].  [parse]
    recognises and validates the envelope, [NativePolicy_enforce] applies it to
    one ownership proof and [encode] builds it.  JSON decoding (serde), script
    hex (the bitcoin crate) and [VtxoPolicy] (the Ark library) are the
    interface [PolicyCodec], with their documented laws in
    [PolicyCodecLaws]. *)

From S2P Require Import Prelude Bytes.

Open Scope N_scope.

(* ------------------------------------------------------------------ *)
(** ** The Ark request data the policy inspects *)

Record OffboardRequest := {
  script_pubkey : bytes;
  net_amount : N;
  deduct_fees_from_gross_amount : bool;
  fee_rate : N;
}.

Section Proofs.
  Context {VtxoPolicy : Type}.

Record VtxoRequest := {
  amount : N;
  policy : VtxoPolicy;
}.

Record SignedVtxoRequest := {
  vtxo : VtxoRequest;
  cosign_pubkey : bytes;
  nonces : list bytes;
}.

Inductive OwnershipProof :=
| Status
| Arkoor (outputs : list VtxoRequest)
| Round (challenge : bytes) (outputs : list SignedVtxoRequest)
| DelegatedRound (outputs : list VtxoRequest)
| Offboard (request : OffboardRequest) (inputs : list bytes)
| LightningReceive (details : bytes).

End Proofs.

Arguments VtxoRequest : clear implicits.
Arguments SignedVtxoRequest : clear implicits.
Arguments OwnershipProof : clear implicits.

(* ------------------------------------------------------------------ *)
(** ** The document and the parsed policy *)

Definition MAGIC : bytes := lit "sapio-tee/native-ownership/v1".

(** The JSON document; strings are kept as their UTF-8 bytes. *)
Record Document := {
  version : N;
  doc_offboard : list bytes;
  doc_arkoor : list bytes;
  doc_round : list bytes;
  doc_delegated_round : list bytes;
  doc_status : bool;
  doc_lightning_receive : bool;
}.

(** What the policy code uses of serde_json, the bitcoin crate and the Ark
    library.  Failures carry the error's display string. *)
Class PolicyCodec (VtxoPolicy : Type) := {
  policy_eq_dec :: EqDecision VtxoPolicy;
  document_from_slice : bytes -> Result Error Document;
  script_from_hex : bytes -> Result string bytes;
  to_lower_hex_string : bytes -> bytes;
  policy_deserialize_hex : bytes -> Result string VtxoPolicy;
  policy_serialize_hex : VtxoPolicy -> bytes;
}.

(** Documented behaviour: hex and the Ark encoding round-trip, and decoders
    report failures as errors. *)
Class PolicyCodecLaws (VtxoPolicy : Type) `{!PolicyCodec VtxoPolicy} : Prop := {
  script_hex_roundtrip s : script_from_hex (to_lower_hex_string s) = Ok s;
  policy_hex_roundtrip p : policy_deserialize_hex (policy_serialize_hex p) = Ok p;
  document_total bs w : document_from_slice bs <> Panic w;
  script_total bs w : script_from_hex bs <> Panic w;
  policy_total bs w : policy_deserialize_hex bs <> Panic w;
}.

Record NativePolicy {VtxoPolicy : Type} := {
  offboard : list bytes;
  arkoor : list VtxoPolicy;
  round : list VtxoPolicy;
  delegated_round : list VtxoPolicy;
  status : bool;
  lightning_receive : bool;
}.
Arguments NativePolicy : clear implicits.

Section Policy.
  Context {VtxoPolicy : Type} `{!PolicyCodec VtxoPolicy}.

(** The closure [scripts] of [parse]. *)
Definition scripts (values : list bytes) : Result Error (list bytes) :=
  try_map (fun value =>
    map_err (fun error => Message ("invalid offboard destination script: " +:+ error))
      (script_from_hex value)) values.

(** The closure [policies] of [parse]. *)
Definition policies (values : list bytes) : Result Error (list VtxoPolicy) :=
  try_map (fun value =>
    map_err (fun error => Message ("invalid VTXO output policy: " +:+ error))
      (policy_deserialize_hex value)) values.

Definition parse (parameters : bytes) : Result Error (option (NativePolicy VtxoPolicy)) :=
  match strip_prefix MAGIC parameters with
  | None => Ok None
  | Some rest =>
      _ ← ensure (4 <=? len rest)
            (Message "native ownership policy envelope is truncated");
      let length := of_le (slice rest 0 4) in
      end_ ← ok_or (checked_add 64 4 length)
            (Message "native ownership policy length overflows");
      _ ← ensure (end_ <=? len rest)
            (Message "native ownership policy length exceeds the parameter blob");
      document ← context "invalid native ownership policy JSON"
            (document_from_slice (slice rest 4 (end_ - 4)));
      _ ← ensure (version document =? 1)
            (Message "unsupported native ownership policy version");
      o ← scripts (doc_offboard document);
      a ← policies (doc_arkoor document);
      r ← policies (doc_round document);
      d ← policies (doc_delegated_round document);
      Ok (Some {| offboard := o; arkoor := a; round := r; delegated_round := d;
                  status := doc_status document;
                  lightning_receive := doc_lightning_receive document |})
  end.

(** [list.contains(&x)] *)
Definition contains {A} `{EqDecision A} (l : list A) (x : A) : bool := bool_decide (x ∈ l).

Definition NativePolicy_enforce (self : NativePolicy VtxoPolicy)
    (proof : OwnershipProof VtxoPolicy) : Result Error unit :=
  match proof with
  | Status =>
      ensure (status self)
        (Message "native ownership policy does not allow status proofs")
  | Arkoor outputs =>
      ensure (forallb (fun output => contains (arkoor self) (policy output)) outputs)
        (Message "native ownership policy does not allow an arkoor output policy")
  | Round _ outputs =>
      ensure (forallb (fun output => contains (round self) (policy (vtxo output))) outputs)
        (Message "native ownership policy does not allow a round output policy")
  | DelegatedRound outputs =>
      ensure (forallb (fun output => contains (delegated_round self) (policy output)) outputs)
        (Message "native ownership policy does not allow a delegated-round output policy")
  | Offboard request _ =>
      ensure (contains (offboard self) (script_pubkey request))
        (Message "native ownership policy does not allow the offboard destination")
  | LightningReceive _ =>
      ensure (lightning_receive self)
        (Message "native ownership policy does not allow lightning receives")
  end.

Definition encode (document inner : bytes) : Result Error bytes :=
  length ← expect (u32_try_from (len document)) "document length fits u32";
  Ok (MAGIC ++ le_bytes 4 length ++ document ++ inner).

Definition script_hex (script : bytes) : bytes := to_lower_hex_string script.

Definition policy_hex (p : VtxoPolicy) : bytes := policy_serialize_hex p.

(** The destinations and outputs a proof would move value to, for the
    specification of [enforce]: each must be on the list of its variant. *)
Definition proof_allowed (p : NativePolicy VtxoPolicy) (proof : OwnershipProof VtxoPolicy) : Prop :=
  match proof with
  | Status => status p = true
  | Arkoor outputs => forall o, o ∈ outputs -> policy o ∈ arkoor p
  | Round _ outputs => forall o, o ∈ outputs -> policy (vtxo o) ∈ round p
  | DelegatedRound outputs => forall o, o ∈ outputs -> policy o ∈ delegated_round p
  | Offboard request _ => script_pubkey request ∈ offboard p
  | LightningReceive _ => lightning_receive p = true
  end.

(** The document a client writes for a policy. *)
Definition document_of (p : NativePolicy VtxoPolicy) : Document :=
  {| version := 1;
     doc_offboard := script_hex <$> offboard p;
     doc_arkoor := policy_hex <$> arkoor p;
     doc_round := policy_hex <$> round p;
     doc_delegated_round := policy_hex <$> delegated_round p;
     doc_status := status p;
     doc_lightning_receive := lightning_receive p |}.

(** [document] decodes to the policy [p]. *)
Definition document_denotes (document : Document) (p : NativePolicy VtxoPolicy) : Prop :=
  version document = 1 /\
  Forall2 (fun v s => script_from_hex v = Ok s) (doc_offboard document) (offboard p) /\
  Forall2 (fun v q => policy_deserialize_hex v = Ok q) (doc_arkoor document) (arkoor p) /\
  Forall2 (fun v q => policy_deserialize_hex v = Ok q) (doc_round document) (round p) /\
  Forall2 (fun v q => policy_deserialize_hex v = Ok q)
    (doc_delegated_round document) (delegated_round p) /\
  doc_status document = status p /\
  doc_lightning_receive document = lightning_receive p.

(* ------------------------------------------------------------------ *)
(** ** Lemmas *)

Lemma scripts_ok vs ss :
  scripts vs = Ok ss <-> Forall2 (fun v s => script_from_hex v = Ok s) vs ss.
Proof.
  unfold scripts. rewrite try_map_ok. split; apply Forall2_impl; intros v s;
    by rewrite map_err_ok.
Qed.

Lemma policies_ok vs qs :
  policies vs = Ok qs <-> Forall2 (fun v q => policy_deserialize_hex v = Ok q) vs qs.
Proof.
  unfold policies. rewrite try_map_ok. split; apply Forall2_impl; intros v s;
    by rewrite map_err_ok.
Qed.

(** The envelope's header is read back as written. *)
Lemma parse_envelope doc inner :
  len doc < 2 ^ 32 ->
  parse (MAGIC ++ le_bytes 4 (len doc) ++ doc ++ inner) =
    (document ← context "invalid native ownership policy JSON" (document_from_slice doc);
     _ ← ensure (version document =? 1)
           (Message "unsupported native ownership policy version");
     o ← scripts (doc_offboard document);
     a ← policies (doc_arkoor document);
     r ← policies (doc_round document);
     d ← policies (doc_delegated_round document);
     Ok (Some {| offboard := o; arkoor := a; round := r; delegated_round := d;
                 status := doc_status document;
                 lightning_receive := doc_lightning_receive document |})).
Proof.
  intros Hl. unfold parse. rewrite strip_prefix_app.
  pose proof (slice_app [] (le_bytes 4 (len doc)) (doc ++ inner)) as S1.
  pose proof (slice_app (le_bytes 4 (len doc)) doc inner) as S2.
  rewrite len_nil, app_nil_l, len_le_bytes in S1. rewrite len_le_bytes in S2.
  change (N.of_nat 4) with 4 in *. rewrite S1.
  rewrite of_le_le_bytes_small by done.
  autorewrite with len. change (N.of_nat 4) with 4.
  assert ((4 <=? 4 + (len doc + len inner)) = true) as -> by (apply N.leb_le; lia).
  unfold checked_add.
  assert ((4 + len doc <? 2 ^ 64) = true) as -> by (apply N.ltb_lt; lia).
  cbn [ensure ok_or mbind Result_bind].
  assert ((4 + len doc <=? 4 + (len doc + len inner)) = true) as -> by (apply N.leb_le; lia).
  replace (4 + len doc - 4) with (len doc) by lia. by rewrite S2.
Qed.

(** A well-formed envelope yields the policy its document denotes. *)
Lemma parse_denoted doc inner document p :
  len doc < 2 ^ 32 ->
  document_from_slice doc = Ok document ->
  document_denotes document p ->
  parse (MAGIC ++ le_bytes 4 (len doc) ++ doc ++ inner) = Ok (Some p).
Proof.
  intros Hl Hd (Hv & Ho & Ha & Hr & Hg & Hs & Hlr).
  rewrite parse_envelope by done. rewrite Hd. cbn. rewrite Hv. cbn.
  apply scripts_ok in Ho as ->. cbn.
  apply policies_ok in Ha as ->. cbn. apply policies_ok in Hr as ->. cbn.
  apply policies_ok in Hg as ->. cbn. rewrite Hs, Hlr. by destruct p.
Qed.

Lemma parse_magic_some rest : parse (MAGIC ++ rest) <> Ok None.
Proof. unfold parse. rewrite strip_prefix_app. intros H. inv_ok. Qed.

Lemma slice_split (rest : bytes) n m :
  n + m <= len rest ->
  rest = slice rest 0 n ++ slice rest n m ++ drop (N.to_nat (n + m)) rest.
Proof.
  unfold slice, len. intros H. cbn [N.to_nat]. rewrite drop_0.
  rewrite <- (take_drop (N.to_nat n) rest) at 1. f_equal.
  rewrite <- (take_drop (N.to_nat m) (drop (N.to_nat n) rest)) at 1. f_equal.
  rewrite drop_drop. f_equal. lia.
Qed.

Lemma len_slice (rest : bytes) n m : n + m <= len rest -> len (slice rest n m) = m.
Proof.
  unfold slice, len. intros H. rewrite length_take, length_drop. lia.
Qed.

(** A blob that [parse] does not refuse before decoding has the layout of
    [encode]. *)
Lemma envelope_layout rest :
  4 <= len rest -> 4 + of_le (slice rest 0 4) <= len rest ->
  exists doc inner,
    rest = le_bytes 4 (len doc) ++ doc ++ inner /\ len doc < 2 ^ 32.
Proof.
  intros H4 Hl. set (n := of_le (slice rest 0 4)) in *.
  assert (len (slice rest 0 4) = 4) as L4 by (apply len_slice; lia).
  exists (slice rest 4 n), (drop (N.to_nat (4 + n)) rest).
  pose proof (len_slice rest 4 n Hl) as L. split.
  - rewrite L. pose proof (slice_split rest 4 n Hl) as S.
    assert (le_bytes 4 n = slice rest 0 4) as ->; [|exact S].
    subst n. rewrite <- (le_bytes_of_le (slice rest 0 4)) at 2. f_equal.
    unfold len in L4. lia.
  - rewrite L. subst n. pose proof (of_le_bound (slice rest 0 4)) as B.
    rewrite L4 in B. exact B.
Qed.

Lemma contains_true {A} `{EqDecision A} (l : list A) x : contains l x = true <-> x ∈ l.
Proof. unfold contains. by rewrite bool_decide_eq_true. Qed.

Lemma forallb_elem_of {A} (f : A -> bool) (l : list A) :
  forallb f l = true <-> forall x, x ∈ l -> f x = true.
Proof. rewrite forallb_forall. setoid_rewrite list_elem_of_In. done. Qed.

Lemma encode_ok doc inner parameters :
  encode doc inner = Ok parameters <->
  len doc < 2 ^ 32 /\ parameters = MAGIC ++ le_bytes 4 (len doc) ++ doc ++ inner.
Proof.
  unfold encode, u32_try_from. destruct (N.ltb_spec (len doc) (2 ^ 32)); cbn;
    split; intros H'; try discriminate; try lia.
  - by injection H' as <-.
  - by destruct H' as [_ ->].
Qed.

Lemma enforce_allowed p proof : NativePolicy_enforce p proof = Ok tt <-> proof_allowed p proof.
Proof.
  destruct proof; cbn; rewrite ensure_ok, ?contains_true; [done| .. |done];
    rewrite ?forallb_elem_of; [| | |done];
    by setoid_rewrite contains_true.
Qed.

Lemma enforce_no_panic p proof w : NativePolicy_enforce p proof <> Panic w.
Proof. unfold NativePolicy_enforce, ensure. repeat case_match; discriminate. Qed.

Lemma parse_no_panic {laws : PolicyCodecLaws VtxoPolicy} parameters w :
  parse parameters <> Panic w.
Proof.
  unfold parse, context. destruct (strip_prefix MAGIC parameters) as [rest|]; [|done].
  repeat (apply bind_not_panic; [|intros ?]); try done;
    try apply ensure_no_panic; try apply ok_or_no_panic;
    try (apply try_map_no_panic; intros ? ?);
    apply map_err_no_panic; auto using document_total, script_total, policy_total.
Qed.

Lemma document_of_denotes {laws : PolicyCodecLaws VtxoPolicy} p :
  document_denotes (document_of p) p.
Proof.
  repeat split; cbn; apply Forall2_fmap_l, Forall_Forall2_diag, Forall_true; intros x;
    auto using script_hex_roundtrip, policy_hex_roundtrip.
Qed.

End Policy.

#[export] Hint Rewrite @scripts_ok @policies_ok : result.

(* ------------------------------------------------------------------ *)
(** ** A concrete codec

    Hexadecimal for both string formats and a decoder that knows one JSON
    text: enough to run every branch of [parse]. *)

Module Sample.

(** JSON text, with the quotation marks written as single quotes. *)
Definition json (s : string) : bytes :=
  (fun b => if Byte.eqb b "'"%byte then Byte.x22 else b) <$> lit s.

Definition document_text : bytes :=
  json "{'version':1,'offboard':['5120aa'],'round':['00ff'],'status':true}".

Definition document : Document :=
  {| version := 1; doc_offboard := [lit "5120aa"]; doc_arkoor := [];
     doc_round := [lit "00ff"]; doc_delegated_round := [];
     doc_status := true; doc_lightning_receive := false |}.

Definition hex (s : bytes) : Result string bytes :=
  ok_or (hex_decode s) "odd length or invalid digit"%string.

#[export] Instance codec : PolicyCodec bytes := {|
  policy_eq_dec := _;
  document_from_slice bs :=
    if decide (bs = document_text) then Ok document else Err (Foreign "expected value");
  script_from_hex := hex;
  to_lower_hex_string := hex_encode;
  policy_deserialize_hex := hex;
  policy_serialize_hex := hex_encode;
|}.

#[export] Instance codec_laws : PolicyCodecLaws bytes.
Proof.
  split; cbn; unfold hex; intros.
  1,2: by rewrite hex_decode_encode.
  1: by case_decide.
  1,2: by destruct (hex_decode _).
Qed.

Definition policy : NativePolicy bytes :=
  {| offboard := [[Byte.x51; Byte.x20; Byte.xaa]]; arkoor := [];
     round := [[Byte.x00; Byte.xff]]; delegated_round := [];
     status := true; lightning_receive := false |}.

End Sample.

(* ------------------------------------------------------------------ *)
(** ** Properties *)

Section Theorems.
  Context {VtxoPolicy : Type} `{!PolicyCodec VtxoPolicy}.

(** C32: [parse] accepts exactly the envelopes: it returns the policy [p] for a
    parameter blob if and only if the blob is
    [MAGIC || u32_le(len doc) || doc || inner] for a JSON document of version 1
    whose strings decode to the lists of [p]. *)
Theorem parse_some_iff parameters p :
  parse parameters = Ok (Some p) <->
  exists doc inner document,
    parameters = MAGIC ++ le_bytes 4 (len doc) ++ doc ++ inner /\
    len doc < 2 ^ 32 /\
    document_from_slice doc = Ok document /\
    document_denotes document p.
Proof.
  split.
  - intros H. unfold parse in H.
    destruct (strip_prefix MAGIC parameters) as [rest|] eqn:E; [|discriminate].
    apply strip_prefix_spec in E as ->. inv_ok.
    match goal with H : checked_add _ _ _ = Some _ |- _ =>
      unfold checked_add in H; case_match; [injection H as <- | discriminate] end.
    rewrite ?N.leb_le, ?N.eqb_eq, ?N.ltb_lt in *.
    destruct (envelope_layout rest) as (doc & inner & -> & Hd); [done ..|].
    exists doc, inner. eexists. do 2 (split; [done|]).
    match goal with H : document_from_slice _ = Ok _ |- _ => revert H end.
    replace (slice _ 4 _) with doc; [intros ->; split; [done|]; by repeat split|].
    pose proof (slice_app [] (le_bytes 4 (len doc)) (doc ++ inner)) as S1.
    rewrite len_nil, app_nil_l, len_le_bytes in S1. change (N.of_nat 4) with 4 in S1.
    rewrite S1, of_le_le_bytes_small by done.
    replace (4 + len doc - 4) with (len doc) by lia.
    pose proof (slice_app (le_bytes 4 (len doc)) doc inner) as S2.
    by rewrite len_le_bytes in S2.
  - intros (doc & inner & document & -> & Hl & Hd & Hp). by eapply parse_denoted.
Qed.

(** Parameters without the [MAGIC] prefix are legacy programs, and only
    those: [parse] returns no policy exactly when the prefix is absent. *)
Theorem parse_none_iff (parameters : bytes) :
  parse (VtxoPolicy := VtxoPolicy) parameters = Ok None <->
  forall rest, parameters <> MAGIC ++ rest.
Proof.
  rewrite <- strip_prefix_none. unfold parse.
  destruct (strip_prefix MAGIC parameters) as [rest|]; [|done].
  split; [|discriminate]. intros H. inv_ok.
Qed.

(** A blob that carries [MAGIC] never falls back to the legacy behaviour
    and never panics: it yields a policy or an error. *)
Theorem parse_fails_closed {laws : PolicyCodecLaws VtxoPolicy} (rest : bytes) :
  (exists p, parse (VtxoPolicy := VtxoPolicy) (MAGIC ++ rest) = Ok (Some p)) \/
  (exists e, parse (VtxoPolicy := VtxoPolicy) (MAGIC ++ rest) = Err e).
Proof.
  destruct (parse (VtxoPolicy := VtxoPolicy) (MAGIC ++ rest)) as [[p|]|e|w] eqn:H; eauto.
  - by apply parse_magic_some in H.
  - by apply parse_no_panic in H.
Qed.

(** A client that writes the document of a policy with [script_hex] and
    [policy_hex] and wraps it with [encode] gets the same policy back from
    [parse], whatever inner parameters follow. *)
Theorem encode_parse_roundtrip {laws : PolicyCodecLaws VtxoPolicy} doc inner parameters p :
  document_from_slice doc = Ok (document_of p) ->
  encode doc inner = Ok parameters ->
  parse parameters = Ok (Some p).
Proof.
  intros Hd He. apply encode_ok in He as [Hl ->].
  eauto using parse_denoted, document_of_denotes.
Qed.

(** C33: [enforce] succeeds exactly on the proofs whose every destination or
    output policy is on the list of its variant (or whose flag is set), and
    otherwise returns an error; it never panics. *)
Theorem enforce_iff (p : NativePolicy VtxoPolicy) proof :
  (NativePolicy_enforce p proof = Ok tt <-> proof_allowed p proof) /\
  (~ proof_allowed p proof -> exists e, NativePolicy_enforce p proof = Err e).
Proof.
  split; [apply enforce_allowed|]. intros Hn.
  destruct (NativePolicy_enforce p proof) as [[]|e|w] eqn:E; eauto.
  - exfalso. by apply Hn, enforce_allowed.
  - by apply enforce_no_panic in E.
Qed.

(** An empty list does not refuse its variant outright: a proof that names
    no output is accepted under every policy, including the empty one. *)
Theorem enforce_no_outputs (p : NativePolicy VtxoPolicy) challenge :
  NativePolicy_enforce p (Arkoor []) = Ok tt /\
  NativePolicy_enforce p (Round challenge []) = Ok tt /\
  NativePolicy_enforce p (DelegatedRound []) = Ok tt.
Proof. done. Qed.

End Theorems.

(* ------------------------------------------------------------------ *)
(** ** Witnesses *)

#[local] Existing Instances Sample.codec Sample.codec_laws.

Lemma parse_fails_closed_witness :
  exists e, parse (VtxoPolicy := bytes) (MAGIC ++ [Byte.x01; Byte.x00]) = Err e.
Proof.
  destruct (parse_fails_closed (VtxoPolicy := bytes) [Byte.x01; Byte.x00]) as [[p H]|H];
    [discriminate H | exact H].
Defined.

Lemma encode_parse_roundtrip_witness :
  exists parameters,
    encode Sample.document_text (lit "inner") = Ok parameters /\
    parse parameters = Ok (Some Sample.policy).
Proof.
  eexists. split; [reflexivity|].
  apply (encode_parse_roundtrip Sample.document_text (lit "inner")); reflexivity.
Defined.
