(* ===== verification/Bitcoin.v ===== *)
(** * Bitcoin: the transaction data the sources read

    Plain records for the fields of rust-bitcoin's transaction, PSBT and of the
    Ark [SigningInput] that src/evaluator.rs and the examples use.  Hashes,
    scripts and keys are byte strings; amounts, indices and sequence numbers are
    [N] with their machine range stated by the [wf] predicates. *)

From S2P Require Import Prelude Bytes.

Open Scope N_scope.

Record OutPoint := { txid : bytes; vout : N }.

Record TxIn := {
  previous_output : OutPoint;
  txin_script_sig : bytes;
  sequence : N;
  txin_witness : list bytes;
}.

Record TxOut := { value : N; script_pubkey : bytes }.

Record Transaction := {
  tx_version : Z;
  lock_time : N;
  tx_input : list TxIn;
  tx_output : list TxOut;
}.

(** One PSBT input map.  [tap_scripts] maps a control block to its leaf script
    and version; [proprietary] holds the key-value records the annex accessor
    of sapio_psbt reads. *)
Record PsbtInput := {
  non_witness_utxo : option Transaction;
  witness_utxo : option TxOut;
  final_script_sig : option bytes;
  final_script_witness : option (list bytes);
  tap_internal_key : option bytes;
  tap_merkle_root : option bytes;
  tap_scripts : gmap bytes (bytes * N);
  proprietary : list (bytes * bytes);
}.

(** One PSBT output map; the sources only add empty ones. *)
Record PsbtOutput := { output_proprietary : list (bytes * bytes) }.

Record Psbt := {
  unsigned_tx : Transaction;
  psbt_inputs : list PsbtInput;
  psbt_outputs : list PsbtOutput;
}.

(** [ark::musig::context::SigningInput]. *)
Record SigningInput := {
  psbt : Psbt;
  input_index : N;
  script_leaf : option bytes;
  participants : list bytes;
  tweak : option bytes;
}.

#[export] Instance outpoint_eq_dec : EqDecision OutPoint.
Proof. solve_decision. Defined.
#[export] Instance txin_eq_dec : EqDecision TxIn.
Proof. solve_decision. Defined.
#[export] Instance txout_eq_dec : EqDecision TxOut.
Proof. solve_decision. Defined.
#[export] Instance transaction_eq_dec : EqDecision Transaction.
Proof. solve_decision. Defined.
#[export] Instance psbt_input_eq_dec : EqDecision PsbtInput.
Proof. solve_decision. Defined.
#[export] Instance psbt_output_eq_dec : EqDecision PsbtOutput.
Proof. solve_decision. Defined.
#[export] Instance psbt_eq_dec : EqDecision Psbt.
Proof. solve_decision. Defined.
#[export] Instance signing_input_eq_dec : EqDecision SigningInput.
Proof. solve_decision. Defined.

(* ------------------------------------------------------------------ *)
(** ** Default values and updates *)

Definition OutPoint_default : OutPoint := {| txid := replicate 32 Byte.x00; vout := 2 ^ 32 - 1 |}.

Definition TxIn_default : TxIn := {|
  previous_output := OutPoint_default; txin_script_sig := []; sequence := 2 ^ 32 - 1; txin_witness := [] |}.

Definition PsbtInput_default : PsbtInput := {|
  non_witness_utxo := None; witness_utxo := None; final_script_sig := None; final_script_witness := None;
  tap_internal_key := None; tap_merkle_root := None; tap_scripts := ∅; proprietary := [] |}.

Definition PsbtOutput_default : PsbtOutput := {| output_proprietary := [] |}.

Definition set_outpoint (i : TxIn) (p : OutPoint) : TxIn :=
  {| previous_output := p; txin_script_sig := txin_script_sig i; sequence := sequence i;
     txin_witness := txin_witness i |}.

Definition set_sequence (i : TxIn) (s : N) : TxIn :=
  {| previous_output := previous_output i; txin_script_sig := txin_script_sig i; sequence := s;
     txin_witness := txin_witness i |}.

Definition set_witness (i : TxIn) (w : list bytes) : TxIn :=
  {| previous_output := previous_output i; txin_script_sig := txin_script_sig i; sequence := sequence i;
     txin_witness := w |}.

Definition set_value (o : TxOut) (v : N) : TxOut := {| value := v; script_pubkey := script_pubkey o |}.

Definition set_script (o : TxOut) (s : bytes) : TxOut := {| value := value o; script_pubkey := s |}.

Definition set_inputs (tx : Transaction) (ins : list TxIn) : Transaction :=
  {| tx_version := tx_version tx; lock_time := lock_time tx; tx_input := ins; tx_output := tx_output tx |}.

Definition set_outputs (tx : Transaction) (outs : list TxOut) : Transaction :=
  {| tx_version := tx_version tx; lock_time := lock_time tx; tx_input := tx_input tx; tx_output := outs |}.

Definition set_witness_utxo (m : PsbtInput) (o : option TxOut) : PsbtInput :=
  {| non_witness_utxo := non_witness_utxo m; witness_utxo := o; final_script_sig := final_script_sig m; final_script_witness := final_script_witness m;
     tap_internal_key := tap_internal_key m; tap_merkle_root := tap_merkle_root m; tap_scripts := tap_scripts m;
     proprietary := proprietary m |}.

Definition set_non_witness_utxo (m : PsbtInput) (tx : option Transaction) : PsbtInput :=
  {| non_witness_utxo := tx; witness_utxo := witness_utxo m; final_script_sig := final_script_sig m;
     final_script_witness := final_script_witness m; tap_internal_key := tap_internal_key m;
     tap_merkle_root := tap_merkle_root m; tap_scripts := tap_scripts m; proprietary := proprietary m |}.

Definition set_internal_key (m : PsbtInput) (k : option bytes) : PsbtInput :=
  {| non_witness_utxo := non_witness_utxo m; witness_utxo := witness_utxo m; final_script_sig := final_script_sig m;
     final_script_witness := final_script_witness m; tap_internal_key := k; tap_merkle_root := tap_merkle_root m;
     tap_scripts := tap_scripts m; proprietary := proprietary m |}.

Definition set_merkle_root (m : PsbtInput) (r : option bytes) : PsbtInput :=
  {| non_witness_utxo := non_witness_utxo m; witness_utxo := witness_utxo m; final_script_sig := final_script_sig m;
     final_script_witness := final_script_witness m; tap_internal_key := tap_internal_key m; tap_merkle_root := r;
     tap_scripts := tap_scripts m; proprietary := proprietary m |}.

Definition set_tap_scripts (m : PsbtInput) (s : gmap bytes (bytes * N)) : PsbtInput :=
  {| non_witness_utxo := non_witness_utxo m; witness_utxo := witness_utxo m; final_script_sig := final_script_sig m;
     final_script_witness := final_script_witness m; tap_internal_key := tap_internal_key m;
     tap_merkle_root := tap_merkle_root m; tap_scripts := s; proprietary := proprietary m |}.

Definition set_psbt_tx (p : Psbt) (tx : Transaction) : Psbt :=
  {| unsigned_tx := tx; psbt_inputs := psbt_inputs p; psbt_outputs := psbt_outputs p |}.

Definition set_psbt_inputs (p : Psbt) (ms : list PsbtInput) : Psbt :=
  {| unsigned_tx := unsigned_tx p; psbt_inputs := ms; psbt_outputs := psbt_outputs p |}.

(* ------------------------------------------------------------------ *)
(** ** Machine ranges *)

Definition wf_outpoint (p : OutPoint) : Prop := len (txid p) = 32 /\ vout p < 2 ^ 32.

Definition wf_txin (i : TxIn) : Prop := wf_outpoint (previous_output i) /\ sequence i < 2 ^ 32.

(** The inputs of a PSBT's transaction carry no signature data. *)
Definition unsigned_txin (i : TxIn) : Prop := txin_script_sig i = [] /\ txin_witness i = [].

(** A script longer than [u32::MAX] cannot be held by a PSBT. *)
Definition wf_txout (o : TxOut) : Prop := value o < 2 ^ 64 /\ len (script_pubkey o) < 2 ^ 32.

Record wf_transaction (tx : Transaction) : Prop := {
  wf_version : (- 2 ^ 31 <= tx_version tx < 2 ^ 31)%Z;
  wf_lock_time : lock_time tx < 2 ^ 32;
  wf_inputs : Forall wf_txin (tx_input tx);
  wf_outputs : Forall wf_txout (tx_output tx);
}.

(** The transaction outputs spent by the inputs, when all are recorded. *)
Definition prevout_list (i : SigningInput) : list TxOut :=
  omap witness_utxo (psbt_inputs (psbt i)).

(** What native authentication establishes before evaluation: one PSBT input
    per transaction input, every previous output present, the selected input
    in range with its internal key. *)
Record native_context (i : SigningInput) : Prop := {
  native_inputs : length (psbt_inputs (psbt i)) = length (tx_input (unsigned_tx (psbt i)));
  native_prevouts : Forall (fun m => is_Some (witness_utxo m)) (psbt_inputs (psbt i));
  native_index : input_index i < len (tx_input (unsigned_tx (psbt i)));
  native_wf : wf_transaction (unsigned_tx (psbt i));
  native_unsigned : Forall unsigned_txin (tx_input (unsigned_tx (psbt i)));
  native_wf_prevouts : Forall wf_txout (prevout_list i);
  native_internal_key :
    forall m, psbt_inputs (psbt i) !! N.to_nat (input_index i) = Some m ->
      exists k, tap_internal_key m = Some k /\ len k = 32;
}.

(** Consensus encoding of an outpoint (the bitcoin crate): 36 bytes, and
    distinct outpoints have distinct encodings. *)
Class OutPointCodec := {
  consensus_encode_outpoint : OutPoint -> bytes;
}.

Class OutPointCodecLaws `{!OutPointCodec} : Prop := {
  outpoint_len p : wf_outpoint p -> len (consensus_encode_outpoint p) = 36;
  outpoint_inj p q :
    wf_outpoint p -> wf_outpoint q ->
    consensus_encode_outpoint p = consensus_encode_outpoint q -> p = q;
}.

(** The standard encoding, as the instance of the examples: the transaction
    id's 32 bytes and the output index in little-endian order. *)
Module StandardOutPoint.

#[export] Instance codec : OutPointCodec :=
  {| consensus_encode_outpoint p := txid p ++ le_bytes 4 (vout p) |}.

#[export] Instance codec_laws : OutPointCodecLaws.
Proof.
  split; cbn.
  - intros p [Ht _]. rewrite len_app, Ht, len_le_bytes. done.
  - intros [t v] [t' v'] [Ht Hv] [Ht' Hv']; cbn in *. intros H.
    apply app_inj_1 in H as [-> H]; [|unfold len in *; lia].
    apply le_bytes_inj in H as ->; done.
Qed.

End StandardOutPoint.

(* ------------------------------------------------------------------ *)
(** ** Lemmas *)

Lemma native_prevouts_length i : native_context i ->
  length (prevout_list i) = length (tx_input (unsigned_tx (psbt i))).
Proof.
  intros H. rewrite <- (native_inputs i H). unfold prevout_list.
  induction (native_prevouts i H) as [|m ms [o Ho] _ IH]; cbn; [done|].
  rewrite Ho. cbn. by rewrite IH.
Qed.

(** Equal-length prefixes of equal strings are equal. *)
Lemma app_eq_len {A} (a b c d : list A) :
  len a = len b -> a ++ c = b ++ d -> a = b /\ c = d.
Proof. unfold len. intros H. apply app_inj_1. lia. Qed.
