(* ===== verification/Program.v ===== *)
(** * Program: the program instances and evaluator identities of upstream Sapio

    The data of sapio_base::program and emulator_connect::program that this
    repository inspects.  Evaluator ids are hashes; the reserved inline ids and
    the hash of a registered module are upstream's, so they are the interface
    [SapioProgram].  The byte limits are the documented 64 KiB bounds of
    upstream, which USAGE.txt and SECURITY.txt repeat. *)

From S2P Require Import Prelude Bytes.

Open Scope N_scope.

Inductive WasmVersion := V1 | V2.

#[export] Instance wasm_version_eq_dec : EqDecision WasmVersion.
Proof. solve_decision. Defined.

Abbreviation EvaluatorId := bytes.
Abbreviation ProgramId := bytes.

Record ProgramInstance := {
  evaluator : EvaluatorId;
  program : bytes;
  parameters : bytes;
}.

(** A registered evaluator: its content-derived id, ABI version and module. *)
Record WasmEvaluator := {
  evaluator_id : EvaluatorId;
  evaluator_version : WasmVersion;
  evaluator_module : bytes;
}.

#[export] Instance program_instance_eq_dec : EqDecision ProgramInstance.
Proof. solve_decision. Defined.
#[export] Instance wasm_evaluator_eq_dec : EqDecision WasmEvaluator.
Proof. solve_decision. Defined.

(** Upstream's identity functions: the reserved inline ids, content-derived
    ids of registered modules, the checked constructor and the program id. *)
Class SapioProgram := {
  wasm_id : EvaluatorId;
  wasm_v2_id : EvaluatorId;
  inline_wasm_version : EvaluatorId -> option WasmVersion;
  for_wasm_version : bytes -> WasmVersion -> EvaluatorId;
  program_instance_new : EvaluatorId -> bytes -> bytes -> Result Error ProgramInstance;
  program_instance_wasm : bytes -> bytes -> Result Error ProgramInstance;
  program_id : ProgramInstance -> ProgramId;
}.

(** Documented: the reserved ids name the two inline ABIs, a registered id is
    derived from its module and is never reserved, and [ProgramInstance::new]
    stores its arguments. *)
Class SapioProgramLaws `{!SapioProgram} : Prop := {
  inline_v1 : inline_wasm_version wasm_id = Some V1;
  inline_v2 : inline_wasm_version wasm_v2_id = Some V2;
  registered_id_not_inline m v : inline_wasm_version (for_wasm_version m v) = None;
  program_instance_new_ok e p a i :
    program_instance_new e p a = Ok i ->
    i = {| evaluator := e; program := p; parameters := a |};
  program_instance_wasm_ok m a i :
    program_instance_wasm m a = Ok i ->
    i = {| evaluator := wasm_id; program := m; parameters := a |};
}.

(** The documented byte limits of upstream; the sources quote the same numbers
    in their error messages. *)
Definition MAX_PROGRAM_BYTES : N := 65536.
Definition MAX_PARAMETER_BYTES : N := 65536.
Definition MAX_WITNESS_BYTES : N := 65536.
Definition MAX_FUNCTION_SLOTS : N := 65536.
Definition MAX_SIGNED_VIEW_BYTES : N := 1048576.

(** A concrete upstream for the examples: readable ids in place of hashes. *)
Module SampleProgram.

Definition v1_id : EvaluatorId := lit "inline-1".
Definition v2_id : EvaluatorId := lit "inline-2".

#[export] Instance sapio : SapioProgram := {|
  wasm_id := v1_id;
  wasm_v2_id := v2_id;
  inline_wasm_version id :=
    if decide (id = v1_id) then Some V1 else if decide (id = v2_id) then Some V2 else None;
  for_wasm_version module version :=
    lit "registered-" ++ (match version with V1 => lit "1" | V2 => lit "2" end) ++ module;
  program_instance_new e p a := Ok {| evaluator := e; program := p; parameters := a |};
  program_instance_wasm m a := Ok {| evaluator := v1_id; program := m; parameters := a |};
  program_id p := evaluator p ++ program p ++ parameters p;
|}.

#[export] Instance sapio_laws : SapioProgramLaws.
Proof.
  split; cbn.
  - by rewrite decide_True.
  - by rewrite decide_False, decide_True.
  - intros m v. by rewrite !decide_False by (destruct v; done).
  - intros e p a i H. by apply Ok_inj in H as <-.
  - intros m a i H. by apply Ok_inj in H as <-.
Qed.

End SampleProgram.
