(* ===== verification/SignedView.v ===== *)
(** * SignedView: the signed transaction view ([encode_view], src/evaluator.rs)

    [encode_view] turns an authenticated signing context into the versioned
    byte string a WASM predicate reads.  The first pass adds up the size and
    refuses a view above [MAX_SIGNED_VIEW_BYTES] before anything is copied; the
    second pass writes the fields.  [view_layout] is the reference layout, a
    table of typed fields stated apart from the encoder, and [view_size] its
    length. *)

From S2P Require Import Prelude Bytes Bitcoin Program.

Open Scope N_scope.

Section View.
  Context {codec : OutPointCodec}.

Definition view_too_large : string := "signed transaction view exceeds 1048576 bytes".

(** The closure [add]: [size.checked_add(amount).filter(..).ok_or_else(..)]. *)
Definition add (size amount : N) : Result string N :=
  match checked_add 64 size amount with
  | Some size => if size <=? MAX_SIGNED_VIEW_BYTES then Ok size else Err view_too_large
  | None => Err view_too_large
  end.

(** The closure [prevouts], one element at a time. *)
Definition prevout (map : PsbtInput) : Result string TxOut :=
  expect (witness_utxo map) "native context authenticated every prevout".

(** [u32::try_from(n).map_err(failure)]. *)
Definition count_u32 (n : N) : Result string N :=
  ok_or (u32_try_from n) "out of range integral type conversion attempted"%string.

Definition encode_input (txin : TxIn) (prevout : TxOut) : bytes :=
  consensus_encode_outpoint (previous_output txin)
  ++ le_bytes 4 (sequence txin)
  ++ le_bytes 8 (value prevout)
  ++ le_bytes 4 (len (script_pubkey prevout))
  ++ script_pubkey prevout.

Definition encode_output (output : TxOut) : bytes :=
  le_bytes 8 (value output)
  ++ le_bytes 4 (len (script_pubkey output))
  ++ script_pubkey output.

Definition encode_view (version : WasmVersion) (input : SigningInput) : Result string bytes :=
  let tx := unsigned_tx (psbt input) in
  let maps := psbt_inputs (psbt input) in
  size ← try_fold (fun size map =>
      p ← prevout map;
      size ← add size 52;
      add size (len (script_pubkey p))) 20 maps;
  size ← try_fold (fun size output =>
      size ← add size 12;
      add size (len (script_pubkey output))) size (tx_output tx);
  size ← (if decide (version = V2) then add size 36 else Ok size);
  input_count ← count_u32 (len (tx_input tx));
  output_count ← count_u32 (len (tx_output tx));
  index ← count_u32 (input_index input);
  let bytes :=
    i32_le_bytes (tx_version tx) ++ le_bytes 4 (lock_time tx)
    ++ le_bytes 4 index ++ le_bytes 4 input_count in
  bytes ← try_fold (fun bytes '(txin, map) =>
      p ← prevout map;
      Ok (bytes ++ encode_input txin p)) bytes (zip (tx_input tx) maps);
  let bytes := bytes ++ le_bytes 4 output_count in
  let bytes := foldl (fun bytes output => bytes ++ encode_output output) bytes (tx_output tx) in
  if decide (version = V2) then
    map ← expect (maps !! N.to_nat (input_index input)) "index out of bounds";
    internal ← ok_or (tap_internal_key map) "missing authenticated internal key"%string;
    Ok (bytes ++ internal ++ le_bytes 4 0)
  else Ok bytes.

(* ------------------------------------------------------------------ *)
(** ** The reference layout *)

Definition input_sizes (prevs : list TxOut) : list N :=
  concat ((fun p => [52; len (script_pubkey p)]) <$> prevs).

Definition output_sizes (outs : list TxOut) : list N :=
  concat ((fun o => [12; len (script_pubkey o)]) <$> outs).

Definition sum (l : list N) : N := foldr N.add 0 l.

Definition view_size (version : WasmVersion) (input : SigningInput) : N :=
  20 + sum (input_sizes (prevout_list input))
  + sum (output_sizes (tx_output (unsigned_tx (psbt input))))
  + (if decide (version = V2) then 36 else 0).

(** The internal key of the selected input. *)
Definition selected_key (input : SigningInput) : bytes :=
  default [] (psbt_inputs (psbt input) !! N.to_nat (input_index input) ≫= tap_internal_key).

Definition view_header (input : SigningInput) : bytes :=
  i32_le_bytes (tx_version (unsigned_tx (psbt input)))
  ++ le_bytes 4 (lock_time (unsigned_tx (psbt input)))
  ++ le_bytes 4 (input_index input)
  ++ le_bytes 4 (len (tx_input (unsigned_tx (psbt input)))).

(** What the second pass writes, input by input and output by output. *)
Definition written_view (version : WasmVersion) (input : SigningInput) : bytes :=
  let tx := unsigned_tx (psbt input) in
  view_header input
  ++ concat (zip_with encode_input (tx_input tx) (prevout_list input))
  ++ le_bytes 4 (len (tx_output tx))
  ++ concat (encode_output <$> tx_output tx)
  ++ (if decide (version = V2) then selected_key input ++ le_bytes 4 0 else []).

(** The layout as a guest reads it, independent of the encoder: a table of
    typed little-endian fields, in order.  The selected input's internal key and
    an absent annex (length zero) close a v2 view. *)
Inductive Field :=
| I32Field (z : Z)
| U32Field (n : N)
| U64Field (n : N)
| BytesField (bs : bytes).

Definition field_bytes (f : Field) : bytes :=
  match f with
  | I32Field z => i32_le_bytes z
  | U32Field n => le_bytes 4 n
  | U64Field n => le_bytes 8 n
  | BytesField bs => bs
  end.

(** An amount, then a script behind its length. *)
Definition txout_fields (o : TxOut) : list Field :=
  [U64Field (value o); U32Field (len (script_pubkey o)); BytesField (script_pubkey o)].

(** An outpoint, its sequence, and the output it spends. *)
Definition spent_fields (txin : TxIn) (prevout : TxOut) : list Field :=
  BytesField (consensus_encode_outpoint (previous_output txin)) :: U32Field (sequence txin) :: txout_fields prevout.

Definition view_fields (version : WasmVersion) (input : SigningInput) : list Field :=
  let tx := unsigned_tx (psbt input) in
  [I32Field (tx_version tx); U32Field (lock_time tx); U32Field (input_index input); U32Field (len (tx_input tx))]
  ++ concat (zip_with spent_fields (tx_input tx) (prevout_list input))
  ++ [U32Field (len (tx_output tx))]
  ++ concat (txout_fields <$> tx_output tx)
  ++ match version with V1 => [] | V2 => [BytesField (selected_key input); U32Field 0] end.

Definition view_layout (version : WasmVersion) (input : SigningInput) : bytes :=
  concat (field_bytes <$> view_fields version input).

(** The encoder's two record writers produce the fields of the table. *)
Lemma spent_fields_bytes txin o : concat (field_bytes <$> spent_fields txin o) = encode_input txin o.
Proof. cbn. by rewrite app_nil_r. Qed.

Lemma txout_fields_bytes o : concat (field_bytes <$> txout_fields o) = encode_output o.
Proof. cbn. by rewrite app_nil_r. Qed.

Lemma view_layout_written version input : view_layout version input = written_view version input.
Proof.
  unfold view_layout, view_fields, written_view, view_header. rewrite !fmap_app, !concat_app.
  apply f_equal2; [cbn; by rewrite ?app_nil_r|]. apply f_equal2; [|apply f_equal2; [cbn; by rewrite ?app_nil_r|apply f_equal2]].
  - generalize (prevout_list input). induction (tx_input _) as [|i ins IH]; intros [|p prevs]; cbn [zip_with concat]; try done.
    by rewrite fmap_app, concat_app, spent_fields_bytes, IH.
  - induction (tx_output _) as [|o outs IH]; [done|]. rewrite !fmap_cons. cbn [concat].
    by rewrite fmap_app, concat_app, txout_fields_bytes, IH.
  - destruct version; cbn; [done|]. by rewrite ?app_nil_r.
Qed.

(* ------------------------------------------------------------------ *)
(** ** The size pass *)

Lemma add_spec size amount :
  size <= MAX_SIGNED_VIEW_BYTES ->
  amount < 2 ^ 63 ->
  add size amount =
    if size + amount <=? MAX_SIGNED_VIEW_BYTES then Ok (size + amount) else Err view_too_large.
Proof.
  unfold add, checked_add. intros Hs Ha.
  assert (size + amount <? 2 ^ 64 = true) as ->; [|done].
  apply N.ltb_lt. unfold MAX_SIGNED_VIEW_BYTES in Hs. lia.
Qed.

(** Adding amounts one at a time fails exactly when the total is too large. *)
Lemma try_fold_add size amounts :
  size <= MAX_SIGNED_VIEW_BYTES ->
  Forall (fun a => a < 2 ^ 63) amounts ->
  try_fold add size amounts =
    if size + sum amounts <=? MAX_SIGNED_VIEW_BYTES
    then Ok (size + sum amounts) else Err view_too_large.
Proof.
  intros Hs Ha. revert size Hs; induction Ha as [|a amounts Ha _ IH]; intros size Hs; cbn [try_fold sum foldr].
  - rewrite N.add_0_r. apply N.leb_le in Hs. by rewrite Hs.
  - rewrite add_spec by done. fold (sum amounts). rewrite N.add_assoc.
    destruct (N.leb_spec (size + a) MAX_SIGNED_VIEW_BYTES); cbn [mbind Result_bind].
    + by apply IH.
    + destruct (N.leb_spec (size + a + sum amounts) MAX_SIGNED_VIEW_BYTES); [lia|done].
Qed.

Lemma prevout_some m o : witness_utxo m = Some o -> prevout m = Ok o.
Proof. unfold prevout. by intros ->. Qed.

Lemma input_pass size maps :
  Forall (fun m => is_Some (witness_utxo m)) maps ->
  try_fold (fun size map => p ← prevout map; size ← add size 52; add size (len (script_pubkey p)))
    size maps
  = try_fold add size (input_sizes (omap witness_utxo maps)).
Proof.
  intros H. revert size; induction H as [|m maps [o Ho] _ IH]; intros size; [done|].
  unfold input_sizes. cbn. rewrite (prevout_some _ _ Ho), Ho. cbn.
  destruct (add size 52); cbn; [|done ..]. destruct (add _ _); cbn; [|done ..]. apply IH.
Qed.

Lemma output_pass size outs :
  try_fold (fun size output => size ← add size 12; add size (len (script_pubkey output)))
    size outs
  = try_fold add size (output_sizes outs).
Proof.
  revert size; induction outs as [|o outs IH]; intros size; [done|].
  unfold output_sizes. cbn.
  destruct (add size 12); cbn; [|done ..]. destruct (add _ _); cbn; [|done ..]. apply IH.
Qed.

Lemma wf_sizes (k : N) outs :
  k < 2 ^ 32 -> Forall wf_txout outs ->
  Forall (fun a => a < 2 ^ 63) (concat ((fun o => [k; len (script_pubkey o)]) <$> outs)).
Proof.
  intros Hk. induction 1 as [|o outs [_ Ho] _ IH]; cbn; [constructor|].
  constructor; [lia|]. constructor; [lia|done].
Qed.

Lemma sum_app a b : sum (a ++ b) = sum a + sum b.
Proof. induction a as [|x a IH]; cbn; [done|]. fold (sum (a ++ b)); fold (sum a). lia. Qed.

Lemma sum_input_sizes_cons p prevs :
  sum (input_sizes (p :: prevs)) = 52 + len (script_pubkey p) + sum (input_sizes prevs).
Proof. unfold input_sizes, sum. cbn. lia. Qed.

Lemma sum_output_sizes_cons o outs :
  sum (output_sizes (o :: outs)) = 12 + len (script_pubkey o) + sum (output_sizes outs).
Proof. unfold output_sizes, sum. cbn. lia. Qed.

(* ------------------------------------------------------------------ *)
(** ** The writing pass *)

Lemma write_inputs bytes ins maps :
  length maps = length ins ->
  Forall (fun m => is_Some (witness_utxo m)) maps ->
  try_fold (fun bytes '(txin, map) => p ← prevout map; Ok (bytes ++ encode_input txin p))
    bytes (zip ins maps)
  = Ok (bytes ++ concat (zip_with encode_input ins (omap witness_utxo maps))).
Proof.
  intros Hl Hs. revert bytes maps Hl Hs; induction ins as [|i ins IH]; intros bytes [|m maps] Hl Hs;
    try discriminate; cbn; [by rewrite app_nil_r|].
  inversion_clear Hs as [|? ? [o Ho] Hs']. rewrite (prevout_some _ _ Ho), Ho. cbn.
  rewrite IH by (done || (cbn in Hl; lia)). by rewrite <- app_assoc.
Qed.

Lemma write_outputs bytes outs :
  foldl (fun bytes output => bytes ++ encode_output output) bytes outs
  = bytes ++ concat (encode_output <$> outs).
Proof.
  revert bytes; induction outs as [|o outs IH]; intros bytes; cbn; [by rewrite app_nil_r|].
  rewrite IH. by rewrite <- app_assoc.
Qed.

(* ------------------------------------------------------------------ *)
(** ** Lengths *)

Section Lengths.
  Context {laws : OutPointCodecLaws}.

Lemma len_encode_input txin o :
  wf_txin txin -> len (encode_input txin o) = 52 + len (script_pubkey o).
Proof.
  intros [Hp _]. unfold encode_input. rewrite !len_app, outpoint_len, !len_le_bytes by done. lia.
Qed.

Lemma len_encode_output o : len (encode_output o) = 12 + len (script_pubkey o).
Proof. unfold encode_output. rewrite !len_app, !len_le_bytes. lia. Qed.

Lemma len_inputs ins prevs :
  Forall wf_txin ins -> length prevs = length ins ->
  len (concat (zip_with encode_input ins prevs)) = sum (input_sizes prevs).
Proof.
  intros H. revert prevs; induction H as [|i ins Hi _ IH]; intros [|p prevs] Hl; try discriminate; [done|].
  cbn [zip_with concat]. rewrite len_app, len_encode_input, IH by (done || (cbn in Hl; lia)).
  rewrite sum_input_sizes_cons. lia.
Qed.

Lemma len_outputs outs : len (concat (encode_output <$> outs)) = sum (output_sizes outs).
Proof.
  induction outs as [|o outs IH]; [done|]. rewrite fmap_cons. cbn [concat].
  rewrite len_app, len_encode_output, IH, sum_output_sizes_cons. lia.
Qed.

Lemma selected_key_spec input : native_context input ->
  exists m, psbt_inputs (psbt input) !! N.to_nat (input_index input) = Some m /\
    tap_internal_key m = Some (selected_key input) /\ len (selected_key input) = 32.
Proof.
  intros H. unfold selected_key.
  destruct (lookup_lt_is_Some_2 (psbt_inputs (psbt input)) (N.to_nat (input_index input))) as [m Hm].
  { pose proof (native_index _ H). rewrite (native_inputs _ H). unfold len in *. lia. }
  destruct (native_internal_key _ H m Hm) as (k & Hk & Hl).
  exists m. rewrite Hm. cbn. by rewrite Hk.
Qed.

Lemma len_view_header input : len (view_header input) = 16.
Proof.
  unfold view_header. rewrite !len_app, !len_le_bytes.
  unfold len. by rewrite length_i32_le_bytes.
Qed.

Lemma len_view_layout version input :
  native_context input -> len (view_layout version input) = view_size version input.
Proof.
  intros H. pose proof (native_prevouts_length _ H) as Hp.
  pose proof (native_wf _ H) as Hwf.
  rewrite view_layout_written. unfold written_view, view_size. rewrite !len_app, len_view_header, len_le_bytes, len_outputs.
  rewrite len_inputs by (done || apply Hwf).
  destruct (selected_key_spec _ H) as (m & _ & _ & Hk).
  case_decide; rewrite ?len_app, ?len_le_bytes, ?Hk, ?len_nil; lia.
Qed.

Lemma sum_input_sizes_ge prevs : 52 * len prevs <= sum (input_sizes prevs).
Proof.
  induction prevs as [|p prevs IH]; [done|]. rewrite len_cons, sum_input_sizes_cons. lia.
Qed.

Lemma sum_output_sizes_ge outs : 12 * len outs <= sum (output_sizes outs).
Proof.
  induction outs as [|p outs IH]; [done|]. rewrite len_cons, sum_output_sizes_cons. lia.
Qed.

(** The counts of a view that fits are 32-bit integers. *)
Lemma fitting_counts version input :
  native_context input -> view_size version input <= MAX_SIGNED_VIEW_BYTES ->
  len (tx_input (unsigned_tx (psbt input))) < 2 ^ 32 /\
  len (tx_output (unsigned_tx (psbt input))) < 2 ^ 32 /\
  input_index input < 2 ^ 32.
Proof.
  intros H Hs. unfold view_size, MAX_SIGNED_VIEW_BYTES in Hs.
  pose proof (sum_input_sizes_ge (prevout_list input)) as Hi.
  pose proof (sum_output_sizes_ge (tx_output (unsigned_tx (psbt input)))) as Ho.
  pose proof (native_prevouts_length _ H) as Hl. pose proof (native_index _ H) as Hx.
  unfold len in *. rewrite Hl in Hi. repeat split; case_decide; lia.
Qed.

Lemma count_u32_ok n : n < 2 ^ 32 -> count_u32 n = Ok n.
Proof. unfold count_u32, u32_try_from. intros H%N.ltb_lt. by rewrite H. Qed.

(** The size pass, as one comparison. *)
Lemma size_pass version input :
  native_context input ->
  (size ← try_fold add 20 (input_sizes (prevout_list input));
   size ← try_fold add size (output_sizes (tx_output (unsigned_tx (psbt input))));
   if decide (version = V2) then add size 36 else Ok size)
  = if view_size version input <=? MAX_SIGNED_VIEW_BYTES
    then Ok (view_size version input) else Err view_too_large.
Proof.
  intros H. pose proof (native_wf_prevouts _ H) as Hp.
  pose proof (wf_outputs _ (native_wf _ H)) as Ho.
  transitivity (try_fold add 20 (input_sizes (prevout_list input)
    ++ output_sizes (tx_output (unsigned_tx (psbt input)))
    ++ if decide (version = V2) then [36] else [])).
  { rewrite try_fold_app. destruct (try_fold add 20 _); cbn; [|done ..].
    rewrite try_fold_app. destruct (try_fold add _ _); cbn; [|done ..].
    case_decide; cbn; [|done]. by destruct (add _ 36). }
  rewrite try_fold_add.
  - rewrite !sum_app, !N.add_assoc. unfold view_size.
    by replace (sum (if decide (version = V2) then [36] else []))
      with (if decide (version = V2) then 36 else 0) by (by case_decide).
  - done.
  - apply Forall_app; split; [by apply wf_sizes|].
    apply Forall_app; split; [by apply wf_sizes|]. case_decide; by repeat constructor.
Qed.

Lemma write_pass version input :
  native_context input ->
  view_size version input <= MAX_SIGNED_VIEW_BYTES ->
  encode_view version input =
    (size ← try_fold add 20 (input_sizes (prevout_list input));
     size ← try_fold add size (output_sizes (tx_output (unsigned_tx (psbt input))));
     size ← (if decide (version = V2) then add size 36 else Ok size);
     Ok (view_layout version input)).
Proof.
  intros H Hs. destruct (fitting_counts _ _ H Hs) as (Hi & Ho & Hx).
  unfold encode_view. rewrite input_pass by apply (native_prevouts _ H).
  destruct (try_fold add 20 _); cbn [mbind Result_bind]; [|done ..].
  rewrite output_pass. destruct (try_fold add _ _); cbn [mbind Result_bind]; [|done ..].
  destruct (if decide (version = V2) then _ else _); cbn [mbind Result_bind]; [|done ..].
  rewrite !count_u32_ok by done. cbn [mbind Result_bind].
  rewrite write_inputs by (apply H || by apply (native_prevouts _ H)). cbn [mbind Result_bind].
  rewrite write_outputs. destruct (selected_key_spec _ H) as (m & Hm & Hk & _).
  rewrite view_layout_written. unfold written_view, view_header, prevout_list.
  case_decide; rewrite ?Hm; cbn [mbind Result_bind expect]; rewrite ?Hk; cbn [mbind Result_bind ok_or];
    rewrite <- ?app_assoc, ?app_nil_r; done.
Qed.

Lemma encode_view_fits version input :
  native_context input ->
  encode_view version input =
    if view_size version input <=? MAX_SIGNED_VIEW_BYTES
    then Ok (view_layout version input) else Err view_too_large.
Proof.
  intros H. pose proof (size_pass version input H) as P.
  destruct (N.leb_spec (view_size version input) MAX_SIGNED_VIEW_BYTES) as [Hs|Hs].
  - rewrite write_pass by done.
    destruct (try_fold add 20 _); cbn [mbind Result_bind] in *; [|done ..].
    destruct (try_fold add _ _); cbn [mbind Result_bind] in *; [|done ..]. by rewrite P.
  - unfold encode_view. rewrite input_pass by apply (native_prevouts _ H).
    fold (prevout_list input).
    destruct (try_fold add 20 _) as [?|?|?]; cbn [mbind Result_bind] in *; [|by injection P as ->|done].
    rewrite output_pass.
    destruct (try_fold add _ _) as [?|?|?]; cbn [mbind Result_bind] in *; [|by injection P as ->|done].
    by rewrite P.
Qed.

(* ------------------------------------------------------------------ *)
(** ** Reading a layout back *)

Lemma encode_input_prefix i j p q r s :
  wf_txin i -> wf_txin j -> unsigned_txin i -> unsigned_txin j -> wf_txout p -> wf_txout q ->
  encode_input i p ++ r = encode_input j q ++ s -> i = j /\ p = q /\ r = s.
Proof.
  intros [Hi Hsi] [Hj Hsj] [Ui1 Ui2] [Uj1 Uj2] [Hvp Hlp] [Hvq Hlq]. unfold encode_input. rewrite <- !app_assoc. intros E.
  apply app_eq_len in E as [E1 E]; [|by rewrite !outpoint_len].
  apply app_eq_len in E as [E2 E]; [|by rewrite !len_le_bytes].
  apply app_eq_len in E as [E3 E]; [|by rewrite !len_le_bytes].
  apply app_eq_len in E as [E4 E]; [|by rewrite !len_le_bytes].
  apply outpoint_inj in E1; [|done ..]. apply le_bytes_inj in E2; [|done ..].
  apply le_bytes_inj in E3; [|done ..]. apply le_bytes_inj in E4; [|done ..].
  apply app_eq_len in E as [E5 E]; [|done].
  destruct i, j, p, q; cbn in *; subst; done.
Qed.

Lemma encode_output_prefix p q r s :
  wf_txout p -> wf_txout q ->
  encode_output p ++ r = encode_output q ++ s -> p = q /\ r = s.
Proof.
  intros [Hvp Hlp] [Hvq Hlq]. unfold encode_output. rewrite <- !app_assoc. intros E.
  apply app_eq_len in E as [E3 E]; [|by rewrite !len_le_bytes].
  apply app_eq_len in E as [E4 E]; [|by rewrite !len_le_bytes].
  apply le_bytes_inj in E3; [|done ..]. apply le_bytes_inj in E4; [|done ..].
  apply app_eq_len in E as [E5 E]; [|done].
  destruct p, q; cbn in *; subst; done.
Qed.

Lemma inputs_prefix ins1 ins2 ps1 ps2 r s :
  length ins1 = length ins2 -> length ps1 = length ins1 -> length ps2 = length ins2 ->
  Forall wf_txin ins1 -> Forall wf_txin ins2 -> Forall unsigned_txin ins1 -> Forall unsigned_txin ins2 ->
  Forall wf_txout ps1 -> Forall wf_txout ps2 ->
  concat (zip_with encode_input ins1 ps1) ++ r = concat (zip_with encode_input ins2 ps2) ++ s ->
  ins1 = ins2 /\ ps1 = ps2 /\ r = s.
Proof.
  revert ins2 ps1 ps2; induction ins1 as [|i ins1 IH]; intros [|j ins2] [|p ps1] [|q ps2] L L1 L2 H1 H2 U1 U2 H3 H4 E;
    try discriminate; [done|].
  inversion_clear U1. inversion_clear U2. inversion_clear H1. inversion_clear H2. inversion_clear H3. inversion_clear H4.
  cbn in E. rewrite <- !app_assoc in E. apply encode_input_prefix in E as (-> & -> & E); [|done ..].
  apply IH in E as (-> & -> & ->); [done | cbn in *; lia || done ..].
Qed.

Lemma outputs_prefix os1 os2 r s :
  length os1 = length os2 -> Forall wf_txout os1 -> Forall wf_txout os2 ->
  concat (encode_output <$> os1) ++ r = concat (encode_output <$> os2) ++ s ->
  os1 = os2 /\ r = s.
Proof.
  revert os2; induction os1 as [|p os1 IH]; intros [|q os2] L H1 H2 E; try discriminate; [done|].
  inversion_clear H1. inversion_clear H2. rewrite !fmap_cons in E. cbn [concat] in E.
  rewrite <- !app_assoc in E. apply encode_output_prefix in E as [-> E]; [|done ..].
  apply IH in E as [-> ->]; [done | cbn in *; lia || done ..].
Qed.

Lemma view_header_prefix i j r s :
  native_context i -> native_context j ->
  len (tx_input (unsigned_tx (psbt i))) < 2 ^ 32 -> len (tx_input (unsigned_tx (psbt j))) < 2 ^ 32 ->
  view_header i ++ r = view_header j ++ s ->
  tx_version (unsigned_tx (psbt i)) = tx_version (unsigned_tx (psbt j)) /\
  lock_time (unsigned_tx (psbt i)) = lock_time (unsigned_tx (psbt j)) /\
  input_index i = input_index j /\
  length (tx_input (unsigned_tx (psbt i))) = length (tx_input (unsigned_tx (psbt j))) /\
  r = s.
Proof.
  intros Hi Hj Ni Nj. pose proof (native_wf _ Hi). pose proof (native_wf _ Hj).
  pose proof (native_index _ Hi). pose proof (native_index _ Hj).
  unfold view_header. rewrite <- !app_assoc. intros E.
  apply app_eq_len in E as [E1 E]; [|unfold len; by rewrite !length_i32_le_bytes].
  apply app_eq_len in E as [E2 E]; [|by rewrite !len_le_bytes].
  apply app_eq_len in E as [E3 E]; [|by rewrite !len_le_bytes].
  apply app_eq_len in E as [E4 E]; [|by rewrite !len_le_bytes].
  apply i32_le_bytes_inj in E1; [|by apply wf_version ..].
  apply le_bytes_inj in E2; [|by apply wf_lock_time ..].
  apply le_bytes_inj in E3; [|change (256 ^ N.of_nat 4) with (2 ^ 32); lia ..].
  apply le_bytes_inj in E4; [|done ..]. unfold len in E4. repeat split; try done; lia.
Qed.

End Lengths.
End View.

(* ------------------------------------------------------------------ *)
(** ** A concrete context *)

Module SampleContext.

Definition spent : TxOut := {| value := 10000; script_pubkey := lit "spent" |}.

Definition paid : TxOut := {| value := 9500; script_pubkey := lit "destination" |}.

Definition tx : Transaction := {|
  tx_version := 2; lock_time := 500;
  tx_input := [{| previous_output := {| txid := replicate 32 Byte.x44; vout := 0 |};
                  txin_script_sig := []; sequence := 12; txin_witness := [] |}];
  tx_output := [paid] |}.

Definition context : SigningInput := {|
  psbt := {| unsigned_tx := tx;
             psbt_inputs := [{| non_witness_utxo := None; witness_utxo := Some spent; final_script_sig := None;
                                final_script_witness := None;
                                tap_internal_key := Some (replicate 32 Byte.x07);
                                tap_merkle_root := None; tap_scripts := ∅; proprietary := [] |}];
             psbt_outputs := [PsbtOutput_default] |};
  input_index := 0; script_leaf := None; participants := []; tweak := None |}.

(** The same transaction signed along a script path. *)
Definition claim_context : SigningInput := {|
  psbt := psbt context; input_index := 0; script_leaf := Some (replicate 32 Byte.x53);
  participants := [lit "user"; lit "program"]; tweak := None |}.

Lemma native : native_context context.
Proof.
  split; cbn; [done | repeat constructor; done | done | | by repeat constructor | by repeat constructor |].
  - split; cbn; [lia | done | by repeat constructor | by repeat constructor].
  - intros m [= <-]. eexists. split; [reflexivity|done].
Qed.

Lemma native_claim : native_context claim_context.
Proof. destruct native. split; done. Qed.

End SampleContext.

(* ------------------------------------------------------------------ *)
(** ** Properties *)

Section Theorems.
  Context {codec : OutPointCodec} {laws : OutPointCodecLaws}.

(** C14: under a natively authenticated context [encode_view] returns the layout
    of the field table exactly when the layout is within
    [MAX_SIGNED_VIEW_BYTES], and the size error otherwise: the size pass
    computes the length of what the writing pass writes, every field is written
    in its place and width, no cast truncates a count and no [expect] or index
    panics. *)
Theorem encode_view_spec version input :
  native_context input ->
  encode_view version input =
    if len (view_layout version input) <=? MAX_SIGNED_VIEW_BYTES
    then Ok (view_layout version input) else Err view_too_large.
Proof. intros H. rewrite len_view_layout by done. by apply encode_view_fits. Qed.

(** The size computed before allocation is the exact length of the written
    view (the [debug_assert_eq!] of the code), and is within the bound. *)
Theorem encode_view_len version input bs :
  native_context input ->
  encode_view version input = Ok bs ->
  len bs = view_size version input /\ len bs <= MAX_SIGNED_VIEW_BYTES.
Proof.
  intros H. rewrite encode_view_fits by done.
  destruct (N.leb_spec (view_size version input) MAX_SIGNED_VIEW_BYTES); [|done].
  intros [= <-]. rewrite len_view_layout by done. done.
Qed.

(** C15: the view determines what is signed: two authenticated contexts with the
    same view have the same transaction, selected input and previous outputs,
    and under v2 the same internal key of the selected input. *)
Theorem encode_view_inj version i j bs :
  native_context i -> native_context j ->
  encode_view version i = Ok bs -> encode_view version j = Ok bs ->
  unsigned_tx (psbt i) = unsigned_tx (psbt j) /\
  input_index i = input_index j /\
  prevout_list i = prevout_list j /\
  (version = V2 -> selected_key i = selected_key j).
Proof.
  intros Hi Hj. rewrite !encode_view_fits by done.
  destruct (N.leb_spec (view_size version i) MAX_SIGNED_VIEW_BYTES) as [Si|]; [|done].
  destruct (N.leb_spec (view_size version j) MAX_SIGNED_VIEW_BYTES) as [Sj|]; [|done].
  intros Ei Ej. assert (view_layout version i = view_layout version j) as E by congruence.
  destruct (fitting_counts _ _ Hi Si) as (Ni & Mi & _).
  destruct (fitting_counts _ _ Hj Sj) as (Nj & Mj & _).
  pose proof (native_wf _ Hi) as Wi. pose proof (native_wf _ Hj) as Wj.
  rewrite !view_layout_written in E. apply view_header_prefix in E as (Ev & El & Ex & En & E); [|done ..].
  apply inputs_prefix in E as (Eins & Eps & E);
    [|done | by apply native_prevouts_length | by apply native_prevouts_length
     | apply Wi | apply Wj | by apply native_unsigned | by apply native_unsigned | by apply native_wf_prevouts | by apply native_wf_prevouts].
  apply app_eq_len in E as [Eo E]; [|by rewrite !len_le_bytes].
  apply le_bytes_inj in Eo; [|done ..].
  apply outputs_prefix in E as [Eouts E]; [|unfold len in Eo; lia | apply Wi | apply Wj].
  repeat split; [| done | done |].
  - destruct (unsigned_tx (psbt i)), (unsigned_tx (psbt j)); cbn in *; by subst.
  - intros ->. cbn in E. apply app_inv_tail in E. exact E.
Qed.

End Theorems.

#[local] Existing Instances StandardOutPoint.codec StandardOutPoint.codec_laws.

Lemma encode_view_spec_witness :
  encode_view V1 SampleContext.context = Ok (view_layout V1 SampleContext.context).
Proof. rewrite (encode_view_spec V1 _ SampleContext.native). reflexivity. Defined.

Lemma encode_view_len_witness : exists bs,
  encode_view V2 SampleContext.context = Ok bs /\ len bs <= MAX_SIGNED_VIEW_BYTES.
Proof.
  eexists. split; [vm_compute; reflexivity|].
  eapply (encode_view_len V2 _ _ SampleContext.native). vm_compute; reflexivity.
Defined.

Lemma encode_view_inj_witness :
  selected_key SampleContext.context = selected_key SampleContext.claim_context.
Proof.
  eapply (encode_view_inj V2 _ _ _ SampleContext.native SampleContext.native_claim);
    [vm_compute; reflexivity | vm_compute; reflexivity | reflexivity].
Defined.
