(* ===== verification/Guest.v ===== *)
(** * Guest: argument memory and view decoding of the example predicates
    (examples/vault/guest.rs)

    The guest runs in 32-bit linear memory.  [Arena] is the static [INPUT]
    buffer with its bump pointer, [sapio_alloc_v1] and [input_slice] are the
    unsafe accesses to it, [Reader] the bounded cursor and [evaluate] the
    entry point that maps a predicate's answer to the ABI's integers. *)

From S2P Require Import Prelude Bytes.

Open Scope N_scope.

Definition MAX_VIEW : N := 1048576.
Definition MAX_ARGUMENT : N := 65536.
Definition INPUT_CAPACITY : N := MAX_VIEW + 3 * MAX_ARGUMENT.

(** [base] is the address of [INPUT], [used] the value of [INPUT_USED], and
    [memory] the linear memory. *)
Record Arena := {
  base : N;
  used : N;
  memory : N -> byte;
}.

(** The bytes at [start .. start + length]. *)
Definition mem_slice (mem : N -> byte) (start length : N) : bytes :=
  (fun i => mem (start + N.of_nat i)) <$> seq 0 (N.to_nat length).

(** Returns the allocated address (0 for a refusal) and the new arena. *)
Definition sapio_alloc_v1 (arena : Arena) (length : N) : N * Arena :=
  match checked_add 32 (used arena) length with
  | None => (0, arena)
  | Some end_ =>
      if INPUT_CAPACITY <? end_ then (0, arena)
      else (base arena + used arena,
            {| base := base arena; used := end_; memory := memory arena |})
  end.

Record Arguments := {
  arg_program : bytes;
  arg_parameters : bytes;
  arg_view : bytes;
  arg_witness : bytes;
}.

Definition checked_sub (a b : N) : option N := if b <=? a then Some (a - b) else None.

Definition input_slice (arena : Arena) (pointer length : N) : option bytes :=
  if length =? 0 then Some [] else
  offset ← checked_sub pointer (base arena);
  end_ ← checked_add 32 offset length;
  if used arena <? end_ then None
  else Some (mem_slice (memory arena) pointer length).

(** Pointer and length pairs of program, parameters, view and witness. *)
Record Pointers := {
  pp : N; pl : N; ap : N; al : N; vp : N; vl : N; wp : N; wl : N;
}.

Definition evaluate (arena : Arena) (p : Pointers)
    (evaluator : Arguments -> option bool) : Z :=
  if existsb (fun length => MAX_ARGUMENT <? length) [pl p; al p; wl p]
     || (MAX_VIEW <? vl p) then (-1)%Z else
  match input_slice arena (pp p) (pl p) with
  | None => (-1)%Z
  | Some program =>
  match input_slice arena (ap p) (al p) with
  | None => (-1)%Z
  | Some parameters =>
  match input_slice arena (vp p) (vl p) with
  | None => (-1)%Z
  | Some view =>
  match input_slice arena (wp p) (wl p) with
  | None => (-1)%Z
  | Some witness =>
      match evaluator {| arg_program := program; arg_parameters := parameters;
                         arg_view := view; arg_witness := witness |} with
      | Some true => 1%Z
      | Some false => 0%Z
      | None => (-1)%Z
      end
  end end end end.

Record Reader := {
  reader_bytes : bytes;
  offset : N;
}.

Definition Reader_new (bs : bytes) : Reader := {| reader_bytes := bs; offset := 0 |}.

(** [bytes.get(lo..hi)] *)
Definition get_range (bs : bytes) (lo hi : N) : option bytes :=
  if (lo <=? hi) && (hi <=? len bs) then Some (slice bs lo (hi - lo)) else None.

Definition take (r : Reader) (length : N) : option (bytes * Reader) :=
  end_ ← checked_add 32 (offset r) length;
  bs ← get_range (reader_bytes r) (offset r) end_;
  Some (bs, {| reader_bytes := reader_bytes r; offset := end_ |}).

Definition u32 (r : Reader) : option (N * Reader) :=
  '(bs, r) ← take r 4;
  Some (of_le bs, r).

(** [u64::from_le_bytes(reader.take(8)?.try_into().ok()?)] *)
Definition u64 (r : Reader) : option (N * Reader) :=
  '(bs, r) ← take r 8;
  Some (of_le bs, r).

Definition is_finished (r : Reader) : bool := offset r =? len (reader_bytes r).

(** [hash]: the digest written to an output of the given length; the host's
    import answers [None] for a nonzero status. *)
Definition hash (sha256_import : bytes -> option bytes) (bs : bytes) (output_length : N) : option bytes :=
  if negb (output_length =? 32) then None else sha256_import bs.

(* ------------------------------------------------------------------ *)
(** ** Readers as cursors

    [reader_at p s] has consumed [p] and has [s] left; reading is then
    rewriting with the next field. *)

Definition reader_at (p s : bytes) : Reader :=
  {| reader_bytes := p ++ s; offset := len p |}.

Lemma Reader_new_at bs : Reader_new bs = reader_at [] bs.
Proof. reflexivity. Qed.

Lemma take_at p a s n :
  n = len a -> len (p ++ a ++ s) < 2 ^ 32 ->
  take (reader_at p (a ++ s)) n = Some (a, reader_at (p ++ a) s).
Proof.
  intros -> H. unfold take, reader_at, checked_add, get_range; cbn [offset reader_bytes].
  rewrite !len_app in H.
  assert (len p + len a <? 2 ^ 32 = true) as -> by (apply N.ltb_lt; lia).
  cbn [mbind option_bind].
  assert ((len p <=? len p + len a) && (len p + len a <=? len (p ++ a ++ s)) = true) as ->.
  { rewrite !len_app. apply andb_true_iff; split; apply N.leb_le; lia. }
  cbn. replace (len p + len a - len p) with (len a) by lia.
  by rewrite slice_app, len_app, <- app_assoc.
Qed.

Lemma u32_at p v s :
  v < 2 ^ 32 -> len (p ++ le_bytes 4 v ++ s) < 2 ^ 32 ->
  u32 (reader_at p (le_bytes 4 v ++ s)) = Some (v, reader_at (p ++ le_bytes 4 v) s).
Proof.
  intros Hv H. unfold u32. rewrite take_at by done. cbn. by rewrite of_le_le_bytes_small.
Qed.

Lemma u64_at p v s :
  v < 2 ^ 64 -> len (p ++ le_bytes 8 v ++ s) < 2 ^ 32 ->
  u64 (reader_at p (le_bytes 8 v ++ s)) = Some (v, reader_at (p ++ le_bytes 8 v) s).
Proof.
  intros Hv H. unfold u64. rewrite take_at by done. cbn. by rewrite of_le_le_bytes_small.
Qed.

Lemma take_all_at p a n :
  n = len a -> len (p ++ a) < 2 ^ 32 ->
  take (reader_at p a) n = Some (a, reader_at (p ++ a) []).
Proof.
  intros Hn H. rewrite <- (app_nil_r a) at 1. apply take_at; [done|]. by rewrite app_nil_r.
Qed.

Lemma is_finished_at p s : is_finished (reader_at p s) = bool_decide (s = []).
Proof.
  unfold is_finished, reader_at; cbn. rewrite len_app.
  destruct s; [rewrite len_nil, N.add_0_r; apply N.eqb_refl|].
  rewrite len_cons. apply N.eqb_neq. lia.
Qed.

(** A reader never yields more than it holds, and never moves past the end. *)
Lemma take_spec r n bs r' :
  offset r <= len (reader_bytes r) ->
  take r n = Some (bs, r') ->
  len bs = n /\ reader_bytes r' = reader_bytes r /\
  offset r' = offset r + n /\ offset r' <= len (reader_bytes r').
Proof.
  unfold take, checked_add, get_range. intros Hr H.
  destruct (N.ltb_spec (offset r + n) (2 ^ 32)); [|discriminate]. cbn in H.
  destruct (N.leb_spec (offset r) (offset r + n)); [|discriminate].
  destruct (N.leb_spec (offset r + n) (len (reader_bytes r))); [|discriminate].
  cbn in H. injection H as <- <-. cbn. repeat split; [|lia].
  unfold slice, len in *. rewrite length_take, length_drop. lia.
Qed.

(* ------------------------------------------------------------------ *)
(** ** The arena *)

(** The arena's invariant: the bump pointer stays within the buffer, and the
    buffer within the 32-bit address space, away from address zero. *)
Definition wf_arena (a : Arena) : Prop :=
  used a <= INPUT_CAPACITY /\ 0 < base a /\ base a + INPUT_CAPACITY < 2 ^ 32.

Lemma alloc_fits a n :
  wf_arena a -> used a + n <= INPUT_CAPACITY ->
  sapio_alloc_v1 a n =
    (base a + used a, {| base := base a; used := used a + n; memory := memory a |}).
Proof.
  intros (Hu & H0 & Hb) Hn. unfold sapio_alloc_v1, checked_add.
  assert (used a + n <? 2 ^ 32 = true) as -> by (apply N.ltb_lt; lia).
  assert (INPUT_CAPACITY <? used a + n = false) as -> by (apply N.ltb_ge; lia). done.
Qed.

Lemma alloc_refuses a n :
  wf_arena a -> INPUT_CAPACITY < used a + n -> sapio_alloc_v1 a n = (0, a).
Proof.
  intros (Hu & H0 & Hb) Hn. unfold sapio_alloc_v1, checked_add.
  destruct (N.ltb_spec (used a + n) (2 ^ 32)); [|done].
  apply N.ltb_lt in Hn. by rewrite Hn.
Qed.

Lemma alloc_wf a n : wf_arena a -> wf_arena (snd (sapio_alloc_v1 a n)).
Proof.
  intros H. destruct (N.le_gt_cases (used a + n) INPUT_CAPACITY).
  - rewrite alloc_fits by done. destruct H as (? & ? & ?). by repeat split.
  - by rewrite alloc_refuses.
Qed.

Lemma length_mem_slice mem start n : len (mem_slice mem start n) = n.
Proof. unfold mem_slice, len. rewrite length_fmap, length_seq. lia. Qed.

Lemma input_slice_in_arena a p n :
  n <> 0 -> base a <= p -> p + n <= base a + used a -> wf_arena a ->
  input_slice a p n = Some (mem_slice (memory a) p n).
Proof.
  intros Hn Hp He (Hu & H0 & Hb). unfold input_slice, checked_sub, checked_add.
  apply N.eqb_neq in Hn as ->.
  assert (base a <=? p = true) as -> by (by apply N.leb_le). cbn.
  assert (p - base a + n <? 2 ^ 32 = true) as -> by (apply N.ltb_lt; lia). cbn.
  assert (used a <? p - base a + n = false) as -> by (apply N.ltb_ge; lia). done.
Qed.

(** A run of allocations: each size with the address it got. *)
Fixpoint alloc_all (a : Arena) (sizes : list N) : list (N * N) * Arena :=
  match sizes with
  | [] => ([], a)
  | n :: sizes =>
      let '(p, a) := sapio_alloc_v1 a n in
      let '(regions, a) := alloc_all a sizes in
      ((p, n) :: regions, a)
  end.

(** A granted region starts at or after [lo] and ends by [hi]. *)
Definition within (lo hi : N) (r : N * N) : Prop := fst r = 0 \/ (lo <= fst r /\ fst r + snd r <= hi).

Definition before (r s : N * N) : Prop := fst r = 0 \/ fst s = 0 \/ fst r + snd r <= fst s.

Lemma alloc_one a n : wf_arena a ->
  let '(p, a') := sapio_alloc_v1 a n in
  wf_arena a' /\ base a' = base a /\ memory a' = memory a /\ used a <= used a' /\
  (p = 0 \/ (p = base a + used a /\ used a' = used a + n)).
Proof.
  intros H. pose proof (alloc_wf a n H) as Hw. destruct (N.le_gt_cases (used a + n) INPUT_CAPACITY).
  - rewrite alloc_fits in Hw |- * by done. cbn in *. repeat (split; [done || lia|]). by right.
  - rewrite alloc_refuses in Hw |- * by done. cbn in *. repeat (split; [done || lia|]). by left.
Qed.

Lemma alloc_all_regions a sizes : wf_arena a ->
  let '(regions, a') := alloc_all a sizes in
  wf_arena a' /\ base a' = base a /\ memory a' = memory a /\ used a <= used a' /\
  Forall (within (base a + used a) (base a' + used a')) regions /\
  ForallOrdPairs before regions.
Proof.
  revert a; induction sizes as [|n sizes IH]; intros a H; cbn.
  { repeat (split; [first [done | lia | constructor]|]). constructor. }
  pose proof (alloc_one a n H) as H1. destruct (sapio_alloc_v1 a n) as [p a1].
  destruct H1 as (Hw1 & Hb1 & Hm1 & Hu1 & Hp). specialize (IH a1 Hw1).
  destruct (alloc_all a1 sizes) as [regions a2]. destruct IH as (Hw2 & Hb2 & Hm2 & Hu2 & Hf & Ho).
  split; [done|]. split; [congruence|]. split; [congruence|]. split; [lia|]. split.
  - constructor.
    + destruct Hp as [->|[-> Hn]]; [by left|]. right. cbn. rewrite Hb2, Hb1. lia.
    + eapply list.Forall_impl; [exact Hf|]. intros r [?|[? ?]]; [by left|]. right. rewrite Hb1 in *. lia.
  - constructor; [|done]. eapply list.Forall_impl; [exact Hf|].
    intros r [?|[? ?]]; [by right; left|]. unfold before. cbn. rewrite Hb1 in *. lia.
Qed.

(* ------------------------------------------------------------------ *)
(** ** Properties *)

(** Any sequence of allocations keeps the arena well formed and its memory
    untouched, and grants regions that lie inside the input buffer, after what
    was already used, and are pairwise disjoint in the order of the calls;
    address zero is a refusal, never a region. *)
Theorem allocations_disjoint a sizes :
  wf_arena a ->
  let '(regions, a') := alloc_all a sizes in
  wf_arena a' /\ base a' = base a /\ memory a' = memory a /\
  Forall (within (base a + used a) (base a + INPUT_CAPACITY)) regions /\
  ForallOrdPairs before regions.
Proof.
  intros H. pose proof (alloc_all_regions a sizes H) as Hr. destruct (alloc_all a sizes) as [regions a'].
  destruct Hr as (Hw & Hb & Hm & Hu & Hf & Ho). repeat (split; [done|]). split; [|done].
  eapply list.Forall_impl; [exact Hf|]. intros r [?|[? ?]]; [by left|]. right.
  destruct Hw as (Hcap & _). rewrite Hb in *. lia.
Qed.

(** The guest reads only what the host wrote into its arena: [input_slice]
    yields a slice exactly for the empty length and for ranges inside the used
    part of the buffer, and then the bytes of memory there. *)
Theorem input_slice_iff a p n bs :
  wf_arena a ->
  input_slice a p n = Some bs <->
  (n = 0 /\ bs = []) \/
  (n <> 0 /\ base a <= p /\ p + n <= base a + used a /\ bs = mem_slice (memory a) p n).
Proof.
  intros Ha. split.
  - intros H. unfold input_slice, checked_sub, checked_add in H.
    destruct (N.eqb_spec n 0) as [->|Hn]; [apply Some_inj in H as <-; by left|].
    destruct (N.leb_spec (base a) p); [|done]. cbn in H.
    destruct (N.ltb_spec (p - base a + n) (2 ^ 32)); [|done]. cbn in H.
    destruct (N.ltb_spec (used a) (p - base a + n)); [done|]. apply Some_inj in H as <-.
    right. repeat (split; [done || lia|]). done.
  - intros [[-> ->]|(Hn & Hp & He & ->)]; [done|]. by apply input_slice_in_arena.
Qed.

(** A fresh instance, as the host finds it. *)
Definition fresh : Arena := {| base := 65536; used := 0; memory := fun _ => Byte.x00 |}.

Lemma allocations_disjoint_witness :
  wf_arena fresh /\ ForallOrdPairs before (fst (alloc_all fresh [10; 2000000; 20])).
Proof.
  assert (wf_arena fresh) as H by (vm_compute; repeat split; congruence).
  split; [exact H|]. pose proof (allocations_disjoint fresh [10; 2000000; 20] H) as Hd.
  destruct (alloc_all fresh [10; 2000000; 20]) as [regions a]. apply Hd.
Defined.

Lemma input_slice_iff_witness :
  input_slice (snd (sapio_alloc_v1 fresh 4)) 65537 2 = Some [Byte.x00; Byte.x00].
Proof.
  apply (input_slice_iff (snd (sapio_alloc_v1 fresh 4)) 65537 2).
  - vm_compute; repeat split; congruence.
  - right. repeat split; vm_compute; congruence.
Defined.
