(* ===== verification/Vault.v ===== *)
(** * Vault: the capped-fee sweep predicate and its contract
    (examples/vault/predicate.rs, examples/vault/contract.rs)

    [evaluate] is the predicate compiled to inline WASM, [vault_parameters] the
    parameter encoding of [contract::instance].  [vault_allows] states the rule
    of the documentation on the transaction itself. *)

From S2P Require Import Prelude Bytes Bitcoin Program SignedView Guest.

Open Scope N_scope.

(* ------------------------------------------------------------------ *)
(** ** predicate.rs *)

(** The committed parameters: [max_fee:u64LE || script_len:u32LE || script]. *)
Definition read_parameters (parameters : bytes) : option (N * bytes) :=
  '(max_fee, params) ← u64 (Reader_new parameters);
  '(destination_length, params) ← u32 params;
  '(destination, params) ← take params destination_length;
  if is_finished params then Some (max_fee, destination) else None.

Definition vault_evaluate (arguments : Arguments) : option bool :=
  if negb (len (arg_program arguments) =? 0) || negb (len (arg_witness arguments) =? 0)
  then None else
  '(max_fee, destination) ← read_parameters (arg_parameters arguments);
  let reader := Reader_new (arg_view arguments) in
  '(_, reader) ← take reader 8;
  '(selected_index, reader) ← u32 reader;
  '(input_count, reader) ← u32 reader;
  if negb (selected_index =? 0) || negb (input_count =? 1) then Some false else
  '(_, reader) ← take reader 36;
  '(_, reader) ← take reader 4;
  '(input_value, reader) ← u64 reader;
  '(input_script_length, reader) ← u32 reader;
  '(_, reader) ← take reader input_script_length;
  '(output_count, reader) ← u32 reader;
  if negb (output_count =? 1) then Some false else
  '(output_value, reader) ← u64 reader;
  '(output_script_length, reader) ← u32 reader;
  '(output_script, reader) ← take reader output_script_length;
  if negb (is_finished reader) then None else
  match checked_sub input_value output_value with
  | None => Some false
  | Some fee =>
      Some (bool_decide (output_script = destination)
            && (330 <=? output_value) && (fee <=? max_fee))
  end.

(* ------------------------------------------------------------------ *)
(** ** contract.rs *)

(** The parameter bytes [contract::instance] commits. *)
Definition vault_parameters (max_fee_satoshis : N) (destination : bytes) : Result Error bytes :=
  script_len ← ok_or (u32_try_from (len destination))
    (Context "destination script too large"
       (Foreign "out of range integral type conversion attempted"));
  Ok (le_bytes 8 max_fee_satoshis ++ le_bytes 4 script_len ++ destination).

(** [instance]: the inline v1 program of the module and these parameters. *)
Definition vault_instance `{!SapioProgram} (VAULT_WASM : bytes)
    (max_fee_satoshis : N) (destination : bytes) : Result Error ProgramInstance :=
  parameters ← vault_parameters max_fee_satoshis destination;
  program_instance_wasm VAULT_WASM parameters.

(* ------------------------------------------------------------------ *)
(** ** The rule *)

(** One input, one output, to the committed destination, at or above the
    330-satoshi floor, with a nonnegative fee no larger than the cap. *)
Definition vault_allows (max_fee : N) (destination : bytes) (input : SigningInput) : bool :=
  match prevout_list input, tx_output (unsigned_tx (psbt input)) with
  | [spent], [paid] =>
      bool_decide (script_pubkey paid = destination)
      && (330 <=? value paid) && (value paid <=? value spent)
      && (value spent - value paid <=? max_fee)
  | _, _ => false
  end.

(* ------------------------------------------------------------------ *)
(** ** Lemmas *)

Lemma read_parameters_encoded max_fee destination ps :
  max_fee < 2 ^ 64 -> len destination < 2 ^ 31 ->
  vault_parameters max_fee destination = Ok ps ->
  read_parameters ps = Some (max_fee, destination).
Proof.
  intros Hf Hd. unfold vault_parameters, u32_try_from.
  assert (len destination <? 2 ^ 32 = true) as -> by (apply N.ltb_lt; lia). cbn [ok_or mbind Result_bind].
  intros E; apply Ok_inj in E as <-. unfold read_parameters. rewrite Reader_new_at.
  rewrite u64_at by (done || (rewrite !len_app, !len_le_bytes, ?len_nil; lia)).
  cbn [mbind option_bind].
  rewrite u32_at by (lia || (rewrite !len_app, !len_le_bytes, ?len_nil; lia)).
  cbn [mbind option_bind].
  rewrite take_all_at by (done || (rewrite !len_app, !len_le_bytes, ?len_nil; lia)).
  cbn [mbind option_bind]. by rewrite is_finished_at.
Qed.

(** The whole argument is short enough for a 32-bit guest. *)
Ltac guest_bound := rewrite ?len_app, ?len_le_bytes, ?len_nil in *; lia.

(** Read one field of a view: the next field of the layout is at the cursor. *)
Ltac read_field :=
  first
    [ rewrite u64_at by (assumption || guest_bound)
    | rewrite u32_at by (assumption || guest_bound)
    | rewrite take_at by (first [assumption | symmetry; assumption | reflexivity | guest_bound])
    | rewrite take_all_at by (first [assumption | reflexivity | guest_bound]) ];
  cbn [mbind option_bind].

Section Predicate.
  Context {codec : OutPointCodec} {laws : OutPointCodecLaws}.

(** The view's sixteen-byte header, whatever the predicate does next. *)
Lemma read_header {B} input rest (k : N -> N -> Reader -> option B) :
  native_context input ->
  len (tx_input (unsigned_tx (psbt input))) < 2 ^ 32 ->
  len (view_header input ++ rest) < 2 ^ 32 ->
  ('(_, reader) ← take (Reader_new (view_header input ++ rest)) 8;
   '(selected_index, reader) ← u32 reader;
   '(input_count, reader) ← u32 reader;
   k selected_index input_count reader)
  = k (input_index input) (len (tx_input (unsigned_tx (psbt input))))
      (reader_at (view_header input) rest).
Proof.
  intros H Hn Hl. pose proof (native_index _ H). rewrite len_app, len_view_header in Hl.
  rewrite Reader_new_at. unfold view_header. rewrite <- !app_assoc, (app_assoc (i32_le_bytes _)).
  assert (len (i32_le_bytes (tx_version (unsigned_tx (psbt input)))) = 4) as Hv.
  { unfold len. by rewrite length_i32_le_bytes. }
  rewrite take_at by (rewrite ?len_app, ?Hv, ?len_le_bytes, ?len_nil; lia). cbn [mbind option_bind].
  rewrite u32_at by (rewrite ?len_app, ?Hv, ?len_le_bytes, ?len_nil; lia). cbn [mbind option_bind].
  rewrite u32_at by (rewrite ?len_app, ?Hv, ?len_le_bytes, ?len_nil; lia). cbn [mbind option_bind].
  by rewrite app_nil_l, <- !app_assoc.
Qed.

(** One input of the view. *)
Lemma read_input {B} p txin o rest (k : N -> Reader -> option B) :
  wf_txin txin -> wf_txout o ->
  len (p ++ encode_input txin o ++ rest) < 2 ^ 32 ->
  ('(_, reader) ← take (reader_at p (encode_input txin o ++ rest)) 36;
   '(_, reader) ← take reader 4;
   '(input_value, reader) ← u64 reader;
   '(input_script_length, reader) ← u32 reader;
   '(_, reader) ← take reader input_script_length;
   k input_value reader)
  = k (value o) (reader_at (p ++ encode_input txin o) rest).
Proof.
  intros Hi [Hv Hs] Hl. rewrite !len_app, len_encode_input in Hl by done.
  pose proof (outpoint_len _ (proj1 Hi)) as Hp.
  unfold encode_input. rewrite <- !app_assoc.
  rewrite take_at by (rewrite ?len_app, ?Hp, ?len_le_bytes; lia). cbn [mbind option_bind].
  rewrite take_at by (rewrite ?len_app, ?Hp, ?len_le_bytes; lia). cbn [mbind option_bind].
  rewrite u64_at by (done || (rewrite ?len_app, ?Hp, ?len_le_bytes; lia)). cbn [mbind option_bind].
  rewrite u32_at by (done || (rewrite ?len_app, ?Hp, ?len_le_bytes; lia)). cbn [mbind option_bind].
  rewrite take_at by (done || (rewrite ?len_app, ?Hp, ?len_le_bytes; lia)). cbn [mbind option_bind].
  by rewrite <- !app_assoc.
Qed.

(** One output of the view. *)
Lemma read_output {B} p o rest (k : N -> bytes -> Reader -> option B) :
  wf_txout o ->
  len (p ++ encode_output o ++ rest) < 2 ^ 32 ->
  ('(output_value, reader) ← u64 (reader_at p (encode_output o ++ rest));
   '(output_script_length, reader) ← u32 reader;
   '(output_script, reader) ← take reader output_script_length;
   k output_value output_script reader)
  = k (value o) (script_pubkey o) (reader_at (p ++ encode_output o) rest).
Proof.
  intros [Hv Hs] Hl. rewrite !len_app, len_encode_output in Hl.
  unfold encode_output. rewrite <- !app_assoc.
  rewrite u64_at by (done || (rewrite ?len_app, ?len_le_bytes; lia)). cbn [mbind option_bind].
  rewrite u32_at by (done || (rewrite ?len_app, ?len_le_bytes; lia)). cbn [mbind option_bind].
  rewrite take_at by (done || (rewrite ?len_app, ?len_le_bytes; lia)). cbn [mbind option_bind].
  by rewrite <- !app_assoc.
Qed.

Lemma view_layout_single input spent paid txin :
  tx_input (unsigned_tx (psbt input)) = [txin] ->
  prevout_list input = [spent] ->
  tx_output (unsigned_tx (psbt input)) = [paid] ->
  view_layout V1 input =
    view_header input ++ encode_input txin spent ++ le_bytes 4 1 ++ encode_output paid ++ [].
Proof.
  intros Hin Hprev Hout. rewrite view_layout_written. unfold written_view. rewrite Hin, Hprev, Hout. cbn. by rewrite !app_nil_r.
Qed.

(** The answer for a view with one input and one output. *)
Lemma vault_single input spent paid txin max_fee destination ps :
  native_context input ->
  tx_input (unsigned_tx (psbt input)) = [txin] ->
  prevout_list input = [spent] ->
  tx_output (unsigned_tx (psbt input)) = [paid] ->
  len (view_layout V1 input) < 2 ^ 32 ->
  read_parameters ps = Some (max_fee, destination) ->
  vault_evaluate {| arg_program := []; arg_parameters := ps;
                    arg_view := view_layout V1 input; arg_witness := [] |}
  = Some (vault_allows max_fee destination input).
Proof.
  intros H Hin Hprev Hout Hlen Hps.
  pose proof (native_index _ H) as Hidx. rewrite Hin in Hidx.
  pose proof (wf_inputs _ (native_wf _ H)) as Wi. rewrite Hin in Wi.
  pose proof (wf_outputs _ (native_wf _ H)) as Wo. rewrite Hout in Wo.
  pose proof (native_wf_prevouts _ H) as Wp. rewrite Hprev in Wp.
  apply (proj1 (Forall_singleton _ _)) in Wi, Wo, Wp.
  unfold vault_allows. rewrite Hprev, Hout.
  rewrite (view_layout_single _ _ _ _ Hin Hprev Hout) in *.
  unfold vault_evaluate; cbn [arg_program arg_witness arg_parameters arg_view].
  change (len (@nil byte) =? 0) with true; cbn [negb orb]. rewrite Hps. cbn [mbind option_bind].
  etransitivity; [apply read_header; [exact H | by rewrite Hin | exact Hlen]|].
  rewrite Hin. assert (input_index input = 0) as -> by (unfold len in Hidx; cbn in Hidx; lia).
  change (len [txin] =? 1) with true. cbn [N.eqb negb orb].
  etransitivity; [apply read_input; [exact Wi | exact Wp | exact Hlen]|].
  rewrite !len_app, !len_le_bytes in Hlen.
  rewrite u32_at by (lia || (rewrite !len_app, !len_le_bytes; lia)). cbn [mbind option_bind].
  cbn [N.eqb Pos.eqb negb].
  etransitivity; [apply read_output; [exact Wo | rewrite !len_app, !len_le_bytes; lia]|].
  rewrite is_finished_at. cbn [negb bool_decide].
  unfold checked_sub. destruct (value paid <=? value spent).
  - by rewrite andb_true_r.
  - by rewrite andb_false_r.
Qed.

(** Any other shape is refused. *)
Lemma vault_other input max_fee destination ps :
  native_context input ->
  len (view_layout V1 input) < 2 ^ 32 ->
  len (tx_input (unsigned_tx (psbt input))) < 2 ^ 32 ->
  len (tx_output (unsigned_tx (psbt input))) < 2 ^ 32 ->
  len (tx_input (unsigned_tx (psbt input))) <> 1 \/ len (tx_output (unsigned_tx (psbt input))) <> 1 ->
  read_parameters ps = Some (max_fee, destination) ->
  vault_evaluate {| arg_program := []; arg_parameters := ps;
                    arg_view := view_layout V1 input; arg_witness := [] |}
  = Some false.
Proof.
  intros H Hlen Hni Hno Hshape Hps. pose proof (native_index _ H) as Hidx.
  unfold vault_evaluate; cbn [arg_program arg_witness arg_parameters arg_view].
  change (len (@nil byte) =? 0) with true; cbn [negb orb]. rewrite Hps. cbn [mbind option_bind].
  rewrite view_layout_written in *. unfold written_view in *.
  etransitivity; [apply read_header; [exact H | exact Hni | exact Hlen]|].
  destruct (N.eqb_spec (input_index input) 0); [|done]; cbn [negb orb].
  destruct (N.eqb_spec (len (tx_input (unsigned_tx (psbt input)))) 1) as [E1|]; [|done]; cbn [negb orb].
  destruct Hshape as [?|Hout]; [done|].
  pose proof (native_prevouts_length _ H) as Hp. pose proof (native_wf_prevouts _ H) as Wp.
  pose proof (wf_inputs _ (native_wf _ H)) as Wi.
  destruct (tx_input (unsigned_tx (psbt input))) as [|txin [|? ?]] eqn:Hin;
    [discriminate E1 | | unfold len in E1; cbn in E1; lia].
  destruct (prevout_list input) as [|spent [|? ?]] eqn:Hprev; [discriminate Hp | | discriminate Hp].
  apply (proj1 (Forall_singleton _ _)) in Wi, Wp. cbn [zip_with concat] in *. rewrite <- !app_assoc in *.
  etransitivity; [apply read_input; [exact Wi | exact Wp | exact Hlen]|].
  rewrite !len_app, !len_le_bytes in Hlen. rewrite app_nil_l.
  rewrite u32_at by (exact Hno || (rewrite !len_app, !len_le_bytes; lia)). cbn [mbind option_bind].
  apply N.eqb_neq in Hout. by rewrite Hout.
Qed.

Lemma vault_layout input max_fee destination ps :
  native_context input ->
  view_size V1 input <= MAX_SIGNED_VIEW_BYTES ->
  read_parameters ps = Some (max_fee, destination) ->
  vault_evaluate {| arg_program := []; arg_parameters := ps;
                    arg_view := view_layout V1 input; arg_witness := [] |}
  = Some (vault_allows max_fee destination input).
Proof.
  intros H Hs Hps. destruct (fitting_counts _ _ H Hs) as (Hni & Hno & _).
  assert (len (view_layout V1 input) < 2 ^ 32) as Hl.
  { rewrite len_view_layout by done. unfold MAX_SIGNED_VIEW_BYTES in Hs. lia. }
  pose proof (native_prevouts_length _ H) as Hp.
  destruct (decide (len (tx_input (unsigned_tx (psbt input))) = 1)) as [E1|E1].
  - destruct (decide (len (tx_output (unsigned_tx (psbt input))) = 1)) as [E2|E2].
    + destruct (tx_input _) as [|txin [|? ?]] eqn:Hin; try (unfold len in E1; cbn in E1; lia).
      destruct (tx_output _) as [|paid [|? ?]] eqn:Hout; try (unfold len in E2; cbn in E2; lia).
      destruct (prevout_list input) as [|spent [|? ?]] eqn:Hprev; try discriminate Hp.
      by eapply vault_single.
    + rewrite (vault_other input max_fee destination) by auto. unfold vault_allows.
      destruct (prevout_list input) as [|? [|? ?]]; try done.
      destruct (tx_output _) as [|? [|? ?]]; done.
  - rewrite (vault_other input max_fee destination) by auto. unfold vault_allows.
    destruct (prevout_list input) as [|? [|? ?]]; try done.
    exfalso. apply E1. unfold len. by rewrite <- Hp.
Qed.

End Predicate.

(* ------------------------------------------------------------------ *)
(** ** Properties *)

Section Theorems.
  Context {codec : OutPointCodec} {laws : OutPointCodecLaws}.

(** On the signed view of an authenticated spend, with the parameters the
    contract commits, the predicate answers exactly [vault_allows]: a single
    input, a single output to the committed destination of at least 330
    satoshis, and a fee between zero and the cap. *)
Theorem vault_evaluate_spec input view max_fee destination ps :
  native_context input ->
  encode_view V1 input = Ok view ->
  max_fee < 2 ^ 64 -> len destination < 2 ^ 31 ->
  vault_parameters max_fee destination = Ok ps ->
  vault_evaluate {| arg_program := []; arg_parameters := ps; arg_view := view; arg_witness := [] |}
  = Some (vault_allows max_fee destination input).
Proof.
  intros H Hv Hf Hd Hps. rewrite encode_view_fits in Hv by done.
  destruct (N.leb_spec (view_size V1 input) MAX_SIGNED_VIEW_BYTES); [|done].
  apply Ok_inj in Hv as <-. eauto using vault_layout, read_parameters_encoded.
Qed.

(** No change and no partial withdrawal: an accepted sweep sends the whole
    spent value, less a fee of at most the cap, to the committed script. *)
Theorem vault_conserves_value max_fee destination input :
  vault_allows max_fee destination input = true ->
  exists spent paid,
    prevout_list input = [spent] /\ tx_output (unsigned_tx (psbt input)) = [paid] /\
    script_pubkey paid = destination /\ 330 <= value paid /\
    value paid <= value spent <= value paid + max_fee.
Proof.
  unfold vault_allows.
  destruct (prevout_list input) as [|spent [|? ?]] eqn:Hp; try done.
  destruct (tx_output (unsigned_tx (psbt input))) as [|paid [|? ?]] eqn:Ho; try done.
  rewrite !andb_true_iff, bool_decide_eq_true, !N.leb_le. intros [[[Hs H330] Hle] Hfee].
  exists spent, paid. repeat split; (done || lia).
Qed.

End Theorems.

#[local] Existing Instances StandardOutPoint.codec StandardOutPoint.codec_laws.

Lemma vault_evaluate_spec_witness : exists view ps,
  encode_view V1 SampleContext.context = Ok view /\
  vault_parameters 1000 (lit "destination") = Ok ps /\
  vault_evaluate {| arg_program := []; arg_parameters := ps; arg_view := view; arg_witness := [] |}
  = Some true.
Proof.
  do 2 eexists. split; [reflexivity|]. split; [reflexivity|].
  rewrite (vault_evaluate_spec SampleContext.context _ 1000 (lit "destination"));
    [reflexivity | exact SampleContext.native | reflexivity ..].
Defined.

Lemma vault_conserves_value_witness :
  vault_allows 1000 (lit "destination") SampleContext.context = true /\
  value SampleContext.spent <= value SampleContext.paid + 1000.
Proof.
  split; [reflexivity|].
  destruct (vault_conserves_value 1000 (lit "destination") SampleContext.context)
    as (s & p & [= <-] & [= <-] & _ & _ & _ & H); [reflexivity | exact H].
Defined.
