(* ===== verification/TemplateHash.v ===== *)
(** * TemplateHash: the BIP-446 predicate and its client-side hash
    (examples/templatehash/predicate.rs, examples/templatehash/main.rs)

    [template_hash] is the reference computation the client commits to;
    [templatehash_evaluate] is the predicate, which rebuilds the same preimage
    from the signed view in two scratch buffers of the guest arena.  The host's
    SHA-256 import is the argument [sha256_import]; a digest is 32 bytes. *)

From S2P Require Import Prelude Bytes Bitcoin Program SignedView Guest.

Open Scope N_scope.

Definition TAG : bytes := lit "TemplateHash".
Definition DIGEST : N := 32.

(* ------------------------------------------------------------------ *)
(** ** main.rs: the commitment *)

Section Client.
  Context (sha256 : bytes -> bytes).

Definition tagged_hash (tag message : bytes) : bytes :=
  let tag_hash := sha256 tag in
  sha256 (tag_hash ++ tag_hash ++ message).

(** [push_compact_size] of main.rs; the argument is a [u64]. *)
Definition client_push_compact_size (buffer : bytes) (length : N) : bytes :=
  if length <? 253 then buffer ++ le_bytes 1 length
  else if length <=? 65535 then buffer ++ [Byte.xfd] ++ le_bytes 2 length
  else if length <=? 4294967295 then buffer ++ [Byte.xfe] ++ le_bytes 4 length
  else buffer ++ [Byte.xff] ++ le_bytes 8 length.

Definition sha_sequences (transaction : Transaction) : bytes :=
  sha256 (foldl (fun buffer input => buffer ++ le_bytes 4 (sequence input)) [] (tx_input transaction)).

Definition push_output (buffer : bytes) (output : TxOut) : bytes :=
  client_push_compact_size (buffer ++ le_bytes 8 (value output)) (len (script_pubkey output))
  ++ script_pubkey output.

Definition sha_outputs (transaction : Transaction) : bytes :=
  sha256 (foldl push_output [] (tx_output transaction)).

Definition template_hash (transaction : Transaction) (input_index : N) : bytes :=
  tagged_hash TAG
    (i32_le_bytes (tx_version transaction) ++ le_bytes 4 (lock_time transaction)
     ++ sha_sequences transaction ++ sha_outputs transaction
     ++ [Byte.x00] ++ le_bytes 4 input_index).

End Client.

(* ------------------------------------------------------------------ *)
(** ** predicate.rs *)

(** A fresh buffer in the arena, with the bytes the memory holds there. *)
Definition scratch (arena : Arena) (length : N) : option (bytes * Arena) :=
  length32 ← u32_try_from length;
  let '(pointer, arena) := sapio_alloc_v1 arena length32 in
  if (pointer =? 0) || (length =? 0) then None
  else Some (mem_slice (memory arena) pointer length, arena).

(** [buffer.get_mut(lo..hi)?.copy_from_slice(value)] on a 32-bit target, where
    [value] has the length of the range. *)
Definition write_at (buffer : bytes) (lo hi : N) (value : bytes) : option bytes :=
  if (lo <=? hi) && (hi <=? len buffer)
  then Some (slice buffer 0 lo ++ value ++ slice buffer hi (len buffer - hi))
  else None.

(** [usize] addition of the release build. *)
Definition wrapping_add (a b : N) : N := (a + b) mod 2 ^ 32.

Definition push_compact_size (buffer : bytes) (offset length : N) : option (bytes * N) :=
  if length <? 253 then
    buffer ← write_at buffer offset (offset + 1) (le_bytes 1 length);
    Some (buffer, wrapping_add offset 1)
  else if length <=? 65535 then
    buffer ← write_at buffer offset (wrapping_add offset 3) (Byte.xfd :: le_bytes 2 length);
    Some (buffer, wrapping_add offset 3)
  else
    buffer ← write_at buffer offset (wrapping_add offset 5) (Byte.xfe :: le_bytes 4 length);
    Some (buffer, wrapping_add offset 5).

(** [buffer.chunks_exact_mut(4)], the slots and the remainder. *)
Fixpoint chunks_exact_4 (buffer : bytes) : list bytes * bytes :=
  match buffer with
  | a :: b :: c :: d :: rest => let '(slots, rest) := chunks_exact_4 rest in ([a; b; c; d] :: slots, rest)
  | rest => ([], rest)
  end.

(** The input loop: one slot per input receives its sequence. *)
Fixpoint fill_sequences (slots : list bytes) (view : Reader) : option (list bytes * Reader) :=
  match slots with
  | [] => Some ([], view)
  | _ :: slots =>
      '(_, view) ← take view 36;
      '(slot, view) ← take view 4;
      '(_, view) ← take view 8;
      '(script_length, view) ← u32 view;
      '(_, view) ← take view script_length;
      '(filled, view) ← fill_sequences slots view;
      Some (slot :: filled, view)
  end.

(** The output loop, [count] outputs left; the state is buffer and [used]. *)
Fixpoint fill_outputs (count : nat) (view : Reader) (outputs : bytes) (used : N)
    : option (Reader * bytes * N) :=
  match count with
  | O => Some (view, outputs, used)
  | S count =>
      '(value, view) ← take view 8;
      '(script_length, view) ← u32 view;
      '(script, view) ← take view script_length;
      outputs ← write_at outputs used (wrapping_add used 8) value;
      let used := wrapping_add used 8 in
      '(outputs, used) ← push_compact_size outputs used script_length;
      outputs ← write_at outputs used (wrapping_add used (len script)) script;
      fill_outputs count view outputs (wrapping_add used (len script))
  end.

(** Lines 78-85: the sequences of every input, in a scratch buffer. *)
Definition gather_sequences (arena : Arena) (view : Reader) (input_count : N)
    : option (bytes * Arena * Reader) :=
  '(sequences, arena) ← scratch arena ((4 * input_count) mod 2 ^ 32);
  let '(slots, remainder) := chunks_exact_4 sequences in
  '(filled, view) ← fill_sequences slots view;
  Some (concat filled ++ remainder, arena, view).

(** Lines 89-108 and the slice of line 113: the serialized outputs. *)
Definition gather_outputs (arena : Arena) (view : Reader) (view_length : N) : option bytes :=
  '(output_count, view) ← u32 view;
  '(outputs, _) ← scratch arena view_length;
  '(view, outputs, used) ← fill_outputs (N.to_nat output_count) view outputs 0;
  if is_finished view then Some (slice outputs 0 used) else None.

(** Lines 110-130: the tagged hash over the header's version and lock time. *)
Definition template_digest (sha256_import : bytes -> option bytes) (header : bytes)
    (input_index : N) (sequences outputs : bytes) : option bytes :=
  sha_sequences ← hash sha256_import sequences DIGEST;
  sha_outputs ← hash sha256_import outputs DIGEST;
  tag_hash ← hash sha256_import TAG DIGEST;
  hash sha256_import (tag_hash ++ tag_hash ++ slice header 0 8 ++ sha_sequences ++ sha_outputs
                      ++ [Byte.x00] ++ le_bytes 4 input_index) DIGEST.

Definition templatehash_evaluate (sha256_import : bytes -> option bytes) (arena : Arena)
    (args : Arguments) : option bool :=
  if negb (len (arg_program args) =? 0) || negb (len (arg_witness args) =? 0) then None else
  if negb (len (arg_parameters args) =? DIGEST) then None else
  let committed := arg_parameters args in
  '(header, view) ← take (Reader_new (arg_view args)) 16;
  let input_index := of_le (slice header 8 4) in
  let input_count := of_le (slice header 12 4) in
  if input_count <=? input_index then None else
  '(sequences, arena, view) ← gather_sequences arena view input_count;
  outputs ← gather_outputs arena view (len (arg_view args));
  digest ← template_digest sha256_import header input_index sequences outputs;
  Some (bool_decide (digest = committed)).

(* ------------------------------------------------------------------ *)
(** ** The reference preimages *)

Definition compact_size (length : N) : bytes := client_push_compact_size [] length.

(** A [CTxOut] serialization. *)
Definition serialize_output (output : TxOut) : bytes :=
  le_bytes 8 (value output) ++ compact_size (len (script_pubkey output)) ++ script_pubkey output.

Lemma client_push_compact_size_app buffer n :
  client_push_compact_size buffer n = buffer ++ compact_size n.
Proof. unfold compact_size, client_push_compact_size. by repeat case_match. Qed.

Lemma push_outputs_concat buffer outs :
  foldl push_output buffer outs = buffer ++ concat (serialize_output <$> outs).
Proof.
  revert buffer; induction outs as [|o outs IH]; intros buffer; cbn; [by rewrite app_nil_r|].
  rewrite IH. unfold push_output, serialize_output. by rewrite client_push_compact_size_app, <- !app_assoc.
Qed.

Lemma push_sequences_concat buffer ins :
  foldl (fun buffer input => buffer ++ le_bytes 4 (sequence input)) buffer ins
  = buffer ++ concat ((fun i => le_bytes 4 (sequence i)) <$> ins).
Proof.
  revert buffer; induction ins as [|i ins IH]; intros buffer; cbn; [by rewrite app_nil_r|].
  by rewrite IH, <- app_assoc.
Qed.

(** The predicate's buffer may hold one byte more per long script than the view
    has for the output, never more than sixteen bytes in a view. *)
Lemma compact_size_len n : 65536 * len (compact_size n) <= 65536 * 4 + n.
Proof.
  unfold compact_size, client_push_compact_size.
  destruct (N.ltb_spec n 253); [rewrite len_app, len_le_bytes, len_nil; lia|].
  destruct (N.leb_spec n 65535); [rewrite !len_app, len_le_bytes, len_cons, !len_nil; lia|].
  destruct (N.leb_spec n 4294967295); rewrite !len_app, len_le_bytes, len_cons, !len_nil; lia.
Qed.

Lemma serialized_len outs :
  65536 * len (concat (serialize_output <$> outs)) <= 65537 * sum (output_sizes outs).
Proof.
  induction outs as [|o outs IH]; [done|]. rewrite fmap_cons. cbn [concat].
  rewrite len_app, sum_output_sizes_cons. unfold serialize_output at 1.
  rewrite !len_app, len_le_bytes. pose proof (compact_size_len (len (script_pubkey o))). lia.
Qed.

(** The serialized outputs of a view that fits are shorter than the view. *)
Lemma serialized_fits input :
  native_context input -> view_size V1 input <= MAX_SIGNED_VIEW_BYTES ->
  len (concat (serialize_output <$> tx_output (unsigned_tx (psbt input)))) <= view_size V1 input.
Proof.
  intros H Hs. pose proof (serialized_len (tx_output (unsigned_tx (psbt input)))).
  unfold view_size, MAX_SIGNED_VIEW_BYTES in *. cbn in *. lia.
Qed.

(* ------------------------------------------------------------------ *)
(** ** The buffers *)

Lemma write_next done_ rest v :
  len (done_ ++ rest) < 2 ^ 32 -> len v <= len rest ->
  write_at (done_ ++ rest) (len done_) (wrapping_add (len done_) (len v)) v
  = Some ((done_ ++ v) ++ drop (length v) rest).
Proof.
  intros Hl Hv. rewrite len_app in Hl. unfold write_at, wrapping_add.
  rewrite N.mod_small by lia. rewrite len_app.
  assert ((len done_ <=? len done_ + len v) && (len done_ + len v <=? len done_ + len rest) = true) as ->.
  { rewrite andb_true_iff, !N.leb_le. lia. }
  f_equal. rewrite <- app_assoc. f_equal; [|f_equal].
  - unfold slice, len. rewrite Nat2N.id. cbn [N.to_nat drop]. apply take_app_length.
  - unfold slice. replace (N.to_nat (len done_ + len v)) with (length done_ + length v)%nat by (unfold len; lia).
    rewrite <- drop_drop, drop_app_length. apply take_ge. rewrite length_drop. unfold len in *. lia.
Qed.

Lemma len_drop {A} (v : list A) (l : bytes) : len (drop (length v) l) = len l - len v.
Proof. unfold len. rewrite length_drop. lia. Qed.

Lemma wrapping_add_small a b : a + b < 2 ^ 32 -> wrapping_add a b = a + b.
Proof. intros H. unfold wrapping_add. by apply N.mod_small. Qed.

Lemma push_compact_size_next done_ rest n :
  len (done_ ++ rest) < 2 ^ 32 -> n < 2 ^ 32 -> len (compact_size n) <= len rest ->
  push_compact_size (done_ ++ rest) (len done_) n
  = Some ((done_ ++ compact_size n) ++ drop (length (compact_size n)) rest,
          len done_ + len (compact_size n)).
Proof.
  intros Hl Hn. pose proof Hl as Hl'. rewrite len_app in Hl'.
  unfold push_compact_size, compact_size, client_push_compact_size. cbn [app].
  destruct (N.ltb_spec n 253); [|destruct (N.leb_spec n 65535)]; [| |destruct (N.leb_spec n 4294967295); [|lia]];
    intros Hc.
  - pose proof (write_next done_ rest (le_bytes 1 n) Hl Hc) as W. rewrite len_le_bytes in *.
    rewrite wrapping_add_small in W by lia. change (N.of_nat 1) with 1 in W, Hc |- *. rewrite W.
    cbn [mbind option_bind]. by rewrite wrapping_add_small by lia.
  - pose proof (write_next done_ rest _ Hl Hc) as W. rewrite len_cons, len_le_bytes in *.
    change (1 + N.of_nat 2) with 3 in W, Hc |- *. rewrite W. cbn [mbind option_bind].
    by rewrite wrapping_add_small by lia.
  - pose proof (write_next done_ rest _ Hl Hc) as W. rewrite len_cons, len_le_bytes in *.
    change (1 + N.of_nat 4) with 5 in W, Hc |- *. rewrite W. cbn [mbind option_bind].
    by rewrite wrapping_add_small by lia.
Qed.

(* ------------------------------------------------------------------ *)
(** ** The loops *)

(** Read one field: the next part of the layout is at the cursor. *)
Ltac read_with lem := rewrite lem by (first [assumption | rewrite ?len_app, ?len_le_bytes in *; lia]);
  cbn [mbind option_bind].

Section Loops.
  Context {codec : OutPointCodec} {laws : OutPointCodecLaws}.

Lemma fill_sequences_spec ins prevs slots p rest :
  Forall wf_txin ins -> Forall wf_txout prevs ->
  length prevs = length ins -> length slots = length ins ->
  len (p ++ concat (zip_with encode_input ins prevs) ++ rest) < 2 ^ 32 ->
  fill_sequences slots (reader_at p (concat (zip_with encode_input ins prevs) ++ rest))
  = Some ((fun i => le_bytes 4 (sequence i)) <$> ins,
          reader_at (p ++ concat (zip_with encode_input ins prevs)) rest).
Proof.
  intros Hi Hp Hlen Hs Hb. revert prevs slots p Hp Hlen Hs Hb.
  induction Hi as [|txin ins Hin _ IH]; intros [|o prevs] [|slot slots] p Hp Hlen Hs Hb; try discriminate.
  - cbn. by rewrite app_nil_r.
  - inversion_clear Hp as [|? ? [Hv Hscript] Hp']. pose proof (outpoint_len _ (proj1 Hin)) as Ho.
    cbn [zip_with concat fmap list_fmap fill_sequences] in *. rewrite <- !app_assoc in Hb |- *.
    rewrite !len_app, len_encode_input in Hb by done.
    rewrite (app_assoc p), app_assoc.
    unfold encode_input at 1. rewrite <- !app_assoc.
    do 2 read_with take_at. read_with take_at. read_with u32_at. read_with take_at.
    rewrite <- !app_assoc. fold (encode_input txin o).
    rewrite IH; [cbn [mbind option_bind]; by rewrite <- !app_assoc
                |done|cbn in Hlen; lia|cbn in Hs; lia|].
    rewrite !len_app, len_encode_input by done. lia.
Qed.

Lemma fill_outputs_spec outs p rest done_ free :
  Forall wf_txout outs ->
  len (p ++ concat (encode_output <$> outs) ++ rest) < 2 ^ 32 ->
  len (done_ ++ free) < 2 ^ 32 ->
  len (concat (serialize_output <$> outs)) <= len free ->
  exists free',
    fill_outputs (length outs) (reader_at p (concat (encode_output <$> outs) ++ rest))
      (done_ ++ free) (len done_)
    = Some (reader_at (p ++ concat (encode_output <$> outs)) rest,
            (done_ ++ concat (serialize_output <$> outs)) ++ free',
            len (done_ ++ concat (serialize_output <$> outs))).
Proof.
  intros Ho. revert p done_ free. induction Ho as [|o outs [Hv Hs] _ IH]; intros p done_ free Hb Hd Hf.
  - exists free. cbn. by rewrite !app_nil_r.
  - rewrite !fmap_cons in *. cbn [concat length fill_outputs] in *. rewrite <- !app_assoc in Hb |- *.
    rewrite !len_app, len_encode_output in Hb.
    unfold serialize_output at 1 in Hf. rewrite !len_app, len_le_bytes in Hf.
    unfold encode_output at 1. rewrite <- !app_assoc.
    read_with take_at. read_with u32_at. read_with take_at.
    rewrite <- !app_assoc. fold (encode_output o).
    pose proof (write_next done_ free (le_bytes 8 (value o)) Hd) as W. rewrite len_le_bytes in W.
    change (N.of_nat 8) with 8 in *. rewrite W by lia. cbn [mbind option_bind]. clear W.
    rewrite len_app in Hd.
    rewrite wrapping_add_small by lia.
    replace (len done_ + 8) with (len (done_ ++ le_bytes 8 (value o))) by (by rewrite len_app, len_le_bytes).
    set (d1 := done_ ++ le_bytes 8 (value o)). set (f1 := drop _ free).
    assert (len d1 = len done_ + 8) as L1 by (unfold d1; by rewrite len_app, len_le_bytes).
    assert (len f1 = len free - 8) as L2 by (unfold f1; by rewrite len_drop, len_le_bytes).
    rewrite push_compact_size_next by (rewrite ?len_app; lia). cbn [mbind option_bind].
    set (c := compact_size (len (script_pubkey o))) in *.
    replace (len d1 + len c) with (len (d1 ++ c)) by apply len_app.
    rewrite write_next by (rewrite ?len_app, ?len_drop; lia). cbn [mbind option_bind].
    rewrite wrapping_add_small by (rewrite len_app; lia).
    replace (len (d1 ++ c) + len (script_pubkey o)) with (len ((d1 ++ c) ++ script_pubkey o)) by apply len_app.
    destruct (IH (p ++ encode_output o) ((d1 ++ c) ++ script_pubkey o)
                (drop (length (script_pubkey o)) (drop (length c) f1))) as (free' & E).
    { rewrite !len_app, len_encode_output. lia. }
    { rewrite !len_app, !len_drop. lia. }
    { rewrite !len_drop. lia. }
    exists free'. rewrite E. unfold d1.
    assert (serialize_output o = le_bytes 8 (value o) ++ c ++ script_pubkey o) as -> by done.
    by rewrite <- !app_assoc.
Qed.

End Loops.

(* ------------------------------------------------------------------ *)
(** ** The whole predicate *)

Lemma chunks_exact_4_spec n buffer :
  length buffer = (4 * n)%nat ->
  exists slots, chunks_exact_4 buffer = (slots, []) /\ length slots = n.
Proof.
  revert buffer; induction n as [|n IH]; intros buffer H.
  - destruct buffer; [|done]. by exists [].
  - destruct buffer as [|a [|b [|c [|d rest]]]]; cbn in H; try lia.
    destruct (IH rest) as (slots & E & L); [lia|]. exists ([a; b; c; d] :: slots).
    cbn. rewrite E. by rewrite <- L.
Qed.

Lemma scratch_fits a n :
  wf_arena a -> n <> 0 -> used a + n <= INPUT_CAPACITY ->
  exists buffer a', scratch a n = Some (buffer, a') /\ len buffer = n /\ wf_arena a' /\ used a' = used a + n.
Proof.
  intros Ha Hn Hc. unfold scratch, u32_try_from.
  assert (n <? 2 ^ 32 = true) as -> by (apply N.ltb_lt; unfold INPUT_CAPACITY, MAX_VIEW, MAX_ARGUMENT in *; lia).
  cbn [mbind option_bind]. pose proof (alloc_wf a n Ha) as Hw. rewrite alloc_fits in Hw |- * by done.
  destruct Ha as (_ & H0 & _). apply N.eqb_neq in Hn. rewrite Hn.
  assert (base a + used a =? 0 = false) as -> by (apply N.eqb_neq; lia). cbn [orb].
  do 2 eexists. split; [reflexivity|]. by rewrite length_mem_slice.
Qed.

Lemma scratch_refuses a n : wf_arena a -> INPUT_CAPACITY < used a + n -> scratch a n = None.
Proof.
  intros Ha Hc. unfold scratch, u32_try_from. destruct (n <? 2 ^ 32); [|done].
  cbn [mbind option_bind]. by rewrite alloc_refuses.
Qed.

Lemma slice_prefix (a b : bytes) : slice (a ++ b) 0 (len a) = a.
Proof. exact (slice_app [] a b). Qed.

Lemma header_slices input :
  slice (view_header input) 0 8
    = i32_le_bytes (tx_version (unsigned_tx (psbt input))) ++ le_bytes 4 (lock_time (unsigned_tx (psbt input))) /\
  slice (view_header input) 8 4 = le_bytes 4 (input_index input) /\
  slice (view_header input) 12 4 = le_bytes 4 (len (tx_input (unsigned_tx (psbt input)))).
Proof.
  unfold view_header. set (v := i32_le_bytes _). set (l := le_bytes 4 (lock_time _)).
  set (i := le_bytes 4 (input_index _)). set (n := le_bytes 4 (len _)).
  assert (len v = 4) as Lv by (unfold v, len; by rewrite length_i32_le_bytes).
  assert (len l = 4 /\ len i = 4 /\ len n = 4) as (Ll & Li & Ln) by (unfold l, i, n; by rewrite !len_le_bytes).
  split; [|split].
  - pose proof (slice_app [] (v ++ l) (i ++ n)) as H. rewrite !len_app, Lv, Ll in H.
    by rewrite <- !app_assoc in H.
  - pose proof (slice_app (v ++ l) i n) as H. rewrite !len_app, Lv, Ll, Li in H.
    by rewrite <- !app_assoc in H.
  - pose proof (slice_app (v ++ l ++ i) n []) as H. rewrite !len_app, Lv, Ll, Li, Ln, app_nil_r in H.
    by rewrite <- !app_assoc in H.
Qed.

Lemma len_bound4 n : n < 2 ^ 32 -> n < 256 ^ N.of_nat 4.
Proof. intros H. exact H. Qed.

Section Predicate.
  Context {codec : OutPointCodec} {laws : OutPointCodecLaws}.

(** The sequences part. *)
Lemma gather_sequences_spec arena ins prevs p rest :
  wf_arena arena -> Forall wf_txin ins -> Forall wf_txout prevs ->
  length prevs = length ins -> 0 < len ins -> len ins < 2 ^ 30 ->
  used arena + 4 * len ins <= INPUT_CAPACITY ->
  len (p ++ concat (zip_with encode_input ins prevs) ++ rest) < 2 ^ 32 ->
  exists arena', wf_arena arena' /\ used arena' = used arena + 4 * len ins /\
    gather_sequences arena (reader_at p (concat (zip_with encode_input ins prevs) ++ rest)) (len ins)
    = Some (concat ((fun i => le_bytes 4 (sequence i)) <$> ins), arena',
            reader_at (p ++ concat (zip_with encode_input ins prevs)) rest).
Proof.
  intros Ha Hi Hp Hl Hn Hn30 Hc Hb. unfold gather_sequences. rewrite N.mod_small by lia.
  destruct (scratch_fits arena (4 * len ins)) as (b & a & E & Lb & Ha' & Hu); [done|lia|done|].
  destruct (chunks_exact_4_spec (length ins) b) as (slots & Es & Ls); [unfold len in Lb; lia|].
  exists a. repeat (split; [done|]). rewrite E. cbn [mbind option_bind]. rewrite Es.
  rewrite fill_sequences_spec by assumption. cbn [mbind option_bind]. by rewrite app_nil_r.
Qed.

(** The outputs part. *)
Lemma gather_outputs_spec arena outs size q :
  wf_arena arena -> Forall wf_txout outs -> len outs < 2 ^ 32 -> 0 < size -> size < 2 ^ 32 ->
  len (concat (serialize_output <$> outs)) <= size ->
  len (q ++ le_bytes 4 (len outs) ++ concat (encode_output <$> outs) ++ []) < 2 ^ 32 ->
  gather_outputs arena (reader_at q (le_bytes 4 (len outs) ++ concat (encode_output <$> outs) ++ [])) size
  = if used arena + size <=? INPUT_CAPACITY then Some (concat (serialize_output <$> outs)) else None.
Proof.
  intros Ha Ho Hn H0 Hs Hf Hb. unfold gather_outputs. rewrite u32_at by assumption. cbn [mbind option_bind].
  destruct (N.leb_spec (used arena + size) INPUT_CAPACITY) as [Hc|Hc]; [|by rewrite scratch_refuses].
  destruct (scratch_fits arena size) as (b & a & -> & Lb & _ & _); [done|lia|done|].
  cbn [mbind option_bind]. rewrite app_assoc in Hb.
  destruct (fill_outputs_spec outs (q ++ le_bytes 4 (len outs)) [] [] b) as (free & E);
    [exact Ho|exact Hb|rewrite app_nil_l, Lb; exact Hs|rewrite Lb; exact Hf|].
  rewrite !app_nil_l, len_nil in E. replace (N.to_nat (len outs)) with (length outs) by (unfold len; lia).
  rewrite E. cbn [mbind option_bind]. rewrite is_finished_at. cbn [bool_decide].
  by rewrite slice_prefix.
Qed.

Context (sha256 : bytes -> bytes).

(** Arena bytes the predicate asks for on top of the host's inputs. *)
Definition scratch_size (input : SigningInput) : N :=
  4 * len (tx_input (unsigned_tx (psbt input))) + view_size V1 input.

Lemma template_digest_spec input :
  template_digest (fun bs => Some (sha256 bs)) (view_header input) (input_index input)
    (concat ((fun i => le_bytes 4 (sequence i)) <$> tx_input (unsigned_tx (psbt input))))
    (concat (serialize_output <$> tx_output (unsigned_tx (psbt input))))
  = Some (template_hash sha256 (unsigned_tx (psbt input)) (input_index input)).
Proof.
  destruct (header_slices input) as (S1 & _ & _).
  unfold template_digest, hash, template_hash, tagged_hash, sha_sequences, sha_outputs.
  change (negb (DIGEST =? 32)) with false. cbn [mbind option_bind].
  by rewrite S1, push_sequences_concat, push_outputs_concat, !app_nil_l, <- !app_assoc.
Qed.

(** The checks before the first buffer. *)
Lemma templatehash_header import arena input committed rest :
  len committed = DIGEST ->
  len (tx_input (unsigned_tx (psbt input))) < 2 ^ 32 ->
  input_index input < len (tx_input (unsigned_tx (psbt input))) ->
  len (view_header input ++ rest) < 2 ^ 32 ->
  templatehash_evaluate import arena
    {| arg_program := []; arg_parameters := committed;
       arg_view := view_header input ++ rest; arg_witness := [] |}
  = ('(sequences, arena, view) ←
       gather_sequences arena (reader_at (view_header input) rest) (len (tx_input (unsigned_tx (psbt input))));
     outputs ← gather_outputs arena view (len (view_header input ++ rest));
     digest ← template_digest import (view_header input) (input_index input) sequences outputs;
     Some (bool_decide (digest = committed))).
Proof.
  intros Hc Hn Hi Hb. destruct (header_slices input) as (_ & S2 & S3).
  unfold templatehash_evaluate; cbn [arg_program arg_parameters arg_view arg_witness].
  change (len (@nil byte) =? 0) with true; cbn [negb orb]. rewrite Hc. cbn [N.eqb Pos.eqb negb DIGEST].
  rewrite Reader_new_at, take_at by (rewrite ?len_view_header; first [reflexivity | exact Hb]).
  cbn [mbind option_bind]. rewrite S2, S3.
  rewrite !of_le_le_bytes_small by (apply len_bound4; lia).
  apply N.leb_gt in Hi. by rewrite Hi.
Qed.

Lemma gather_sequences_refuses arena view n :
  wf_arena arena -> n < 2 ^ 30 -> INPUT_CAPACITY < used arena + 4 * n ->
  gather_sequences arena view n = None.
Proof.
  intros Ha Hn Hc. unfold gather_sequences. rewrite N.mod_small by lia. by rewrite scratch_refuses.
Qed.

Lemma templatehash_layout input arena committed :
  native_context input -> view_size V1 input <= MAX_SIGNED_VIEW_BYTES ->
  wf_arena arena -> len committed = DIGEST ->
  templatehash_evaluate (fun bs => Some (sha256 bs)) arena
    {| arg_program := []; arg_parameters := committed;
       arg_view := view_layout V1 input; arg_witness := [] |}
  = if used arena + scratch_size input <=? INPUT_CAPACITY
    then Some (bool_decide (template_hash sha256 (unsigned_tx (psbt input)) (input_index input) = committed))
    else None.
Proof.
  intros H Hs Ha Hc. destruct (fitting_counts _ _ H Hs) as (Hni & Hno & _).
  pose proof (len_view_layout V1 input H) as Hlen. pose proof (template_digest_spec input) as Hdigest.
  pose proof (native_index _ H) as Hidx. pose proof (native_prevouts_length _ H) as Hpl.
  pose proof (native_wf _ H) as [_ _ Hwi Hwo]. pose proof (serialized_fits _ H Hs) as Hser.
  pose proof (sum_input_sizes_ge (prevout_list input)) as Hge.
  assert (52 * len (tx_input (unsigned_tx (psbt input))) + 20 <= view_size V1 input) as H52.
  { unfold view_size, len in *. rewrite Hpl in Hge. cbn. lia. }
  unfold MAX_SIGNED_VIEW_BYTES in Hs. unfold scratch_size in *. rewrite view_layout_written in *. unfold written_view in *.
  change (if decide (V1 = V2) then _ else []) with (@nil byte) in *.
  rewrite templatehash_header by (first [assumption | lia]). rewrite Hlen.
  set (ins := tx_input (unsigned_tx (psbt input))) in *. set (outs := tx_output (unsigned_tx (psbt input))) in *.
  destruct (N.le_gt_cases (used arena + 4 * len ins) INPUT_CAPACITY) as [H1|H1].
  2: { rewrite gather_sequences_refuses by (first [assumption | lia]).
       assert (used arena + (4 * len ins + view_size V1 input) <=? INPUT_CAPACITY = false) as ->; [|done].
       apply N.leb_gt. lia. }
  assert (len (view_header input ++ concat (zip_with encode_input ins (prevout_list input))
               ++ le_bytes 4 (len outs) ++ concat (encode_output <$> outs) ++ []) < 2 ^ 32) as Hl32 by lia.
  destruct (gather_sequences_spec arena ins (prevout_list input) (view_header input) _
              Ha Hwi (native_wf_prevouts _ H) Hpl ltac:(lia) ltac:(lia) H1 Hl32) as (a1 & Ha1 & Hu1 & ->).
  rewrite obind_step. cbv beta iota. rewrite app_assoc in Hl32.
  rewrite gather_outputs_spec by (first [assumption | lia]). rewrite Hu1, <- N.add_assoc.
  destruct (_ <=? _); [|done]. rewrite obind_step, Hdigest. by rewrite obind_step.
Qed.

End Predicate.

(* ------------------------------------------------------------------ *)
(** ** The preimages are unambiguous *)

Lemma le_byte_head n s b r : n < 253 -> 253 <= Byte.to_N b -> le_bytes 1 n ++ s = b :: r -> False.
Proof.
  intros Hn Hb H. assert (byte_of_N n = b) as E by (by injection H).
  apply (f_equal Byte.to_N) in E. rewrite to_N_byte_of_N, N.mod_small in E; lia.
Qed.

Lemma le_bytes_app_inj k n m x y :
  n < 256 ^ N.of_nat k -> m < 256 ^ N.of_nat k ->
  le_bytes k n ++ x = le_bytes k m ++ y -> n = m /\ x = y.
Proof.
  intros Hn Hm H. apply app_inj_1 in H as [E ->]; [|by rewrite !length_le_bytes].
  apply le_bytes_inj in E; [|done..]. done.
Qed.

Lemma compact_size_app_inj n m x y :
  n < 2 ^ 32 -> m < 2 ^ 32 -> compact_size n ++ x = compact_size m ++ y -> n = m /\ x = y.
Proof.
  intros Hn Hm. unfold compact_size, client_push_compact_size. cbn [app].
  assert (n <=? 4294967295 = true) as -> by (apply N.leb_le; lia).
  assert (m <=? 4294967295 = true) as -> by (apply N.leb_le; lia).
  destruct (N.ltb_spec n 253) as [A|A], (N.ltb_spec m 253) as [B|B].
  - apply le_bytes_app_inj; cbn; lia.
  - destruct (m <=? 65535); intros E; apply le_byte_head in E; (done || cbn; lia).
  - destruct (n <=? 65535); intros E; symmetry in E; apply le_byte_head in E; (done || cbn; lia).
  - destruct (N.leb_spec n 65535), (N.leb_spec m 65535); cbn [app]; intros E; try discriminate E;
      apply (f_equal tail) in E; cbn [tail] in E; (apply le_bytes_app_inj in E; [done|cbn; lia..]).
Qed.

Lemma serialize_output_app_inj o1 o2 x y :
  wf_txout o1 -> wf_txout o2 ->
  serialize_output o1 ++ x = serialize_output o2 ++ y -> o1 = o2 /\ x = y.
Proof.
  intros [V1 S1] [V2 S2]. unfold serialize_output. rewrite <- !app_assoc. intros H.
  apply le_bytes_app_inj in H as [Ev H]; [|done..].
  apply compact_size_app_inj in H as [El H]; [|done..].
  apply app_inj_1 in H as [Es ->]; [|unfold len in El; lia].
  destruct o1, o2; cbn in *; by subst.
Qed.

Lemma serialize_output_nonempty o s : serialize_output o ++ s <> [].
Proof.
  intros H. apply (f_equal len) in H. unfold serialize_output in H.
  rewrite !len_app, len_le_bytes, len_nil in H. lia.
Qed.

Lemma serialized_inj outs1 outs2 :
  Forall wf_txout outs1 -> Forall wf_txout outs2 ->
  concat (serialize_output <$> outs1) = concat (serialize_output <$> outs2) -> outs1 = outs2.
Proof.
  intros H1. revert outs2. induction H1 as [|o1 outs1 W1 _ IH]; intros [|o2 outs2] H2 E; [done|..].
  - symmetry in E. by apply serialize_output_nonempty in E.
  - by apply serialize_output_nonempty in E.
  - inversion_clear H2 as [|? ? W2 H2']. rewrite !fmap_cons in E. cbn [concat] in E.
    apply serialize_output_app_inj in E as [-> E]; [|done..]. by rewrite (IH _ H2' E).
Qed.

Lemma sequences_inj (l1 l2 : list N) :
  Forall (fun s => s < 2 ^ 32) l1 -> Forall (fun s => s < 2 ^ 32) l2 ->
  concat (le_bytes 4 <$> l1) = concat (le_bytes 4 <$> l2) -> l1 = l2.
Proof.
  intros H1. revert l2. induction H1 as [|s1 l1 W1 _ IH]; intros [|s2 l2] H2 E; [done|done|done|].
  inversion_clear H2 as [|? ? W2 H2']. rewrite !fmap_cons in E. cbn [concat] in E.
  apply le_bytes_app_inj in E as [-> E]; [|done..]. by rewrite (IH _ H2' E).
Qed.

(** What a template hash commits to. *)
Definition same_template (t1 t2 : Transaction) : Prop :=
  tx_version t1 = tx_version t2 /\ lock_time t1 = lock_time t2 /\
  sequence <$> tx_input t1 = sequence <$> tx_input t2 /\ tx_output t1 = tx_output t2.

(** One of the given pairs is a collision: different strings, one digest. *)
Definition collision_among (sha256 : bytes -> bytes) (pairs : list (bytes * bytes)) : Prop :=
  exists x y, (x, y) ∈ pairs /\ x <> y /\ sha256 x = sha256 y.

(** What a tagged hash and a template hash feed to SHA-256. *)
Definition tagged_preimage (sha256 : bytes -> bytes) (tag message : bytes) : bytes :=
  sha256 tag ++ sha256 tag ++ message.

Definition template_message (sha256 : bytes -> bytes) (tx : Transaction) (i : N) : bytes :=
  i32_le_bytes (tx_version tx) ++ le_bytes 4 (lock_time tx) ++ sha_sequences sha256 tx ++ sha_outputs sha256 tx
  ++ [Byte.x00] ++ le_bytes 4 i.

Definition template_preimages (sha256 : bytes -> bytes) (t1 : Transaction) (i1 : N) (t2 : Transaction) (i2 : N)
    : list (bytes * bytes) := [
  (tagged_preimage sha256 TAG (template_message sha256 t1 i1), tagged_preimage sha256 TAG (template_message sha256 t2 i2));
  (concat ((fun i => le_bytes 4 (sequence i)) <$> tx_input t1), concat ((fun i => le_bytes 4 (sequence i)) <$> tx_input t2));
  (concat (serialize_output <$> tx_output t1), concat (serialize_output <$> tx_output t2))].

(** Equal digests give equal preimages, up to a collision. *)
Lemma preimage sha256 pairs x y :
  sha256 x = sha256 y -> (x, y) ∈ pairs -> x = y \/ collision_among sha256 pairs.
Proof. intros H Hin. destruct (decide (x = y)); [by left|right; by exists x, y]. Qed.

Lemma collision_among_mono sha256 l1 l2 : l1 ⊆ l2 -> collision_among sha256 l1 -> collision_among sha256 l2.
Proof. intros Hsub (x & y & Hin & H). exists x, y. split; [by apply Hsub|done]. Qed.

Lemma sequence_bounds ins : Forall wf_txin ins -> Forall (fun s => s < 2 ^ 32) (sequence <$> ins).
Proof. induction 1 as [|i ins [_ H] _ IH]; cbn; by constructor. Qed.

Lemma template_parts (sha256 : bytes -> bytes) t1 t2 i1 i2 :
  (forall x, len (sha256 x) = DIGEST) ->
  wf_transaction t1 -> wf_transaction t2 -> i1 < 2 ^ 32 -> i2 < 2 ^ 32 ->
  i32_le_bytes (tx_version t1) ++ le_bytes 4 (lock_time t1)
    ++ sha_sequences sha256 t1 ++ sha_outputs sha256 t1 ++ [Byte.x00] ++ le_bytes 4 i1
  = i32_le_bytes (tx_version t2) ++ le_bytes 4 (lock_time t2)
    ++ sha_sequences sha256 t2 ++ sha_outputs sha256 t2 ++ [Byte.x00] ++ le_bytes 4 i2 ->
  tx_version t1 = tx_version t2 /\ lock_time t1 = lock_time t2 /\
  sha_sequences sha256 t1 = sha_sequences sha256 t2 /\ sha_outputs sha256 t1 = sha_outputs sha256 t2 /\
  i1 = i2.
Proof.
  intros Hlen [V1 L1 _ _] [V2 L2 _ _] I1 I2 H.
  apply app_inj_1 in H as [Ev H]; [|by rewrite !length_i32_le_bytes].
  apply i32_le_bytes_inj in Ev; [|done..].
  apply le_bytes_app_inj in H as [El H]; [|done..].
  apply app_eq_len in H as [Es H]; [|unfold sha_sequences; by rewrite !Hlen].
  apply app_eq_len in H as [Eo H]; [|unfold sha_outputs; by rewrite !Hlen].
  apply (f_equal tail) in H. cbn [app tail] in H. apply le_bytes_inj in H; done.
Qed.

(** Equal template hashes, up to a collision of their own preimages. *)
Lemma template_hash_same sha256 t1 t2 i1 i2 :
  (forall x, len (sha256 x) = DIGEST) ->
  wf_transaction t1 -> wf_transaction t2 -> i1 < 2 ^ 32 -> i2 < 2 ^ 32 ->
  template_hash sha256 t1 i1 = template_hash sha256 t2 i2 ->
  (same_template t1 t2 /\ i1 = i2) \/ collision_among sha256 (template_preimages sha256 t1 i1 t2 i2).
Proof.
  intros Hlen W1 W2 I1 I2 H. unfold template_hash, tagged_hash in H.
  apply (preimage _ (template_preimages sha256 t1 i1 t2 i2)) in H as [H|?]; [|by right|apply list_elem_of_here].
  do 2 apply app_inv_head in H. apply template_parts in H as (Ev & El & Es & Eo & ->); [|done..].
  unfold sha_sequences in Es. unfold sha_outputs in Eo.
  rewrite !push_sequences_concat, !app_nil_l in Es. rewrite !push_outputs_concat, !app_nil_l in Eo.
  apply (preimage _ (template_preimages sha256 t1 i2 t2 i2)) in Es as [Es|?];
    [|by right|apply list_elem_of_further, list_elem_of_here].
  apply (preimage _ (template_preimages sha256 t1 i2 t2 i2)) in Eo as [Eo|?];
    [|by right|apply list_elem_of_further, list_elem_of_further, list_elem_of_here].
  left. split; [|done]. repeat split; [done|done| |apply serialized_inj; [apply W1|apply W2|done]].
  apply sequences_inj; [apply sequence_bounds, W1|apply sequence_bounds, W2|].
  by rewrite <- !list_fmap_compose.
Qed.

(* ------------------------------------------------------------------ *)
(** ** Properties *)

(** On the signed view of an authenticated spend the predicate answers
    whether the transaction and input index hash to the committed template,
    computed as the client computes it, when its two scratch buffers fit the
    guest arena, and refuses without an answer otherwise. *)
Theorem templatehash_evaluate_spec {codec : OutPointCodec} {laws : OutPointCodecLaws}
    sha256 arena input view committed :
  native_context input -> encode_view V1 input = Ok view ->
  wf_arena arena -> len committed = DIGEST ->
  templatehash_evaluate (fun bs => Some (sha256 bs)) arena
    {| arg_program := []; arg_parameters := committed; arg_view := view; arg_witness := [] |}
  = if used arena + scratch_size input <=? INPUT_CAPACITY
    then Some (bool_decide (template_hash sha256 (unsigned_tx (psbt input)) (input_index input) = committed))
    else None.
Proof.
  intros H Hv Ha Hc. rewrite encode_view_fits in Hv by done.
  destruct (N.leb_spec (view_size V1 input) MAX_SIGNED_VIEW_BYTES); [|done].
  apply Ok_inj in Hv as <-. by apply templatehash_layout.
Qed.

(** A template hash binds the version, lock time, every sequence, every
    output and the input index: two well-formed transactions with the same hash
    agree on all of them, or one of the three pairs of strings they feed to
    SHA-256 is a collision. *)
Theorem template_hash_binding sha256 t1 t2 i1 i2 :
  (forall x, len (sha256 x) = DIGEST) ->
  wf_transaction t1 -> wf_transaction t2 -> i1 < 2 ^ 32 -> i2 < 2 ^ 32 ->
  template_hash sha256 t1 i1 = template_hash sha256 t2 i2 ->
  (same_template t1 t2 /\ i1 = i2) \/ collision_among sha256 (template_preimages sha256 t1 i1 t2 i2).
Proof. apply template_hash_same. Qed.

#[local] Existing Instances StandardOutPoint.codec StandardOutPoint.codec_laws.

(** A fresh guest arena and a 32-byte checksum. *)
Module SampleTemplate.

Definition arena : Arena := {| base := 65536; used := 0; memory := fun _ => Byte.x00 |}.

Definition digest (bs : bytes) : bytes := firstn 32 (rev bs ++ replicate 32 Byte.x00).

Lemma digest_len bs : len (digest bs) = DIGEST.
Proof.
  unfold digest, len. rewrite length_firstn, length_app, length_rev, length_replicate. unfold DIGEST. lia.
Qed.

End SampleTemplate.

Lemma templatehash_evaluate_spec_witness : exists view,
  encode_view V1 SampleContext.context = Ok view /\
  templatehash_evaluate (fun bs => Some (SampleTemplate.digest bs)) SampleTemplate.arena
    {| arg_program := []; arg_parameters := template_hash SampleTemplate.digest SampleContext.tx 0;
       arg_view := view; arg_witness := [] |} = Some true.
Proof.
  eexists. split; [reflexivity|].
  rewrite (templatehash_evaluate_spec SampleTemplate.digest SampleTemplate.arena SampleContext.context);
    [reflexivity | exact SampleContext.native | reflexivity | vm_compute; repeat split; congruence |].
  apply SampleTemplate.digest_len.
Defined.

Lemma template_hash_binding_witness :
  (same_template SampleContext.tx SampleContext.tx /\ 0 = 0) \/
  collision_among SampleTemplate.digest
    (template_preimages SampleTemplate.digest SampleContext.tx 0 SampleContext.tx 0).
Proof.
  apply (template_hash_binding SampleTemplate.digest SampleContext.tx SampleContext.tx 0 0
    SampleTemplate.digest_len (native_wf _ SampleContext.native) (native_wf _ SampleContext.native)
    eq_refl eq_refl eq_refl).
Defined.
