(* ===== verification/Evaluator.v ===== *)
(** * Evaluator: authorizing a native spend (src/evaluator.rs)

    [authorize] is the only gate between a spend request and a program nonce.
    It checks the PSBT, the native signature hash, finalization and annex,
    selects the module, and runs it with [evaluate]: a static budget check, the
    signed view, allocation of four input regions through the guest's own
    allocator, a copy, one call.  wasmparser and wasmer (with the metering and
    crypto imports of sapio_wasm) are the interface [WasmRuntime]; its laws say
    what the documentation of linear memory promises. *)

From S2P Require Import Prelude Bytes Bitcoin Program SignedView.

Open Scope N_scope.

(* ------------------------------------------------------------------ *)
(** ** What wasmparser reports *)

Inductive ValType := I32 | I64 | F32 | F64 | V128 | Ref.

#[export] Instance valtype_eq_dec : EqDecision ValType.
Proof. solve_decision. Defined.

Record FuncType := { params : list ValType; results : list ValType }.

Inductive TypeRef := Func (index : N) | NotFunc.

Record Import_ := { import_module : bytes; import_name : bytes; import_ty : TypeRef }.

Inductive Payload :=
| TypeSection (types : list (Result string FuncType))
| ImportSection (imports : list (Result string Import_))
| FunctionSection (functions : list (Result string N))
| CodeSectionEntry (locals : Result string (list (Result string (N * ValType))))
| StartSection
| OtherPayload.

(** The import namespaces of sapio_wasm, as USAGE.txt and guest.rs name them. *)
Definition CRYPTO_NAMESPACE : bytes := lit "sapio_crypto_v1".
Definition CRYPTO_NAMESPACE_V2 : bytes := lit "sapio_crypto_v2".

(** wasmer and the host crypto imports.  A call returns the store it leaves
    behind even when it traps. *)
Class WasmRuntime := {
  Store : Type;
  Module_ : Type;
  Imports : Type;
  Crypto : Type;
  Instance_ : Type;
  Memory : Type;
  Allocate : Type;
  Evaluate : Type;
  instance_fuel : string;
  parse_all : bytes -> list (Result string Payload);
  new_evaluator_store : Store;
  module_new : Store -> bytes -> Result string Module_;
  imports_new : Imports;
  add_crypto_imports : Store -> Imports -> Crypto * Imports * Store;
  add_crypto_imports_v2 : Store -> Imports -> Crypto * Imports * Store;
  instance_new : Store -> Module_ -> Imports -> Result string (Instance_ * Store);
  bind_crypto : Crypto -> Store -> Instance_ -> Result string Store;
  get_memory : Instance_ -> bytes -> Result string Memory;
  get_allocate : Instance_ -> Store -> bytes -> Result string Allocate;
  get_evaluate : Instance_ -> Store -> bytes -> Result string Evaluate;
  call_allocate : Allocate -> Store -> Z -> Result string Z * Store;
  call_evaluate : Evaluate -> Store -> list Z -> Result string Z * Store;
  metering_exhausted : Store -> Instance_ -> bool;
  data_size : Store -> Memory -> N;
  write : Store -> Memory -> N -> bytes -> Result string Store;
  contents : Store -> Memory -> N -> byte;
}.

(** Documented: linear memory never shrinks and is addressed by 32 bits, and a
    write inside it succeeds, changes those bytes only and keeps the size. *)
Class WasmRuntimeLaws `{!WasmRuntime} : Prop := {
  call_allocate_grows f s n m : data_size s m <= data_size (snd (call_allocate f s n)) m;
  write_in_bounds s m start bs :
    start + len bs <= data_size s m ->
    exists s', write s m start bs = Ok s' /\
      data_size s' m = data_size s m /\
      forall a, contents s' m a =
        if (start <=? a) && (a <? start + len bs)
        then nth (N.to_nat (a - start)) bs Byte.x00 else contents s m a;
}.

(** PSBT validation, the native signature hash and the annex accessor. *)
Class NativeAuth := {
  validate_psbt : Psbt -> Result string unit;
  sighash : SigningInput -> Result Error bytes;
  annex_get : PsbtInput -> Result Error (option bytes);
}.

(* ------------------------------------------------------------------ *)
(** ** Static checks *)

Definition WASM_HEADER : bytes :=
  [Byte.x00; "a"%byte; "s"%byte; "m"%byte; Byte.x01; Byte.x00; Byte.x00; Byte.x00].

Definition check_module_bytes (module : bytes) : Result string unit :=
  if MAX_PROGRAM_BYTES <? len module then
    Err "WASM evaluator module exceeds 65536 bytes"%string
  else if negb (starts_with WASM_HEADER module) then
    Err "WASM evaluator requires a version-one binary module"%string
  else Ok tt.

(** The closure [add_slots]. *)
Definition add_slots (slots count : N) : Result string N :=
  ok_or (checked_add 32 slots count ≫= fun total =>
           if total <=? MAX_FUNCTION_SLOTS then Some total else None)
    "WASM evaluator exceeds 65536 function parameter/local slots"%string.

(** The match on [(import.module, import.name)]. *)
Definition expected_params (version : WasmVersion) (import : Import_) : Result string N :=
  let named ns name := bool_decide (import_module import = ns) && bool_decide (import_name import = lit name) in
  if named CRYPTO_NAMESPACE "sha256"%string || named CRYPTO_NAMESPACE "schnorr_verify"%string then Ok 3
  else if named CRYPTO_NAMESPACE "bip32_derive"%string then Ok 4
  else if (named CRYPTO_NAMESPACE_V2 "schnorr_verify"%string
           || named CRYPTO_NAMESPACE_V2 "xonly_tweak_check"%string)
          && bool_decide (version = V2) then Ok 4
  else Err "unsupported WASM evaluator crypto import or namespace"%string.

Definition check_import (version : WasmVersion) (function_types : list FuncType)
    (import : Result string Import_) : Result string unit :=
  import ← import;
  expected ← expected_params version import;
  match import_ty import with
  | NotFunc => Err "WASM evaluator imports must be crypto functions"%string
  | Func index =>
      ty ← ok_or (function_types !! N.to_nat index) "WASM evaluator import has an unknown type"%string;
      if negb (len (params ty) =? expected)
         || existsb (fun t => bool_decide (t <> I32)) (params ty)
         || bool_decide (results ty <> [I32])
      then Err "WASM evaluator crypto import has an invalid signature"%string
      else Ok tt
  end.

(** One payload of the parser: the type table and the slot count so far. *)
Definition check_payload (version : WasmVersion) (state : list FuncType * N)
    (payload : Result string Payload) : Result string (list FuncType * N) :=
  let '(function_types, slots) := state in
  payload ← payload;
  match payload with
  | TypeSection types =>
      function_types ← try_fold (fun ts ty => ty ← ty; Ok (ts ++ [ty])) function_types types;
      Ok (function_types, slots)
  | ImportSection imports =>
      _ ← try_fold (fun _ import => check_import version function_types import) tt imports;
      Ok (function_types, slots)
  | FunctionSection functions =>
      slots ← try_fold (fun slots type_index =>
          type_index ← type_index;
          ty ← ok_or (function_types !! N.to_nat type_index)
                 "WASM evaluator function has an unknown type"%string;
          count ← count_u32 (len (params ty));
          add_slots slots count) slots functions;
      Ok (function_types, slots)
  | CodeSectionEntry locals =>
      locals ← locals;
      slots ← try_fold (fun slots local => local ← local; add_slots slots (fst local)) slots locals;
      Ok (function_types, slots)
  | StartSection => Err "WASM evaluator modules cannot have a start function"%string
  | OtherPayload => Ok (function_types, slots)
  end.

(** [Range<u64>]. *)
Abbreviation range := (N * N)%type.

Section Runtime.
  Context {runtime : WasmRuntime}.

Definition check_compilation_budget (version : WasmVersion) (module : bytes) : Result string unit :=
  _ ← try_fold (check_payload version) ([], 0) (parse_all module);
  Ok tt.

(* ------------------------------------------------------------------ *)
(** ** Running a module *)

Definition execution_error (store : Store) (instance : Instance_) (operation error : string) : string :=
  if metering_exhausted store instance
  then ("WASM evaluator exhausted " +:+ instance_fuel +:+ " fuel points during " +:+ operation)%string
  else ("WASM evaluator " +:+ operation +:+ " failed: " +:+ error)%string.

Definition range_is_empty (r : range) : bool := negb (fst r <? snd r).

Definition overlaps (r previous : range) : bool :=
  negb (range_is_empty previous) && (fst r <? snd previous) && (fst previous <? snd r).

(** One iteration of the allocation loop: [ranges] are the earlier regions. *)
Definition allocate_one (allocate : Allocate) (allocate_name : string) (instance : Instance_)
    (memory : Memory) (state : list range * Store) (bytes : bytes) : Result string (list range * Store) :=
  let '(ranges, store) := state in
  if len bytes =? 0 then Ok (ranges ++ [(0, 0)], store) else
  let '(pointer, store) := call_allocate allocate store (as_i32 (len bytes)) in
  pointer ← map_err (execution_error store instance allocate_name) pointer;
  let start := i32_as_u32 pointer in
  let end_ := start + len bytes in
  if data_size store memory <? end_ then
    Err "WASM evaluator allocation is outside linear memory"%string
  else if existsb (overlaps (start, end_)) ranges then
    Err "WASM evaluator input allocations overlap"%string
  else Ok (ranges ++ [(start, end_)], store).

Definition allocate_inputs (allocate : Allocate) (allocate_name : string) (instance : Instance_)
    (memory : Memory) (store : Store) (inputs : list bytes) : Result string (list range * Store) :=
  try_fold (allocate_one allocate allocate_name instance memory) ([], store) inputs.

(** The copy loop over [inputs.iter().zip(&ranges)]. *)
Definition copy_inputs (memory : Memory) (store : Store) (inputs : list bytes)
    (ranges : list range) : Result string Store :=
  try_fold (fun store '(bs, r) => write store memory (fst r) bs) store (zip inputs ranges).

(** The eight arguments of the entry point: start and length of each region. *)
Definition call_arguments (inputs : list bytes) (ranges : list range) : list Z :=
  concat (zip_with (fun bs r => [as_i32 (fst r); as_i32 (len bs)]) inputs ranges).

Definition export_names (version : WasmVersion) : string * string :=
  match version with
  | V1 => ("sapio_alloc_v1", "sapio_evaluate_v1")
  | V2 => ("sapio_alloc_v2", "sapio_evaluate_v2")
  end%string.

Context {outpoint_codec : OutPointCodec}.

Definition evaluate (version : WasmVersion) (module program parameters : bytes)
    (input : SigningInput) (witness : bytes) : Result string bool :=
  _ ← check_module_bytes module;
  _ ← check_compilation_budget version module;
  _ ← ensure (negb ((MAX_PROGRAM_BYTES <? len program)
                    || (MAX_PARAMETER_BYTES <? len parameters)
                    || (MAX_WITNESS_BYTES <? len witness)))
        "WASM evaluator input exceeds its byte limit"%string;
  encoded_view ← encode_view version input;
  let store := new_evaluator_store in
  module ← module_new store module;
  let '(crypto, imports, store) :=
    match version with
    | V1 => add_crypto_imports store imports_new
    | V2 => add_crypto_imports_v2 store imports_new
    end in
  '(instance, store) ← instance_new store module imports;
  store ← bind_crypto crypto store instance;
  memory ← get_memory instance (lit "memory");
  let '(allocate_name, evaluate_name) := export_names version in
  allocate ← get_allocate instance store (lit allocate_name);
  evaluate ← get_evaluate instance store (lit evaluate_name);
  let inputs := [program; parameters; encoded_view; witness] in
  '(ranges, store) ← allocate_inputs allocate allocate_name instance memory store inputs;
  store ← copy_inputs memory store inputs ranges;
  let '(result, store) := call_evaluate evaluate store (call_arguments inputs ranges) in
  result ← map_err (execution_error store instance evaluate_name) result;
  if (result =? 0)%Z then Ok false
  else if (result =? 1)%Z then Ok true
  else Err "WASM evaluator must return exactly zero or one"%string.

Context {sapio : SapioProgram} {auth : NativeAuth}.

(** Module, selector argument and ABI version of a program. *)
Definition select_module (registry : list WasmEvaluator) (program_ : ProgramInstance)
    : Result Error (bytes * bytes * WasmVersion) :=
  match inline_wasm_version (evaluator program_) with
  | Some version => Ok (program program_, [], version)
  | None =>
      entry ← ok_or (snd <$> list_find (fun entry => evaluator_id entry = evaluator program_) registry)
                (Program (UnknownEvaluator (evaluator program_)));
      Ok (evaluator_module entry, program program_, evaluator_version entry)
  end.

Definition authorize (registry : list WasmEvaluator) (program_ : ProgramInstance)
    (input : SigningInput) (witness message : bytes) : Result Error unit :=
  _ ← map_err (fun e => Program (Prelude.Psbt e)) (validate_psbt (psbt input));
  hash ← sighash input;
  _ ← ensure (bool_decide (hash = message))
        (Message "evaluated transaction differs from the nested signing intent");
  metadata ← expect (psbt_inputs (psbt input) !! N.to_nat (input_index input))
        "index out of bounds";
  _ ← ensure (negb (bool_decide (is_Some (final_script_sig metadata))
                    || bool_decide (is_Some (final_script_witness metadata))))
        (Program FinalizedInput);
  annex ← annex_get metadata;
  _ ← ensure (bool_decide (annex = None))
        (Message "native Ark signing does not support an annex");
  '(module, selector, version) ← select_module registry program_;
  accepted ← map_err (fun e => Program (Evaluation e))
        (evaluate version module selector (parameters program_) input witness);
  ensure accepted (Program Rejected).

End Runtime.

(* ------------------------------------------------------------------ *)
(** ** The compilation budget: specification *)

Definition ok_values {A} (l : list (Result string A)) : list A :=
  omap (fun r => match r with Ok a => Some a | _ => None end) l.

Definition payload_types (p : Payload) : list FuncType :=
  match p with TypeSection types => ok_values types | _ => [] end.

(** Slots a payload asks for: the parameters of each defined function and the
    declared locals of each body. *)
Definition function_count (types : list FuncType) (function : Result string N) : N :=
  match function with
  | Ok index => from_option (fun ty => len (params ty)) 0 (types !! N.to_nat index)
  | _ => 0
  end.

Definition local_count (local : Result string (N * ValType)) : N :=
  match local with Ok l => fst l | _ => 0 end.

Definition payload_slots (types : list FuncType) (p : Payload) : N :=
  match p with
  | FunctionSection functions => sum (function_count types <$> functions)
  | CodeSectionEntry (Ok locals) => sum (local_count <$> locals)
  | _ => 0
  end.

(** The crypto functions the host offers to each ABI version: import module,
    import name and number of [i32] parameters.  There is no other import. *)
Definition crypto_functions (version : WasmVersion) : list (bytes * bytes * N) :=
  [(lit "sapio_crypto_v1", lit "sha256", 3);
   (lit "sapio_crypto_v1", lit "schnorr_verify", 3);
   (lit "sapio_crypto_v1", lit "bip32_derive", 4)]
  ++ match version with
     | V1 => []
     | V2 => [(lit "sapio_crypto_v2", lit "schnorr_verify", 4);
              (lit "sapio_crypto_v2", lit "xonly_tweak_check", 4)]
     end.

(** An import of one of them, at its exact signature. *)
Definition import_allowed (version : WasmVersion) (types : list FuncType) (import : Import_) : Prop :=
  exists arity index,
    (import_module import, import_name import, arity) ∈ crypto_functions version /\
    import_ty import = Func index /\
    types !! N.to_nat index = Some {| params := replicate (N.to_nat arity) I32; results := [I32] |}.

(** A payload within the rules, after the types declared before it. *)
Definition payload_allowed (version : WasmVersion) (types : list FuncType) (p : Payload) : Prop :=
  match p with
  | TypeSection types' => Forall (fun r => exists ty, r = Ok ty) types'
  | ImportSection imports =>
      Forall (fun r => exists import, r = Ok import /\ import_allowed version types import) imports
  | FunctionSection functions =>
      Forall (fun r => exists index, r = Ok index /\ is_Some (types !! N.to_nat index)) functions
  | CodeSectionEntry locals =>
      exists declared, locals = Ok declared /\ Forall (fun r => exists local, r = Ok local) declared
  | StartSection => False
  | OtherPayload => True
  end.

(** The types declared by the payloads before each one. *)
Fixpoint module_allowed (version : WasmVersion) (types : list FuncType) (payloads : list Payload) : Prop :=
  match payloads with
  | [] => True
  | p :: rest => payload_allowed version types p /\ module_allowed version (types ++ payload_types p) rest
  end.

Fixpoint module_slots (types : list FuncType) (payloads : list Payload) : N :=
  match payloads with
  | [] => 0
  | p :: rest => payload_slots types p + module_slots (types ++ payload_types p) rest
  end.

(* ------------------------------------------------------------------ *)
(** ** The compilation budget: lemmas *)

Lemma add_slots_ok slots count total :
  add_slots slots count = Ok total <->
  total = slots + count /\ total <= MAX_FUNCTION_SLOTS.
Proof.
  unfold add_slots, checked_add. rewrite ok_or_ok.
  destruct (N.ltb_spec (slots + count) (2 ^ 32)); cbn.
  - destruct (N.leb_spec (slots + count) MAX_FUNCTION_SLOTS); split.
    + intros E. apply Some_inj in E as <-. done.
    + by intros [-> _].
    + done.
    + intros [-> ?]. lia.
  - split; [done|]. intros [-> ?]. unfold MAX_FUNCTION_SLOTS in *. lia.
Qed.

Lemma decode_types_ok (types : list (Result string FuncType)) (ts ts' : list FuncType) :
  try_fold (fun ts ty => ty ← ty; Ok (ts ++ [ty])) ts types = Ok ts' <->
  Forall (fun r => exists ty, r = Ok ty) types /\ ts' = ts ++ ok_values types.
Proof.
  revert ts; induction types as [|r types IH]; intros ts; cbn [try_fold].
  - rewrite app_nil_r. split; [intros H; by apply Ok_inj in H as <-|by intros [_ ->]].
  - rewrite Forall_cons_iff. destruct r as [ty|e|w]; cbn;
      [|split; [done|by intros [[[? [=]] _] _]] ..].
    rewrite IH, <- app_assoc. split; [intros [? ->]|intros [[_ ?] ->]]; split; try done. split; [by exists ty|done].
Qed.

Lemma expected_params_ok version import n :
  expected_params version import = Ok n <->
  (import_module import, import_name import, n) ∈ crypto_functions version.
Proof.
  destruct import as [m f ty]. cbn [import_module import_name]. split.
  - unfold expected_params, crypto_functions, CRYPTO_NAMESPACE, CRYPTO_NAMESPACE_V2. cbn [import_module import_name]. intros H.
    repeat match type of H with context [bool_decide ?P] => destruct (bool_decide_reflect P); subst; cbn [andb orb] in H end;
      apply Ok_inj in H as <- || discriminate H;
      cbn [Datatypes.app]; rewrite !elem_of_cons; tauto || discriminate.
  - unfold crypto_functions. rewrite elem_of_app, !elem_of_cons, elem_of_nil.
    intros [[[= -> -> ->]|[[= -> -> ->]|[[= -> -> ->]|[]]]]|H]; [by destruct version..|].
    destruct version; [by apply elem_of_nil in H|].
    rewrite !elem_of_cons, elem_of_nil in H. by destruct H as [[= -> -> ->]|[[= -> -> ->]|[]]].
Qed.

(** The signature test of the code, on the whole type. *)
Lemma signature_ok ty n :
  negb (len (params ty) =? n) || existsb (fun t => bool_decide (t <> I32)) (params ty)
    || bool_decide (results ty <> [I32]) = false <->
  ty = {| params := replicate (N.to_nat n) I32; results := [I32] |}.
Proof.
  destruct ty as [ps rs]. cbn [params results]. rewrite !orb_false_iff, negb_false_iff, N.eqb_eq, bool_decide_eq_false.
  split.
  - intros [[<- Hp] Hr]. f_equal; [|by apply dec_stable]. symmetry. apply replicate_as_elem_of. split; [unfold len; lia|].
    intros t Ht. destruct (decide (t = I32)) as [|Hne]; [done|].
    assert (existsb (fun t => bool_decide (t <> I32)) ps = true) as Hx; [|congruence].
    apply existsb_exists. exists t. split; [by apply list_elem_of_In|by apply bool_decide_eq_true].
  - intros [= -> ->]. split; [|tauto]. split; [unfold len; rewrite length_replicate; lia|].
    induction (N.to_nat n); done.
Qed.

Lemma check_import_ok version types r :
  check_import version types r = Ok tt <->
  exists import, r = Ok import /\ import_allowed version types import.
Proof.
  destruct r as [import|e|w]; cbn; [|split; [done|by intros (? & [=] & _)] ..]. split.
  - intros H. exists import. split; [done|]. apply bind_ok in H as (n & Hn%expected_params_ok & H).
    destruct (import_ty import) as [index|] eqn:Hty; [|done]. apply bind_ok in H as (ty & Hlook%ok_or_ok & H).
    exists n, index. split; [done|]. split; [done|]. rewrite Hlook. f_equal. apply signature_ok. by destruct (_ || _ || _).
  - intros (? & <-%Ok_inj & n & index & Hn%expected_params_ok & Hty & Hlook).
    rewrite Hn. cbn [mbind Result_bind]. rewrite Hty, Hlook. cbn [ok_or mbind Result_bind].
    by rewrite (proj2 (signature_ok _ n) eq_refl).
Qed.

Lemma check_imports_ok version types imports u :
  try_fold (fun _ import => check_import version types import) tt imports = Ok u <->
  payload_allowed version types (ImportSection imports).
Proof.
  destruct u. cbn [payload_allowed]. induction imports as [|r imports IH]; cbn [try_fold]; [done|].
  rewrite bind_ok, Forall_cons_iff, <- check_import_ok, <- IH. split; [by intros ([] & ?)|intros [? ?]; by exists tt].
Qed.

(** A fold that adds up the slots of the accepted items. *)
Lemma slots_fold {A} (step : N -> A -> Result string N) (allowed : A -> Prop) (amount : A -> N) l :
  (forall s a s', step s a = Ok s' <-> allowed a /\ s' = s + amount a /\ s' <= MAX_FUNCTION_SLOTS) ->
  forall s s', s <= MAX_FUNCTION_SLOTS ->
    try_fold step s l = Ok s' <->
    Forall allowed l /\ s' = s + sum (amount <$> l) /\ s' <= MAX_FUNCTION_SLOTS.
Proof.
  intros Hstep. induction l as [|a l IH]; intros s s' Hs; cbn [try_fold fmap list_fmap sum foldr].
  - rewrite N.add_0_r. split; [intros H; by apply Ok_inj in H as <-|by intros (_ & -> & _)].
  - rewrite bind_ok, Forall_cons_iff. fold (sum (amount <$> l)). split.
    + intros (s1 & (Ha & -> & Hs1)%Hstep & H). apply IH in H as (Hl & -> & Hs'); [|done].
      rewrite N.add_assoc. done.
    + intros ([Ha Hl] & -> & Hs'). exists (s + amount a). split; [apply Hstep; repeat split; [done|lia]|].
      apply IH; [lia|]. rewrite N.add_assoc in *. done.
Qed.

Lemma function_step_ok types slots r slots' :
  (type_index ← r;
   ty ← ok_or (types !! N.to_nat type_index) "WASM evaluator function has an unknown type"%string;
   count ← count_u32 (len (params ty));
   add_slots slots count) = Ok slots' <->
  (exists index, r = Ok index /\ is_Some (types !! N.to_nat index)) /\
  slots' = slots + function_count types r /\ slots' <= MAX_FUNCTION_SLOTS.
Proof.
  destruct r as [i|e|w]; cbn [mbind Result_bind function_count]; [|split; [done|by intros [(? & [=] & _) _]] ..].
  destruct (types !! N.to_nat i) as [ty|] eqn:Hty; cbn [ok_or mbind Result_bind from_option].
  - rewrite bind_ok. split.
    + intros (c & Hc & [-> Hs]%add_slots_ok). unfold count_u32, u32_try_from in Hc. apply ok_or_ok in Hc.
      case_match; [|done]. apply Some_inj in Hc as <-. split; [exists i; split; [done|by rewrite Hty]|done].
    + intros (_ & -> & Hs). exists (len (params ty)). split; [|by apply add_slots_ok].
      apply count_u32_ok. unfold MAX_FUNCTION_SLOTS in Hs. lia.
  - split; [done|]. intros [(? & H & Hx) _]. apply Ok_inj in H as <-. rewrite Hty in Hx. by destruct Hx.
Qed.

Lemma local_step_ok slots (r : Result string (N * ValType)) slots' :
  (local ← r; add_slots slots (fst local)) = Ok slots' <->
  (exists local, r = Ok local) /\ slots' = slots + local_count r /\ slots' <= MAX_FUNCTION_SLOTS.
Proof.
  destruct r as [l|e|w]; cbn [mbind Result_bind local_count]; [|split; [done|by intros [[? [=]] _]] ..].
  rewrite add_slots_ok. split; [|tauto]. intros H. split; [by exists l|done].
Qed.

(** One payload is accepted exactly within the rules and the limit. *)
Lemma check_payload_ok version types slots r state :
  slots <= MAX_FUNCTION_SLOTS ->
  check_payload version (types, slots) r = Ok state <->
  exists p, r = Ok p /\ payload_allowed version types p /\
    state = (types ++ payload_types p, slots + payload_slots types p) /\
    slots + payload_slots types p <= MAX_FUNCTION_SLOTS.
Proof.
  intros Hs. unfold check_payload.
  destruct r as [p|e|w]; cbn [mbind Result_bind]; [|split; [done|by intros (? & [=] & _)] ..].
  transitivity (payload_allowed version types p /\
    state = (types ++ payload_types p, slots + payload_slots types p) /\
    slots + payload_slots types p <= MAX_FUNCTION_SLOTS); [|split; [by exists p|by intros (? & <-%Ok_inj & ?)]].
  destruct p as [tys|imports|functions|locals| |]; cbn [payload_types payload_slots];
    rewrite ?app_nil_r, ?N.add_0_r.
  - rewrite bind_ok. setoid_rewrite decode_types_ok. cbn [payload_allowed]. split.
    + by intros (? & [? ->] & <-%Ok_inj).
    + intros (? & -> & _). eexists. by split.
  - rewrite bind_ok. setoid_rewrite check_imports_ok. split; [by intros ([] & ? & <-%Ok_inj)|].
    intros (? & -> & _). by exists tt.
  - rewrite bind_ok. cbn [payload_allowed]. split.
    + intros (s & (? & -> & ?)%(slots_fold _ _ _ _ (function_step_ok types)) & <-%Ok_inj); done.
    + intros (? & -> & ?). eexists. split; [|reflexivity].
      by apply (slots_fold _ _ _ _ (function_step_ok types)).
  - cbn [payload_allowed]. destruct locals as [ls|e|w]; cbn [mbind Result_bind];
      [|split; [done|by intros [(? & [=] & _) _]] ..]. rewrite bind_ok. split.
    + intros (s & (? & -> & ?)%(slots_fold _ _ _ _ local_step_ok) & <-%Ok_inj); [|done]. split; [by exists ls|done].
    + intros ((? & <-%Ok_inj & ?) & -> & ?). eexists. split; [|reflexivity]. by apply (slots_fold _ _ _ _ local_step_ok).
  - split; [done|by intros []].
  - split; [intros <-%Ok_inj; done|by intros (_ & -> & _)].
Qed.

Lemma check_payloads_ok version l types slots :
  slots <= MAX_FUNCTION_SLOTS ->
  (exists state, try_fold (check_payload version) (types, slots) l = Ok state) <->
  exists payloads, l = Ok <$> payloads /\ module_allowed version types payloads /\
    slots + module_slots types payloads <= MAX_FUNCTION_SLOTS.
Proof.
  revert types slots; induction l as [|r l IH]; intros types slots Hs; cbn [try_fold].
  - split; [intros _; exists []; cbn; rewrite N.add_0_r; done|by eexists].
  - split.
    + intros [state (? & (p & -> & Hp & -> & Hb)%check_payload_ok & H)%bind_ok]; [|done].
      destruct (proj1 (IH _ _ Hb) (ex_intro _ _ H)) as (ps & -> & Hps & Hb').
      exists (p :: ps). cbn [module_allowed module_slots]. rewrite N.add_assoc. done.
    + intros ([|p ps] & [= -> ->] & Hps & Hb). cbn [module_allowed module_slots] in Hps, Hb. destruct Hps as [Hp Hps].
      rewrite N.add_assoc in Hb. destruct (proj2 (IH (types ++ payload_types p) (slots + payload_slots types p) ltac:(lia)))
        as [state H]; [by exists ps|].
      exists state. apply bind_ok. eexists. split; [|exact H]. apply check_payload_ok; [done|]. exists p. repeat split; [done|lia].
Qed.

(* ------------------------------------------------------------------ *)
(** ** Regions: specification *)

Definition disjoint (r s : range) : Prop :=
  range_is_empty r = true \/ range_is_empty s = true \/ snd r <= fst s \/ snd s <= fst r.

(** The region of one input: empty for an empty input, its length otherwise. *)
Definition region_of (bs : bytes) (r : range) : Prop :=
  (bs = [] /\ r = (0, 0)) \/ (bs <> [] /\ snd r = fst r + len bs).

Section RegionSpec.
  Context {runtime : WasmRuntime}.

(** The memory holds [bs] at the region [r]. *)
Definition holds (store : Store) (memory : Memory) (bs : bytes) (r : range) : Prop :=
  forall k b, bs !! k = Some b -> contents store memory (fst r + N.of_nat k) = b.

Definition regions (store : Store) (memory : Memory) (inputs : list bytes) (ranges : list range) : Prop :=
  Forall2 (fun bs r => region_of bs r /\ snd r <= data_size store memory) inputs ranges /\
  ForallOrdPairs disjoint ranges.

(** What the guest's entry point finds: every input at its region, the regions
    in bounds and pairwise disjoint. *)
Definition delivered (store : Store) (memory : Memory) (inputs : list bytes) (ranges : list range) : Prop :=
  regions store memory inputs ranges /\ Forall2 (holds store memory) inputs ranges.

(** [instance], with its memory and exports, is one fresh instantiation of
    [module] with the crypto imports of its version, and [store] its state. *)
Definition instantiated (version : WasmVersion) (module : bytes) (instance : Instance_)
    (memory : Memory) (allocate : Allocate) (entry : Evaluate) (store : Store) : Prop :=
  exists compiled crypto imports s0 s1,
    module_new new_evaluator_store module = Ok compiled /\
    match version with
    | V1 => add_crypto_imports new_evaluator_store imports_new
    | V2 => add_crypto_imports_v2 new_evaluator_store imports_new
    end = (crypto, imports, s0) /\
    instance_new s0 compiled imports = Ok (instance, s1) /\
    bind_crypto crypto s1 instance = Ok store /\
    get_memory instance (lit "memory") = Ok memory /\
    get_allocate instance store (lit (fst (export_names version))) = Ok allocate /\
    get_evaluate instance store (lit (snd (export_names version))) = Ok entry.

End RegionSpec.

(* ------------------------------------------------------------------ *)
(** ** Regions: lemmas *)

Lemma disjoint_of_no_overlap r s : overlaps r s = false -> disjoint s r.
Proof.
  unfold overlaps, disjoint. destruct (range_is_empty s); [by left|]. cbn.
  rewrite andb_false_iff, !N.ltb_ge. lia.
Qed.

Lemma ForallOrdPairs_snoc {A} (R : A -> A -> Prop) l x :
  ForallOrdPairs R l -> Forall (fun y => R y x) l -> ForallOrdPairs R (l ++ [x]).
Proof.
  induction 1 as [|y l Hy Hl IH]; cbn; [repeat constructor|].
  inversion_clear 1. constructor; [|by apply IH]. apply Forall_app; split; [done|by constructor].
Qed.

Lemma region_nonempty bs r : region_of bs r -> bs <> [] -> range_is_empty r = false.
Proof.
  intros [[-> _]|[Hb E]] Hne; [done|]. unfold range_is_empty. apply negb_false_iff, N.ltb_lt.
  rewrite E. destruct bs; [done|]. rewrite len_cons. lia.
Qed.

Section Regions.
  Context {runtime : WasmRuntime} {rt_laws : WasmRuntimeLaws}.

Lemma regions_grow s s' memory inputs ranges :
  data_size s memory <= data_size s' memory ->
  regions s memory inputs ranges -> regions s' memory inputs ranges.
Proof.
  intros Hg [H1 H2]. split; [|done]. revert H1. apply Forall2_impl. cbn. intros ? ? [? ?]. split; [done|lia].
Qed.

Lemma allocate_one_ok allocate name instance memory prior ranges store bs ranges' store' :
  regions store memory prior ranges ->
  allocate_one allocate name instance memory (ranges, store) bs = Ok (ranges', store') ->
  regions store' memory (prior ++ [bs]) ranges'.
Proof.
  intros H E. unfold allocate_one in E.
  destruct (N.eqb_spec (len bs) 0) as [Hz|Hz].
  - apply Ok_inj in E as [= <- <-]. apply len_zero in Hz as ->. destruct H as [H1 H2]. split.
    + apply Forall2_app; [done|]. constructor; [|constructor]. split; [by left | cbn; lia].
    + apply ForallOrdPairs_snoc; [done|]. apply list.Forall_true. intros r. right; by left.
  - pose proof (call_allocate_grows allocate store (as_i32 (len bs)) memory) as G.
    destruct (call_allocate allocate store (as_i32 (len bs))) as [p s1]; cbn in *.
    apply bind_ok in E as (pointer & _ & E).
    destruct (N.ltb_spec (data_size s1 memory) (i32_as_u32 pointer + len bs)); [done|].
    destruct (existsb _ ranges) eqn:Hov; [done|]. apply Ok_inj in E as [= <- <-].
    apply (regions_grow _ _ _ _ _ G) in H. destruct H as [H1 H2]. split.
    + apply Forall2_app; [done|]. constructor; [|constructor]. split; [|done]. right.
      split; [|done]. intros ->. by apply Hz.
    + apply ForallOrdPairs_snoc; [done|]. apply Forall_forall. intros r Hr.
      apply disjoint_of_no_overlap. destruct (overlaps _ r) eqn:Ho; [|done].
      assert (existsb (overlaps (i32_as_u32 pointer, i32_as_u32 pointer + len bs)) ranges = true); [|congruence].
      apply existsb_exists. exists r. split; [first [exact Hr | by apply list_elem_of_In]|done].
Qed.

Lemma allocate_loop_ok allocate name instance memory prior ranges store inputs ranges' store' :
  regions store memory prior ranges ->
  try_fold (allocate_one allocate name instance memory) (ranges, store) inputs = Ok (ranges', store') ->
  regions store' memory (prior ++ inputs) ranges'.
Proof.
  revert prior ranges store; induction inputs as [|bs inputs IH]; intros prior ranges store H E; cbn in E.
  - apply Ok_inj in E as [= <- <-]. by rewrite app_nil_r.
  - apply bind_ok in E as ([r1 s1] & E1 & E). apply (allocate_one_ok _ _ _ _ _ _ _ _ _ _ H) in E1.
    apply (IH _ _ _ E1) in E. by rewrite <- app_assoc in E.
Qed.

(** Writing one region: it then holds, other disjoint regions keep theirs. *)
Lemma write_region store memory bs r :
  region_of bs r -> snd r <= data_size store memory ->
  exists store', write store memory (fst r) bs = Ok store' /\
    data_size store' memory = data_size store memory /\
    holds store' memory bs r /\
    forall bs' r', region_of bs' r' -> disjoint r' r -> holds store memory bs' r' -> holds store' memory bs' r'.
Proof.
  intros Hr Hb. destruct (write_in_bounds store memory (fst r) bs) as (s' & Hw & Hd & Hc).
  { destruct Hr as [[-> ->]|[_ <-]]; [|done]. unfold len; cbn in *. lia. }
  exists s'. split; [done|]. split; [done|]. split.
  - intros k b Hk. rewrite Hc. assert (k < length bs)%nat as Hl by (by eapply lookup_lt_Some).
    assert ((fst r <=? fst r + N.of_nat k) && (fst r + N.of_nat k <? fst r + len bs) = true) as ->.
    { rewrite andb_true_iff, N.leb_le, N.ltb_lt. unfold len. lia. }
    replace (N.to_nat (fst r + N.of_nat k - fst r)) with k by lia. by apply nth_lookup_Some.
  - intros bs' r' Hr' Hdis Hh k b Hk. rewrite Hc.
    assert (k < length bs')%nat as Hl by (by eapply lookup_lt_Some).
    assert (bs' <> []) as Hne by (by intros ->).
    assert (snd r' = fst r' + len bs') as Er' by (by destruct Hr' as [[-> _]|[_ ?]]).
    destruct ((fst r <=? fst r' + N.of_nat k) && (fst r' + N.of_nat k <? fst r + len bs)) eqn:Hin;
      [|by apply Hh].
    rewrite andb_true_iff, N.leb_le, N.ltb_lt in Hin.
    assert (bs <> []) as Hne0 by (intros ->; rewrite len_nil in Hin; lia).
    assert (snd r = fst r + len bs) as Er by (by destruct Hr as [[-> _]|[_ ?]]).
    pose proof (region_nonempty _ _ Hr Hne0) as N1. pose proof (region_nonempty _ _ Hr' Hne) as N2.
    unfold disjoint in Hdis. rewrite N1, N2, Er, Er' in Hdis. unfold len in *.
    destruct Hdis as [?|[?|[?|?]]]; [done|done|lia|lia].
Qed.

Lemma copy_ok store memory inputs ranges :
  regions store memory inputs ranges ->
  exists store', copy_inputs memory store inputs ranges = Ok store' /\
    data_size store' memory = data_size store memory /\
    Forall2 (holds store' memory) inputs ranges /\
    forall bs r, region_of bs r -> Forall (disjoint r) ranges -> holds store memory bs r -> holds store' memory bs r.
Proof.
  unfold copy_inputs. intros [H1 H2]. revert store inputs H1; induction H2 as [|r ranges Hr _ IH]; intros store inputs H1.
  - apply Forall2_nil_inv_r in H1 as ->. exists store. cbn. repeat split; done.
  - apply Forall2_cons_inv_r in H1 as (bs & inputs' & (Hreg & Hb) & H1 & ->).
    destruct (write_region store memory bs r Hreg Hb) as (s1 & Hw & Hd & Hh & Hk).
    destruct (IH s1 inputs') as (s2 & Hc & Hd2 & Hh2 & Hk2).
    { revert H1. apply Forall2_impl. cbn. intros ? ? [? ?]. by rewrite Hd. }
    exists s2. cbn. rewrite Hw. cbn. split; [done|]. split; [congruence|]. split.
    + constructor; [|done]. by apply Hk2.
    + intros bs' r' Hr' Hall Hh'. inversion_clear Hall. apply Hk2; [done..|]. by apply Hk.
Qed.

(** After the two loops the guest's inputs are delivered. *)
Lemma inputs_delivered allocate name instance memory store inputs ranges store1 :
  allocate_inputs allocate name instance memory store inputs = Ok (ranges, store1) ->
  exists store2, copy_inputs memory store1 inputs ranges = Ok store2 /\
    delivered store2 memory inputs ranges.
Proof.
  intros H. apply (allocate_loop_ok _ _ _ _ []) in H; [|split; constructor].
  destruct (copy_ok _ _ _ _ H) as (s2 & Hc & Hd & Hh & _). exists s2. split; [done|].
  split; [|done]. eapply regions_grow; [|exact H]. rewrite Hd. lia.
Qed.

(** What an instance is called on, and what becomes of its answer. *)
Definition run_instance (version : WasmVersion) (instance : Instance_) (memory : Memory) (allocate : Allocate)
    (entry : Evaluate) (store : Store) (inputs : list bytes) : Result string bool :=
  '(ranges, store) ← allocate_inputs allocate (fst (export_names version)) instance memory store inputs;
  store ← copy_inputs memory store inputs ranges;
  let '(result, store) := call_evaluate entry store (call_arguments inputs ranges) in
  result ← map_err (execution_error store instance (snd (export_names version))) result;
  if (result =? 0)%Z then Ok false
  else if (result =? 1)%Z then Ok true
  else Err "WASM evaluator must return exactly zero or one"%string.

(** An evaluation of a module that instantiates is the run of its instance. *)
Lemma evaluate_instantiated `{!OutPointCodec} version module program parameters view input witness
    instance memory allocate entry store :
  check_module_bytes module = Ok tt -> check_compilation_budget version module = Ok tt ->
  len program <= MAX_PROGRAM_BYTES -> len parameters <= MAX_PARAMETER_BYTES -> len witness <= MAX_WITNESS_BYTES ->
  encode_view version input = Ok view ->
  instantiated version module instance memory allocate entry store ->
  evaluate version module program parameters input witness =
    run_instance version instance memory allocate entry store [program; parameters; view; witness].
Proof.
  intros Hm Hb Hp Ha Hw Hv (compiled & crypto & imports & s0 & s1 & Hnew & Himp & Hi & Hbind & Hmem & Hal & Hen).
  unfold evaluate. rewrite Hm. cbn [mbind Result_bind]. rewrite Hb. cbn [mbind Result_bind].
  assert ((MAX_PROGRAM_BYTES <? len program) || (MAX_PARAMETER_BYTES <? len parameters)
          || (MAX_WITNESS_BYTES <? len witness) = false) as -> by (rewrite !orb_false_iff, !N.ltb_ge; done).
  cbn [ensure negb mbind Result_bind]. rewrite Hv. cbn [mbind Result_bind]. rewrite Hnew. cbn [mbind Result_bind].
  rewrite Himp, Hi. cbn [mbind Result_bind]. rewrite Hbind. cbn [mbind Result_bind]. rewrite Hmem.
  cbn [mbind Result_bind]. destruct (export_names version) as [an en] eqn:Hn. cbn [fst snd] in *.
  rewrite Hal. cbn [mbind Result_bind]. rewrite Hen. cbn [mbind Result_bind]. unfold run_instance. by rewrite Hn.
Qed.

Lemma allocate_no_panic allocate name instance memory store inputs w :
  (forall s n, fst (call_allocate allocate s n) <> Panic w) ->
  allocate_inputs allocate name instance memory store inputs <> Panic w.
Proof.
  intros Hc. apply try_fold_no_panic. intros [ranges s] bs. unfold allocate_one.
  destruct (len bs =? 0); [done|]. specialize (Hc s (as_i32 (len bs))). destruct (call_allocate _ _ _) as [r s'].
  apply bind_not_panic; [by apply map_err_no_panic|]. intros p. by repeat case_match.
Qed.

End Regions.

(* ------------------------------------------------------------------ *)
(** ** Properties *)

Section Theorems.
  Context {runtime : WasmRuntime}.

(** C13: a module passes the compilation budget exactly when the parser decodes
    all of it, it has no start function, every import is one of the crypto
    functions the host offers to its ABI version at that function's signature,
    every defined function has a declared type, and the parameters of the
    defined functions and the locals of their bodies come to at most
    [MAX_FUNCTION_SLOTS]. *)
Theorem budget_iff version module :
  check_compilation_budget version module = Ok tt <->
  exists payloads,
    parse_all module = Ok <$> payloads /\
    module_allowed version [] payloads /\
    module_slots [] payloads <= MAX_FUNCTION_SLOTS.
Proof.
  unfold check_compilation_budget. rewrite bind_ok, <- (check_payloads_ok version _ [] 0) by done.
  split; [intros (state & H & _)|intros [state H]]; by exists state.
Qed.

Context {rt_laws : WasmRuntimeLaws} {outpoint_codec : OutPointCodec}.

(** C12: a verdict of [evaluate] is the answer 0 or 1 of one call of the entry
    point of a fresh instance of this module, made on the store that the guest's
    allocations and the host's copies left, when the instance's linear memory
    holds the program, parameters, signed view and witness unchanged in pairwise
    disjoint, in-bounds regions; and it is reached only for a module within the
    byte limit and compilation budget, arguments within theirs, and a view that
    encodes. *)
Theorem evaluate_verdict version module program parameters input witness verdict :
  evaluate version module program parameters input witness = Ok verdict ->
  check_module_bytes module = Ok tt /\
  check_compilation_budget version module = Ok tt /\
  len program <= MAX_PROGRAM_BYTES /\ len parameters <= MAX_PARAMETER_BYTES /\
  len witness <= MAX_WITNESS_BYTES /\
  exists view instance memory allocate entry store0 store1 store ranges,
    let inputs := [program; parameters; view; witness] in
    encode_view version input = Ok view /\
    instantiated version module instance memory allocate entry store0 /\
    allocate_inputs allocate (fst (export_names version)) instance memory store0 inputs = Ok (ranges, store1) /\
    copy_inputs memory store1 inputs ranges = Ok store /\
    delivered store memory inputs ranges /\
    fst (call_evaluate entry store (call_arguments inputs ranges)) = Ok (if verdict then 1%Z else 0%Z).
Proof.
  unfold evaluate. intros H.
  apply bind_ok in H as ([] & Hb & H). apply bind_ok in H as ([] & Hc & H).
  apply bind_ok in H as ([] & Hl & H). apply bind_ok in H as (view & Hv & H).
  apply bind_ok in H as (m & Hm & H).
  destruct (match version with V1 => _ | V2 => _ end) as [[crypto imports] s0] eqn:Himp.
  apply bind_ok in H as ([i s1] & Hi & H). apply bind_ok in H as (s2 & Hbind & H).
  apply bind_ok in H as (memory & Hmem & H). destruct (export_names version) as [an en] eqn:Hn.
  apply bind_ok in H as (allocate & Hal & H). apply bind_ok in H as (entry & Hen & H).
  apply bind_ok in H as ([ranges s3] & Ha & H). apply bind_ok in H as (s4 & Hcopy & H).
  destruct (inputs_delivered _ _ _ _ _ _ _ _ Ha) as (s4' & Hcopy' & Hd).
  assert (s4' = s4) as -> by congruence.
  rewrite ensure_ok, negb_true_iff, !orb_false_iff, !N.ltb_ge in Hl.
  do 2 (split; [done|]). do 3 (split; [apply Hl|]).
  exists view, i, memory, allocate, entry, s2, s3, s4, ranges. cbn zeta. split; [done|].
  split; [unfold instantiated; rewrite Hn; by exists m, crypto, imports, s0, s1|]. do 3 (split; [done|]).
  destruct (call_evaluate entry s4 _) as [r s5]. cbn [fst].
  apply bind_ok in H as (z & Hz & H). apply map_err_ok in Hz as ->.
  destruct (Z.eqb_spec z 0) as [E|_]; [subst z; by apply Ok_inj in H as <-|].
  destruct (Z.eqb_spec z 1) as [E|_]; [subst z; by apply Ok_inj in H as <-|done].
Qed.

Context {sapio : SapioProgram} {auth : NativeAuth}.

(** C11: [authorize] succeeds exactly when the PSBT validates, the transaction's
    native signature hash is the message of the signing intent, the selected
    input is not finalized and carries no annex, the evaluator is inline or
    registered, and the selected module accepts the spend. *)
Theorem authorize_iff registry program_ input witness message :
  authorize registry program_ input witness message = Ok tt <->
  validate_psbt (psbt input) = Ok tt /\
  sighash input = Ok message /\
  exists metadata module selector version,
    psbt_inputs (psbt input) !! N.to_nat (input_index input) = Some metadata /\
    final_script_sig metadata = None /\ final_script_witness metadata = None /\
    annex_get metadata = Ok None /\
    select_module registry program_ = Ok (module, selector, version) /\
    evaluate version module selector (parameters program_) input witness = Ok true.
Proof.
  unfold authorize. split.
  - intros H. apply bind_ok in H as ([] & Hp & H). apply map_err_ok in Hp.
    apply bind_ok in H as (h & Hh & H). apply bind_ok in H as ([] & Hm & H).
    apply ensure_ok, bool_decide_eq_true in Hm as ->.
    apply bind_ok in H as (md & Hmd & H). apply expect_ok in Hmd.
    apply bind_ok in H as ([] & Hf & H). apply ensure_ok, negb_true_iff, orb_false_iff in Hf as [Hf1 Hf2].
    apply bool_decide_eq_false in Hf1, Hf2. apply eq_None_not_Some in Hf1. apply eq_None_not_Some in Hf2.
    apply bind_ok in H as (annex & Ha & H). apply bind_ok in H as ([] & Hn & H).
    apply ensure_ok, bool_decide_eq_true in Hn as ->.
    apply bind_ok in H as ([[m s] v] & Hs & H). apply bind_ok in H as (acc & He & H).
    apply map_err_ok in He. apply ensure_ok in H as ->. eauto 12.
  - intros (Hp & Hh & md & m & s & v & Hmd & Hf1 & Hf2 & Ha & Hs & He).
    rewrite Hp. cbn. rewrite Hh. cbn. rewrite bool_decide_eq_true_2 by done. cbn.
    rewrite Hmd. cbn. rewrite Hf1, Hf2. cbn. rewrite Ha. cbn. rewrite Hs. cbn. by rewrite He.
Qed.

(** A program whose evaluator is neither an inline interpreter nor in the
    registry is refused with [UnknownEvaluator] once the spend authenticates:
    there is no fallback module. *)
Theorem authorize_unknown_evaluator registry program_ input witness message metadata :
  validate_psbt (psbt input) = Ok tt ->
  sighash input = Ok message ->
  psbt_inputs (psbt input) !! N.to_nat (input_index input) = Some metadata ->
  final_script_sig metadata = None -> final_script_witness metadata = None ->
  annex_get metadata = Ok None ->
  inline_wasm_version (evaluator program_) = None ->
  evaluator program_ ∉ evaluator_id <$> registry ->
  authorize registry program_ input witness message
    = Err (Program (UnknownEvaluator (evaluator program_))).
Proof.
  intros Hp Hh Hmd Hf1 Hf2 Ha Hi Hr. unfold authorize.
  rewrite Hp. cbn. rewrite Hh. cbn. rewrite bool_decide_eq_true_2 by done. cbn.
  rewrite Hmd. cbn. rewrite Hf1, Hf2. cbn. rewrite Ha. cbn. unfold select_module. rewrite Hi.
  assert (list_find (fun entry => evaluator_id entry = evaluator program_) registry = None) as ->; [|done].
  apply list_find_None, Forall_forall. intros x Hx E. apply Hr. rewrite <- E.
  apply list_elem_of_fmap. exists x. split; [done|]. first [exact Hx | by apply list_elem_of_In].
Qed.

End Theorems.
