(* ===== verification/GuestRuntime.v ===== *)
(** * GuestRuntime: the host adapter running the example guests

    An instance of [WasmRuntime] whose module is a predicate linked with
    examples/vault/guest.rs: its memory is the 4 MiB linear memory of
    examples/vault/build.sh, its allocator [sapio_alloc_v1] and its entry point
    [Guest.evaluate].  [guest_run] shows that [Evaluator.evaluate] then returns
    the predicate's own answer on the four inputs. *)

From S2P Require Import Prelude Bytes Bitcoin Program SignedView Guest Evaluator.

Open Scope N_scope.

(** [--initial-memory=4194304 --max-memory=4194304] *)
Definition LINEAR_MEMORY : N := 4194304.

(** A write to the memory of an arena. *)
Definition arena_write (a : Arena) (start : N) (bs : bytes) : Arena :=
  {| base := base a; used := used a;
     memory := fun x =>
       if (start <=? x) && (x <? start + len bs)
       then nth (N.to_nat (x - start)) bs Byte.x00 else memory a x |}.

Definition guest_call (predicate : Arena -> Arguments -> option bool) (a : Arena) (args : list Z)
    : Result string Z :=
  match args with
  | [pp; pl; ap; al; vp; vl; wp; wl] =>
      Ok (Guest.evaluate a
            {| pp := i32_as_u32 pp; pl := i32_as_u32 pl; ap := i32_as_u32 ap; al := i32_as_u32 al;
               vp := i32_as_u32 vp; vl := i32_as_u32 vl; wp := i32_as_u32 wp; wl := i32_as_u32 wl |}
            (predicate a))
  | _ => Err "type mismatch"%string
  end.

Section Instance_.
  Context (arena_base : N) (sections : list Payload) (predicate : Arena -> Arguments -> option bool).

#[export] Instance guest_runtime : WasmRuntime := {|
  Store := Arena; Module_ := unit; Imports := unit; Crypto := unit; Instance_ := unit;
  Evaluator.Memory := unit; Allocate := unit; Evaluate := unit;
  instance_fuel := "100000000"%string;
  parse_all _ := Ok <$> sections;
  new_evaluator_store := {| base := arena_base; used := 0; memory := fun _ => Byte.x00 |};
  module_new _ _ := Ok tt;
  imports_new := tt;
  add_crypto_imports s _ := (tt, tt, s);
  add_crypto_imports_v2 s _ := (tt, tt, s);
  instance_new s _ _ := Ok (tt, s);
  bind_crypto _ s _ := Ok s;
  get_memory _ _ := Ok tt;
  get_allocate _ _ _ := Ok tt;
  get_evaluate _ _ _ := Ok tt;
  call_allocate _ s n := let '(p, s') := sapio_alloc_v1 s (i32_as_u32 n) in (Ok (as_i32 p), s');
  call_evaluate _ s args := (guest_call predicate s args, s);
  metering_exhausted _ _ := false;
  data_size _ _ := LINEAR_MEMORY;
  write s _ start bs :=
    if start + len bs <=? LINEAR_MEMORY then Ok (arena_write s start bs)
    else Err "memory out of bounds"%string;
  contents s _ a := memory s a;
|}.

#[export] Instance guest_runtime_laws : WasmRuntimeLaws.
Proof.
  split; cbn [data_size write contents guest_runtime].
  - intros. apply N.le_refl.
  - intros s m start bs H. apply N.leb_le in H. rewrite H. eexists. split; [reflexivity|].
    split; [reflexivity|]. intros a. reflexivity.
Qed.

(** Where the bump allocator puts the inputs, from offset [u]. *)
Fixpoint bump (u : N) (inputs : list bytes) : list range :=
  match inputs with
  | [] => []
  | bs :: inputs =>
      (if len bs =? 0 then (0, 0) else (arena_base + u, arena_base + u + len bs))
      :: bump (u + len bs) inputs
  end.

Definition total_len (inputs : list bytes) : N := sum (len <$> inputs).

Context (Hbase : 0 < arena_base) (Hfits : arena_base + INPUT_CAPACITY <= LINEAR_MEMORY).

Lemma base_bound : arena_base + INPUT_CAPACITY < 2 ^ 32.
Proof. unfold LINEAR_MEMORY in Hfits. lia. Qed.

Definition at_offset (a : Arena) (u : N) : Prop := base a = arena_base /\ used a = u.

Lemma at_offset_wf a u : at_offset a u -> u <= INPUT_CAPACITY -> wf_arena a.
Proof. intros [Hb Hu] H. pose proof base_bound. unfold wf_arena. rewrite Hb, Hu. done. Qed.

Lemma no_overlap ranges u n :
  Forall (fun r => snd r <= arena_base + u) ranges ->
  existsb (overlaps (arena_base + u, arena_base + u + n)) ranges = false.
Proof.
  induction 1 as [|r ranges Hr _ IH]; [done|]. cbn [existsb]. rewrite IH, orb_false_r.
  unfold overlaps. cbn. assert (arena_base + u <? snd r = false) as -> by (by apply N.ltb_ge).
  by rewrite andb_false_r.
Qed.

Lemma bump_one name a u ranges bs :
  at_offset a u -> u + len bs <= INPUT_CAPACITY ->
  Forall (fun r => snd r <= arena_base + u) ranges ->
  exists a', allocate_one (runtime := guest_runtime) tt name tt tt (ranges, a) bs
    = Ok (ranges ++ bump u [bs], a') /\ at_offset a' (u + len bs).
Proof.
  intros Ha Hu Hr. unfold allocate_one, bump. destruct (N.eqb_spec (len bs) 0) as [->|Hz].
  { exists a. rewrite N.add_0_r. done. }
  pose proof base_bound as Hb. unfold INPUT_CAPACITY, MAX_VIEW, MAX_ARGUMENT in *.
  cbn [call_allocate guest_runtime]. rewrite i32_as_u32_as_i32 by lia.
  rewrite alloc_fits; [|eapply at_offset_wf; [done|unfold INPUT_CAPACITY, MAX_VIEW, MAX_ARGUMENT; lia]
                       |destruct Ha as [_ ->]; unfold INPUT_CAPACITY, MAX_VIEW, MAX_ARGUMENT; lia].
  destruct Ha as [-> ->]. cbn [map_err mbind Result_bind].
  rewrite i32_as_u32_as_i32 by lia. cbn [data_size guest_runtime].
  unfold LINEAR_MEMORY in *.
  assert (4194304 <? arena_base + u + len bs = false) as -> by (apply N.ltb_ge; lia).
  rewrite no_overlap by done. eexists. split; [reflexivity|]. done.
Qed.

Lemma bump_bounds u inputs :
  Forall (fun r => snd r <= arena_base + (u + total_len inputs)) (bump u inputs).
Proof.
  revert u; induction inputs as [|bs inputs IH]; intros u; constructor.
  - unfold total_len. cbn. destruct (len bs =? 0); cbn; lia.
  - fold bump. specialize (IH (u + len bs)). unfold total_len in *. cbn.
    eapply list.Forall_impl; [exact IH|]. unfold sum. cbn. lia.
Qed.

Lemma bump_all name a u ranges inputs :
  at_offset a u -> u + total_len inputs <= INPUT_CAPACITY ->
  Forall (fun r => snd r <= arena_base + u) ranges ->
  exists a', try_fold (allocate_one (runtime := guest_runtime) tt name tt tt) (ranges, a) inputs
    = Ok (ranges ++ bump u inputs, a') /\ at_offset a' (u + total_len inputs).
Proof.
  revert a u ranges; induction inputs as [|bs inputs IH]; intros a u ranges Ha Hu Hr.
  - exists a. cbn. rewrite app_nil_r. unfold total_len; cbn. by rewrite N.add_0_r.
  - assert (total_len (bs :: inputs) = len bs + total_len inputs) as E by done.
    rewrite E in *. destruct (bump_one name a u ranges bs) as (a1 & E1 & H1); [done|lia|done|].
    cbn [try_fold]. rewrite E1. cbn [mbind Result_bind].
    destruct (IH a1 (u + len bs) (ranges ++ bump u [bs])) as (a2 & E2 & H2); [done|lia| |].
    { apply Forall_app. split.
      - eapply list.Forall_impl; [exact Hr|]. cbn. lia.
      - pose proof (bump_bounds u [bs]) as B. unfold total_len in B. cbn in B.
        by rewrite N.add_0_r in B. }
    exists a2. split; [etransitivity; [exact E2|by rewrite <- app_assoc]|]. by rewrite N.add_assoc.
Qed.

(** Copying keeps the bump pointer. *)
Lemma copy_offset a u inputs ranges a' :
  at_offset a u ->
  copy_inputs (runtime := guest_runtime) tt a inputs ranges = Ok a' -> at_offset a' u.
Proof.
  unfold copy_inputs. revert a; generalize (zip inputs ranges); intros l.
  induction l as [|[bs r] l IH]; intros a Ha H.
  - apply Ok_inj in H as <-. done.
  - cbn [try_fold] in H. apply bind_ok in H as (a1 & H1 & H). apply (IH a1); [|done].
    cbn in H1. case_match; [|done]. by apply Ok_inj in H1 as <-.
Qed.

Lemma length_bump u inputs : length (bump u inputs) = length inputs.
Proof. revert u; induction inputs; intros u; cbn; auto. Qed.

(** A delivered region is read back by the guest. *)
Lemma read_region a u bs r :
  at_offset a u -> u <= INPUT_CAPACITY ->
  (len bs <> 0 -> arena_base <= fst r /\ fst r + len bs <= arena_base + u) ->
  holds (runtime := guest_runtime) a tt bs r ->
  input_slice a (fst r) (len bs) = Some bs.
Proof.
  intros Ha Hu Hr Hh. destruct (N.eqb_spec (len bs) 0) as [Hz|Hz].
  { apply len_zero in Hz as ->. done. }
  destruct (Hr Hz) as [H1 H2].
  rewrite input_slice_in_arena; [|done|by destruct Ha as [-> _]|by destruct Ha as [-> ->]|by eapply at_offset_wf].
  f_equal. apply list_eq. intros k. unfold mem_slice. rewrite list_lookup_fmap.
  destruct (bs !! k) as [b|] eqn:Hk.
  - assert (k < length bs)%nat by (by eapply lookup_lt_Some).
    rewrite lookup_seq_lt by (unfold len; lia). cbn. f_equal. by apply (Hh k b).
  - apply lookup_ge_None in Hk. rewrite lookup_seq_ge by (unfold len; lia). done.
Qed.

Lemma bump_region u inputs i bs r :
  inputs !! i = Some bs -> bump u inputs !! i = Some r ->
  (len bs = 0 /\ r = (0, 0)) \/
  (len bs <> 0 /\ arena_base <= fst r /\ fst r + len bs <= arena_base + (u + total_len inputs)).
Proof.
  revert u i; induction inputs as [|b inputs IH]; intros u [|i] Hi Hr; try discriminate.
  - apply Some_inj in Hi as ->. apply Some_inj in Hr as <-. unfold total_len; cbn.
    destruct (N.eqb_spec (len bs) 0); cbn; [by left|]. right. split; [done|]. lia.
  - cbn in Hi, Hr. destruct (IH _ _ Hi Hr) as [?|(? & ? & ?)]; [by left|]. right.
    unfold total_len in *; cbn. fold (sum (len <$> inputs)). repeat split; (done || lia).
Qed.

Definition region_start (inputs : list bytes) (i : nat) : N :=
  from_option fst 0 (bump 0 inputs !! i).

(** The guest's own view of input [i] once the host has copied. *)
Lemma guest_input a inputs i bs :
  total_len inputs <= INPUT_CAPACITY ->
  at_offset a (total_len inputs) ->
  Forall2 (holds (runtime := guest_runtime) a tt) inputs (bump 0 inputs) ->
  inputs !! i = Some bs ->
  input_slice a (i32_as_u32 (as_i32 (region_start inputs i))) (i32_as_u32 (as_i32 (len bs))) = Some bs.
Proof.
  intros Ht Ha Hh Hi. pose proof base_bound as Hb. unfold region_start.
  destruct (lookup_lt_is_Some_2 (bump 0 inputs) i) as [r Hr].
  { rewrite length_bump. by eapply lookup_lt_Some. }
  pose proof (Forall2_lookup_lr _ _ _ _ _ _ Hh Hi Hr) as Hbs. rewrite Hr. cbn [from_option].
  destruct (bump_region _ _ _ _ _ Hi Hr) as [[Hz ->]|(Hz & H1 & H2)]; [by rewrite Hz; apply len_zero in Hz as ->|].
  rewrite !i32_as_u32_as_i32 by lia. eapply read_region; [exact Ha|exact Ht| |exact Hbs].
  intros _. lia.
Qed.

(** The entry point on readable inputs. *)
Lemma entry_point a p program parameters view witness :
  pl p <= MAX_ARGUMENT -> al p <= MAX_ARGUMENT -> wl p <= MAX_ARGUMENT -> vl p <= MAX_VIEW ->
  input_slice a (pp p) (pl p) = Some program -> input_slice a (ap p) (al p) = Some parameters ->
  input_slice a (vp p) (vl p) = Some view -> input_slice a (wp p) (wl p) = Some witness ->
  Guest.evaluate a p (predicate a) =
    match predicate a {| arg_program := program; arg_parameters := parameters;
                       arg_view := view; arg_witness := witness |} with
    | Some true => 1%Z | Some false => 0%Z | None => (-1)%Z
    end.
Proof.
  intros H1 H2 H3 H4 E1 E2 E3 E4. unfold Guest.evaluate. rewrite E1, E2, E3, E4.
  cbn [existsb]. apply N.ltb_ge in H1, H2, H3, H4. by rewrite H1, H2, H3, H4.
Qed.

(** The whole host run, as the predicate's answer on the four inputs; [a] is
    the arena as the guest finds it. *)
Lemma guest_run `{!OutPointCodec} module program parameters view witness input :
  check_module_bytes module = Ok tt ->
  check_compilation_budget (runtime := guest_runtime) V1 module = Ok tt ->
  len program <= MAX_PROGRAM_BYTES -> len parameters <= MAX_PARAMETER_BYTES ->
  len witness <= MAX_WITNESS_BYTES -> len view <= MAX_SIGNED_VIEW_BYTES ->
  encode_view V1 input = Ok view ->
  exists a, base a = arena_base /\
    used a = len program + len parameters + len view + len witness /\
  Evaluator.evaluate (runtime := guest_runtime) V1 module program parameters input witness
  = match predicate a {| arg_program := program; arg_parameters := parameters;
                       arg_view := view; arg_witness := witness |} with
    | Some b => Ok b
    | None => Err "WASM evaluator must return exactly zero or one"%string
    end.
Proof.
  intros Hm Hbudget Hp Ha Hw Hv Henc.
  set (inputs := [program; parameters; view; witness]).
  assert (total_len inputs <= INPUT_CAPACITY) as Ht.
  { unfold total_len, inputs, sum, INPUT_CAPACITY, MAX_VIEW, MAX_ARGUMENT; cbn.
    unfold MAX_PROGRAM_BYTES, MAX_PARAMETER_BYTES, MAX_WITNESS_BYTES, MAX_SIGNED_VIEW_BYTES in *. lia. }
  destruct (bump_all "sapio_alloc_v1" (new_evaluator_store (WasmRuntime := guest_runtime)) 0 [] inputs) as (a1 & Ealloc & Hoff);
    [done|done|constructor|].
  destruct (inputs_delivered (runtime := guest_runtime) _ _ _ _ _ _ _ _ Ealloc) as (a2 & Ecopy & _ & Hh).
  pose proof (copy_offset _ _ _ _ _ Hoff Ecopy) as Ha2.
  exists a2. split; [apply Ha2|]. split; [rewrite (proj2 Ha2); unfold total_len, inputs, sum; cbn; lia|].
  unfold Evaluator.evaluate. rewrite Hm. cbn [mbind Result_bind].
  rewrite Hbudget.
  cbn [mbind Result_bind].
  assert ((MAX_PROGRAM_BYTES <? len program) || (MAX_PARAMETER_BYTES <? len parameters)
          || (MAX_WITNESS_BYTES <? len witness) = false) as ->.
  { rewrite !orb_false_iff, !N.ltb_ge. done. }
  cbn [ensure negb mbind Result_bind]. rewrite Henc.
  cbn [mbind Result_bind module_new add_crypto_imports instance_new bind_crypto get_memory
       get_allocate get_evaluate guest_runtime export_names].
  fold inputs. etransitivity; [exact (bind_step _ _ _ Ealloc)|]. cbn [app].
  etransitivity; [exact (bind_step _ _ _ Ecopy)|]. cbn [call_evaluate guest_runtime].
  change (call_arguments inputs (bump 0 inputs)) with
    [as_i32 (region_start inputs 0); as_i32 (len program);
     as_i32 (region_start inputs 1); as_i32 (len parameters);
     as_i32 (region_start inputs 2); as_i32 (len view);
     as_i32 (region_start inputs 3); as_i32 (len witness)].
  unfold guest_call.
  erewrite (entry_point _ _ program parameters view witness).
  2-5: cbn; rewrite ?i32_as_u32_as_i32
    by (unfold MAX_PROGRAM_BYTES, MAX_PARAMETER_BYTES, MAX_WITNESS_BYTES, MAX_SIGNED_VIEW_BYTES in *; lia);
    assumption.
  2-5: eapply guest_input; [exact Ht|exact Ha2|exact Hh|reflexivity].
  destruct (predicate _ _) as [[]|]; reflexivity.
Qed.

End Instance_.
