(* ===== verification/EndToEnd.v ===== *)
(** * EndToEnd: the example programs under the host

    [authorize] of src/evaluator.rs run on the example predicates through the
    guest adapter of [GuestRuntime]: what the repository's documentation promises
    of the vault and of the template-hash program, as one statement each.  The
    examples of the host's own theorems, which need a concrete guest, are here
    too. *)

From S2P Require Import Prelude Bytes Bitcoin Program SignedView Guest Vault TemplateHash Evaluator GuestRuntime.

Open Scope N_scope.

(* ------------------------------------------------------------------ *)
(** ** Concrete instances *)

Module SampleHost.

(** An authenticator that accepts and hashes every spend to the same message. *)
#[export] Instance auth : NativeAuth := {|
  validate_psbt _ := Ok tt;
  sighash _ := Ok (lit "message");
  annex_get _ := Ok None;
|}.

Definition module : bytes := WASM_HEADER.

(** A module with one crypto import and one function of two locals. *)
Definition sections : list Payload := [
  TypeSection [Ok {| params := [I32; I32; I32]; results := [I32] |};
               Ok {| params := [I32]; results := [I32] |}];
  ImportSection [Ok {| import_module := CRYPTO_NAMESPACE; import_name := lit "sha256"; import_ty := Func 0 |}];
  FunctionSection [Ok 1];
  OtherPayload;
  CodeSectionEntry (Ok [Ok (2, I64)])].

#[export] Instance runtime : WasmRuntime := guest_runtime 65536 sections (fun _ => vault_evaluate).

End SampleHost.

(** The template program's instance: main.rs [instance_for]. *)
Definition template_instance `{!SapioProgram} (TEMPLATEHASH_WASM : bytes) (sha256 : bytes -> bytes)
    (transaction : Transaction) (input_index : N) : Result Error ProgramInstance :=
  program_instance_wasm TEMPLATEHASH_WASM (template_hash sha256 transaction input_index).

(** A spend the native checks let through, as the message of its intent. *)
Definition authenticated `{!NativeAuth} (input : SigningInput) (message : bytes) : Prop :=
  validate_psbt (psbt input) = Ok tt /\ sighash input = Ok message /\
  exists metadata, psbt_inputs (psbt input) !! N.to_nat (input_index input) = Some metadata /\
    final_script_sig metadata = None /\ final_script_witness metadata = None /\
    annex_get metadata = Ok None.

(** A module the host compiles, and an arena base that leaves room. *)
Definition linked (arena_base : N) (sections : list Payload)
    (predicate : Arena -> Arguments -> option bool) (module : bytes) : Prop :=
  0 < arena_base /\ arena_base + INPUT_CAPACITY <= LINEAR_MEMORY /\
  check_module_bytes module = Ok tt /\
  check_compilation_budget (runtime := guest_runtime arena_base sections predicate) V1 module = Ok tt.

(* ------------------------------------------------------------------ *)
(** ** Lemmas *)

Section Lemmas.
  Context {codec : OutPointCodec} {codec_laws : OutPointCodecLaws}.
  Context {sapio : SapioProgram} {sapio_laws : SapioProgramLaws} {auth : NativeAuth}.

(** An authenticated spend is decided by the evaluation of the selected module. *)
Lemma authorize_selected {runtime : WasmRuntime} registry program_ input witness message :
  authenticated input message ->
  authorize registry program_ input witness message
  = ('(module, selector, version) ← select_module registry program_;
     accepted ← map_err (fun e => Program (Evaluation e))
       (Evaluator.evaluate version module selector (parameters program_) input witness);
     ensure accepted (Program Rejected)).
Proof.
  intros (Hp & Hh & metadata & Hmd & Hf1 & Hf2 & Ha). unfold authorize.
  rewrite Hp. cbn [map_err mbind Result_bind]. rewrite Hh. cbn [mbind Result_bind].
  rewrite bool_decide_eq_true_2 by done. cbn [ensure mbind Result_bind].
  rewrite Hmd. cbn [expect mbind Result_bind]. rewrite Hf1, Hf2. cbn [ensure mbind Result_bind bool_decide].
  rewrite !bool_decide_eq_false_2 by (by intros []). cbn [orb negb ensure mbind Result_bind].
  rewrite Ha. cbn [mbind Result_bind]. by rewrite bool_decide_eq_true_2.
Qed.

(** An inline program is its own module. *)
Lemma authorize_inline_version {runtime : WasmRuntime} e version module ps registry input witness message :
  inline_wasm_version e = Some version -> authenticated input message ->
  authorize registry {| evaluator := e; program := module; parameters := ps |} input witness message
  = (accepted ← map_err (fun e => Program (Evaluation e)) (Evaluator.evaluate version module [] ps input witness);
     ensure accepted (Program Rejected)).
Proof.
  intros He Hauth. rewrite authorize_selected by done. unfold select_module. cbn [evaluator program parameters].
  by rewrite He.
Qed.

Lemma authorize_inline {runtime : WasmRuntime} module ps registry input witness message :
  authenticated input message ->
  authorize registry {| evaluator := wasm_id; program := module; parameters := ps |} input witness message
  = (accepted ← map_err (fun e => Program (Evaluation e)) (Evaluator.evaluate V1 module [] ps input witness);
     ensure accepted (Program Rejected)).
Proof. apply authorize_inline_version, inline_v1. Qed.

(** The same for a linked guest whose answer on the spend is known. *)
Lemma authorize_guest arena_base sections predicate module ps registry input message answer :
  linked arena_base sections predicate module -> authenticated input message ->
  native_context input -> view_size V1 input <= MAX_SIGNED_VIEW_BYTES ->
  len ps <= MAX_PARAMETER_BYTES ->
  (forall a, base a = arena_base -> used a = len ps + view_size V1 input ->
     predicate a {| arg_program := []; arg_parameters := ps;
                    arg_view := view_layout V1 input; arg_witness := [] |} = answer) ->
  authorize (runtime := guest_runtime arena_base sections predicate) registry
    {| evaluator := wasm_id; program := module; parameters := ps |} input [] message
  = match answer with
    | Some true => Ok tt
    | Some false => Err (Program Rejected)
    | None => Err (Program (Evaluation "WASM evaluator must return exactly zero or one"))
    end.
Proof.
  intros (H0 & Hfits & Hmod & Hbudget) Hauth Hnat Hsize Hps Hpred. rewrite authorize_inline by done.
  pose proof (len_view_layout V1 input Hnat) as Hlen.
  destruct (guest_run arena_base sections predicate H0 Hfits module [] ps (view_layout V1 input) [] input)
    as (a & Hb & Hu & ->); [done|done|done|done|done|by rewrite Hlen| |].
  - rewrite encode_view_fits by done. apply N.leb_le in Hsize. by rewrite Hsize.
  - rewrite Hpred; [by destruct answer as [[]|]|done|]. rewrite Hu, Hlen, len_nil. lia.
Qed.

(** The vault on committed parameters that decode. *)
Lemma authorize_vault arena_base sections module ps max_fee destination registry input message :
  linked arena_base sections (fun _ => vault_evaluate) module ->
  read_parameters ps = Some (max_fee, destination) -> len ps <= MAX_PARAMETER_BYTES ->
  authenticated input message -> native_context input -> view_size V1 input <= MAX_SIGNED_VIEW_BYTES ->
  authorize (runtime := guest_runtime arena_base sections (fun _ => vault_evaluate)) registry
    {| evaluator := wasm_id; program := module; parameters := ps |} input [] message
  = if vault_allows max_fee destination input then Ok tt else Err (Program Rejected).
Proof.
  intros Hlink Hps Hlen Hauth Hnat Hsize.
  rewrite (authorize_guest _ _ _ _ _ _ _ _ (Some (vault_allows max_fee destination input)));
    [by destruct (vault_allows _ _ _)|done..|]. intros a _ _. by apply vault_layout.
Qed.

(** What an evaluation that returns has checked. *)
Lemma evaluate_limits {runtime : WasmRuntime} version module program parameters input witness verdict :
  Evaluator.evaluate version module program parameters input witness = Ok verdict ->
  len program <= MAX_PROGRAM_BYTES /\ len parameters <= MAX_PARAMETER_BYTES /\ len witness <= MAX_WITNESS_BYTES /\
  exists view, encode_view version input = Ok view.
Proof.
  unfold Evaluator.evaluate. intros H. apply bind_ok in H as ([] & _ & H). apply bind_ok in H as ([] & _ & H).
  apply bind_ok in H as ([] & Hl & H). apply bind_ok in H as (view & Hv & _).
  rewrite ensure_ok, negb_true_iff, !orb_false_iff, !N.ltb_ge in Hl. do 3 (split; [apply Hl|]). by exists view.
Qed.

(** A spend the vault authorized, whatever evidence came with it. *)
Lemma vault_authorized arena_base sections module ps max_fee destination registry input witness message :
  linked arena_base sections (fun _ => vault_evaluate) module ->
  read_parameters ps = Some (max_fee, destination) -> native_context input ->
  authorize (runtime := guest_runtime arena_base sections (fun _ => vault_evaluate)) registry
    {| evaluator := wasm_id; program := module; parameters := ps |} input witness message = Ok tt ->
  sighash input = Ok message /\ vault_allows max_fee destination input = true.
Proof.
  intros (H0 & Hfits & Hmod & Hbudget) Hps Hn H. unfold authorize in H.
  apply bind_ok in H as ([] & _ & H). apply bind_ok in H as (hash & Hhash & H).
  apply bind_ok in H as ([] & Heq & H). apply ensure_ok, bool_decide_eq_true in Heq as ->. split; [done|].
  apply bind_ok in H as (metadata & _ & H). apply bind_ok in H as ([] & _ & H).
  apply bind_ok in H as (annex & _ & H). apply bind_ok in H as ([] & _ & H).
  unfold select_module in H. cbn [evaluator program parameters] in H. rewrite inline_v1 in H. cbn [mbind Result_bind] in H.
  apply bind_ok in H as (accepted & He & Hacc). apply ensure_ok in Hacc as ->. apply map_err_ok in He.
  destruct (evaluate_limits _ _ _ _ _ _ _ He) as (Hl1 & Hl2 & Hl3 & view & Hv). pose proof Hv as Hfit.
  rewrite encode_view_fits in Hfit by done. destruct (N.leb_spec (view_size V1 input) MAX_SIGNED_VIEW_BYTES) as [Hsize|]; [|done].
  apply Ok_inj in Hfit as <-. pose proof (len_view_layout V1 input Hn) as Hlen.
  destruct (guest_run arena_base sections (fun _ => vault_evaluate) H0 Hfits module [] ps (view_layout V1 input) witness input)
    as (a & _ & _ & Hrun); [done|done|done|done|done|by rewrite Hlen|done|].
  rewrite Hrun in He. destruct witness as [|w witness].
  - rewrite (vault_layout input max_fee destination ps) in He by done. by apply Ok_inj in He.
  - exfalso. unfold vault_evaluate in He. cbn [arg_program arg_witness] in He. rewrite len_cons in He.
    destruct (N.eqb_spec (1 + len witness) 0) as [|_]; [lia|]. cbn [negb orb] in He.
    change (len [] =? 0) with true in He. discriminate He.
Qed.

(** The template program on a committed hash. *)
Lemma authorize_template arena_base sections module sha256 committed registry input message :
  let predicate := templatehash_evaluate (fun bs => Some (sha256 bs)) in
  linked arena_base sections predicate module -> len committed = DIGEST ->
  authenticated input message -> native_context input -> view_size V1 input <= MAX_SIGNED_VIEW_BYTES ->
  DIGEST + view_size V1 input + scratch_size input <= INPUT_CAPACITY ->
  authorize (runtime := guest_runtime arena_base sections predicate) registry
    {| evaluator := wasm_id; program := module; parameters := committed |} input [] message
  = if bool_decide (template_hash sha256 (unsigned_tx (psbt input)) (input_index input) = committed)
    then Ok tt else Err (Program Rejected).
Proof.
  intros predicate Hlink Hlen Hauth Hnat Hsize Hcap.
  rewrite (authorize_guest _ _ _ _ _ _ _ _
    (Some (bool_decide (template_hash sha256 (unsigned_tx (psbt input)) (input_index input) = committed))));
    [by destruct (bool_decide _)|done..|by rewrite Hlen|].
  intros a Hb Hu. unfold predicate. rewrite Hlen in Hu. destruct Hlink as (H0 & Hfits & _).
  rewrite templatehash_layout; [|done|done| |done].
  - rewrite Hu. apply N.leb_le in Hcap. by rewrite Hcap.
  - unfold wf_arena. rewrite Hb, Hu. unfold LINEAR_MEMORY in *. lia.
Qed.

End Lemmas.

(* ------------------------------------------------------------------ *)
(** ** Properties *)

Section Theorems.
  Context {codec : OutPointCodec} {codec_laws : OutPointCodecLaws}.
  Context {sapio : SapioProgram} {sapio_laws : SapioProgramLaws} {auth : NativeAuth}.

(** C16: end to end, the vault program linked with guest.rs at any base address
    that leaves room for its arena, run by the host on an authenticated spend
    whose signed view fits: the spend is authorized exactly when [vault_allows]
    it, and refused as [Rejected], not as an execution error, otherwise. *)
Theorem vault_authorize arena_base sections module max_fee destination registry program_ input message :
  linked arena_base sections (fun _ => vault_evaluate) module ->
  max_fee < 2 ^ 64 -> 12 + len destination <= MAX_PARAMETER_BYTES ->
  vault_instance module max_fee destination = Ok program_ ->
  authenticated input message -> native_context input ->
  view_size V1 input <= MAX_SIGNED_VIEW_BYTES ->
  authorize (runtime := guest_runtime arena_base sections (fun _ => vault_evaluate)) registry program_ input [] message
  = if vault_allows max_fee destination input then Ok tt else Err (Program Rejected).
Proof.
  intros Hlink Hfee Hdest Hinst Hauth Hnat Hsize.
  unfold vault_instance in Hinst. apply bind_ok in Hinst as (ps & Hps & Hinst).
  apply program_instance_wasm_ok in Hinst as ->.
  unfold MAX_PARAMETER_BYTES in Hdest.
  assert (len ps = 12 + len destination) as Hlen.
  { unfold vault_parameters, u32_try_from in Hps. apply bind_ok in Hps as (n & _ & Hps).
    apply Ok_inj in Hps as <-. rewrite !len_app, !len_le_bytes. lia. }
  apply authorize_vault; try done; [|rewrite Hlen; unfold MAX_PARAMETER_BYTES; lia].
  apply read_parameters_encoded; (done || lia).
Qed.

(** C17: end to end, the template-hash program with the host's SHA-256 import,
    committed to one transaction and input: an authenticated spend whose view
    leaves the guest its scratch space is authorized exactly when it hashes to
    that template. *)
Theorem templatehash_authorize arena_base sections module sha256 committed_tx committed_index
    registry program_ input message :
  let predicate := templatehash_evaluate (fun bs => Some (sha256 bs)) in
  (forall x, len (sha256 x) = DIGEST) ->
  linked arena_base sections predicate module ->
  template_instance module sha256 committed_tx committed_index = Ok program_ ->
  authenticated input message -> native_context input ->
  view_size V1 input <= MAX_SIGNED_VIEW_BYTES ->
  DIGEST + view_size V1 input + scratch_size input <= INPUT_CAPACITY ->
  authorize (runtime := guest_runtime arena_base sections predicate) registry program_ input [] message
  = if bool_decide (template_hash sha256 (unsigned_tx (psbt input)) (input_index input)
                    = template_hash sha256 committed_tx committed_index)
    then Ok tt else Err (Program Rejected).
Proof.
  intros predicate Hsha Hlink Hinst Hauth Hnat Hsize Hcap.
  apply program_instance_wasm_ok in Hinst as ->.
  apply authorize_template; try done. apply Hsha.
Qed.

End Theorems.

#[local] Existing Instances StandardOutPoint.codec StandardOutPoint.codec_laws
  SampleProgram.sapio SampleProgram.sapio_laws SampleHost.auth SampleHost.runtime.

Lemma vault_authorize_witness : exists program_,
  vault_instance SampleHost.module 1000 (lit "destination") = Ok program_ /\
  authorize [] program_ SampleContext.context [] (lit "message") = Ok tt.
Proof.
  eexists. split; [reflexivity|].
  apply (vault_authorize 65536 SampleHost.sections SampleHost.module 1000 (lit "destination") []
    _ SampleContext.context (lit "message")); try reflexivity;
    [repeat split; vm_compute; congruence | vm_compute; congruence | | exact SampleContext.native | vm_compute; congruence].
  repeat split. eexists. by repeat split.
Defined.

Lemma evaluate_verdict_witness :
  Evaluator.evaluate V1 SampleHost.module [] (le_bytes 8 1000 ++ le_bytes 4 11 ++ lit "destination")
    SampleContext.context [] = Ok true /\
  check_module_bytes SampleHost.module = Ok tt.
Proof.
  assert (Evaluator.evaluate V1 SampleHost.module []
            (le_bytes 8 1000 ++ le_bytes 4 11 ++ lit "destination")
            SampleContext.context [] = Ok true) as H by (vm_compute; reflexivity).
  split; [exact H|].
  exact (proj1 (evaluate_verdict (rt_laws := guest_runtime_laws 65536 SampleHost.sections (fun _ => vault_evaluate))
                  V1 _ _ _ _ _ true H)).
Defined.

Lemma authorize_unknown_evaluator_witness :
  authorize [] {| evaluator := lit "other"; program := []; parameters := [] |}
    SampleContext.context [] (lit "message") = Err (Program (UnknownEvaluator (lit "other"))).
Proof.
  eapply (authorize_unknown_evaluator [] {| evaluator := lit "other"; program := []; parameters := [] |});
    try reflexivity. apply not_elem_of_nil.
Defined.

(** The sample spend is the committed template of its own transaction. *)
Lemma templatehash_authorize_witness : exists program_,
  template_instance SampleHost.module SampleTemplate.digest
    SampleContext.tx 0 = Ok program_ /\
  authorize (runtime := guest_runtime 65536 SampleHost.sections
      (templatehash_evaluate (fun bs => Some (SampleTemplate.digest bs))))
    [] program_ SampleContext.context [] (lit "message") = Ok tt.
Proof.
  eexists. split; [reflexivity|].
  rewrite (templatehash_authorize 65536 SampleHost.sections SampleHost.module
    SampleTemplate.digest SampleContext.tx 0 []
    _ SampleContext.context (lit "message")); try reflexivity.
  - apply SampleTemplate.digest_len.
  - repeat split; vm_compute; congruence.
  - repeat split. eexists. by repeat split.
  - exact SampleContext.native.
  - vm_compute; congruence.
  - vm_compute; congruence.
Defined.
