(* ===== verification/Keys.v ===== *)
(** * Keys: settings, the NUMS point and the BIP32 root (src/keys.rs)

    [Settings] are the public inputs of a signer.  [key_region] is the strict
    parser of the KMS key ARN, [nums_point] the hash-to-point counter loop,
    [root_from_secret] the HKDF and BIP32 step, [derive_root] the whole
    derivation through the enclave-local KMS proxy.  SHA-256, P-256
    decompression, SPKI encoding, HKDF, BIP32 and the KMS client are the
    interfaces [KeyPrimitives] and [send]. *)

From S2P Require Import Prelude Bytes.

Open Scope N_scope.

Inductive Network := Bitcoin | Testnet | Testnet4 | Signet | Regtest.

#[export] Instance network_eq_dec : EqDecision Network.
Proof. solve_decision. Defined.

Record Settings := {
  key_id : bytes;
  blockhash : bytes;
  network : Network;
}.

#[export] Instance settings_eq_dec : EqDecision Settings.
Proof. solve_decision. Defined.

Definition KMS_PROXY_ENDPOINT : bytes := lit "http://127.0.0.1:9999".
Definition NUMS_DOMAIN : bytes := lit "sapio-tee/p256-nums/v1".
Definition HKDF_SALT : bytes := lit "sapio-tee/root-extract/v1".
Definition ROOT_INFO_DOMAIN : bytes := lit "sapio-tee/bip32-root/v1".

(** The regions of the [matches!] in [key_region]. *)
Definition REGIONS : list bytes := lit <$> [
  "af-south-1"; "ap-east-1"; "ap-east-2"; "ap-northeast-1"; "ap-northeast-2";
  "ap-northeast-3"; "ap-south-1"; "ap-south-2"; "ap-southeast-1"; "ap-southeast-2";
  "ap-southeast-3"; "ap-southeast-4"; "ap-southeast-5"; "ap-southeast-6"; "ap-southeast-7";
  "ca-central-1"; "ca-west-1"; "eu-central-1"; "eu-central-2"; "eu-north-1";
  "eu-south-1"; "eu-south-2"; "eu-west-1"; "eu-west-2"; "eu-west-3"; "il-central-1";
  "me-central-1"; "me-south-1"; "mx-central-1"; "sa-east-1"; "us-east-1"; "us-east-2";
  "us-west-1"; "us-west-2"]%string.

(* ------------------------------------------------------------------ *)
(** ** The key ARN *)

(** [fields.next()] of the [Split] iterator. *)
Definition next (fields : list bytes) : option bytes * list bytes :=
  match fields with
  | [] => (None, [])
  | f :: fields => (Some f, fields)
  end.

Definition lowercase_hex (b : byte) : bool :=
  byte_in "0"%byte "9"%byte b || byte_in "a"%byte "f"%byte b.

Definition canonical_uuid (key : bytes) : bool :=
  (len key =? 36)
  && forallb (fun '(i, b) =>
       if bool_decide (i ∈ [8; 13; 18; 23]%nat) then Byte.eqb b "-"%byte else lowercase_hex b)
     (zip (seq 0 (length key)) key).

Definition valid_key (key : bytes) : bool :=
  match strip_prefix (lit "mrk-") key with
  | Some id => (len id =? 32) && forallb lowercase_hex id
  | None => canonical_uuid key
  end.

Definition key_region (key_id : bytes) : Result Error bytes :=
  let fields := split_on ":"%byte key_id in
  let '(f0, fields) := next fields in
  let '(f1, fields) := next fields in
  let '(f2, fields) := next fields in
  _ ← ensure (bool_decide (f0 = Some (lit "arn")) && bool_decide (f1 = Some (lit "aws"))
              && bool_decide (f2 = Some (lit "kms")))
        (Message "key_id must be a full arn:aws:kms key ARN");
  let '(f3, fields) := next fields in
  region ← ok_or f3 (Message "KMS key ARN is missing its region");
  _ ← ensure (bool_decide (region ∈ REGIONS)) (Message "KMS key ARN uses an unsupported AWS region");
  let '(f4, fields) := next fields in
  account ← ok_or f4 (Message "KMS key ARN is missing its account");
  _ ← ensure ((len account =? 12) && forallb is_ascii_digit account)
        (Message "KMS key ARN must contain a 12-digit AWS account");
  let '(f5, fields) := next fields in
  resource ← ok_or f5 (Message "KMS key ARN is missing its key");
  let '(f6, _) := next fields in
  _ ← ensure (bool_decide (f6 = None)) (Message "KMS key ARN has extra components");
  key ← ok_or (strip_prefix (lit "key/") resource)
          (Message "KMS key ARN must identify a key, not an alias");
  _ ← ensure (valid_key key)
        (Message "KMS key ARN must contain a canonical lowercase UUID or mrk- key ID");
  Ok region.

(** [BlockHash::all_zeros()]. *)
Definition all_zeros : bytes := replicate 32 Byte.x00.

(** [Settings::validate]. *)
Definition validate (settings : Settings) : Result Error unit :=
  _ ← key_region (key_id settings);
  ensure (negb (bool_decide (blockhash settings = all_zeros))) (Message "blockhash must be nonzero").

(* ------------------------------------------------------------------ *)
(** ** The derivation *)

Class KeyPrimitives := {
  sha256 : bytes -> bytes;
  PublicKey : Type;
  from_sec1_bytes : bytes -> option PublicKey;
  to_public_key_der : PublicKey -> Result string bytes;
  hkdf_expand_multi_info : forall (salt ikm : bytes) (infos : list bytes) (length : N), Result string bytes;
  Xpriv : Type;
  new_master : Network -> bytes -> Result string Xpriv;
}.

Definition network_tag (n : Network) : byte :=
  match n with
  | Bitcoin => Byte.x00 | Testnet => Byte.x01 | Testnet4 => Byte.x02
  | Signet => Byte.x03 | Regtest => Byte.x04
  end.

Inductive KeyAgreementAlgorithm := Ecdh | OtherAlgorithm (name : string).

#[export] Instance algorithm_eq_dec : EqDecision KeyAgreementAlgorithm.
Proof. solve_decision. Defined.

(** The configured client and the DeriveSharedSecret call; times in seconds. *)
Record KmsRequest := {
  endpoint_url : bytes;
  request_region : bytes;
  access_key : bytes;
  secret_key : bytes;
  session_token : option bytes;
  expires_after : option N;
  provider_name : bytes;
  max_attempts : N;
  connect_timeout : N;
  read_timeout : N;
  operation_attempt_timeout : N;
  operation_timeout : N;
  request_key_id : bytes;
  request_algorithm : KeyAgreementAlgorithm;
  request_public_key : bytes;
}.

Record KmsResponse := {
  shared_secret : option bytes;
  response_key_id : option bytes;
  response_algorithm : option KeyAgreementAlgorithm;
  ciphertext_for_recipient : option bytes;
}.

Section Derivation.
  Context {prim : KeyPrimitives}.

(** The candidate of one counter: [0x02] and the digest of the prefix state
    updated with the counter. *)
Definition nums_candidate (blockhash : bytes) (counter : N) : bytes :=
  Byte.x02 :: sha256 (NUMS_DOMAIN ++ blockhash ++ be_bytes 4 counter).

Definition nums_point (blockhash : bytes) : Result Error PublicKey :=
  match find_from (fun counter => from_sec1_bytes (nums_candidate blockhash counter))
          (2 ^ 32)%positive (inl 0) with
  | inr point => Ok point
  | inl _ => Err (Message "P-256 NUMS derivation exhausted its counter")
  end.

(** The info strings of HKDF-Expand. *)
Definition root_info (settings : Settings) (arn_length : N) : list bytes :=
  [ROOT_INFO_DOMAIN; be_bytes 4 arn_length; key_id settings; blockhash settings;
   [network_tag (network settings)]].

Definition root_from_secret (settings : Settings) (secret : bytes) : Result Error Xpriv :=
  _ ← ensure (len secret =? 32) (Message "KMS shared secret must be exactly 32 bytes");
  arn_length ← ok_or (u32_try_from (len (key_id settings)))
    (Context "KMS key ARN is too long" (Foreign "out of range integral type conversion attempted"));
  seed ← map_err (fun _ => Message "HKDF could not produce the BIP32 seed")
           (hkdf_expand_multi_info HKDF_SALT secret (root_info settings arn_length) 64);
  context "deriving the BIP32 master root" (map_err Foreign (new_master (network settings) seed)).

Definition kms_request (settings : Settings) (region public_key : bytes) : KmsRequest := {|
  endpoint_url := KMS_PROXY_ENDPOINT;
  request_region := region;
  access_key := lit "ENCLAVE_PROXY_ONLY";
  secret_key := lit "ENCLAVE_PROXY_ONLY";
  session_token := None;
  expires_after := None;
  provider_name := lit "measured-enclave-kms-proxy";
  max_attempts := 3;
  connect_timeout := 3;
  read_timeout := 15;
  operation_attempt_timeout := 20;
  operation_timeout := 45;
  request_key_id := key_id settings;
  request_algorithm := Ecdh;
  request_public_key := public_key;
|}.

(** The checks on a response, in order, then the derivation. *)
Definition accept_response (settings : Settings) (output : KmsResponse) : Result Error Xpriv :=
  secret ← ok_or (shared_secret output) (Message "KMS proxy returned no shared secret");
  _ ← ensure (bool_decide (response_key_id output = Some (key_id settings)))
        (Message "KMS response key ARN did not match the requested key");
  _ ← ensure (bool_decide (response_algorithm output = Some Ecdh))
        (Message "KMS response did not use ECDH");
  _ ← ensure (bool_decide (ciphertext_for_recipient output = None))
        (Message "KMS recipient ciphertext was not consumed by the enclave proxy");
  root_from_secret settings secret.

(** [send] is the KMS client behind the proxy; its error is the SDK's. *)
Definition derive_root (send : KmsRequest -> Result string KmsResponse) (settings : Settings)
    : Result Error Xpriv :=
  _ ← validate settings;
  region ← key_region (key_id settings);
  point ← nums_point (blockhash settings);
  public_key ← context "encoding the P-256 NUMS point as SPKI DER"
                 (map_err Foreign (to_public_key_der point));
  output ← map_err (fun _ => Message "KMS DeriveSharedSecret failed through the enclave proxy")
             (send (kms_request settings region public_key));
  accept_response settings output.

End Derivation.

(* ------------------------------------------------------------------ *)
(** ** Specification of the key ARN *)

Definition account_number (account : bytes) : Prop :=
  len account = 12 /\ Forall (fun b => is_ascii_digit b = true) account.

(** A full key ARN of the commercial partition. *)
Definition key_arn (region account key : bytes) : bytes :=
  join_with ":"%byte [lit "arn"; lit "aws"; lit "kms"; region; account; lit "key/" ++ key].

(* ------------------------------------------------------------------ *)
(** ** Lemmas *)

(** A decidable fact about literals. *)
Ltac vm_decide := apply (bool_decide_unpack _); vm_compute; exact I.

Lemma colon_free (P : byte -> bool) bs :
  P ":"%byte = false -> forallb P bs = true -> ":"%byte ∉ bs.
Proof.
  intros HP Hb Hin. rewrite forallb_forall in Hb.
  assert (P ":"%byte = true); [|congruence]. apply Hb. first [exact Hin | by apply list_elem_of_In].
Qed.

Lemma uuid_colon_free i key :
  forallb (fun '(i, b) =>
    if bool_decide (i ∈ [8; 13; 18; 23]%nat) then Byte.eqb b "-"%byte else lowercase_hex b)
    (zip (seq i (length key)) key) = true -> ":"%byte ∉ key.
Proof.
  revert i; induction key as [|b key IH]; intros i; cbn; [intros _; apply not_elem_of_nil|].
  rewrite andb_true_iff. intros [Hb Hk]. apply not_elem_of_cons. split; [|by eapply IH].
  intros <-. by destruct (bool_decide _) in Hb.
Qed.

Lemma valid_key_colon_free key : valid_key key = true -> ":"%byte ∉ lit "key/" ++ key.
Proof.
  intros H. rewrite not_elem_of_app. split; [by vm_decide|].
  unfold valid_key in H. destruct (strip_prefix (lit "mrk-") key) as [id|] eqn:Hs.
  - apply strip_prefix_spec in Hs as ->. apply andb_true_iff in H as [_ H].
    rewrite not_elem_of_app. split; [by vm_decide|]. exact (colon_free lowercase_hex _ eq_refl H).
  - apply andb_true_iff in H as [_ H]. by eapply uuid_colon_free.
Qed.

Lemma regions_colon_free region : region ∈ REGIONS -> ":"%byte ∉ region.
Proof.
  assert (Forall (fun r => ":"%byte ∉ r) REGIONS) as H by vm_decide.
  rewrite list.Forall_forall in H. apply H.
Qed.

Lemma account_number_bool account :
  (len account =? 12) && forallb is_ascii_digit account = true <-> account_number account.
Proof.
  unfold account_number. rewrite andb_true_iff, N.eqb_eq, forallb_forall, list.Forall_forall.
  setoid_rewrite list_elem_of_In. done.
Qed.

(** The fields of an accepted ARN. *)
Lemma key_region_fields key_id region :
  key_region key_id = Ok region <->
  region ∈ REGIONS /\ exists account key,
    split_on ":"%byte key_id = [lit "arn"; lit "aws"; lit "kms"; region; account; lit "key/" ++ key] /\
    account_number account /\ valid_key key = true.
Proof.
  unfold key_region. split.
  - destruct (split_on ":"%byte key_id) as [|a0 [|a1 [|a2 [|a3 [|a4 [|a5 [|a6 fs]]]]]]]; cbn [next];
      intros H; apply bind_ok in H as ([] & H0 & H); apply ensure_ok in H0;
      rewrite !andb_true_iff, !bool_decide_eq_true in H0; destruct H0 as [[E0 E1] E2];
      try discriminate; apply Some_inj in E0, E1, E2; subst;
      apply bind_ok in H as (r & Hr & H); apply ok_or_ok in Hr; try discriminate; apply Some_inj in Hr as ->;
      apply bind_ok in H as ([] & H3 & H); apply ensure_ok, bool_decide_eq_true in H3;
      apply bind_ok in H as (a & Ha & H); apply ok_or_ok in Ha; try discriminate; apply Some_inj in Ha as ->;
      apply bind_ok in H as ([] & H4 & H); apply ensure_ok, account_number_bool in H4;
      apply bind_ok in H as (res & Hx & H); apply ok_or_ok in Hx; try discriminate; apply Some_inj in Hx as ->;
      apply bind_ok in H as ([] & H5 & H); apply ensure_ok, bool_decide_eq_true in H5; try discriminate.
    apply bind_ok in H as (k & Hk & H). apply ok_or_ok, strip_prefix_spec in Hk as ->.
    apply bind_ok in H as ([] & H6 & H). apply ensure_ok in H6. apply Ok_inj in H as <-.
    split; [done|]. by exists a, k.
  - intros (Hr & account & key & -> & Ha & Hk). cbn [next].
    rewrite !bool_decide_eq_true_2 by done. apply account_number_bool in Ha. cbn [andb ensure mbind Result_bind ok_or].
    rewrite Ha. cbn [ensure mbind Result_bind ok_or]. rewrite bool_decide_eq_true_2 by done. cbn [ensure mbind Result_bind ok_or].
    rewrite strip_prefix_app. cbn [ensure mbind Result_bind ok_or]. by rewrite Hk.
Qed.

(** Six fields free of separators are recovered by splitting. *)
Lemma split_key_arn region account key :
  region ∈ REGIONS -> account_number account -> valid_key key = true ->
  split_on ":"%byte (key_arn region account key)
  = [lit "arn"; lit "aws"; lit "kms"; region; account; lit "key/" ++ key].
Proof.
  intros Hr Ha Hk. apply split_join; [done|].
  repeat (constructor; [first [vm_decide | by apply regions_colon_free | by apply valid_key_colon_free | idtac]|]);
    [|constructor].
  apply account_number_bool, andb_true_iff in Ha as [_ Ha]. exact (colon_free is_ascii_digit _ eq_refl Ha).
Qed.

(** The info strings separate: the two variable-length parts are delimited by
    the length prefix and the fixed widths around them. *)
Lemma root_info_parts s1 s2 n1 n2 :
  len (blockhash s1) = len (blockhash s2) -> len (key_id s1) = n1 -> len (key_id s2) = n2 ->
  n1 < 2 ^ 32 -> n2 < 2 ^ 32 ->
  concat (root_info s1 n1) = concat (root_info s2 n2) ->
  key_id s1 = key_id s2 /\ blockhash s1 = blockhash s2 /\ network_tag (network s1) = network_tag (network s2).
Proof.
  intros Hb Hn1 Hn2 L1 L2. unfold root_info. cbn [concat]. intros H. apply app_inv_head in H.
  assert (forall n, len (be_bytes 4 n) = 4) as Hbe by (intros n; unfold len; by rewrite length_be_bytes).
  apply app_inj_1 in H as [E H]; [|by rewrite !length_be_bytes].
  apply be_bytes_inj in E; [|done..]. subst n1 n2.
  apply app_inj_1 in H as [E1 H]; [|unfold len in E; lia].
  apply app_inj_1 in H as [E2 H]; [|unfold len in Hb; lia].
  rewrite app_nil_r in H. split; [done|]. split; [done|]. by injection H.
Qed.

Lemma network_tag_inj n m : network_tag n = network_tag m -> n = m.
Proof. by destruct n, m. Qed.

(** Concrete primitives for the examples: a polynomial checksum that ends in the
    last byte, a curve test that fails at counters 0 and 1, a transparent HKDF. *)
Module SampleKeys.

Definition checksum (bs : bytes) : bytes :=
  le_bytes 31 (foldl (fun sum b => N.land (sum * 257 + Byte.to_N b + 1) 4294967295) 0 bs) ++ [List.last bs Byte.x00].

Lemma checksum_length bs : len (checksum bs) = 32.
Proof. unfold checksum. by rewrite len_app, len_le_bytes. Qed.

#[export] Instance prim : KeyPrimitives := {|
  sha256 := checksum;
  PublicKey := bytes;
  from_sec1_bytes bs := if bool_decide (List.last bs Byte.x00 = Byte.x02) then Some bs else None;
  to_public_key_der p := Ok p;
  hkdf_expand_multi_info salt ikm infos n := Ok (take (N.to_nat n) (ikm ++ concat infos));
  Xpriv := Network * bytes;
  new_master n seed := Ok (n, seed);
|}.

Definition key_id : bytes :=
  lit "arn:aws:kms:us-east-1:123456789012:key/12345678-1234-1234-1234-123456789abc".

Definition settings : Settings :=
  {| Keys.key_id := key_id; blockhash := replicate 32 Byte.x01; network := Bitcoin |}.

Definition secret : bytes := replicate 32 Byte.x42.

(** A proxy that answers the requested key with the shared secret. *)
Definition proxy (request : KmsRequest) : Result string KmsResponse :=
  Ok {| shared_secret := Some secret; response_key_id := Some (request_key_id request);
        response_algorithm := Some Ecdh; ciphertext_for_recipient := None |}.

End SampleKeys.

(* ------------------------------------------------------------------ *)
(** ** Properties *)

(** The key ARN parser accepts exactly the full ARNs of the commercial
    partition in a listed region, with a 12-digit account and a canonical
    lower-case UUID or multi-region key id, and returns the region it names. *)
Theorem key_region_iff key_id region :
  key_region key_id = Ok region <->
  region ∈ REGIONS /\ exists account key,
    key_id = key_arn region account key /\ account_number account /\ valid_key key = true.
Proof.
  rewrite key_region_fields. split; intros (Hr & account & key & H & Ha & Hk); (split; [done|]);
    exists account, key; (split; [|done]).
  - unfold key_arn. rewrite <- H. symmetry. apply join_split.
  - subst key_id. by apply split_key_arn.
Qed.

(** Settings are valid exactly when the ARN parses and the blockhash is not
    zero. *)
Theorem validate_iff settings :
  validate settings = Ok tt <->
  (exists region, key_region (key_id settings) = Ok region) /\ blockhash settings <> all_zeros.
Proof.
  unfold validate. rewrite bind_ok. split.
  - intros (r & Hr & H). apply ensure_ok, negb_true_iff, bool_decide_eq_false in H. eauto.
  - intros [[r Hr] H]. exists r. split; [done|]. by rewrite bool_decide_eq_false_2.
Qed.

Section Theorems.
  Context {prim : KeyPrimitives}.

(** The NUMS loop terminates within the 2^32 counters and returns the first
    counter whose candidate is a point; it fails only when no counter is, and
    never panics. *)
Theorem nums_point_first blockhash :
  match nums_point blockhash with
  | Ok point => exists counter, counter < 2 ^ 32 /\
      from_sec1_bytes (nums_candidate blockhash counter) = Some point /\
      forall earlier, earlier < counter -> from_sec1_bytes (nums_candidate blockhash earlier) = None
  | Err _ => forall counter, counter < 2 ^ 32 -> from_sec1_bytes (nums_candidate blockhash counter) = None
  | Panic _ => False
  end.
Proof.
  unfold nums_point.
  destruct (find_from_spec (fun c => from_sec1_bytes (nums_candidate blockhash c)) (2 ^ 32)%positive 0)
    as [(k & point & Hk & Hf & -> & Hn)|[-> Hn]].
  - exists k. split; [lia|]. split; [done|]. intros m Hm. apply Hn. lia.
  - intros c Hc. apply Hn. lia.
Qed.

(** Domain separation: settings with 32-byte blockhashes and encodable key
    ids that expand the same HKDF info are the same settings, so a change of
    key, blockhash or network always changes what the seed is derived from. *)
Theorem root_info_inj s1 s2 :
  len (blockhash s1) = 32 -> len (blockhash s2) = 32 ->
  len (key_id s1) < 2 ^ 32 -> len (key_id s2) < 2 ^ 32 ->
  concat (root_info s1 (len (key_id s1))) = concat (root_info s2 (len (key_id s2))) ->
  s1 = s2.
Proof.
  intros H1 H2 L1 L2 H. apply root_info_parts in H as (E1 & E2 & E3); [|congruence|done..].
  apply network_tag_inj in E3. destruct s1, s2; cbn in *. by subst.
Qed.

(** C31: a root is derived exactly when the settings are valid, the NUMS point
    exists and encodes, the enclave proxy answers the one request built from
    the settings, and its answer names the requested key, used ECDH, carries no
    unconsumed recipient ciphertext and a secret the root derives from. *)
Theorem derive_root_iff send settings root :
  derive_root send settings = Ok root <->
  exists region point public_key output secret,
    validate settings = Ok tt /\ key_region (key_id settings) = Ok region /\
    nums_point (blockhash settings) = Ok point /\ to_public_key_der point = Ok public_key /\
    send (kms_request settings region public_key) = Ok output /\
    response_key_id output = Some (key_id settings) /\
    response_algorithm output = Some Ecdh /\
    ciphertext_for_recipient output = None /\
    shared_secret output = Some secret /\ root_from_secret settings secret = Ok root.
Proof.
  unfold derive_root, accept_response. split.
  - intros H. apply bind_ok in H as ([] & Hv & H). apply bind_ok in H as (region & Hr & H).
    apply bind_ok in H as (point & Hp & H). apply bind_ok in H as (der & Hd & H).
    apply context_ok, map_err_ok in Hd. apply bind_ok in H as (output & Ho & H). apply map_err_ok in Ho.
    apply bind_ok in H as (secret & Hs & H). apply ok_or_ok in Hs.
    apply bind_ok in H as ([] & H1 & H). apply bind_ok in H as ([] & H2 & H).
    apply bind_ok in H as ([] & H3 & H). apply ensure_ok, bool_decide_eq_true in H1, H2, H3.
    exists region, point, der, output, secret. done.
  - intros (region & point & der & output & secret & Hv & Hr & Hp & Hd & Ho & H1 & H2 & H3 & Hs & Hroot).
    rewrite Hv, Hr, Hp. cbn [mbind Result_bind]. rewrite Hd. cbn [context map_err mbind Result_bind].
    rewrite Ho. cbn [map_err mbind Result_bind]. rewrite Hs. cbn [ok_or mbind Result_bind].
    by rewrite !bool_decide_eq_true_2.
Qed.

(** The SDK's error value never reaches the caller: replacing every error of
    the client by another changes nothing. *)
Theorem derive_root_hides_sdk_error send settings (other : string) :
  derive_root (fun request => map_err (fun _ => other) (send request)) settings
  = derive_root send settings.
Proof.
  unfold derive_root. do 4 (apply bind_ext; intros ?). by destruct (send _).
Qed.

End Theorems.

Lemma root_info_inj_witness :
  concat (root_info SampleKeys.settings (len SampleKeys.key_id))
    = concat (root_info SampleKeys.settings (len SampleKeys.key_id)) /\
  SampleKeys.settings = SampleKeys.settings.
Proof.
  split; [reflexivity|].
  exact (root_info_inj SampleKeys.settings SampleKeys.settings eq_refl eq_refl eq_refl eq_refl eq_refl).
Defined.

Example nums_retry : nums_point (prim := SampleKeys.prim) (blockhash SampleKeys.settings)
  = Ok (nums_candidate (prim := SampleKeys.prim) (blockhash SampleKeys.settings) 2).
Proof. vm_compute. reflexivity. Qed.

Example derive_root_sample : is_ok (derive_root (prim := SampleKeys.prim) SampleKeys.proxy SampleKeys.settings) = true.
Proof. vm_compute. reflexivity. Qed.
