(* ===== verification/KeysTests.v ===== *)
(** * KeysTests: the tests of the key derivation (src/keys.rs, mod tests)

    The settings of the tests, [str::replace], the four tests and what each one
    depends on: the parser test passes outright, the separation test whenever
    HKDF and BIP32 separate what the settings separate, and each test vector
    exactly when the primitives give the recorded answer on the recorded
    input.  Extended keys, SEC1 encoding and the parser of displayed
    blockhashes are third-party: [KeyTestLib]. *)

From S2P Require Import Prelude Bytes Keys.

Open Scope N_scope.

Class KeyTestLib {prim : KeyPrimitives} := {
  Xpub : Type;
  from_priv : Xpriv -> Xpub;
  xpub_to_string : Xpub -> bytes;
  Point : Type;
  point_eq_dec :: EqDecision Point;
  public_key : Xpub -> Point;
  to_encoded_point : PublicKey -> bytes;
  block_hash_from_str : bytes -> Result string bytes;
}.

(** Documented: a blockhash is displayed in hexadecimal, reversed. *)
Class KeyTestLaws {prim : KeyPrimitives} {lib : KeyTestLib} : Prop := {
  displayed_reversed hash : len hash = 32 -> block_hash_from_str (hex_encode (rev hash)) = Ok hash;
}.

(* ------------------------------------------------------------------ *)
(** ** The standard library *)

(** [s.replace(from, to)] for a pattern that is not empty; every round drops at
    least one byte, so the length is fuel enough. *)
Fixpoint replace_go (fuel : nat) (s from to : bytes) : bytes :=
  match fuel, s with
  | O, _ | _, [] => s
  | S fuel, b :: tail =>
      match strip_prefix from s with
      | Some rest => to ++ replace_go fuel rest from to
      | None => b :: replace_go fuel tail from to
      end
  end.

Definition replace (s from to : bytes) : bytes := replace_go (length s) s from to.

(** [assert!(b)]. *)
Definition assert (b : bool) : Result Error unit := if b then Ok tt else Panic "assertion failed".

Definition unwrap {A} (r : Result Error A) : Result Error A :=
  unwrap_ok r "called `Result::unwrap()` on an `Err` value".

Section Tests.
  Context {prim : KeyPrimitives} {lib : KeyTestLib}.

Definition DISPLAYED_HASH : bytes := lit "000000000019d6689c085ae165831e934ff763ae46a2a6c172b3f1b60a8ce26f".

Definition settings : Result Error Settings :=
  hash ← unwrap_ok (block_hash_from_str DISPLAYED_HASH) "parse";
  Ok {| key_id := lit "arn:aws:kms:us-east-1:123456789012:key/12345678-1234-1234-1234-123456789abc";
        blockhash := hash; network := Bitcoin |}.

Definition with_key_id (s : Settings) (id : bytes) : Settings :=
  {| key_id := id; blockhash := blockhash s; network := network s |}.
Definition with_blockhash (s : Settings) (hash : bytes) : Settings :=
  {| key_id := key_id s; blockhash := hash; network := network s |}.
Definition with_network (s : Settings) (n : Network) : Settings :=
  {| key_id := key_id s; blockhash := blockhash s; network := n |}.

Definition SECRET : bytes := replicate 32 Byte.x42.

Definition nums_retry_vector : Result Error unit :=
  point ← unwrap (nums_point (replicate 32 Byte.x01));
  expected ← expect (hex_decode (lit "0214eda59eccad5da43a585f25b0b89e6980ec928d6937440e81142b1f9390cd7f")) "from_hex";
  assert (bool_decide (to_encoded_point point = expected)).

Definition ROOT_VECTOR : bytes :=
  lit "xpub661MyMwAqRbcGdaV9bUyRojh6NsyB9n2xoYX3i1oN4iQCsyBdbSjyrmacAjSkfMBxxEpKSdNRNkVdVhwLgDDbnDokrfzRp1BHBoEfqHnZCM".

Definition root_derivation_compatibility_vector : Result Error unit :=
  settings ← settings;
  root ← unwrap (root_from_secret settings SECRET);
  assert (bool_decide (xpub_to_string (from_priv root) = ROOT_VECTOR)).

(** The public key of the root of some settings. *)
Definition root_public (s : Settings) : Result Error Point :=
  root ← unwrap (root_from_secret s SECRET);
  Ok (public_key (from_priv root)).

Definition every_setting_separates_key_material : Result Error unit :=
  original ← settings;
  original_public ← root_public original;
  let changed_key := with_key_id original (replace (key_id original) (lit "us-east-1") (lit "us-west-2")) in
  let changed_hash := with_blockhash original (replicate 32 Byte.x01) in
  let changed_network := with_network original Testnet in
  let changed_network_again := with_network changed_network Signet in
  try_map (fun changed =>
    derived ← root_public changed;
    assert (negb (bool_decide (derived = original_public)))) [changed_key; changed_hash; changed_network];;
  testnet ← root_public changed_network;
  signet ← root_public changed_network_again;
  assert (negb (bool_decide (testnet = signet))).

(** The key ids the parser test tries. *)
Definition invalid_key_ids (valid : bytes) : list bytes := [
  replace valid (lit "arn:aws:") (lit "arn:aws-cn:");
  replace valid (lit "us-east-1") (lit "us-gov-west-1");
  replace valid (lit "us-east-1") (lit "us-east-99");
  replace valid (lit "123456789012:") (lit "1234:");
  replace valid (lit "key/") (lit "alias/");
  replace valid (lit "key/") (lit "key/extra/");
  replace valid (lit "789abc") (lit "789ABC");
  valid ++ lit ":extra";
  lit "alias/sapio";
  lit "12345678-1234-1234-1234-123456789abc"].

Definition is_err {A} (r : Result Error A) : Result Error bool :=
  match r with Ok _ => Ok false | Err _ => Ok true | Panic w => Panic w end.

Definition rejects_ambiguous_or_unsupported_key_identifiers : Result Error unit :=
  valid ← settings;
  unwrap (validate valid);;
  try_map (fun invalid => rejected ← is_err (validate (with_key_id valid invalid)); assert rejected)
    (invalid_key_ids (key_id valid));;
  zero ← is_err (validate (with_blockhash valid all_zeros));
  assert zero.

End Tests.

(* ------------------------------------------------------------------ *)
(** ** Lemmas *)

(** The equations of [replace]. *)
Lemma replace_go_more fuel s from to :
  from <> [] -> (length s <= fuel)%nat -> replace_go fuel s from to = replace s from to.
Proof.
  intros Hfrom. unfold replace. revert fuel.
  assert (forall n s f1 f2, (length s <= n)%nat -> (n <= f1)%nat -> (n <= f2)%nat ->
    replace_go f1 s from to = replace_go f2 s from to) as H.
  { clear s. induction n as [|n IH]; intros s f1 f2 Hs H1 H2.
    - destruct s; [by destruct f1, f2|cbn in Hs; lia].
    - destruct f1 as [|f1], f2 as [|f2]; try lia. destruct s as [|b tail]; [done|]. cbn in Hs. cbn [replace_go].
      destruct (strip_prefix from (b :: tail)) as [rest|] eqn:Hp; [|f_equal; apply IH; lia].
      f_equal. apply IH; [|lia..]. apply strip_prefix_spec in Hp. apply (f_equal length) in Hp.
      rewrite length_app in Hp. cbn in Hp. destruct from; [done|]. cbn in Hp. lia. }
  intros fuel Hf. by apply (H (length s)).
Qed.

Lemma replace_found from to rest :
  from <> [] -> replace (from ++ rest) from to = to ++ replace rest from to.
Proof.
  intros Hfrom. destruct from as [|b pattern] eqn:E; [done|].
  unfold replace at 1. cbn [length app replace_go]. rewrite app_comm_cons, <- E, strip_prefix_app.
  f_equal. rewrite replace_go_more; [done|congruence|]. rewrite length_app. lia.
Qed.

Section Lemmas.
  Context {prim : KeyPrimitives} {lib : KeyTestLib} {laws : KeyTestLaws}.

(** The consensus bytes of the displayed hash. *)
Definition GENESIS : bytes := rev (default [] (hex_decode DISPLAYED_HASH)).

Definition test_settings : Settings := {|
  key_id := lit "arn:aws:kms:us-east-1:123456789012:key/12345678-1234-1234-1234-123456789abc";
  blockhash := GENESIS; network := Bitcoin |}.

Lemma settings_parse : settings = Ok test_settings.
Proof.
  unfold settings. assert (DISPLAYED_HASH = hex_encode (rev GENESIS)) as -> by (vm_compute; reflexivity).
  by rewrite (displayed_reversed GENESIS eq_refl).
Qed.

(** The settings the separation test derives from. *)
Definition changed_settings : list Settings := [
  test_settings;
  with_key_id test_settings (replace (key_id test_settings) (lit "us-east-1") (lit "us-west-2"));
  with_blockhash test_settings (replicate 32 Byte.x01);
  with_network test_settings Testnet;
  with_network test_settings Signet].

Definition info (s : Settings) : list bytes := root_info s (len (key_id s)).

(** On these settings HKDF and BIP32 give roots, and different info strings give
    different public keys: no collision. *)
Record no_collision : Prop := {
  derives s : s ∈ changed_settings ->
    exists seed root, hkdf_expand_multi_info HKDF_SALT SECRET (info s) 64 = Ok seed /\ new_master (network s) seed = Ok root;
  separates s1 s2 seed1 seed2 root1 root2 : s1 ∈ changed_settings -> s2 ∈ changed_settings ->
    concat (info s1) <> concat (info s2) ->
    hkdf_expand_multi_info HKDF_SALT SECRET (info s1) 64 = Ok seed1 ->
    hkdf_expand_multi_info HKDF_SALT SECRET (info s2) 64 = Ok seed2 ->
    new_master (network s1) seed1 = Ok root1 -> new_master (network s2) seed2 = Ok root2 ->
    public_key (from_priv root1) <> public_key (from_priv root2);
}.

Lemma changed_wellformed s : s ∈ changed_settings -> len (blockhash s) = 32 /\ len (key_id s) < 2 ^ 32.
Proof.
  intros H. assert (Forall (fun s => len (blockhash s) = 32 /\ len (key_id s) < 2 ^ 32) changed_settings) as Hall
    by (repeat constructor).
  rewrite list.Forall_forall in Hall. by apply Hall.
Qed.

(** A root derives from exactly the seed that HKDF expands from the info. *)
Lemma root_public_ok s seed root :
  len (key_id s) < 2 ^ 32 -> hkdf_expand_multi_info HKDF_SALT SECRET (info s) 64 = Ok seed ->
  new_master (network s) seed = Ok root -> root_public s = Ok (public_key (from_priv root)).
Proof.
  intros Hl Hs Hr. unfold root_public, root_from_secret. cbn [len SECRET ensure mbind Result_bind].
  change (len SECRET =? 32) with true. cbn [ensure mbind Result_bind].
  unfold u32_try_from. destruct (N.ltb_spec (len (key_id s)) (2 ^ 32)); [|lia]. cbn [ok_or mbind Result_bind].
  unfold info in Hs. rewrite Hs. cbn [map_err mbind Result_bind]. by rewrite Hr.
Qed.

Lemma publics_differ s1 s2 : no_collision -> s1 ∈ changed_settings -> s2 ∈ changed_settings -> s1 <> s2 ->
  exists p1 p2, root_public s1 = Ok p1 /\ root_public s2 = Ok p2 /\ p1 <> p2.
Proof.
  intros Hn H1 H2 Hne. destruct (changed_wellformed _ H1) as [B1 L1]. destruct (changed_wellformed _ H2) as [B2 L2].
  destruct (derives Hn _ H1) as (seed1 & root1 & S1 & R1). destruct (derives Hn _ H2) as (seed2 & root2 & S2 & R2).
  do 2 eexists. split; [by eapply root_public_ok|]. split; [by eapply root_public_ok|].
  eapply (separates Hn s1 s2); try done. intros E. apply Hne.
  apply root_info_parts in E as (E1 & E2 & E3%network_tag_inj); [|congruence|done..].
  destruct s1, s2; cbn in *; congruence.
Qed.

Lemma separation_passes : no_collision -> every_setting_separates_key_material = Ok tt.
Proof.
  intros Hn. unfold every_setting_separates_key_material. rewrite settings_parse. cbn [mbind Result_bind].
  assert (forall i s, changed_settings !! i = Some s -> s ∈ changed_settings) as Hin by apply list_elem_of_lookup_2.
  pose proof (Hin 0%nat _ eq_refl) as H0. pose proof (Hin 1%nat _ eq_refl) as H1. pose proof (Hin 2%nat _ eq_refl) as H2.
  pose proof (Hin 3%nat _ eq_refl) as H3. pose proof (Hin 4%nat _ eq_refl) as H4.
  destruct (publics_differ _ _ Hn H1 H0) as (p1 & p0 & E1 & E0 & D1); [discriminate|].
  destruct (publics_differ _ _ Hn H2 H0) as (p2 & p0' & E2 & E0' & D2); [discriminate|].
  destruct (publics_differ _ _ Hn H3 H0) as (p3 & p0'' & E3 & E0'' & D3); [discriminate|].
  destruct (publics_differ _ _ Hn H3 H4) as (p3' & p4 & E3' & E4 & D4); [discriminate|].
  rewrite E0 in *. apply Ok_inj in E0' as <-, E0'' as <-. rewrite E3 in E3'. apply Ok_inj in E3' as <-.
  assert (forall p q : Point, p <> q -> assert (negb (bool_decide (p = q))) = Ok tt) as Ha
    by (intros p q H; by rewrite bool_decide_eq_false_2).
  cbn [mbind Result_bind try_map]. rewrite E1, E2, E3. cbn [mbind Result_bind]. rewrite !Ha by done.
  cbn [mbind Result_bind]. change (with_network (with_network test_settings Testnet) Signet) with (with_network test_settings Signet).
  rewrite E4. cbn [mbind Result_bind]. by apply Ha.
Qed.

Lemma parser_passes : rejects_ambiguous_or_unsupported_key_identifiers = Ok tt.
Proof. unfold rejects_ambiguous_or_unsupported_key_identifiers. rewrite settings_parse. vm_compute. reflexivity. Qed.

(** The info the root vector expands: every byte of it. *)
Definition ROOT_VECTOR_INFO : bytes :=
  lit "sapio-tee/bip32-root/v1" ++ [Byte.x00; Byte.x00; Byte.x00; Byte.x4b]
  ++ lit "arn:aws:kms:us-east-1:123456789012:key/12345678-1234-1234-1234-123456789abc"
  ++ GENESIS ++ [Byte.x00].

End Lemmas.

(* ------------------------------------------------------------------ *)
(** ** Properties *)

Section Theorems.
  Context {prim : KeyPrimitives} {lib : KeyTestLib} {laws : KeyTestLaws}.

(** The tests of the key derivation pass: the parser refuses each of the ten
    mutated key ids and the zero blockhash and accepts the original, whatever
    the primitives; and where HKDF and BIP32 have no collision on the four
    changed settings, every change of key, blockhash or network gives another
    public key. *)
Theorem keys_tests_pass :
  no_collision ->
  rejects_ambiguous_or_unsupported_key_identifiers = Ok tt /\ every_setting_separates_key_material = Ok tt.
Proof. intros H. split; [apply parser_passes|by apply separation_passes]. Qed.

(** The persisted root is the one HKDF-SHA256 and BIP32 give for one info
    string, spelled out: the domain, the length of the key ARN in four bytes,
    the ARN, the blockhash in consensus order and the network tag. *)
Theorem root_vector_iff :
  (forall salt ikm infos n, hkdf_expand_multi_info salt ikm infos n = hkdf_expand_multi_info salt ikm [concat infos] n) ->
  root_derivation_compatibility_vector = Ok tt <->
  exists seed root, hkdf_expand_multi_info (lit "sapio-tee/root-extract/v1") (replicate 32 Byte.x42) [ROOT_VECTOR_INFO] 64 = Ok seed /\
    new_master Bitcoin seed = Ok root /\ xpub_to_string (from_priv root) = ROOT_VECTOR.
Proof.
  intros Hconcat. unfold root_derivation_compatibility_vector. rewrite settings_parse. cbn [mbind Result_bind].
  unfold root_from_secret. change (len SECRET =? 32) with true. cbn [ensure mbind Result_bind].
  change (u32_try_from (len (key_id test_settings))) with (Some 75). cbn [ok_or mbind Result_bind].
  rewrite Hconcat. change (concat (root_info test_settings 75)) with ROOT_VECTOR_INFO.
  change HKDF_SALT with (lit "sapio-tee/root-extract/v1"). change SECRET with (replicate 32 Byte.x42).
  destruct (hkdf_expand_multi_info _ _ _ _) as [seed|x|w] eqn:Hh; cbn [map_err mbind Result_bind];
    [|split; [discriminate|intros (? & ? & E & _); discriminate E]..].
  change (network test_settings) with Bitcoin.
  destruct (new_master Bitcoin seed) as [root|x|w] eqn:Hm; cbn [map_err context unwrap unwrap_ok mbind Result_bind];
    [|split; [discriminate|intros (? & ? & E & E' & _); apply Ok_inj in E as <-; congruence]..].
  unfold assert. case_bool_decide as Hx; split; try done.
  - intros _. by exists seed, root.
  - intros (? & ? & E & E' & Hx'). apply Ok_inj in E as <-. congruence.
Qed.

(** The NUMS vector records the first counter that gives a point. *)
Theorem nums_vector_iff :
  nums_retry_vector = Ok tt <->
  exists counter point, counter < 2 ^ 32 /\
    from_sec1_bytes (nums_candidate (replicate 32 Byte.x01) counter) = Some point /\
    (forall earlier, earlier < counter -> from_sec1_bytes (nums_candidate (replicate 32 Byte.x01) earlier) = None) /\
    Bytes.hex_encode (to_encoded_point point) = lit "0214eda59eccad5da43a585f25b0b89e6980ec928d6937440e81142b1f9390cd7f".
Proof.
  unfold nums_retry_vector. set (text := lit _). pose proof (nums_point_first (replicate 32 Byte.x01)) as Hfirst.
  destruct (nums_point _) as [p|x|w]; cbn [unwrap unwrap_ok mbind Result_bind]; [|split|done].
  - destruct Hfirst as (c & Hc & Hp & He).
    assert (exists raw, hex_decode text = Some raw /\ hex_encode raw = text) as (raw & Hd & Henc)
      by (eexists; split; vm_compute; reflexivity).
    rewrite Hd. cbn [expect mbind Result_bind]. unfold assert. case_bool_decide as Hx; split; try done.
    + intros _. exists c, p. by rewrite Hx.
    + intros (c' & p' & Hc' & Hp' & He' & Ht). destruct Hx. assert (c = c') as <-.
      { destruct (N.lt_trichotomy c c') as [Hlt|[?|Hlt]]; [|done|];
          [rewrite (He' _ Hlt) in Hp|rewrite (He _ Hlt) in Hp']; congruence. }
      rewrite Hp in Hp'. apply Some_inj in Hp' as <-. apply (f_equal hex_decode) in Ht.
      rewrite hex_decode_encode, Hd in Ht. by apply Some_inj in Ht.
  - discriminate.
  - intros (c & p & Hc & Hp & _). rewrite (Hfirst c Hc) in Hp. discriminate Hp.
Qed.

End Theorems.

(* ------------------------------------------------------------------ *)
(** ** A concrete scheme *)

(** Primitives that keep everything they are given. *)
Module SampleKeyTests.

#[export] Instance prim : KeyPrimitives := {|
  sha256 bs := replicate 31 Byte.x00 ++ [List.last bs Byte.x00];
  PublicKey := bytes;
  from_sec1_bytes bs := if bool_decide (List.last bs Byte.x00 = Byte.x01) then Some bs else None;
  to_public_key_der p := Ok p;
  hkdf_expand_multi_info salt ikm infos n := Ok (concat infos);
  Xpriv := Network * bytes;
  new_master n seed := Ok (n, seed);
|}.

#[export] Instance lib : KeyTestLib := {|
  Xpub := Network * bytes;
  from_priv root := root;
  xpub_to_string root := snd root;
  Point := bytes;
  public_key root := snd root;
  to_encoded_point p := p;
  block_hash_from_str bs := ok_or (@rev byte <$> hex_decode bs) "bad hexadecimal"%string;
|}.

#[export] Instance laws : KeyTestLaws.
Proof. split. intros hash _. cbn. rewrite hex_decode_encode. cbn. by rewrite rev_involutive. Qed.

Lemma sample_no_collision : no_collision.
Proof.
  split; [intros s _; by do 2 eexists|].
  intros s1 s2 seed1 seed2 root1 root2 _ _ Hne H1 H2 R1 R2. cbn in *.
  apply Ok_inj in H1 as <-, H2 as <-, R1 as <-, R2 as <-. exact Hne.
Qed.

End SampleKeyTests.

Lemma keys_tests_pass_witness :
  rejects_ambiguous_or_unsupported_key_identifiers (lib := SampleKeyTests.lib) = Ok tt /\
  every_setting_separates_key_material (lib := SampleKeyTests.lib) = Ok tt.
Proof. exact (keys_tests_pass (lib := SampleKeyTests.lib) (laws := SampleKeyTests.laws) SampleKeyTests.sample_no_collision). Defined.

Example separation_runs : every_setting_separates_key_material (lib := SampleKeyTests.lib) = Ok tt.
Proof. vm_compute. reflexivity. Qed.
