(* ===== verification/Deployment.v ===== *)
(** * Deployment: the measured profile and evaluator registry (src/deployment.rs)

    One list, [REGISTERED], feeds the advertised profile ([program_profile])
    and the registry both services execute with ([evaluators]).  The session
    limits are the constants of src/ark_signer.rs.  The module artifact, the
    checked constructor [WasmEvaluator::with_version], the protocol name of the
    Ark library and [ProgramOracle::new] are the interface [Upstream]. *)

From S2P Require Import Prelude Bytes Bitcoin Program SignedView Evaluator Keys.

Open Scope N_scope.

(* ------------------------------------------------------------------ *)
(** ** Constants *)

Definition MAX_PENDING_SESSIONS : N := 256.
Definition SESSION_LIFETIME_SECS : N := 120.
Definition MAX_SESSIONS_PER_USER : N := 8.

Definition IDENTITY_PROTOCOL : bytes := lit "sapio-tee/program-oracle/1".
Definition MAX_CONNECTIONS : N := 4.
Definition REQUEST_TIMEOUT_SECS : N := 30.
Definition PAY_AT_LEAST_SELECTOR : bytes := lit "pay-at-least/v1".

Class Upstream {sapio : SapioProgram} {prim : KeyPrimitives} := {
  PAY_AT_LEAST_WASM : bytes;
  with_version : WasmVersion -> bytes -> Result Error WasmEvaluator;
  SIGNING_PROTOCOL : bytes;
  ProgramOracle : Type;
  program_oracle_new : Xpriv -> list WasmEvaluator -> Result Error ProgramOracle;
}.

(** Documented: [with_version] stores its arguments under the content-derived
    id, or refuses. *)
Class UpstreamLaws {sapio : SapioProgram} {prim : KeyPrimitives} {upstream : Upstream} : Prop := {
  with_version_ok v m e :
    with_version v m = Ok e ->
    e = {| evaluator_id := for_wasm_version m v; evaluator_version := v; evaluator_module := m |};
}.

(* ------------------------------------------------------------------ *)
(** ** Profile and registry *)

Record ArkSigningProfile := {
  ark_protocol : bytes;
  max_pending_sessions : N;
  max_sessions_per_user : N;
  session_lifetime_secs : N;
  native_ownership_policy : bool;
}.

Record InlineEvaluator := { inline_id : EvaluatorId; inline_version : N }.

Record RegisteredEvaluator := {
  registered_name : bytes;
  registered_id : EvaluatorId;
  registered_version : N;
}.

Record ProgramProfile := {
  protocol : bytes;
  inline_evaluators : list InlineEvaluator;
  registered_evaluators : list RegisteredEvaluator;
  max_connections : N;
  request_timeout_secs : N;
  ark_signing : ArkSigningProfile;
}.

(** The [match] on the ABI version. *)
Definition version_number (v : WasmVersion) : N := match v with V1 => 1 | V2 => 2 end.

Section Deployment.
  Context {sapio : SapioProgram} {prim : KeyPrimitives} {upstream : Upstream}.

Definition REGISTERED : list (bytes * WasmVersion * bytes) :=
  [(lit "pay-at-least/v1", V1, PAY_AT_LEAST_WASM)].

Definition evaluators : Result Error (list WasmEvaluator) :=
  try_map (fun '(_, version, module) => with_version version module) REGISTERED.

Definition program_profile : ProgramProfile := {|
  protocol := lit "SignProgramV1";
  inline_evaluators := [{| inline_id := wasm_id; inline_version := 1 |};
                        {| inline_id := wasm_v2_id; inline_version := 2 |}];
  registered_evaluators :=
    (fun '(name, version, module) =>
       {| registered_name := name; registered_id := for_wasm_version module version;
          registered_version := version_number version |}) <$> REGISTERED;
  max_connections := MAX_CONNECTIONS;
  request_timeout_secs := REQUEST_TIMEOUT_SECS;
  ark_signing := {|
    ark_protocol := SIGNING_PROTOCOL;
    max_pending_sessions := MAX_PENDING_SESSIONS;
    max_sessions_per_user := MAX_SESSIONS_PER_USER;
    session_lifetime_secs := SESSION_LIFETIME_SECS;
    native_ownership_policy := true |};
|}.

Definition program_oracle (root : Xpriv) : Result Error ProgramOracle :=
  es ← evaluators;
  program_oracle_new root es.

(** Ids and ABI versions the profile advertises. *)
Definition advertised (profile : ProgramProfile) : list (EvaluatorId * N) :=
  ((fun e => (inline_id e, inline_version e)) <$> inline_evaluators profile)
  ++ ((fun e => (registered_id e, registered_version e)) <$> registered_evaluators profile).

(* ------------------------------------------------------------------ *)
(** ** Lemmas *)

Context {upstream_laws : UpstreamLaws}.

(** The registry is [REGISTERED] under content-derived ids. *)
Lemma evaluators_registered es :
  evaluators = Ok es ->
  es = (fun '(_, version, module) =>
          {| evaluator_id := for_wasm_version module version; evaluator_version := version;
             evaluator_module := module |}) <$> REGISTERED.
Proof.
  unfold evaluators. generalize REGISTERED. intros l. rewrite try_map_ok. revert es.
  induction l as [|[[name v] m] l IH]; intros es H; inversion_clear H as [|? ? ? ? H1 H2]; [done|].
  apply with_version_ok in H1 as ->. cbn. f_equal. by apply IH.
Qed.

Lemma registered_entries es : evaluators = Ok es ->
  (fun e => (evaluator_id e, version_number (evaluator_version e))) <$> es
  = (fun e => (registered_id e, registered_version e)) <$> registered_evaluators program_profile.
Proof.
  by intros ->%evaluators_registered.
Qed.

End Deployment.

(* ------------------------------------------------------------------ *)
(** ** A concrete upstream *)

Module SampleUpstream.

#[local] Existing Instances SampleProgram.sapio SampleProgram.sapio_laws SampleKeys.prim.

#[export] Instance upstream : Upstream (sapio := SampleProgram.sapio) (prim := SampleKeys.prim) := {|
  PAY_AT_LEAST_WASM := WASM_HEADER;
  with_version v m :=
    Ok {| evaluator_id := for_wasm_version m v; evaluator_version := v; evaluator_module := m |};
  SIGNING_PROTOCOL := lit "ark-signing/v1";
  ProgramOracle := (Network * bytes) * list WasmEvaluator;
  program_oracle_new root es := Ok (root, es);
|}.

#[export] Instance upstream_laws : UpstreamLaws.
Proof. split. cbn. intros v m e H. by apply Ok_inj in H as <-. Qed.

End SampleUpstream.

(* ------------------------------------------------------------------ *)
(** ** Properties *)

Section Theorems.
  Context {sapio : SapioProgram} {sapio_laws : SapioProgramLaws} {prim : KeyPrimitives}.
  Context {upstream : Upstream} {upstream_laws : UpstreamLaws}.

(** The advertised profile and the execution registry agree: every id the
    profile advertises selects a module of exactly the advertised ABI version,
    and every id that selects a registered module is advertised with it. *)
Theorem profile_resolves es program_ :
  evaluators = Ok es ->
  (forall n, (evaluator program_, n) ∈ advertised program_profile ->
     exists module selector version,
       select_module es program_ = Ok (module, selector, version) /\ version_number version = n) /\
  (inline_wasm_version (evaluator program_) = None ->
   forall module selector version,
     select_module es program_ = Ok (module, selector, version) ->
     (evaluator program_, version_number version) ∈ advertised program_profile).
Proof.
  intros ->%evaluators_registered. unfold select_module. destruct program_ as [id prog params]; cbn. split.
  - intros n Hin. unfold advertised in Hin. cbn in Hin.
    rewrite !elem_of_cons in Hin. destruct Hin as [[= -> ->]|[[= -> ->]|[[= -> ->]|[]%not_elem_of_nil]]].
    + rewrite inline_v1. eauto.
    + rewrite inline_v2. eauto.
    + rewrite registered_id_not_inline, decide_True by done. cbn. eauto 6.
  - intros -> m s v. case_decide as E; cbn; [|done]. intros [= <- <- <-].
    subst id. rewrite !elem_of_cons. by do 2 right; left.
Qed.

End Theorems.

#[local] Existing Instances SampleProgram.sapio SampleProgram.sapio_laws SampleKeys.prim
  SampleUpstream.upstream SampleUpstream.upstream_laws.

Lemma profile_resolves_witness :
  exists es module selector version, evaluators = Ok es /\
    select_module es {| evaluator := for_wasm_version WASM_HEADER V1; program := PAY_AT_LEAST_SELECTOR;
                        parameters := [] |} = Ok (module, selector, version) /\
    version_number version = 1.
Proof.
  destruct evaluators as [es|e|w] eqn:He; [|discriminate He..]. exists es.
  destruct (profile_resolves _ {| evaluator := for_wasm_version WASM_HEADER V1;
     program := PAY_AT_LEAST_SELECTOR; parameters := [] |} He) as [H _].
  destruct (H 1) as (m & s & v & Hs & Hv); [by right; right; left|].
  exists m, s, v. split; [reflexivity|]. split; [exact Hs|exact Hv].
Defined.
