(* ===== verification/ArkSigner.v ===== *)
(** * ArkSigner: one-use nested MuSig sessions (src/ark_signer.rs)

    [prepare] authorizes a request, reserves a secret nonce in the pending map
    and returns the session id; [finish] removes the session before any other
    check and may release one partial signature; [cancel] removes it.  The
    state is the pending map behind the mutex.  Everything before the lock of
    [prepare] reads no mutable state, and each operation locks once, so a
    concurrent execution is a sequence of the operations in lock order ([run]).

    Key material, MuSig nonces and sessions and the Ark request types are the
    interface [ArkLib].  A call's environment [Env] holds the clock, the
    randomness of the nonce and the ids [OsRng] yields; when the ids run out
    the entropy source has failed and [fill_bytes] panics. *)

From S2P Require Import Prelude Bytes NativePolicy Bitcoin Program SignedView Evaluator Keys Deployment.

Open Scope N_scope.

Class ArkLib {sapio : SapioProgram} {prim : KeyPrimitives} {upstream : Upstream} := {
  PublicKey : Type;
  public_key_eq_dec :: EqDecision PublicKey;
  Xpub : Type;
  xpub_eq_dec :: EqDecision Xpub;
  Intent : Type;
  members : Intent -> PublicKey * PublicKey;
  intent_message : Intent -> bytes;
  intent_server : Intent -> option PublicKey;
  PubNonce : Type;
  nonce_serialize : PubNonce -> bytes;
  MemberNonce : Type;
  member_nonce_from_bytes : Intent -> PublicKey -> bytes -> Result Error MemberNonce;
  member_nonce_serialize : MemberNonce -> bytes;
  Nonce : Type;
  nonce_new : Intent -> PublicKey -> bytes -> Result Error Nonce;
  nonce_public : Nonce -> MemberNonce;
  Session : Type;
  session_new : Intent -> MemberNonce * MemberNonce -> option PubNonce -> Result Error Session;
  Partial : Type;
  partial_serialize : Partial -> bytes;
  verify_server : Session -> Partial -> Result Error unit;
  parse_nonce : bytes -> Result Error PubNonce;
  parse_partial : bytes -> Result Error Partial;
  hex_encode : bytes -> bytes;
  Keypair : Type;
  root_depth : Xpriv -> N;
  MAX_PROGRAM_ROOT_DEPTH : N;
  xpub_from_priv : Xpriv -> Xpub;
  derive_priv : Xpriv -> ProgramId -> Result Error Xpriv;
  to_keypair : Xpriv -> Keypair;
  add_xonly_tweak_zero : Keypair -> Result Error Keypair;
  nonce_sign : Nonce -> Keypair -> Session -> Result Error Partial;
  derive_public_key : ProgramInstance -> Xpub -> Result Error PublicKey;
  VtxoPolicy : Type;
  SpendRequest : Type;
  spend_witness : SpendRequest -> bytes;
  OwnershipRequest : Type;
  ownership_proof : OwnershipRequest -> OwnershipProof VtxoPolicy;
}.

Section Types.
  Context {sapio : SapioProgram} {prim : KeyPrimitives} {upstream : Upstream} {ark : ArkLib}.

(** The key of a request: attested root, wallet key and committed program. *)
Record ProgramKey := {
  key_root : Xpub;
  user_pubkey : PublicKey;
  key_evaluator : EvaluatorId;
  key_program : bytes;
  key_parameters : bytes;
  key_program_id : ProgramId;
}.

Inductive SigningAction :=
| Spend (request : SpendRequest)
| Ownership (request : OwnershipRequest).

(** The methods of the Ark request types. *)
Class ArkRequests := {
  action_intent : SigningAction -> ProgramKey -> Result Error Intent;
  spend_signing_input : SpendRequest -> ProgramKey -> Result Error SigningInput;
  ownership_message : OwnershipRequest -> ProgramKey -> Result Error bytes;
}.

Record PrepareRequest := {
  prepare_protocol : bytes;
  prepare_key : ProgramKey;
  prepare_user_nonce : bytes;
  prepare_action : SigningAction;
}.

Record PrepareResponse := {
  response_protocol : bytes;
  response_session : bytes;
  response_program_nonce : bytes;
}.

Record FinishRequest := {
  finish_protocol : bytes;
  finish_session : bytes;
  finish_server_nonce : option bytes;
  finish_server_partial : option bytes;
}.

Record FinishResponse := {
  finished_protocol : bytes;
  program_partial : bytes;
}.

Record CancelRequest := {
  cancel_protocol : bytes;
  cancel_session : bytes;
}.

Record Pending := {
  pending_program_id : ProgramId;
  pending_intent : Intent;
  pending_user_nonce : MemberNonce;
  pending_nonce : Nonce;
  expires : N;
}.

Record ArkSigner := {
  root : Xpriv;
  public_root : Xpub;
  signer_evaluators : list WasmEvaluator;
  pending : gmap bytes Pending;
  poisoned : bool;
}.

End Types.

(** [now] in nanoseconds. *)
Record Env := {
  now : N;
  nonce_randomness : bytes;
  session_ids : list bytes;
}.

Definition SESSION_LIFETIME : N := SESSION_LIFETIME_SECS * 1000000000.

Section Signer.
  Context {runtime : WasmRuntime} {outpoint_codec : OutPointCodec} {auth : NativeAuth}.
  Context {sapio : SapioProgram} {prim : KeyPrimitives} {upstream : Upstream} {ark : ArkLib} {requests : ArkRequests}.
  Context {codec : PolicyCodec VtxoPolicy}.

(** The signer with another map. *)
Definition with_pending (self : ArkSigner) (p : gmap bytes Pending) : ArkSigner :=
  {| root := root self; public_root := public_root self;
     signer_evaluators := signer_evaluators self; pending := p; poisoned := poisoned self |}.

(** A panic while the guard is held poisons the mutex. *)
Definition poison (self : ArkSigner) : ArkSigner :=
  {| root := root self; public_root := public_root self;
     signer_evaluators := signer_evaluators self; pending := pending self; poisoned := true |}.

(** [ArkSigner::new]. *)
Definition ArkSigner_new (root_ : Xpriv) : Result Error ArkSigner :=
  if MAX_PROGRAM_ROOT_DEPTH <? root_depth root_ then Err (Program (RootDepth (root_depth root_))) else
  es ← evaluators;
  Ok {| root := root_; public_root := xpub_from_priv root_; signer_evaluators := es;
        pending := ∅; poisoned := false |}.

(* ------------------------------------------------------------------ *)
(** ** prepare *)

(** Lines 93-114: the action's own authorization. *)
Definition authorize_action (self : ArkSigner) (key : ProgramKey) (action : SigningAction)
    (program : ProgramInstance) (intent : Intent)
    (native_policy : option (NativePolicy VtxoPolicy)) : Result Error unit :=
  match action with
  | Spend spend =>
      input ← spend_signing_input spend key;
      authorize (signer_evaluators self) program input (spend_witness spend) (intent_message intent)
  | Ownership ownership =>
      _ ← match native_policy with
          | Some policy => NativePolicy_enforce policy (ownership_proof ownership)
          | None => Ok tt
          end;
      message ← ownership_message ownership key;
      ensure (bool_decide (message = intent_message intent))
        (Message "ownership request differs from the nested signing intent")
  end.

(** Lines 66-114: everything before the lock. *)
Definition check_request (self : ArkSigner) (request : PrepareRequest)
    : Result Error (ProgramInstance * Intent * MemberNonce) :=
  let key := prepare_key request in
  _ ← ensure (bool_decide (prepare_protocol request = SIGNING_PROTOCOL))
        (Message "unsupported signing protocol");
  _ ← ensure (bool_decide (key_root key = public_root self)) (Message "wrong attested program root");
  intent ← action_intent (prepare_action request) key;
  nonce ← parse_nonce (prepare_user_nonce request);
  user_nonce ← member_nonce_from_bytes intent (user_pubkey key) (nonce_serialize nonce);
  program ← program_instance_new (key_evaluator key) (key_program key) (key_parameters key);
  _ ← ensure (bool_decide (program_id program = key_program_id key))
        (Message "program identity encoding mismatch");
  derived ← derive_public_key program (key_root key);
  _ ← ensure (bool_decide (derived = snd (members intent)))
        (Message "program public-key derivation mismatch");
  native_policy ← NativePolicy.parse (parameters program);
  if bool_decide (is_Some native_policy)
     && bool_decide (inline_wasm_version (evaluator program) = None)
  then Err (Message "native ownership policy requires an inline WASM program") else
  _ ← authorize_action self key (prepare_action request) program intent native_policy;
  Ok (program, intent, user_nonce).

(** [pending.retain(|_, session| session.expires > now)]. *)
Definition live (now : N) (p : gmap bytes Pending) : gmap bytes Pending :=
  filter (fun entry => now < expires (snd entry)) p.

(** The sessions of one wallet key. *)
Definition held_by (user : PublicKey) (p : gmap bytes Pending) : gmap bytes Pending :=
  filter (fun entry => fst (members (pending_intent (snd entry))) = user) p.

(** The loop of lines 132-136 over the ids the entropy source yields. *)
Fixpoint draw_session (p : gmap bytes Pending) (ids : list bytes) : Result Error bytes :=
  match ids with
  | [] => Panic "OsRng"
  | id :: ids => if decide (is_Some (p !! id)) then draw_session p ids else Ok id
  end.

(** Lines 119-143, on the retained map. *)
Definition reserve (env : Env) (p : gmap bytes Pending) (program : ProgramInstance)
    (intent : Intent) (user_nonce : MemberNonce) : Result Error (PrepareResponse * (bytes * Pending)) :=
  _ ← ensure (N.of_nat (size p) <? MAX_PENDING_SESSIONS) (Message "signer session capacity exceeded");
  _ ← ensure (N.of_nat (size (held_by (fst (members intent)) p)) <? MAX_SESSIONS_PER_USER)
        (Message "per-wallet session capacity exceeded");
  nonce ← nonce_new intent (snd (members intent)) (nonce_randomness env);
  let program_nonce := hex_encode (member_nonce_serialize (nonce_public nonce)) in
  session ← draw_session p (session_ids env);
  Ok ({| response_protocol := SIGNING_PROTOCOL; response_session := session;
         response_program_nonce := program_nonce |},
      (session, {| pending_program_id := program_id program; pending_intent := intent;
                   pending_user_nonce := user_nonce; pending_nonce := nonce;
                   expires := now env + SESSION_LIFETIME |})).

(** [ArkSigner::prepare]. *)
Definition prepare (self : ArkSigner) (env : Env) (request : PrepareRequest)
    : Result Error PrepareResponse * ArkSigner :=
  match check_request self request with
  | Err e => (Err e, self)
  | Panic w => (Panic w, self)
  | Ok (program, intent, user_nonce) =>
      if poisoned self then (Err (Message "signer state unavailable"), self) else
      let self := with_pending self (live (now env) (pending self)) in
      match reserve env (pending self) program intent user_nonce with
      | Ok (response, (session, entry)) =>
          (Ok response, with_pending self (<[session := entry]> (pending self)))
      | Err e => (Err e, self)
      | Panic w => (Panic w, poison self)
      end
  end.

(* ------------------------------------------------------------------ *)
(** ** finish and cancel *)

(** Lines 152-179, on the removed session. *)
Definition finish_session_with (self : ArkSigner) (env : Env) (p : Pending) (request : FinishRequest)
    : Result Error FinishResponse :=
  _ ← ensure (bool_decide (finish_protocol request = SIGNING_PROTOCOL))
        (Message "unsupported signing protocol");
  _ ← ensure (now env <? expires p) (Message "signing session expired");
  server_nonce ← transpose (parse_nonce <$> finish_server_nonce request);
  server_partial ← transpose (parse_partial <$> finish_server_partial request);
  if bool_decide (intent_server (pending_intent p) = None) && bool_decide (is_Some server_partial)
  then Err (Message "server share supplied for a joint-key-only signature") else
  session ← session_new (pending_intent p)
              (pending_user_nonce p, nonce_public (pending_nonce p)) server_nonce;
  _ ← match server_partial with
      | Some partial => verify_server session partial
      | None => Ok tt
      end;
  derived ← derive_priv (root self) (pending_program_id p);
  let keypair := to_keypair derived in
  keypair ← add_xonly_tweak_zero keypair;
  partial ← nonce_sign (pending_nonce p) keypair session;
  Ok {| finished_protocol := SIGNING_PROTOCOL;
        program_partial := hex_encode (partial_serialize partial) |}.

Definition unknown_session : Error := Message "unknown, expired or consumed signing session".

(** [ArkSigner::finish]. *)
Definition finish (self : ArkSigner) (env : Env) (request : FinishRequest)
    : Result Error FinishResponse * ArkSigner :=
  if poisoned self then (Err (Message "signer state unavailable"), self) else
  let removed := pending self !! finish_session request in
  let self := with_pending self (delete (finish_session request) (pending self)) in
  match removed with
  | None => (Err unknown_session, self)
  | Some p => (finish_session_with self env p request, self)
  end.

(** [ArkSigner::cancel]. *)
Definition cancel (self : ArkSigner) (request : CancelRequest) : Result Error unit * ArkSigner :=
  if poisoned self then (Err (Message "signer state unavailable"), self) else
  let removed := pending self !! cancel_session request in
  let self := with_pending self (delete (cancel_session request) (pending self)) in
  (_ ← ensure (bool_decide (cancel_protocol request = SIGNING_PROTOCOL))
         (Message "unsupported signing protocol");
   ensure (bool_decide (is_Some removed)) unknown_session, self).

(* ------------------------------------------------------------------ *)
(** ** Executions *)

Inductive Call :=
| Prepare (request : PrepareRequest)
| Finish (request : FinishRequest)
| Cancel (request : CancelRequest).

Inductive Reply :=
| Prepared (result : Result Error PrepareResponse)
| Finished (result : Result Error FinishResponse)
| Cancelled (result : Result Error unit).

Definition step (self : ArkSigner) (env : Env) (call : Call) : Reply * ArkSigner :=
  match call with
  | Prepare r => let '(result, self) := prepare self env r in (Prepared result, self)
  | Finish r => let '(result, self) := finish self env r in (Finished result, self)
  | Cancel r => let '(result, self) := cancel self r in (Cancelled result, self)
  end.

(** One executed operation: the signer it found, its input and its reply. *)
Record Event := {
  event_before : ArkSigner;
  event_env : Env;
  event_call : Call;
  event_reply : Reply;
}.

(** The operations in lock order. *)
Fixpoint run (self : ArkSigner) (calls : list (Env * Call)) : list Event * ArkSigner :=
  match calls with
  | [] => ([], self)
  | (env, call) :: calls =>
      let '(reply, self') := step self env call in
      let '(events, final) := run self' calls in
      ({| event_before := self; event_env := env; event_call := call; event_reply := reply |} :: events, final)
  end.

(* ------------------------------------------------------------------ *)
(** ** Specification *)

(** The bounds the profile advertises, on the reserved sessions. *)
Definition bounded (p : gmap bytes Pending) : Prop :=
  N.of_nat (size p) <= max_pending_sessions (ark_signing program_profile) /\
  forall user, N.of_nat (size (held_by user p)) <= max_sessions_per_user (ark_signing program_profile).

(** The wallet keys that hold a session. *)
Definition wallets (p : gmap bytes Pending) : list PublicKey :=
  remove_dups ((fun entry => fst (members (pending_intent (snd entry)))) <$> map_to_list p).

(** The session a call names to consume. *)
Definition consumes (call : Call) : option bytes :=
  match call with
  | Prepare _ => None
  | Finish r => Some (finish_session r)
  | Cancel r => Some (cancel_session r)
  end.

(** The reservations an event took out of the map. *)
Definition consumed (e : Event) : list (bytes * Pending) :=
  match consumes (event_call e) with
  | Some session =>
      if poisoned (event_before e) then [] else
      match pending (event_before e) !! session with Some p => [(session, p)] | None => [] end
  | None => []
  end.

(** The reservation a successful prepare made. *)
Definition issued (e : Event) : list (bytes * Pending) :=
  match event_call e, event_reply e with
  | Prepare r, Prepared (Ok _) =>
      match check_request (event_before e) r with
      | Ok (program, intent, user_nonce) =>
          match reserve (event_env e) (live (now (event_env e)) (pending (event_before e)))
                  program intent user_nonce with
          | Ok (_, entry) => [entry]
          | _ => []
          end
      | _ => []
      end
  | _, _ => []
  end.

(** The server's share, where the request carries one, verified under a server
    key of the intent. *)
Definition server_share_checked (intent : Intent) (session : Session) (request : FinishRequest) : Prop :=
  exists share, transpose (parse_partial <$> finish_server_partial request) = Ok share /\
    forall partial, share = Some partial ->
      is_Some (intent_server intent) /\ verify_server session partial = Ok tt.

Definition succeeded (reply : Reply) : bool :=
  match reply with
  | Prepared r => is_ok r
  | Finished r => is_ok r
  | Cancelled r => is_ok r
  end.

(* ------------------------------------------------------------------ *)
(** ** The session map *)

Lemma live_subseteq t p : live t p ⊆ p.
Proof. apply map_filter_subseteq. Qed.

Lemma held_by_mono user p q : p ⊆ q -> held_by user p ⊆ held_by user q.
Proof. apply map_filter_subseteq_mono. Qed.

Lemma bounded_subseteq p q : p ⊆ q -> bounded q -> bounded p.
Proof.
  intros Hs [H1 H2]. split.
  - apply map_subseteq_size in Hs. lia.
  - intros user. specialize (H2 user). apply (held_by_mono user), map_subseteq_size in Hs. lia.
Qed.

Lemma draw_session_fresh p ids session :
  draw_session p ids = Ok session -> p !! session = None /\ session ∈ ids.
Proof.
  induction ids as [|id ids IH]; cbn; [done|]. case_decide as Hd.
  - intros H%IH. split; [apply H|]. apply elem_of_cons. right. apply H.
  - intros E. apply Ok_inj in E as <-. split; [by apply eq_None_not_Some|]. apply elem_of_cons. by left.
Qed.

Lemma draw_session_ok p ids :
  (exists id, id ∈ ids /\ p !! id = None) -> exists session, draw_session p ids = Ok session.
Proof.
  intros (id & Hin & Hp). induction ids as [|i ids IH]; [by apply not_elem_of_nil in Hin|]. cbn.
  case_decide as Hd; [|eauto]. apply elem_of_cons in Hin as [->|Hin]; [|auto].
  rewrite Hp in Hd. by destruct Hd.
Qed.

(** More distinct ids than sessions leave one free. *)
Lemma fresh_id_exists (p : gmap bytes Pending) ids :
  NoDup ids -> (size p < length ids)%nat -> exists id, id ∈ ids /\ p !! id = None.
Proof.
  intros Hn Hl. destruct (decide (Exists (fun id => p !! id = None) ids)) as [H|H].
  - apply Exists_exists in H as (id & ? & ?). exists id. split; [|done]. first [done | by apply list_elem_of_In].
  - exfalso. apply Nat.lt_nge in Hl. apply Hl.
    rewrite <- (size_dom p). rewrite <- (size_list_to_set (C := gset bytes) ids Hn).
    apply subseteq_size. intros id Hid. apply elem_of_list_to_set in Hid.
    apply elem_of_dom, not_eq_None_Some. intros Hp. apply H, Exists_exists. exists id.
    split; [|done]. first [exact Hid | by apply list_elem_of_In].
Qed.

Lemma reserve_ok env p program intent user_nonce response session entry :
  reserve env p program intent user_nonce = Ok (response, (session, entry)) ->
  N.of_nat (size p) < MAX_PENDING_SESSIONS /\
  N.of_nat (size (held_by (fst (members intent)) p)) < MAX_SESSIONS_PER_USER /\
  p !! session = None /\ session ∈ session_ids env /\ response_session response = session /\
  exists nonce, nonce_new intent (snd (members intent)) (nonce_randomness env) = Ok nonce /\
    response_program_nonce response = hex_encode (member_nonce_serialize (nonce_public nonce)) /\
    entry = {| pending_program_id := program_id program; pending_intent := intent;
               pending_user_nonce := user_nonce; pending_nonce := nonce;
               expires := now env + SESSION_LIFETIME |}.
Proof.
  unfold reserve. intros H.
  apply bind_ok in H as ([] & H1 & H). apply ensure_ok, N.ltb_lt in H1.
  apply bind_ok in H as ([] & H2 & H). apply ensure_ok, N.ltb_lt in H2.
  apply bind_ok in H as (nonce & Hn & H). apply bind_ok in H as (sid & Hs & H).
  apply draw_session_fresh in Hs as [Hf Hi]. apply Ok_inj in H as [= <- <- <-].
  repeat (split; [done|]). by exists nonce.
Qed.

Lemma bounded_reserve env p program intent user_nonce response session entry :
  bounded p -> reserve env p program intent user_nonce = Ok (response, (session, entry)) ->
  bounded (<[session := entry]> p).
Proof.
  intros [B1 B2] (H1 & H2 & Hf & _ & _ & nonce & _ & _ & ->)%reserve_ok.
  cbn in *. split; cbn.
  - rewrite map_size_insert_None by done. unfold MAX_PENDING_SESSIONS in *. lia.
  - intros user. unfold held_by. destruct (decide (fst (members intent) = user)) as [<-|Hu].
    + rewrite map_filter_insert_True by done. rewrite map_size_insert_None.
      * unfold held_by, MAX_SESSIONS_PER_USER in *. lia.
      * apply map_lookup_filter_None_2. by left.
    + rewrite map_filter_insert_False by done. rewrite delete_id by done. apply B2.
Qed.

(* ------------------------------------------------------------------ *)
(** ** One operation *)

(** What a prepare does to the map, by its outcome. *)
Lemma prepare_cases self env request result self' :
  prepare self env request = (result, self') ->
  root self' = root self /\
  ((exists response program intent user_nonce session entry,
      result = Ok response /\ poisoned self = false /\
      check_request self request = Ok (program, intent, user_nonce) /\
      reserve env (live (now env) (pending self)) program intent user_nonce = Ok (response, (session, entry)) /\
      pending self' = <[session := entry]> (live (now env) (pending self))) \/
   (~ (exists response, result = Ok response) /\ pending self' ⊆ pending self)).
Proof.
  unfold prepare. destruct (check_request self request) as [[[program intent] un]|e|w] eqn:Hc.
  2,3: intros [= <- <-]; split; [done|]; right; split; [by intros [? ?]|done].
  destruct (poisoned self) eqn:Hp.
  { intros [= <- <-]. split; [done|]. right. split; [by intros [? ?]|done]. }
  cbn [pending with_pending].
  destruct (reserve env _ program intent un) as [[response [session entry]]|e|w] eqn:Hr.
  - intros [= <- <-]. split; [done|]. left. exists response, program, intent, un, session, entry. done.
  - intros [= <- <-]. split; [done|]. right. split; [by intros [? ?]|]. apply live_subseteq.
  - intros [= <- <-]. split; [done|]. right. split; [by intros [? ?]|]. apply live_subseteq.
Qed.

(** What finish and cancel do to the map. *)
Lemma step_consumes self env call reply self' session :
  consumes call = Some session -> step self env call = (reply, self') ->
  root self' = root self /\
  ((poisoned self = true /\ self' = self) \/
   (poisoned self = false /\ pending self' = delete session (pending self))).
Proof.
  destruct call as [r|r|r]; [done|..]; intros [= <-]; cbn; unfold finish, cancel;
    destruct (poisoned self) eqn:Hp; intros E; try (injection E as _ <-; split; [done|]; by left).
  - destruct (pending self !! finish_session r); injection E as _ <-; (split; [done|]); by right.
  - injection E as _ <-. split; [done|]. by right.
Qed.

(** One step, as a change of the map and the ghost lists. *)
Lemma step_cases self env call reply self' :
  step self env call = (reply, self') ->
  let e := {| event_before := self; event_env := env; event_call := call; event_reply := reply |} in
  root self' = root self /\
  ((exists session entry, issued e = [(session, entry)] /\ consumed e = [] /\
      pending self' = <[session := entry]> (live (now env) (pending self)) /\
      live (now env) (pending self) !! session = None) \/
   (issued e = [] /\ consumed e = [] /\ pending self' ⊆ pending self) \/
   (exists session entry, issued e = [] /\ consumed e = [(session, entry)] /\
      pending self !! session = Some entry /\ pending self' = delete session (pending self))).
Proof.
  intros Hs e. unfold e, issued, consumed; cbn [event_before event_env event_call event_reply].
  destruct call as [r|r|r].
  - cbn in *. destruct (prepare self env r) as [result s1] eqn:Hp. injection Hs as <- <-.
    apply prepare_cases in Hp as [Hroot [(resp & program & intent & un & session & entry & -> & _ & Hc & Hr & Hm)|[Hn Hsub]]].
    + split; [done|]. left. exists session, entry. rewrite Hc, Hr. apply reserve_ok in Hr as (_ & _ & Hf & _). done.
    + split; [done|]. right; left. destruct result; [destruct Hn; eauto|done..].
  - destruct (step_consumes _ _ (Finish r) _ _ (finish_session r) eq_refl Hs) as [Hroot [[Hp ->]|[Hp Hm]]]; (split; [done|]); right;
      cbn [consumes]; rewrite Hp; [by left|].
    destruct (pending self !! finish_session r) as [p|] eqn:Hl; [right|left].
    + by exists (finish_session r), p.
    + rewrite Hm, delete_id by done. done.
  - destruct (step_consumes _ _ (Cancel r) _ _ (cancel_session r) eq_refl Hs) as [Hroot [[Hp ->]|[Hp Hm]]]; (split; [done|]); right;
      cbn [consumes]; rewrite Hp; [by left|].
    destruct (pending self !! cancel_session r) as [p|] eqn:Hl; [right|left].
    + by exists (cancel_session r), p.
    + rewrite Hm, delete_id by done. done.
Qed.

Lemma step_bounded self env call reply self' :
  bounded (pending self) -> step self env call = (reply, self') -> bounded (pending self').
Proof.
  intros Hb Hs. destruct call as [r|r|r].
  - cbn in Hs. destruct (prepare self env r) as [result s1] eqn:Hp. injection Hs as _ <-.
    apply prepare_cases in Hp as [_ [(resp & program & intent & un & session & entry & _ & _ & _ & Hr & Hm)|[_ Hsub]]].
    + rewrite Hm. eapply bounded_reserve; [|exact Hr]. eapply bounded_subseteq; [apply live_subseteq|done].
    + by eapply bounded_subseteq.
  - destruct (step_consumes _ _ (Finish r) _ _ (finish_session r) eq_refl Hs) as [_ [[_ ->]|[_ ->]]]; [done|].
    eapply bounded_subseteq; [apply delete_subseteq|done].
  - destruct (step_consumes _ _ (Cancel r) _ _ (cancel_session r) eq_refl Hs) as [_ [[_ ->]|[_ ->]]]; [done|].
    eapply bounded_subseteq; [apply delete_subseteq|done].
Qed.

Lemma bounded_empty : bounded ∅.
Proof.
  split; [rewrite map_size_empty; cbn; lia|]. intros user. unfold held_by. rewrite map_filter_empty, map_size_empty. cbn. lia.
Qed.

(* ------------------------------------------------------------------ *)
(** ** Whole executions *)

Lemma run_bounded self calls :
  bounded (pending self) ->
  Forall (fun e => bounded (pending (event_before e))) (fst (run self calls)) /\
  bounded (pending (snd (run self calls))).
Proof.
  revert self; induction calls as [|[env call] calls IH]; intros self Hb; cbn; [by split; [constructor|]|].
  destruct (step self env call) as [reply self1] eqn:Hs.
  pose proof (step_bounded _ _ _ _ _ Hb Hs) as Hb1. destruct (IH self1 Hb1) as [H1 H2].
  destruct (run self1 calls) as [events final]. split; [|done]. by constructor.
Qed.

(** Reservations are conserved: what was consumed and what is still held is a
    sub-multiset of what was issued. *)
Lemma run_conserves self calls :
  let '(events, final) := run self calls in
  concat (consumed <$> events) ++ map_to_list (pending final)
  ⊆+ map_to_list (pending self) ++ concat (issued <$> events).
Proof.
  revert self; induction calls as [|[env call] calls IH]; intros self; cbn; [by rewrite app_nil_r|].
  destruct (step self env call) as [reply self1] eqn:Hs. specialize (IH self1).
  destruct (run self1 calls) as [events final]. rewrite !fmap_cons. cbn [concat].
  apply step_cases in Hs as [_ [(session & entry & -> & -> & Hm & Hf)|[(-> & -> & Hsub)|(session & entry & -> & -> & Hl & Hm)]]].
  - rewrite app_nil_l. etransitivity; [exact IH|]. rewrite Hm, map_to_list_insert by done.
    cbn. rewrite <- Permutation_middle. apply submseteq_skip, submseteq_app; [|done].
    by apply map_to_list_submseteq, live_subseteq.
  - rewrite !app_nil_l. etransitivity; [exact IH|]. apply submseteq_app; [|done]. by apply map_to_list_submseteq.
  - rewrite app_nil_l. cbn [app]. etransitivity; [apply submseteq_skip, IH|].
    rewrite Hm, <- (map_to_list_delete (pending self) session entry) by done. done.
Qed.

(** Every held reservation was issued by an earlier event of the run. *)
Lemma run_provenance self calls pre e post final session p :
  run self calls = (pre ++ e :: post, final) ->
  pending (event_before e) !! session = Some p ->
  pending self !! session = Some p \/ exists e0, e0 ∈ pre /\ issued e0 = [(session, p)].
Proof.
  revert self pre; induction calls as [|[env call] calls IH]; intros self pre Hr Hl; cbn in Hr.
  { injection Hr as E _. by destruct pre. }
  destruct (step self env call) as [reply self1] eqn:Hs. destruct (run self1 calls) as [events f] eqn:Hrun.
  injection Hr as E <-. destruct pre as [|e1 pre]; cbn in E; injection E as <- ->; [by left|].
  destruct (IH self1 pre Hrun Hl) as [Hp|(e0 & H0 & Hi)].
  - apply step_cases in Hs as [_ [(sid & entry & Hi & _ & Hm & _)|[(_ & _ & Hsub)|(sid & entry & _ & _ & _ & Hm)]]].
    + rewrite Hm in Hp. apply lookup_insert_Some in Hp as [[-> ->]|[_ Hp]].
      * right. eexists. split; [apply elem_of_cons; by left|exact Hi].
      * left. eapply lookup_weaken; [exact Hp|apply live_subseteq].
    + left. by eapply lookup_weaken.
    + left. rewrite Hm in Hp. apply lookup_delete_Some in Hp as [_ Hp]. done.
  - right. exists e0. split; [apply elem_of_cons; by right|done].
Qed.

Lemma run_app self calls1 calls2 : snd (run self (calls1 ++ calls2)) = snd (run (snd (run self calls1)) calls2).
Proof.
  revert self; induction calls1 as [|[env call] calls1 IH]; intros self; [done|]. cbn.
  destruct (step self env call) as [reply self1]. specialize (IH self1).
  destruct (run self1 (calls1 ++ calls2)) as [es f]. destruct (run self1 calls1) as [es1 f1]. done.
Qed.

Lemma run_calls self calls : event_call <$> fst (run self calls) = snd <$> calls.
Proof.
  revert self; induction calls as [|[env call] calls IH]; intros self; [done|]. cbn.
  destruct (step self env call) as [reply self1]. specialize (IH self1).
  destruct (run self1 calls) as [es f]. cbn in *. by rewrite IH.
Qed.

(** An event of a run is a step of a signer with the run's root. *)
Lemma run_event self calls events final e :
  run self calls = (events, final) -> e ∈ events ->
  root (event_before e) = root self /\
  exists after, step (event_before e) (event_env e) (event_call e) = (event_reply e, after).
Proof.
  revert self events; induction calls as [|[env call] calls IH]; intros self events Hr He; cbn in Hr.
  { injection Hr as <- _. by apply not_elem_of_nil in He. }
  destruct (step self env call) as [reply self1] eqn:Hs. destruct (run self1 calls) as [es f] eqn:Hrun.
  injection Hr as <- <-. apply elem_of_cons in He as [->|He]; [by eauto|].
  destruct (IH self1 es Hrun He) as [Hroot Hstep]. split; [|done].
  apply step_cases in Hs as [Hr _]. congruence.
Qed.

(** The events after the first are a run of the signer it left. *)
Lemma run_after self calls pre e rest final :
  run self calls = (pre ++ e :: rest, final) ->
  exists after calls', step (event_before e) (event_env e) (event_call e) = (event_reply e, after) /\
    run after calls' = (rest, final).
Proof.
  revert self pre; induction calls as [|[env call] calls IH]; intros self pre H; cbn in H.
  { injection H as E _. by destruct pre. }
  destruct (step self env call) as [reply self1] eqn:Hs. destruct (run self1 calls) as [es f] eqn:Hrun.
  destruct pre as [|e1 pre]; injection H as E1 E2 <-.
  - subst e es. by exists self1, calls.
  - subst e1 es. by apply (IH self1 pre).
Qed.

(** A poisoned mutex stays poisoned. *)
Lemma step_poisoned self env call reply self' :
  poisoned self = true -> step self env call = (reply, self') -> poisoned self' = true.
Proof.
  intros Hp Hs. destruct call as [r|r|r].
  - cbn in Hs. unfold prepare in Hs.
    destruct (check_request self r) as [[[? ?] ?]|e|w]; rewrite ?Hp in Hs; by injection Hs as _ <-.
  - cbn in Hs. unfold finish in Hs. rewrite Hp in Hs. by injection Hs as _ <-.
  - cbn in Hs. unfold cancel in Hs. rewrite Hp in Hs. by injection Hs as _ <-.
Qed.

Lemma run_poisoned self calls events final e :
  poisoned self = true -> run self calls = (events, final) -> e ∈ events ->
  poisoned (event_before e) = true.
Proof.
  revert self events; induction calls as [|[env call] calls IH]; intros self events Hp Hr He; cbn in Hr.
  { injection Hr as <- _. by apply not_elem_of_nil in He. }
  destruct (step self env call) as [reply self1] eqn:Hs. destruct (run self1 calls) as [es f] eqn:Hrun.
  injection Hr as <- <-. apply elem_of_cons in He as [->|He]; [done|].
  eapply IH; [by eapply step_poisoned|exact Hrun|exact He].
Qed.

(** A finish or cancel succeeds only on an available signer that holds the
    session. *)
Lemma consume_succeeds self env call reply self' session :
  consumes call = Some session -> step self env call = (reply, self') -> succeeded reply = true ->
  poisoned self = false /\ is_Some (pending self !! session).
Proof.
  destruct call as [r|r|r]; [done|..]; intros [= <-]; cbn; unfold finish, cancel;
    (destruct (poisoned self); [by intros [= <- _]|]).
  - destruct (pending self !! finish_session r); intros [= <- _]; [|done]. intros _. split; [done|by eexists].
  - intros [= <- _] H. split; [done|]. unfold succeeded in H.
    destruct (bool_decide (cancel_protocol r = SIGNING_PROTOCOL)); [|discriminate H].
    destruct (bool_decide_reflect (is_Some (pending self !! cancel_session r))); [done|discriminate H].
Qed.

Lemma issued_prepare e after session p :
  step (event_before e) (event_env e) (event_call e) = (event_reply e, after) ->
  issued e = [(session, p)] ->
  exists request response program intent user_nonce nonce,
    event_call e = Prepare request /\ event_reply e = Prepared (Ok response) /\
    response_session response = session /\
    response_program_nonce response = hex_encode (member_nonce_serialize (nonce_public nonce)) /\
    check_request (event_before e) request = Ok (program, intent, user_nonce) /\
    nonce_new intent (snd (members intent)) (nonce_randomness (event_env e)) = Ok nonce /\
    p = {| pending_program_id := program_id program; pending_intent := intent;
           pending_user_nonce := user_nonce; pending_nonce := nonce;
           expires := now (event_env e) + SESSION_LIFETIME |}.
Proof.
  unfold issued. destruct (event_call e) as [r| |]; [|done..]. cbn [step].
  destruct (prepare (event_before e) (event_env e) r) as [result s1] eqn:Hp. intros [= <- _].
  apply prepare_cases in Hp as [_ [(resp & program & intent & un & sid & entry & -> & _ & Hc & Hr & _)|[Hn _]]].
  - rewrite Hc, Hr. intros [= -> ->]. apply reserve_ok in Hr as (_ & _ & _ & _ & Hs & nonce & Hn & Hpn & ->).
    by exists r, resp, program, intent, un, nonce.
  - destruct result; [destruct Hn; eauto|done..].
Qed.

(** A released partial: the session was held, unexpired, and signed with its
    own nonce under its own program's key. *)
Lemma finish_ok self env request response self' :
  finish self env request = (Ok response, self') ->
  exists p server_nonce session derived keypair partial,
    pending self !! finish_session request = Some p /\ now env < expires p /\
    transpose (parse_nonce <$> finish_server_nonce request) = Ok server_nonce /\
    session_new (pending_intent p) (pending_user_nonce p, nonce_public (pending_nonce p)) server_nonce = Ok session /\
    server_share_checked (pending_intent p) session request /\
    derive_priv (root self) (pending_program_id p) = Ok derived /\
    add_xonly_tweak_zero (to_keypair derived) = Ok keypair /\
    nonce_sign (pending_nonce p) keypair session = Ok partial /\
    program_partial response = hex_encode (partial_serialize partial).
Proof.
  unfold finish. destruct (poisoned self); [done|].
  destruct (pending self !! finish_session request) as [p|] eqn:Hp; [|done].
  intros [= H _]. unfold finish_session_with in H.
  apply bind_ok in H as ([] & _ & H). apply bind_ok in H as ([] & Ht & H). apply ensure_ok, N.ltb_lt in Ht.
  apply bind_ok in H as (sn & Hsn & H). apply bind_ok in H as (sp & Hsp & H).
  destruct (bool_decide _ && bool_decide _) eqn:Hjoint; [done|].
  apply bind_ok in H as (session & Hs & H). apply bind_ok in H as ([] & Hv & H).
  apply bind_ok in H as (derived & Hd & H). apply bind_ok in H as (keypair & Hk & H).
  apply bind_ok in H as (partial & Hn & H). apply Ok_inj in H as <-.
  exists p, sn, session, derived, keypair, partial. repeat (split; [done|]). split; [|done].
  exists sp. split; [done|]. intros share ->. split; [|done].
  apply andb_false_iff in Hjoint as [Hj|Hj]; apply bool_decide_eq_false in Hj; [by apply not_eq_None_Some|].
  by destruct Hj.
Qed.

Lemma new_empty root_ self : ArkSigner_new root_ = Ok self ->
  pending self = ∅ /\ poisoned self = false /\ root self = root_ /\ evaluators = Ok (signer_evaluators self).
Proof.
  unfold ArkSigner_new. destruct (_ <? _); [done|]. intros H. apply bind_ok in H as (es & He & H).
  apply Ok_inj in H as <-. done.
Qed.

Lemma map_to_list_filter (P : bytes * Pending -> Prop) `{forall x, Decision (P x)} (p : gmap bytes Pending) :
  map_to_list (filter P p) ≡ₚ filter P (map_to_list p).
Proof.
  rewrite map_filter_alt. apply map_to_list_to_map.
  eapply sublist_NoDup; [apply (NoDup_fst_map_to_list p)|]. apply fmap_sublist, sublist_filter.
Qed.

(** Filling the map takes an eighth as many wallet keys. *)
Lemma wallets_bound p : bounded p -> N.of_nat (size p) <= MAX_SESSIONS_PER_USER * N.of_nat (length (wallets p)).
Proof.
  intros [_ H]. unfold wallets. set (l := _ <$> map_to_list p).
  assert (length l = size p) as <- by (unfold l; by rewrite length_fmap, length_map_to_list).
  assert (length l <= 8 * length (remove_dups l))%nat; [|unfold MAX_SESSIONS_PER_USER; lia].
  apply length_le_distinct; [intros x; apply elem_of_remove_dups|]. intros user.
  specialize (H user). cbn in H. unfold MAX_SESSIONS_PER_USER in H.
  assert (length (filter (eq user) l) <= size (held_by user p))%nat; [|lia].
  unfold held_by. rewrite <- (length_map_to_list (filter _ p)), map_to_list_filter. unfold l. clear.
  generalize (map_to_list p). intros m. induction m as [|x m IH]; [done|].
  rewrite fmap_cons, !filter_cons. repeat case_decide; cbn; (lia || congruence).
Qed.

(** The checks of a request, as conditions. *)
Lemma authorize_action_ok self key action program intent native_policy :
  authorize_action self key action program intent native_policy = Ok tt <->
  match action with
  | Spend spend => exists input, spend_signing_input spend key = Ok input /\
      authorize (signer_evaluators self) program input (spend_witness spend) (intent_message intent) = Ok tt
  | Ownership ownership =>
      (forall policy, native_policy = Some policy -> proof_allowed policy (ownership_proof ownership)) /\
      ownership_message ownership key = Ok (intent_message intent)
  end.
Proof.
  unfold authorize_action. destruct action as [spend|ownership]; [by rewrite bind_ok|]. split.
  - intros H. apply bind_ok in H as ([] & Hp & H). apply bind_ok in H as (m & Hm & H).
    apply ensure_ok, bool_decide_eq_true in H as ->. split; [|done].
    intros policy ->. by apply enforce_allowed.
  - intros [Hp Hm]. assert (match native_policy with
      | Some policy => NativePolicy_enforce policy (ownership_proof ownership) | None => Ok tt end = Ok tt) as ->.
    { destruct native_policy as [policy|]; [|done]. by apply enforce_allowed, Hp. }
    cbn [mbind Result_bind]. rewrite Hm. cbn [mbind Result_bind]. by rewrite bool_decide_eq_true_2.
Qed.

(** The key of a request names the attested root, and its program, intent and
    derived key agree. *)
Record identified (self : ArkSigner) (key : ProgramKey) (action : SigningAction)
    (program : ProgramInstance) (intent : Intent) : Prop := {
  identified_root : key_root key = public_root self;
  identified_intent : action_intent action key = Ok intent;
  identified_program : program_instance_new (key_evaluator key) (key_program key) (key_parameters key) = Ok program;
  identified_id : program_id program = key_program_id key;
  identified_key : derive_public_key program (key_root key) = Ok (snd (members intent));
}.

(** What the checks before the lock establish, the wallet's nonce apart. *)
Record admissible (self : ArkSigner) (key : ProgramKey) (action : SigningAction)
    (program : ProgramInstance) (intent : Intent) : Prop := {
  admitted_identity : identified self key action program intent;
  admitted_policy : exists native_policy,
    NativePolicy.parse (parameters program) = Ok native_policy /\
    (is_Some native_policy -> is_Some (inline_wasm_version (evaluator program))) /\
    authorize_action self key action program intent native_policy = Ok tt;
}.

Lemma check_request_inv self request program intent user_nonce :
  check_request self request = Ok (program, intent, user_nonce) ->
  prepare_protocol request = SIGNING_PROTOCOL /\
  admissible self (prepare_key request) (prepare_action request) program intent /\
  exists nonce, parse_nonce (prepare_user_nonce request) = Ok nonce /\
    member_nonce_from_bytes intent (user_pubkey (prepare_key request)) (nonce_serialize nonce) = Ok user_nonce.
Proof.
  unfold check_request. intros H.
  apply bind_ok in H as ([] & H1 & H). apply ensure_ok, bool_decide_eq_true in H1.
  apply bind_ok in H as ([] & H2 & H). apply ensure_ok, bool_decide_eq_true in H2.
  apply bind_ok in H as (i & H3 & H). apply bind_ok in H as (n & H4 & H).
  apply bind_ok in H as (un & H5 & H). apply bind_ok in H as (p & H6 & H).
  apply bind_ok in H as ([] & H7 & H). apply ensure_ok, bool_decide_eq_true in H7.
  apply bind_ok in H as (d & H8 & H). apply bind_ok in H as ([] & H9 & H).
  apply ensure_ok, bool_decide_eq_true in H9. apply bind_ok in H as (np & H10 & H).
  destruct (bool_decide_reflect (is_Some np)) as [Hs|Hs];
    destruct (bool_decide_reflect (inline_wasm_version (evaluator p) = None)) as [Hw|Hw]; cbn [andb] in H;
    try discriminate H; apply bind_ok in H as ([] & H11 & H); apply Ok_inj in H as [= <- <- <-];
    rewrite H9 in H8; (split; [done|]); (split; [|by eauto]); (split; [done..|]); exists np;
    (split; [done|]); (split; [|done]); intros; (done || by apply not_eq_None_Some).
Qed.

(** Once identified, a request is decided by its policy and its action. *)
Lemma check_request_identified self request program intent nonce user_nonce :
  prepare_protocol request = SIGNING_PROTOCOL ->
  identified self (prepare_key request) (prepare_action request) program intent ->
  parse_nonce (prepare_user_nonce request) = Ok nonce ->
  member_nonce_from_bytes intent (user_pubkey (prepare_key request)) (nonce_serialize nonce) = Ok user_nonce ->
  check_request self request =
    (native_policy ← NativePolicy.parse (parameters program);
     if bool_decide (is_Some native_policy) && bool_decide (inline_wasm_version (evaluator program) = None)
     then Err (Message "native ownership policy requires an inline WASM program") else
     _ ← authorize_action self (prepare_key request) (prepare_action request) program intent native_policy;
     Ok (program, intent, user_nonce)).
Proof.
  intros H1 [H2 H3 H6 H7 H8] H4 H5. unfold check_request.
  rewrite (bool_decide_eq_true_2 _ H1), (bool_decide_eq_true_2 _ H2). cbn [ensure mbind Result_bind].
  rewrite H3. cbn [mbind Result_bind]. rewrite H4. cbn [mbind Result_bind]. rewrite H5. cbn [mbind Result_bind].
  rewrite H6. cbn [mbind Result_bind]. rewrite (bool_decide_eq_true_2 _ H7). cbn [ensure mbind Result_bind].
  rewrite H8. cbn [mbind Result_bind].
  by rewrite (bool_decide_eq_true_2 (snd (members intent) = snd (members intent)) eq_refl).
Qed.

Lemma check_request_intro self request program intent nonce user_nonce :
  prepare_protocol request = SIGNING_PROTOCOL ->
  admissible self (prepare_key request) (prepare_action request) program intent ->
  parse_nonce (prepare_user_nonce request) = Ok nonce ->
  member_nonce_from_bytes intent (user_pubkey (prepare_key request)) (nonce_serialize nonce) = Ok user_nonce ->
  check_request self request = Ok (program, intent, user_nonce).
Proof.
  intros H1 [H2 (np & H9 & H10 & H11)] H4 H5.
  rewrite (check_request_identified _ _ _ _ _ _ H1 H2 H4 H5), H9. cbn [mbind Result_bind].
  assert (bool_decide (is_Some np) && bool_decide (inline_wasm_version (evaluator program) = None) = false) as ->.
  { apply not_true_iff_false. rewrite andb_true_iff, !bool_decide_eq_true. intros [Hs Hw].
    apply H10 in Hs. rewrite Hw in Hs. by destruct Hs. }
  by rewrite H11.
Qed.

(** A checked request is given a session where there is room. *)
Lemma prepare_admitted self env request program intent user_nonce nonce :
  poisoned self = false ->
  check_request self request = Ok (program, intent, user_nonce) ->
  let unexpired := live (now env) (pending self) in
  N.of_nat (size unexpired) < MAX_PENDING_SESSIONS ->
  N.of_nat (size (held_by (fst (members intent)) unexpired)) < MAX_SESSIONS_PER_USER ->
  nonce_new intent (snd (members intent)) (nonce_randomness env) = Ok nonce ->
  NoDup (session_ids env) -> MAX_PENDING_SESSIONS <= len (session_ids env) ->
  exists session,
    prepare self env request
    = (Ok {| response_protocol := SIGNING_PROTOCOL; response_session := session;
             response_program_nonce := hex_encode (member_nonce_serialize (nonce_public nonce)) |},
       with_pending self (<[session :=
         {| pending_program_id := program_id program; pending_intent := intent;
            pending_user_nonce := user_nonce; pending_nonce := nonce;
            expires := now env + SESSION_LIFETIME |}]> unexpired)) /\
    unexpired !! session = None /\ session ∈ session_ids env.
Proof.
  intros Hp Hc unexpired H1 H2 Hn Hd Hl. unfold prepare. rewrite Hc, Hp. cbn [pending with_pending].
  fold unexpired. destruct (draw_session_ok unexpired (session_ids env)) as [session Hs].
  { apply fresh_id_exists; [done|]. unfold len in Hl. lia. }
  unfold reserve. apply N.ltb_lt in H1, H2. rewrite H1, H2. cbn [ensure mbind Result_bind].
  rewrite Hn. cbn [mbind Result_bind]. rewrite Hs. cbn [mbind Result_bind].
  apply draw_session_fresh in Hs as [Hf Hi]. exists session. split; [reflexivity|]. done.
Qed.

End Signer.

(* ------------------------------------------------------------------ *)
(** ** Properties *)

Section Theorems.
  Context {runtime : WasmRuntime} {outpoint_codec : OutPointCodec} {auth : NativeAuth}.
  Context {sapio : SapioProgram} {prim : KeyPrimitives} {upstream : Upstream} {ark : ArkLib} {requests : ArkRequests}.
  Context {codec : PolicyCodec VtxoPolicy}.

(** C35: in every execution of a fresh signer, at every point, the reserved
    sessions respect the advertised bounds: at most [max_pending_sessions] in
    all and at most [max_sessions_per_user] for any wallet key. *)
Theorem sessions_bounded root_ self calls :
  ArkSigner_new root_ = Ok self ->
  Forall (fun e => bounded (pending (event_before e))) (fst (run self calls)) /\
  bounded (pending (snd (run self calls))).
Proof. intros (Hp & _)%new_empty. apply run_bounded. rewrite Hp. apply bounded_empty. Qed.

(** Exhausting the shared pool takes at least 32 wallet keys: whenever an
    execution of a fresh signer has filled it, that many distinct keys hold
    sessions. *)
Theorem pool_exhaustion_cost root_ self calls :
  ArkSigner_new root_ = Ok self ->
  N.of_nat (size (pending (snd (run self calls)))) = MAX_PENDING_SESSIONS ->
  (32 <= length (wallets (pending (snd (run self calls)))))%nat.
Proof.
  intros (Hp & _)%new_empty Hs.
  destruct (run_bounded self calls) as [_ Hb]; [rewrite Hp; apply bounded_empty|].
  apply wallets_bound in Hb. rewrite Hs in Hb. unfold MAX_PENDING_SESSIONS, MAX_SESSIONS_PER_USER in Hb. lia.
Qed.

(** C2: every secret nonce is used at most once: the reservations consumed by
    finish and cancel in an execution of a fresh signer, with those still held
    at its end, form a sub-multiset of the reservations that prepare issued. *)
Theorem nonce_used_once root_ self calls :
  ArkSigner_new root_ = Ok self ->
  concat (consumed <$> fst (run self calls)) ++ map_to_list (pending (snd (run self calls)))
  ⊆+ concat (issued <$> fst (run self calls)).
Proof.
  intros (Hp & _)%new_empty. pose proof (run_conserves self calls) as H.
  destruct (run self calls) as [events final]. rewrite Hp, map_to_list_empty in H. exact H.
Qed.

(** C1: a released partial signature was authorized: it answers an earlier
    prepare of the same execution that returned this very session and nonce and
    passed every check, less than the session lifetime ago; it is made with the
    nonce that prepare drew, for its intent, under its own program's derived
    key, and only after any server share in the request verified. *)
Theorem partial_authorized root_ self calls pre e post final request response :
  ArkSigner_new root_ = Ok self ->
  run self calls = (pre ++ e :: post, final) ->
  event_call e = Finish request -> event_reply e = Finished (Ok response) ->
  exists e0 request0 response0 program intent user_nonce nonce,
    e0 ∈ pre /\ event_call e0 = Prepare request0 /\ event_reply e0 = Prepared (Ok response0) /\
    response_session response0 = finish_session request /\
    response_program_nonce response0 = hex_encode (member_nonce_serialize (nonce_public nonce)) /\
    check_request (event_before e0) request0 = Ok (program, intent, user_nonce) /\
    nonce_new intent (snd (members intent)) (nonce_randomness (event_env e0)) = Ok nonce /\
    now (event_env e) < now (event_env e0) + SESSION_LIFETIME /\
    exists server_nonce session derived keypair partial,
      transpose (parse_nonce <$> finish_server_nonce request) = Ok server_nonce /\
      session_new intent (user_nonce, nonce_public nonce) server_nonce = Ok session /\
      server_share_checked intent session request /\
      derive_priv root_ (program_id program) = Ok derived /\
      add_xonly_tweak_zero (to_keypair derived) = Ok keypair /\
      nonce_sign nonce keypair session = Ok partial /\
      program_partial response = hex_encode (partial_serialize partial).
Proof.
  intros (Hp & _ & Hroot & _)%new_empty Hrun Hcall Hreply.
  destruct (run_event self calls _ final e Hrun) as [Hr [after Hstep]].
  { apply elem_of_app. right. apply elem_of_cons. by left. }
  rewrite Hcall, Hreply in Hstep. cbn in Hstep.
  destruct (finish (event_before e) (event_env e) request) as [result s1] eqn:Hf. injection Hstep as -> _.
  apply finish_ok in Hf as (p & sn & session & derived & keypair & partial & Hl & Ht & Hsn & Hs & Hv & Hd & Hk & Hn & Hout).
  destruct (run_provenance _ _ _ _ _ _ _ _ Hrun Hl) as [H|(e0 & He0 & Hi)]; [by rewrite Hp in H|].
  destruct (run_event self calls _ final e0 Hrun) as [_ [after0 Hstep0]]; [apply elem_of_app; by left|].
  apply (issued_prepare _ _ _ _ Hstep0) in Hi
    as (r0 & resp0 & program & intent & un & nonce & Hc0 & Hr0 & Hs0 & Hn0 & Hchk & Hnew & ->).
  rewrite Hr, Hroot in Hd. cbn in *.
  exists e0, r0, resp0, program, intent, un, nonce. repeat (split; [done|]).
  by exists sn, session, derived, keypair, partial.
Qed.

(** C9: the checks before a reservation, on every branch: a request passes
    exactly when it names the protocol and the attested root, its intent,
    nonce, program identity and derived key agree, its policy envelope parses
    and comes only with an inline program, and its action is authorized: a
    spend by the evaluator, an ownership proof by the policy and by the native
    message that the intent commits to. *)
Theorem check_request_iff self request program intent user_nonce :
  let key := prepare_key request in
  check_request self request = Ok (program, intent, user_nonce) <->
  prepare_protocol request = SIGNING_PROTOCOL /\ key_root key = public_root self /\
  action_intent (prepare_action request) key = Ok intent /\
  (exists nonce, parse_nonce (prepare_user_nonce request) = Ok nonce /\
     member_nonce_from_bytes intent (user_pubkey key) (nonce_serialize nonce) = Ok user_nonce) /\
  program_instance_new (key_evaluator key) (key_program key) (key_parameters key) = Ok program /\
  program_id program = key_program_id key /\
  derive_public_key program (key_root key) = Ok (snd (members intent)) /\
  exists native_policy,
    NativePolicy.parse (parameters program) = Ok native_policy /\
    (is_Some native_policy -> is_Some (inline_wasm_version (evaluator program))) /\
    match prepare_action request with
    | Spend spend => exists input, spend_signing_input spend key = Ok input /\
        authorize (signer_evaluators self) program input (spend_witness spend) (intent_message intent) = Ok tt
    | Ownership ownership =>
        (forall policy, native_policy = Some policy -> proof_allowed policy (ownership_proof ownership)) /\
        ownership_message ownership key = Ok (intent_message intent)
    end.
Proof.
  intros key. split.
  - intros (H1 & [[H2 H3 H6 H7 H8] (np & H9 & H10 & H11)] & Hn)%check_request_inv.
    repeat (split; [done|]). exists np. split; [done|]. split; [done|]. by apply authorize_action_ok in H11.
  - intros (H1 & H2 & H3 & (n & H4 & H5) & H6 & H7 & H8 & np & H9 & H10 & H11).
    apply (check_request_intro _ _ _ _ n); [done| |done..]. split; [done|]. exists np.
    split; [done|]. split; [done|]. by apply authorize_action_ok.
Qed.

(** Liveness: on a signer whose state is available, a request that passes
    the checks is given a session as soon as the unexpired sessions leave room
    in the pool and for its wallet key, its nonce can be made, and the entropy
    source yields more distinct ids than there are sessions. *)
Theorem prepare_live self env request program intent user_nonce nonce :
  poisoned self = false ->
  check_request self request = Ok (program, intent, user_nonce) ->
  let unexpired := live (now env) (pending self) in
  N.of_nat (size unexpired) < MAX_PENDING_SESSIONS ->
  N.of_nat (size (held_by (fst (members intent)) unexpired)) < MAX_SESSIONS_PER_USER ->
  nonce_new intent (snd (members intent)) (nonce_randomness env) = Ok nonce ->
  NoDup (session_ids env) -> MAX_PENDING_SESSIONS <= len (session_ids env) ->
  exists response self',
    prepare self env request = (Ok response, self') /\
    unexpired !! response_session response = None /\
    pending self' = <[response_session response :=
      {| pending_program_id := program_id program; pending_intent := intent;
         pending_user_nonce := user_nonce; pending_nonce := nonce;
         expires := now env + SESSION_LIFETIME |}]> unexpired.
Proof.
  intros Hp Hc unexpired H1 H2 Hn Hd Hl.
  destruct (prepare_admitted self env request program intent user_nonce nonce) as (session & -> & Hf & _); [done..|].
  do 2 eexists. split; [reflexivity|]. done.
Qed.

(** No eviction: whatever its outcome, a prepare keeps every unexpired
    session with its own contents, and a refused prepare adds none. *)
Theorem prepare_keeps_live_sessions self env request result self' session p :
  prepare self env request = (result, self') ->
  (pending self !! session = Some p -> now env < expires p -> pending self' !! session = Some p) /\
  (is_ok result = false -> pending self' ⊆ pending self).
Proof.
  intros Hprep. split.
  - intros Hl Ht. assert (live (now env) (pending self) !! session = Some p) as Hlive.
    { by apply map_lookup_filter_Some_2. }
    unfold prepare in Hprep. destruct (check_request self request) as [[[program intent] un]|e|w];
      [|by injection Hprep as _ <-..].
    destruct (poisoned self); [by injection Hprep as _ <-|]. cbn [pending with_pending] in Hprep.
    destruct (reserve env _ program intent un) as [[response [sid entry]]|e|w] eqn:Hr;
      injection Hprep as _ <-; [|done..].
    apply reserve_ok in Hr as (_ & _ & Hf & _). cbn. rewrite lookup_insert_ne; [done|congruence].
  - intros Hok. apply prepare_cases in Hprep as [_ [(? & ? & ? & ? & ? & ? & -> & _)|[_ Hsub]]]; [discriminate Hok|done].
Qed.

(** One winner: of the finish and cancel calls of a session in an execution,
    interleaved with anything, no call after the first succeeds, whatever the
    first answered, unless a prepare in between was given the same id again. *)
Theorem consumed_once self calls pre e1 mid e2 post final session :
  run self calls = (pre ++ e1 :: mid ++ e2 :: post, final) ->
  consumes (event_call e1) = Some session -> consumes (event_call e2) = Some session ->
  succeeded (event_reply e2) = true ->
  exists e response, e ∈ mid /\ event_reply e = Prepared (Ok response) /\ response_session response = session.
Proof.
  intros Hrun C1 C2 Hok. apply run_after in Hrun as (s1 & calls1 & Hs1 & Hrun).
  destruct (run_event _ _ _ _ e2 Hrun) as [_ [s3 Hs2]]; [apply elem_of_app; right; apply elem_of_cons; by left|].
  destruct (consume_succeeds _ _ _ _ _ _ C2 Hs2 Hok) as [Hp [p Hl]].
  apply (run_provenance _ _ _ _ _ _ _ _ Hrun) in Hl as [Hl|(e & He & Hi)].
  - destruct (step_consumes _ _ _ _ _ _ C1 Hs1) as [_ [[Hq ->]|[_ Hm]]]; [|by rewrite Hm, lookup_delete_eq in Hl].
    rewrite (run_poisoned _ _ _ _ e2 Hq Hrun) in Hp; [done|]. apply elem_of_app; right; apply elem_of_cons; by left.
  - destruct (run_event _ _ _ _ e Hrun) as [_ [s4 Hs4]]; [apply elem_of_app; by left|].
    apply (issued_prepare _ _ _ _ Hs4) in Hi as (r & resp & _ & _ & _ & _ & _ & Hr & Hs & _). by exists e, resp.
Qed.

End Theorems.
