(* ===== verification/Contract.v ===== *)
(** * Contract: what the signing API promises (src/ark_signer.rs)

    The abstract service behind prepare, finish and cancel, free of MuSig, key
    material and mutexes: a ledger of grants.  A request that is entitled to it
    gets a grant with a deadline, which is redeemed at most once, for a share
    that fulfils the terms it was granted for, or revoked; every other call is
    refused, and naming a grant spends it whatever the answer.  [ledger_step]
    says which answers the service may give, and the lemmas what every trace of
    it satisfies.  [SignerContract] proves that the signer implements it. *)

From S2P Require Import Prelude Bytes.

Open Scope N_scope.

(** What an implementation grants, to whom, and what a share must satisfy. *)
Class Contract := {
  User : Type;
  user_eq_dec :: EqDecision User;
  Terms : Type;
  Request : Type;
  Claim : Type;
  Share : Type;
  entitled : Request -> User -> Terms -> Prop;
  receipt : Terms -> bytes;
  fulfils : Terms -> Claim -> Share -> Prop;
  lifetime : N;
  capacity : N;
  quota : N;
}.

Section Ledger.
  Context {contract : Contract}.

Record Grant := { holder : User; terms : Terms; deadline : N }.

(** A sealed ledger refuses everything. *)
Record Ledger := { grants : gmap bytes Grant; sealed : bool }.

Inductive Ask :=
| AskGrant (request : Request)
| AskShare (id : bytes) (claim : Claim)
| AskRevoke (id : bytes).

Inductive Answer :=
| Granted (id : bytes) (public : bytes)
| Shared (share : Share)
| Revoked
| Refused.

Record Entry := { time : N; ask : Ask; answer : Answer }.

(** The grant an ask names. *)
Definition names (a : Ask) : option bytes :=
  match a with
  | AskGrant _ => None
  | AskShare id _ => Some id
  | AskRevoke id => Some id
  end.

Definition unexpired (t : N) (gs : gmap bytes Grant) : gmap bytes Grant :=
  filter (fun x => t < deadline (snd x)) gs.

Definition granted_to (user : User) (gs : gmap bytes Grant) : gmap bytes Grant :=
  filter (fun x => holder (snd x) = user) gs.

Definition close (id : bytes) (L : Ledger) : Ledger :=
  {| grants := delete id (grants L); sealed := sealed L |}.

(** There is room for another grant to [user]. *)
Definition vacancy (user : User) (gs : gmap bytes Grant) : Prop :=
  N.of_nat (size gs) < capacity /\ N.of_nat (size (granted_to user gs)) < quota.

Inductive ledger_step (L : Ledger) : Entry -> Ledger -> Prop :=
| step_grant t request id g :
    sealed L = false -> entitled request (holder g) (terms g) -> deadline g = t + lifetime ->
    unexpired t (grants L) !! id = None -> vacancy (holder g) (unexpired t (grants L)) ->
    ledger_step L {| time := t; ask := AskGrant request; answer := Granted id (receipt (terms g)) |}
      {| grants := <[id := g]> (unexpired t (grants L)); sealed := false |}
| step_share t id claim share g :
    sealed L = false -> grants L !! id = Some g -> t < deadline g -> fulfils (terms g) claim share ->
    ledger_step L {| time := t; ask := AskShare id claim; answer := Shared share |} (close id L)
| step_revoke t id g :
    sealed L = false -> grants L !! id = Some g ->
    ledger_step L {| time := t; ask := AskRevoke id; answer := Revoked |} (close id L)
| step_void t a id :
    sealed L = false -> names a = Some id ->
    ledger_step L {| time := t; ask := a; answer := Refused |} (close id L)
| step_turn_away t request :
    ledger_step L {| time := t; ask := AskGrant request; answer := Refused |} L
| step_collect t request seal :
    sealed L = false ->
    ledger_step L {| time := t; ask := AskGrant request; answer := Refused |}
      {| grants := unexpired t (grants L); sealed := seal |}
| step_sealed t a :
    sealed L = true -> ledger_step L {| time := t; ask := a; answer := Refused |} L.

Inductive ledger_run : Ledger -> list Entry -> Ledger -> Prop :=
| run_nil L : ledger_run L [] L
| run_cons L e L' tr L'' : ledger_step L e L' -> ledger_run L' tr L'' -> ledger_run L (e :: tr) L''.

Definition empty_ledger : Ledger := {| grants := ∅; sealed := false |}.

(** A trace the service may show. *)
Definition lawful (tr : list Entry) : Prop := exists L, ledger_run empty_ledger tr L.

(* ------------------------------------------------------------------ *)
(** ** What the traces satisfy *)

(** [e] made the grant [g] under [id]. *)
Definition made (e : Entry) (id : bytes) (g : Grant) : Prop :=
  exists request, ask e = AskGrant request /\ answer e = Granted id (receipt (terms g)) /\
    entitled request (holder g) (terms g) /\ deadline g = time e + lifetime.

(** [e] leaves the grant under [id] alone. *)
Definition spares (id : bytes) (e : Entry) : Prop :=
  names (ask e) <> Some id /\ forall public, answer e <> Granted id public.

Definition shared (e : Entry) : bool := match answer e with Shared _ => true | _ => false end.
Definition granted (e : Entry) : bool := match answer e with Granted _ _ => true | _ => false end.

Record ledger_bounded (L : Ledger) : Prop := {
  within_capacity : N.of_nat (size (grants L)) <= capacity;
  within_quota user : N.of_nat (size (granted_to user (grants L))) <= quota;
}.

Lemma unexpired_subseteq t gs : unexpired t gs ⊆ gs.
Proof. apply map_filter_subseteq. Qed.

Lemma granted_to_mono user gs hs : gs ⊆ hs -> granted_to user gs ⊆ granted_to user hs.
Proof. apply map_filter_subseteq_mono. Qed.

Lemma bounded_mono L L' : grants L' ⊆ grants L -> ledger_bounded L -> ledger_bounded L'.
Proof.
  intros Hs [H1 H2]. split.
  - apply map_subseteq_size in Hs. lia.
  - intros user. specialize (H2 user). apply (granted_to_mono user), map_subseteq_size in Hs. lia.
Qed.

Lemma bounded_grant gs id g :
  vacancy (holder g) gs -> gs !! id = None -> ledger_bounded {| grants := gs; sealed := false |} ->
  ledger_bounded {| grants := <[id := g]> gs; sealed := false |}.
Proof.
  intros [V1 V2] Hf [H1 H2]. split; cbn in *.
  - rewrite map_size_insert_None by done. lia.
  - intros user. unfold granted_to. destruct (decide (holder g = user)) as [<-|Hu].
    + rewrite map_filter_insert_True by done. rewrite map_size_insert_None; [unfold granted_to in V2; lia|].
      apply map_lookup_filter_None_2. by left.
    + rewrite map_filter_insert_False by done. rewrite delete_id by done. apply H2.
Qed.

Lemma ledger_step_bounded L e L' : ledger_step L e L' -> ledger_bounded L -> ledger_bounded L'.
Proof.
  intros Hs Hb. destruct Hs.
  - apply bounded_grant; [done|done|]. eapply bounded_mono; [|exact Hb]. apply unexpired_subseteq.
  - eapply bounded_mono; [|exact Hb]. apply delete_subseteq.
  - eapply bounded_mono; [|exact Hb]. apply delete_subseteq.
  - eapply bounded_mono; [|exact Hb]. apply delete_subseteq.
  - done.
  - eapply bounded_mono; [|exact Hb]. apply unexpired_subseteq.
  - done.
Qed.

(** A sealed ledger stays sealed. *)
Lemma ledger_step_sealed L e L' : ledger_step L e L' -> sealed L' = false -> sealed L = false.
Proof. destruct 1; cbn; congruence. Qed.

(** Where a standing grant comes from, in one step, *)
Lemma ledger_step_origin L e L' id g :
  ledger_step L e L' -> sealed L' = false -> grants L' !! id = Some g ->
  made e id g \/ (grants L !! id = Some g /\ spares id e).
Proof.
  intros Hs Hopen Hl.
  destruct Hs as [t request i g' Hn He Hd Hf Hv| | | |t request|t request seal Hn|t a Hn]; cbn in *;
    [|apply lookup_delete_Some in Hl as [Hne Hl]; right; split; [done|split; [cbn; congruence|done]]..| | |].
  - apply lookup_insert_Some in Hl as [[-> ->]|[Hne Hl]]; [left; by exists request|right].
    split; [eapply lookup_weaken; [exact Hl|apply unexpired_subseteq]|]. split; [done|]. intros p [= E _]. done.
  - right. by repeat split.
  - right. split; [eapply lookup_weaken; [exact Hl|apply unexpired_subseteq]|by split].
  - congruence.
Qed.

(** and in a whole trace. *)
Lemma ledger_run_origin L tr L' id g :
  ledger_run L tr L' -> sealed L' = false -> grants L' !! id = Some g ->
  (grants L !! id = Some g /\ Forall (spares id) tr) \/
  exists pre e mid, tr = pre ++ e :: mid /\ made e id g /\ Forall (spares id) mid.
Proof.
  intros Hr Hopen Hl.
  assert (sealed L = false /\ ((grants L !! id = Some g /\ Forall (spares id) tr) \/
    exists pre e mid, tr = pre ++ e :: mid /\ made e id g /\ Forall (spares id) mid)) as [_ H]; [|exact H].
  induction Hr as [L|L e L1 tr L2 Hs Hr IH]; [by split; [|left]|].
  destruct (IH Hopen Hl) as [Hopen1 [[Hl1 Hsp]|(pre & e1 & mid & -> & Hm & Hsp)]];
    (split; [by eapply ledger_step_sealed|]).
  - destruct (ledger_step_origin _ _ _ _ _ Hs Hopen1 Hl1) as [Hm|[Hl0 He]].
    + right. by exists [], e, tr.
    + left. split; [done|by constructor].
  - right. by exists (e :: pre), e1, mid.
Qed.

Lemma ledger_run_app L tr1 tr2 L' :
  ledger_run L (tr1 ++ tr2) L' -> exists L1, ledger_run L tr1 L1 /\ ledger_run L1 tr2 L'.
Proof.
  revert L; induction tr1 as [|e tr1 IH]; intros L H; cbn in H; [by exists L; split; [constructor|]|].
  inversion H as [|? ? L1 ? ? Hs Hr]; subst. apply IH in Hr as (L2 & H1 & H2).
  exists L2. split; [by econstructor|done].
Qed.

Lemma ledger_run_snoc L tr L1 e L2 : ledger_run L tr L1 -> ledger_step L1 e L2 -> ledger_run L (tr ++ [e]) L2.
Proof. induction 1; intros Hs; cbn; [by repeat econstructor|econstructor; eauto]. Qed.

Lemma lawful_prefix tr1 tr2 : lawful (tr1 ++ tr2) -> lawful tr1.
Proof. intros [L (L1 & H & _)%ledger_run_app]. by exists L1. Qed.

Lemma ledger_run_bounded L tr L' : ledger_run L tr L' -> ledger_bounded L -> ledger_bounded L'.
Proof. induction 1; eauto using ledger_step_bounded. Qed.

Lemma empty_bounded : ledger_bounded empty_ledger.
Proof.
  split; cbn; [rewrite map_size_empty; lia|]. intros user. unfold granted_to.
  rewrite map_filter_empty, map_size_empty. lia.
Qed.

(** A share redeems the latest grant of its id, in time. *)
Lemma lawful_share pre e post id claim share :
  lawful (pre ++ e :: post) -> ask e = AskShare id claim -> answer e = Shared share ->
  exists pre0 e0 mid g, pre = pre0 ++ e0 :: mid /\ made e0 id g /\ Forall (spares id) mid /\
    time e < deadline g /\ fulfils (terms g) claim share.
Proof.
  intros [L (L1 & Hpre & Hr)%ledger_run_app] Ha Hs.
  inversion Hr as [|? ? L2 ? ? Hstep _]; subst.
  inversion Hstep as [|t i c s g Hopen Hl Ht Hf| | | | |]; subst; cbn in *; try discriminate.
  injection Ha as -> ->. injection Hs as ->.
  destruct (ledger_run_origin _ _ _ _ _ Hpre Hopen Hl) as [[Hn _]|(pre0 & e0 & mid & -> & Hm & Hsp)]; [done|].
  by exists pre0, e0, mid, g.
Qed.

(** A step's share is paid for by a grant. *)
Lemma ledger_step_count L e L' :
  ledger_step L e L' ->
  (size (grants L') + Nat.b2n (shared e) <= size (grants L) + Nat.b2n (granted e))%nat.
Proof.
  intros Hs.
  assert (forall t, size (unexpired t (grants L)) <= size (grants L))%nat as Hun
    by (intros t; apply map_subseteq_size, unexpired_subseteq).
  assert (forall i, size (delete i (grants L)) <= size (grants L))%nat as Hdel
    by (intros i; apply map_subseteq_size, delete_subseteq).
  destruct Hs as [t r i g _ _ _ Hf _|t i c s g _ Hl _ _|t i g|t a i|t r|t r seal|t a]; cbn;
    [| |specialize (Hdel i)..| |specialize (Hun t)|]; try lia.
  - specialize (Hun t). rewrite map_size_insert_None by done. lia.
  - rewrite map_size_delete_Some by done. assert (size (grants L) <> 0)%nat; [|lia].
    intros E. apply map_size_empty_inv in E. by rewrite E in Hl.
Qed.

(** No more shares than grants. *)
Lemma ledger_run_count L tr L' :
  ledger_run L tr L' ->
  (size (grants L') + length (filter shared tr) <= size (grants L) + length (filter granted tr))%nat.
Proof.
  induction 1 as [|L e L1 tr L2 Hs _ IH]; [cbn; lia|]. apply ledger_step_count in Hs. rewrite !filter_cons.
  destruct (shared e), (granted e); repeat case_decide; cbn in *; (lia || tauto).
Qed.

End Ledger.

(* ------------------------------------------------------------------ *)
(** ** Properties *)

(** In every trace the contract allows, each share was preceded by a grant of
    the id it names, made to an entitled request no longer than the lifetime
    ago, fulfils the terms of that grant, and nothing named the id in between:
    a grant gives one share at most. *)
Theorem contract_one_share {contract : Contract} pre e post id claim share :
  lawful (pre ++ e :: post) -> ask e = AskShare id claim -> answer e = Shared share ->
  (exists pre0 e0 mid g, pre = pre0 ++ e0 :: mid /\ made e0 id g /\ Forall (spares id) mid /\
     time e < time e0 + lifetime /\ fulfils (terms g) claim share) /\
  (length (filter shared (pre ++ [e])) <= length (filter granted (pre ++ [e])))%nat.
Proof.
  intros Hl Ha Hs. split.
  - destruct (lawful_share _ _ _ _ _ _ Hl Ha Hs) as (pre0 & e0 & mid & g & -> & Hm & Hsp & Ht & Hf).
    exists pre0, e0, mid, g. repeat (split; [done|]). split; [|done]. by destruct Hm as (r & _ & _ & _ & <-).
  - replace (pre ++ e :: post) with ((pre ++ [e]) ++ post) in Hl by by rewrite <- app_assoc.
    apply lawful_prefix in Hl as [L Hl]. apply ledger_run_count in Hl.
    cbn [grants empty_ledger] in Hl. rewrite map_size_empty in Hl. lia.
Qed.
