(* ===== verification/SignerContract.v ===== *)
(** * SignerContract: the signer implements the contract (src/ark_signer.rs)

    [signer_contract] reads the signer's checks, its session lifetime and its
    bounds as a [Contract]: the terms of a grant are what the reservation holds,
    and a share fulfils them when it is the program's partial signature made
    with the reserved nonce.  [ledger_of] abstracts the pending map, [entry_of]
    an executed operation, and every operation is a step of the ledger. *)

From S2P Require Import Prelude Bytes NativePolicy Bitcoin Program SignedView Evaluator Keys Deployment ArkSigner Contract.

Open Scope N_scope.

Section SignerContract.
  Context {runtime : WasmRuntime} {outpoint_codec : OutPointCodec} {auth : NativeAuth}.
  Context {sapio : SapioProgram} {prim : KeyPrimitives} {upstream : Upstream} {ark : ArkLib} {requests : ArkRequests}.
  Context {codec : PolicyCodec VtxoPolicy}.

(** What a reservation holds, its expiry apart. *)
Record SessionTerms := {
  terms_program_id : ProgramId;
  terms_intent : Intent;
  terms_user_nonce : MemberNonce;
  terms_nonce : Nonce;
}.

(** [request] passes the checks of [self] with these terms. *)
Definition request_entitled (self : ArkSigner) (request : PrepareRequest) (user : PublicKey)
    (x : SessionTerms) : Prop :=
  user = fst (members (terms_intent x)) /\
  exists program randomness,
    check_request self request = Ok (program, terms_intent x, terms_user_nonce x) /\
    terms_program_id x = program_id program /\
    nonce_new (terms_intent x) (snd (members (terms_intent x))) randomness = Ok (terms_nonce x).

(** [response] is the program's share of the session [request] describes. *)
Definition share_fulfils (root_ : Xpriv) (x : SessionTerms) (request : FinishRequest)
    (response : FinishResponse) : Prop :=
  exists server_nonce session derived keypair partial,
    transpose (parse_nonce <$> finish_server_nonce request) = Ok server_nonce /\
    session_new (terms_intent x) (terms_user_nonce x, nonce_public (terms_nonce x)) server_nonce = Ok session /\
    server_share_checked (terms_intent x) session request /\
    derive_priv root_ (terms_program_id x) = Ok derived /\
    add_xonly_tweak_zero (to_keypair derived) = Ok keypair /\
    nonce_sign (terms_nonce x) keypair session = Ok partial /\
    program_partial response = hex_encode (partial_serialize partial).

Definition signer_contract (self : ArkSigner) : Contract := {|
  User := PublicKey;
  Terms := SessionTerms;
  Request := PrepareRequest;
  Claim := FinishRequest;
  Share := FinishResponse;
  entitled := request_entitled self;
  receipt := fun x => hex_encode (member_nonce_serialize (nonce_public (terms_nonce x)));
  fulfils := share_fulfils (root self);
  lifetime := session_lifetime_secs (ark_signing program_profile) * 1000000000;
  capacity := max_pending_sessions (ark_signing program_profile);
  quota := max_sessions_per_user (ark_signing program_profile);
|}.

Section Abstraction.
  Variable self0 : ArkSigner.
#[local] Instance the_contract : Contract := signer_contract self0.

Definition terms_of (p : Pending) : SessionTerms := {|
  terms_program_id := pending_program_id p; terms_intent := pending_intent p;
  terms_user_nonce := pending_user_nonce p; terms_nonce := pending_nonce p |}.

Definition grant_of (p : Pending) : Grant :=
  {| holder := fst (members (pending_intent p)) : User; terms := terms_of p : Terms; deadline := expires p |}.

Definition ledger_of (self : ArkSigner) : Ledger :=
  {| grants := grant_of <$> pending self; sealed := poisoned self |}.

Definition ask_of (call : Call) : Ask :=
  match call with
  | Prepare r => AskGrant (r : Request)
  | Finish r => AskShare (finish_session r) (r : Claim)
  | Cancel r => AskRevoke (cancel_session r)
  end.

(** A panic answers nothing, which the contract counts as a refusal. *)
Definition answer_of (reply : Reply) : Answer :=
  match reply with
  | Prepared (Ok response) => Granted (response_session response) (response_program_nonce response)
  | Finished (Ok response) => Shared (response : Share)
  | Cancelled (Ok _) => Revoked
  | _ => Refused
  end.

Definition entry_of (e : Event) : Entry :=
  {| time := now (event_env e); ask := ask_of (event_call e); answer := answer_of (event_reply e) |}.

(** The signer was made with the root and the evaluators of [self0]. *)
Definition of_origin (self : ArkSigner) : Prop :=
  root self = root self0 /\ public_root self = public_root self0 /\
  signer_evaluators self = signer_evaluators self0.

Lemma check_request_origin self request :
  of_origin self -> check_request self request = check_request self0 request.
Proof. intros (_ & Hp & He). unfold check_request, authorize_action. by rewrite Hp, He. Qed.

Lemma grants_live t p : grant_of <$> live t p = unexpired t (grant_of <$> p).
Proof. unfold live, unexpired. by rewrite map_filter_fmap. Qed.

Lemma grants_held user p : grant_of <$> held_by user p = granted_to user (grant_of <$> p).
Proof. unfold held_by, granted_to. by rewrite map_filter_fmap. Qed.

Lemma step_origin self env call reply self' :
  of_origin self -> step self env call = (reply, self') -> of_origin self'.
Proof.
  intros Ho. destruct call as [r|r|r]; cbn.
  - unfold prepare. destruct (check_request self r) as [[[p i] n]|e|w]; [|by intros [= _ <-]..].
    destruct (poisoned self); [by intros [= _ <-]|]. cbn.
    destruct (reserve _ _ _ _ _) as [[? [? ?]]|e|w]; by intros [= _ <-].
  - unfold finish. destruct (poisoned self); [by intros [= _ <-]|]. by destruct (pending self !! _); intros [= _ <-].
  - unfold cancel. destruct (poisoned self); by intros [= _ <-].
Qed.

(** A prepare, *)
Lemma prepare_step self env request reply self' :
  of_origin self -> step self env (Prepare request) = (reply, self') ->
  ledger_step (ledger_of self)
    (entry_of {| event_before := self; event_env := env; event_call := Prepare request; event_reply := reply |})
    (ledger_of self').
Proof.
  intros Ho. cbn [step]. unfold prepare, entry_of. rewrite (check_request_origin _ _ Ho).
  cbn [event_env event_call event_reply ask_of].
  destruct (check_request self0 request) as [[[program intent] un]|e|w] eqn:Hc;
    [|by intros [= <- <-]; apply step_turn_away..].
  destruct (poisoned self) eqn:Hp; [by intros [= <- <-]; apply step_turn_away|]. cbn [pending with_pending].
  destruct (reserve env _ program intent un) as [[response [session entry]]|e|w] eqn:Hr;
    [|intros [= <- <-]; cbn; unfold ledger_of; cbn; rewrite grants_live; by apply step_collect..].
  intros [= <- <-]. cbn. unfold ledger_of at 2. cbn. rewrite fmap_insert, grants_live, Hp.
  apply reserve_ok in Hr as (H1 & H2 & Hf & _ & <- & nonce & Hn & -> & ->).
  apply (step_grant (ledger_of self) (now env) request (response_session response)
    (grant_of {| pending_program_id := program_id program; pending_intent := intent;
       pending_user_nonce := un; pending_nonce := nonce; expires := now env + SESSION_LIFETIME |})); [done| |done|..].
  - cbn. split; [done|]. by exists program, (nonce_randomness env).
  - cbn. rewrite <- grants_live, lookup_fmap, Hf. done.
  - unfold vacancy. cbn. rewrite <- grants_live, <- grants_held, !map_size_fmap. done.
Qed.

(** a finish, *)
Lemma finish_step self env request reply self' :
  of_origin self -> step self env (Finish request) = (reply, self') ->
  ledger_step (ledger_of self)
    (entry_of {| event_before := self; event_env := env; event_call := Finish request; event_reply := reply |})
    (ledger_of self').
Proof.
  intros Ho. cbn [step]. destruct (finish self env request) as [result s1] eqn:Hf. intros [= <- <-].
  unfold entry_of. cbn [event_env event_call event_reply ask_of].
  destruct (poisoned self) eqn:Hp.
  { unfold finish in Hf. rewrite Hp in Hf. injection Hf as <- <-. by apply step_sealed. }
  assert (ledger_of s1 = close (finish_session request) (ledger_of self)) as ->.
  { unfold finish in Hf. rewrite Hp in Hf. unfold ledger_of, close. cbn.
    destruct (pending self !! _); injection Hf as _ <-; cbn; by rewrite fmap_delete, Hp. }
  destruct result as [response|e|w]; [|by apply step_void..].
  apply finish_ok in Hf as (p & sn & session & derived & keypair & partial & Hl & Ht & Hf).
  apply (step_share _ _ _ _ _ (grant_of p)); [done|cbn; by rewrite lookup_fmap, Hl|done|].
  destruct Ho as (Hroot & _). rewrite Hroot in Hf. by exists sn, session, derived, keypair, partial.
Qed.

(** a cancel. *)
Lemma cancel_step self env request reply self' :
  step self env (Cancel request) = (reply, self') ->
  ledger_step (ledger_of self)
    (entry_of {| event_before := self; event_env := env; event_call := Cancel request; event_reply := reply |})
    (ledger_of self').
Proof.
  cbn [step]. destruct (cancel self request) as [result s1] eqn:Hc. intros [= <- <-].
  unfold entry_of. cbn [event_env event_call event_reply ask_of].
  destruct (poisoned self) eqn:Hp.
  { unfold cancel in Hc. rewrite Hp in Hc. injection Hc as <- <-. by apply step_sealed. }
  unfold cancel in Hc. rewrite Hp in Hc. injection Hc as Hr <-.
  assert (ledger_of (with_pending self (delete (cancel_session request) (pending self)))
    = close (cancel_session request) (ledger_of self)) as ->.
  { unfold ledger_of, close. cbn. by rewrite fmap_delete. }
  destruct result as [[]|e|w]; [|by apply step_void..].
  apply bind_ok in Hr as ([] & _ & Hr). apply ensure_ok, bool_decide_eq_true in Hr as [p Hl].
  apply (step_revoke _ _ _ (grant_of p)); [done|]. cbn. by rewrite lookup_fmap, Hl.
Qed.

(** Every operation of the signer is a step of its ledger. *)
Lemma step_simulates self env call reply self' :
  of_origin self -> step self env call = (reply, self') ->
  ledger_step (ledger_of self)
    (entry_of {| event_before := self; event_env := env; event_call := call; event_reply := reply |})
    (ledger_of self').
Proof. destruct call; [apply prepare_step|apply finish_step|intros _; apply cancel_step]. Qed.

Lemma run_simulates self calls events final :
  of_origin self -> run self calls = (events, final) ->
  ledger_run (ledger_of self) (entry_of <$> events) (ledger_of final) /\ of_origin final.
Proof.
  revert self events; induction calls as [|[env call] calls IH]; intros self events Ho Hr; cbn in Hr.
  { injection Hr as <- <-. split; [constructor|done]. }
  destruct (step self env call) as [reply self1] eqn:Hs. destruct (run self1 calls) as [es f] eqn:Hrun.
  injection Hr as <- <-. destruct (IH self1 es) as [Hl Hf]; [by eapply step_origin|done|].
  split; [|done]. cbn. econstructor; [by apply step_simulates|done].
Qed.

End Abstraction.

Lemma origin_refl self : of_origin self self.
Proof. done. Qed.

Lemma new_ledger root_ self : ArkSigner_new root_ = Ok self -> ledger_of self self = empty_ledger (contract := signer_contract self).
Proof. intros (Hp & Hq & _)%new_empty. unfold ledger_of, empty_ledger. by rewrite Hp, Hq, fmap_empty. Qed.

End SignerContract.

(* ------------------------------------------------------------------ *)
(** ** Properties *)

Section Theorems.
  Context {runtime : WasmRuntime} {outpoint_codec : OutPointCodec} {auth : NativeAuth}.
  Context {sapio : SapioProgram} {prim : KeyPrimitives} {upstream : Upstream} {ark : ArkLib} {requests : ArkRequests}.
  Context {codec : PolicyCodec VtxoPolicy}.

(** C3: the signer refines its contract: the calls and answers of any
    execution of a fresh signer are a trace of the ledger of grants, which ends
    in the abstraction of the signer's own map, so that everything the
    contract promises of a trace holds of the program. *)
Theorem signer_refines_contract root_ self calls events final :
  ArkSigner_new root_ = Ok self -> run self calls = (events, final) ->
  ledger_run (contract := signer_contract self) (empty_ledger (contract := signer_contract self))
    (entry_of self <$> events) (ledger_of self final).
Proof.
  intros Hn Hr. rewrite <- (new_ledger _ _ Hn). by apply (run_simulates self self calls events final (origin_refl self)).
Qed.

End Theorems.
