(* ===== verification/ArkExamples.v ===== *)
(** * ArkExamples: a concrete signer

    A transparent instance of [ArkLib]: nonces are their randomness, a partial
    signature lists what was signed.  On it an ownership request and a vault
    spend are prepared, finished and refused, and the hypotheses of the
    theorems of [ArkSigner] are met. *)

From S2P Require Import Prelude Bytes NativePolicy Bitcoin Program SignedView Guest Vault Evaluator.
From S2P Require Import GuestRuntime EndToEnd Keys Deployment ArkSigner.

Open Scope N_scope.

Module SampleArk.

#[export] Existing Instances StandardOutPoint.codec StandardOutPoint.codec_laws
  SampleProgram.sapio SampleProgram.sapio_laws SampleHost.auth SampleHost.runtime SampleKeys.prim
  SampleUpstream.upstream SampleUpstream.upstream_laws NativePolicy.Sample.codec.

#[export] Instance ark : ArkLib := {|
  ArkSigner.PublicKey := bytes;
  Xpub := Network * bytes;
  Intent := (bytes * bytes) * bytes;
  members i := fst i;
  intent_message i := snd i;
  intent_server _ := None;
  PubNonce := bytes;
  nonce_serialize n := n;
  MemberNonce := bytes;
  member_nonce_from_bytes _ _ bs := Ok bs;
  member_nonce_serialize n := n;
  Nonce := bytes;
  nonce_new _ _ r := if decide (r = []) then Err (Foreign "no randomness") else Ok r;
  nonce_public n := rev n;
  ArkSigner.Session := bytes;
  session_new i ns s := Ok (snd i ++ fst ns ++ snd ns);
  Partial := bytes;
  partial_serialize p := p;
  verify_server _ _ := Ok tt;
  parse_nonce bs := ok_or (hex_decode bs) (Foreign "nonce");
  parse_partial bs := ok_or (hex_decode bs) (Foreign "partial");
  ArkSigner.hex_encode := Bytes.hex_encode;
  Keypair := bytes;
  root_depth _ := 0;
  ArkSigner.MAX_PROGRAM_ROOT_DEPTH := 4;
  xpub_from_priv r := r;
  derive_priv r _ := Ok r;
  to_keypair r := snd r;
  add_xonly_tweak_zero k := Ok k;
  nonce_sign n k s := Ok (n ++ k ++ s);
  derive_public_key p _ := Ok (lit "program");
  VtxoPolicy := bytes;
  SpendRequest := SigningInput * bytes;
  spend_witness s := snd s;
  OwnershipRequest := OwnershipProof bytes;
  ownership_proof p := p;
|}.

#[export] Instance requests : ArkRequests := {|
  action_intent action key :=
    Ok ((user_pubkey key, lit "program"), lit "message");
  spend_signing_input s _ := Ok (fst s);
  ownership_message _ _ := Ok (lit "message");
|}.

Definition sample_root : Xpriv := (Bitcoin, [Byte.x07]).

Definition signer : ArkSigner := {|
  root := sample_root; public_root := sample_root;
  signer_evaluators := [{| evaluator_id := for_wasm_version WASM_HEADER V1; evaluator_version := V1;
                           evaluator_module := WASM_HEADER |}];
  pending := ∅; poisoned := false |}.

Definition key (parameters : bytes) : ProgramKey := {|
  key_root := sample_root; user_pubkey := lit "user"; key_evaluator := wasm_id;
  key_program := SampleHost.module; key_parameters := parameters;
  key_program_id := wasm_id ++ SampleHost.module ++ parameters |}.

Definition request (parameters : bytes) (action : SigningAction) : PrepareRequest := {|
  prepare_protocol := SIGNING_PROTOCOL; prepare_key := key parameters;
  prepare_user_nonce := lit "aabb"; prepare_action := action |}.

Definition vault_parameters_bytes : bytes := le_bytes 8 1000 ++ le_bytes 4 11 ++ lit "destination".

(** A vault spend and an ownership proof. *)
Definition spend : PrepareRequest := request vault_parameters_bytes (Spend (SampleContext.context, [])).
Definition status : PrepareRequest := request [] (Ownership Status).

(** The same proof under an envelope whose policy refuses lightning receives. *)
Definition envelope : bytes :=
  MAGIC ++ le_bytes 4 (len NativePolicy.Sample.document_text) ++ NativePolicy.Sample.document_text.
Definition lightning : PrepareRequest := request envelope (Ownership (LightningReceive [])).

(** 256 distinct ids. *)
Definition ids : list bytes := (fun k => le_bytes 2 (N.of_nat k)) <$> seq 0 256.

Definition env (t : N) : Env := {| now := t; nonce_randomness := lit "secret"; session_ids := ids |}.

Definition session : bytes := le_bytes 2 0.

Definition finish_request : FinishRequest := {|
  finish_protocol := SIGNING_PROTOCOL; finish_session := session;
  finish_server_nonce := None; finish_server_partial := None |}.

Definition calls : list (Env * Call) :=
  [(env 5, Prepare spend); (env 6, Finish finish_request); (env 7, Finish finish_request)].

Lemma ids_nodup : NoDup ids.
Proof. apply (bool_decide_unpack _). vm_compute. exact I. Qed.

(** Thirty-two wallets with eight ownership requests each. *)
Definition wallet_request (u : nat) : PrepareRequest := {|
  prepare_protocol := SIGNING_PROTOCOL;
  prepare_key := {| key_root := sample_root; user_pubkey := le_bytes 1 (N.of_nat u); key_evaluator := wasm_id;
                    key_program := SampleHost.module; key_parameters := [];
                    key_program_id := wasm_id ++ SampleHost.module |};
  prepare_user_nonce := lit "aabb"; prepare_action := Ownership Status |}.

Definition full_calls : list (Env * Call) :=
  concat ((fun u => replicate 8 (env 5, Prepare (wallet_request u))) <$> seq 0 32).

(** A second prepare is given the same id, so the session is consumed twice. *)
Definition reused_calls : list (Env * Call) :=
  [(env 5, Prepare spend); (env 6, Finish finish_request);
   (env 7, Prepare spend); (env 8, Finish finish_request)].

End SampleArk.

Import SampleArk.

Example spend_prepared : is_ok (fst (prepare signer (env 5) spend)) = true.
Proof. vm_compute. reflexivity. Qed.

Example lightning_refused :
  fst (prepare signer (env 5) lightning)
  = Err (Message "native ownership policy does not allow lightning receives").
Proof. vm_compute. reflexivity. Qed.

Example finish_replies :
  (fun e => match event_reply e with Finished r => is_ok r | Prepared r => is_ok r | Cancelled r => is_ok r end)
    <$> fst (run signer calls) = [true; true; false].
Proof. vm_compute. reflexivity. Qed.

Lemma new_signer : ArkSigner_new sample_root = Ok signer.
Proof. reflexivity. Qed.

(* ------------------------------------------------------------------ *)
(** ** Witnesses *)

Lemma sessions_bounded_witness :
  ArkSigner_new sample_root = Ok signer /\ bounded (pending (snd (run signer calls))).
Proof. split; [exact new_signer|]. exact (proj2 (sessions_bounded sample_root signer calls new_signer)). Defined.

Lemma nonce_used_once_witness :
  ArkSigner_new sample_root = Ok signer /\
  concat (consumed <$> fst (run signer calls)) ++ map_to_list (pending (snd (run signer calls)))
  ⊆+ concat (issued <$> fst (run signer calls)).
Proof. split; [exact new_signer|]. exact (nonce_used_once sample_root signer calls new_signer). Defined.

Lemma pool_exhaustion_cost_witness :
  N.of_nat (size (pending (snd (run signer full_calls)))) = MAX_PENDING_SESSIONS /\
  (32 <= length (wallets (pending (snd (run signer full_calls)))))%nat.
Proof.
  assert (N.of_nat (size (pending (snd (run signer full_calls)))) = MAX_PENDING_SESSIONS) as H
    by (vm_compute; reflexivity).
  split; [exact H|]. exact (pool_exhaustion_cost sample_root signer full_calls new_signer H).
Defined.

Lemma partial_authorized_witness : exists pre e post final response,
  run signer calls = (pre ++ e :: post, final) /\ event_reply e = Finished (Ok response) /\
  exists e0, e0 ∈ pre /\ now (event_env e) < now (event_env e0) + SESSION_LIFETIME.
Proof.
  pose proof (run_calls signer calls) as Hcalls.
  assert (match fst (run signer calls) with
          | [_; e; _] => match event_reply e with Finished r => is_ok r | _ => false end
          | _ => false end = true) as Hok by (vm_compute; reflexivity).
  destruct (run signer calls) as [events final] eqn:Hrun. cbn [fst] in Hok, Hcalls.
  destruct events as [|e1 [|e [|e3 [|? ?]]]]; try discriminate Hok.
  destruct (event_reply e) as [|[response| |]|] eqn:Hr; try discriminate Hok.
  assert (event_call e = Finish finish_request) as Hc by (injection Hcalls as _ Hc _; exact Hc).
  set (post := [e3]) in *.
  exists [e1], e, post, final, response. split; [reflexivity|]. split; [exact Hr|].
  destruct (partial_authorized _ signer calls [e1] e post final finish_request response new_signer Hrun Hc Hr)
    as (e0 & _ & _ & _ & _ & _ & _ & H0 & _ & _ & _ & _ & _ & _ & Ht & _).
  exists e0. split; [exact H0|exact Ht].
Defined.

Lemma prepare_live_witness : exists response self',
  prepare signer (env 5) status = (Ok response, self') /\
  live 5 (pending signer) !! response_session response = None.
Proof.
  destruct (prepare_live signer (env 5) status
    {| evaluator := wasm_id; program := SampleHost.module; parameters := [] |}
    ((lit "user", lit "program"), lit "message") [Byte.xaa; Byte.xbb] (lit "secret"))
    as (response & self' & H & Hl & _);
    [reflexivity | vm_compute; reflexivity | vm_compute; reflexivity | vm_compute; reflexivity
    | reflexivity | exact ids_nodup | vm_compute; congruence | ].
  exists response, self'. split; [exact H|exact Hl].
Defined.

Lemma prepare_keeps_live_sessions_witness : exists p,
  pending (snd (prepare signer (env 5) status)) !! session = Some p /\
  pending (snd (prepare (snd (prepare signer (env 5) status)) (env 6) lightning)) !! session = Some p.
Proof.
  assert (match pending (snd (prepare signer (env 5) status)) !! session with
          | Some p => 6 <? expires p | None => false end = true) as Hs by (vm_compute; reflexivity).
  destruct (pending (snd (prepare signer (env 5) status)) !! session) as [p|] eqn:Hp; [|discriminate Hs].
  exists p. split; [reflexivity|]. apply N.ltb_lt in Hs.
  destruct (prepare (snd (prepare signer (env 5) status)) (env 6) lightning) as [result self'] eqn:Hr.
  exact (proj1 (prepare_keeps_live_sessions _ _ _ _ _ session p Hr) Hp Hs).
Defined.

Lemma consumed_once_witness : exists e1 e2 (mid : list Event) e,
  succeeded (event_reply e1) = true /\ succeeded (event_reply e2) = true /\ e ∈ mid /\
  exists response, event_reply e = Prepared (Ok response) /\ response_session response = session.
Proof.
  pose proof (run_calls signer reused_calls) as Hcalls.
  assert (map (fun e => succeeded (event_reply e)) (fst (run signer reused_calls)) = [true; true; true; true])
    as H by (vm_compute; reflexivity).
  destruct (run signer reused_calls) as [events final] eqn:Hrun. cbn [fst] in H, Hcalls.
  destruct events as [|e0 [|e1 [|e [|e2 [|? ?]]]]]; try discriminate H.
  injection H as _ S1 _ S2.
  assert (event_call e1 = Finish finish_request) as C1 by (injection Hcalls as _ C _ _; exact C).
  assert (event_call e2 = Finish finish_request) as C2 by (injection Hcalls as _ _ _ C; exact C).
  apply (f_equal consumes) in C1, C2. exists e1, e2, [e].
  destruct (consumed_once signer reused_calls [e0] e1 [e] e2 [] final session Hrun C1 C2 S2)
    as (e' & response & He & Hr & Hs).
  exists e'. split; [exact S1|]. split; [exact S2|]. split; [exact He|]. exists response. exact (conj Hr Hs).
Defined.
