(* ===== verification/Scenario.v ===== *)
(** * Scenario: test programs over one signer (src/ark_signer.rs, mod tests)

    A unit test of the signer is a program in the state monad [Test]: it holds
    the signer and draws what the operating system supplies (the clock, the
    entropy of the signer, of the wallet and of the Ark server) from a [World],
    one moment per tick.  A failed assertion, [unwrap] or [expect] is a panic.
    [wp] is the postcondition of a test; [concurrently] runs the threads of
    [thread::scope] in the order in which they take the lock of the signer. *)

From S2P Require Import Prelude Bytes NativePolicy Program Evaluator Keys Deployment ArkSigner.

Open Scope N_scope.

(** One moment of the environment. *)
Record Moment := {
  signer_env : Env;
  wallet_randomness : bytes;
  server_randomness : bytes;
}.

Definition World := nat -> Moment.

Section Scenario.
  Context {runtime : Evaluator.WasmRuntime} {outpoint_codec : Bitcoin.OutPointCodec} {auth : NativeAuth}.
  Context {sapio : SapioProgram} {prim : KeyPrimitives} {upstream : Upstream} {ark : ArkLib} {requests : ArkRequests}.
  Context {codec : PolicyCodec VtxoPolicy}.

Record TestState := { test_signer : ArkSigner; tick : nat }.

Definition Test (A : Type) : Type := TestState -> Result Error A * TestState.

#[export] Instance Test_ret : MRet Test := fun A a st => (Ok a, st).

#[export] Instance Test_bind : MBind Test := fun A B f m st =>
  match m st with
  | (Ok a, st) => f a st
  | (Err e, st) => (Err e, st)
  | (Panic w, st) => (Panic w, st)
  end.

(** A computation that leaves the signer alone; an [Err] leaves the test by [?]. *)
Definition lift {A} (r : Result Error A) : Test A := fun st => (r, st).

(** [r.unwrap()]. *)
Definition unwrap {A} (r : Result Error A) : Test A := lift (unwrap_ok r "called `Result::unwrap()` on an `Err` value").

(** [assert!(b)]. *)
Definition assert_that (b : bool) : Test unit := lift (if b then Ok tt else Panic "assertion failed").

(** [result.is_err()]; a panic never returns a result to test. *)
Definition is_err {A} (r : Result Error A) : bool := negb (is_ok r).

(** [error.to_string().contains(text)] on the outermost message; the texts the
    tests look for are this crate's own, never upstream's. *)
Definition error_contains {A} (r : Result Error A) (text : string) : bool :=
  match r with
  | Err (Message m) | Err (Context m _) | Err (Foreign m) => bool_decide (is_Some (String.index 0 text m))
  | _ => false
  end.

(** [error.downcast_ref::<ProgramError>()], which sees through contexts. *)
Fixpoint downcast_program (e : Error) : option ProgramError :=
  match e with
  | Program e => Some e
  | Context _ e => downcast_program e
  | _ => None
  end.

Section Operations.
  Variable world : World.

Definition draw : Test Moment := fun st =>
  (Ok (world (tick st)), {| test_signer := test_signer st; tick := S (tick st) |}).

(** A call returns its result to the test; a panic in it unwinds the test. *)
Definition call {A} (f : ArkSigner -> Result Error A * ArkSigner) : Test (Result Error A) := fun st =>
  let '(r, self) := f (test_signer st) in
  (match r with Panic w => Panic w | _ => Ok r end, {| test_signer := self; tick := tick st |}).

Definition signer_prepare (request : PrepareRequest) : Test (Result Error PrepareResponse) :=
  m ← draw; call (fun self => prepare self (signer_env m) request).

Definition signer_finish (request : FinishRequest) : Test (Result Error FinishResponse) :=
  m ← draw; call (fun self => finish self (signer_env m) request).

Definition signer_cancel (request : CancelRequest) : Test (Result Error unit) :=
  call (fun self => cancel self request).

(** [let signer = self;] and a reading of its fields. *)
Definition use_signer (self : ArkSigner) : Test unit := fun st =>
  (Ok tt, {| test_signer := self; tick := tick st |}).

Definition the_signer : Test ArkSigner := fun st => (Ok (test_signer st), st).

(** [signer.pending.lock().unwrap()], read. *)
Definition signer_pending : Test (gmap bytes Pending) := fun st =>
  (if poisoned (test_signer st) then Panic "PoisonError" else Ok (pending (test_signer st)), st).

(** [get_mut(&session).unwrap().expires = Instant::now() - Duration::from_secs(1)]. *)
Definition expire (session : bytes) : Test unit :=
  p ← signer_pending;
  e ← lift (expect (p !! session) "called `Option::unwrap()` on a `None` value");
  m ← draw;
  let t := now (signer_env m) in
  if t <? 1000000000 then lift (Panic "overflow when subtracting duration from instant") else
  self ← the_signer;
  use_signer (with_pending self (<[session :=
    {| pending_program_id := pending_program_id e; pending_intent := pending_intent e;
       pending_user_nonce := pending_user_nonce e; pending_nonce := pending_nonce e;
       expires := t - 1000000000 |}]> p)).

(* ------------------------------------------------------------------ *)
(** ** Threads *)

(** The threads in [schedule] make their calls in that order. *)
Fixpoint run_threads {A} (threads : list (Test A)) (schedule : list nat) : Test (list (nat * A)) :=
  match schedule with
  | [] => mret []
  | k :: schedule =>
      thread ← lift (expect (threads !! k) "no such thread");
      a ← thread;
      rest ← run_threads threads schedule;
      mret ((k, a) :: rest)
  end.

(** Join the handle of thread [k]. *)
Definition join {A} (results : list (nat * A)) (k : nat) : Result Error A :=
  expect (snd <$> list_find (fun r => fst r = k) results ≫= fun r => Some (snd r)) "join".

(** [thread::scope]: spawn the threads, which the scheduler serializes at the
    lock by [schedule], and join them in spawn order. *)
Definition concurrently {A} (schedule : list nat) (threads : list (Test A)) : Test (list A) :=
  results ← run_threads threads schedule;
  lift (try_map (join results) (seq 0 (length threads))).

End Operations.

(** Every thread is scheduled once. *)
Definition schedules (n : nat) (schedule : list nat) : Prop := schedule ≡ₚ seq 0 n.

(* ------------------------------------------------------------------ *)
(** ** Postconditions *)

Definition wp {A} (m : Test A) (Q : A -> TestState -> Prop) (st : TestState) : Prop :=
  match m st with
  | (Ok a, st) => Q a st
  | _ => False
  end.

(** The signer [self] with the reservations [p], at tick [t]. *)
Definition at_ (self : ArkSigner) (p : gmap bytes Pending) (t : nat) : TestState :=
  {| test_signer := with_pending self p; tick := t |}.

Lemma wp_ret {A} (a : A) Q st : Q a st -> wp (mret a) Q st.
Proof. done. Qed.

Lemma wp_bind {A B} (m : Test A) (f : A -> Test B) Q st :
  wp m (fun a => wp (f a) Q) st -> wp (m ≫= f) Q st.
Proof. unfold wp, mbind, Test_bind. by destruct (m st) as [[a|e|w] st']. Qed.

Lemma wp_mono {A} (m : Test A) (P Q : A -> TestState -> Prop) st :
  wp m P st -> (forall a st', P a st' -> Q a st') -> wp m Q st.
Proof. unfold wp. destruct (m st) as [[a|e|w] st']; auto. Qed.

Lemma wp_lift {A} (r : Result Error A) a Q st : r = Ok a -> Q a st -> wp (lift r) Q st.
Proof. by intros ->. Qed.

Lemma wp_unwrap {A} (r : Result Error A) a Q st : r = Ok a -> Q a st -> wp (unwrap r) Q st.
Proof. by intros ->. Qed.

Lemma wp_assert b Q st : b = true -> Q tt st -> wp (assert_that b) Q st.
Proof. by intros ->. Qed.

Lemma wp_draw world Q self p t : Q (world t) (at_ self p (S t)) -> wp (draw world) Q (at_ self p t).
Proof. done. Qed.

Lemma wp_call {A} (f : ArkSigner -> Result Error A * ArkSigner) r self' Q st :
  f (test_signer st) = (r, self') -> is_panic r = false ->
  Q r {| test_signer := self'; tick := tick st |} -> wp (call f) Q st.
Proof. intros H Hp. unfold wp, call. rewrite H. by destruct r. Qed.

Lemma wp_pending Q self p t :
  poisoned self = false -> Q p (at_ self p t) -> wp signer_pending Q (at_ self p t).
Proof. intros H. unfold wp, signer_pending, at_. cbn. by rewrite H. Qed.

Lemma wp_read Q st : Q (test_signer st) st -> wp the_signer Q st.
Proof. done. Qed.

(** A loop keeps its invariant. *)
Lemma wp_mapM {A B} (f : A -> Test B) (I : list A -> list B -> TestState -> Prop) l done_ st :
  I l done_ st ->
  (forall x l acc st, I (x :: l) acc st -> wp (f x) (fun y st' => I l (acc ++ [y]) st') st) ->
  wp (mapM f l) (fun ys st' => I [] (done_ ++ ys) st') st.
Proof.
  revert done_ st; induction l as [|x l IH]; intros acc st HI Hf; cbn.
  - apply wp_ret. by rewrite app_nil_r.
  - apply wp_bind. eapply wp_mono; [exact (Hf _ _ _ _ HI)|]. intros y st' HI'. cbn.
    apply wp_bind. eapply wp_mono; [exact (IH _ _ HI' Hf)|]. intros ys st'' HI''. cbn.
    apply wp_ret. cbn beta in HI''. by rewrite <- app_assoc in HI''.
Qed.

End Scenario.

Arguments TestState {sapio prim upstream ark}.
