(* ===== verification/SigningProtocol.v ===== *)
(** * SigningProtocol: the wallet's side of a session (src/ark_signer.rs, mod tests)

    A wallet fixes its nonce, asks the signer to [prepare], builds the nested
    MuSig session with the Ark server's nonce, sends [finish], checks the
    program's partial signature, signs last and aggregates.  [Fixture] and
    [PreparedSession] are the structs of the tests that play this role; the
    MuSig operations they call are the interface [NestedMusig] and its
    documented behaviour is [NestedMusigLaws].  The lemmas state what one honest
    prepare, finish and completion do to a signer, and the theorem composes
    them: the signing protocol completes. *)

From S2P Require Import Prelude Bytes NativePolicy Bitcoin Program Evaluator Keys Deployment ArkSigner Scenario.

Open Scope N_scope.

(** ark::musig, ark::sapio and rust-bitcoin, as the wallet uses them. *)
Class NestedMusig {sapio : SapioProgram} {prim : KeyPrimitives} {upstream : Upstream} {ark : ArkLib} := {
  Signature : Type;
  signature_eq_dec :: EqDecision Signature;
  SecretNonce : Type;
  AggregateNonce : Type;
  keypair_from_secret : bytes -> Result Error Keypair;
  keypair_public : Keypair -> PublicKey;
  program_pubkey : ProgramKey -> Result Error PublicKey;
  group_pubkey : ProgramKey -> Result Error PublicKey;
  spend_from_input : SigningInput -> option PublicKey -> bytes -> Result Error SpendRequest;
  nonce_pair_with_msg : Keypair -> bytes -> bytes -> SecretNonce * PubNonce;
  session_intent : Session -> Intent;
  intent_tweak : Intent -> option bytes;
  aggregate_nonce : Session -> AggregateNonce;
  partial_sign : list bytes -> AggregateNonce -> Keypair -> SecretNonce -> bytes -> option bytes -> Partial;
  verify_member : Session -> N -> Partial -> Result Error unit;
  aggregate : Session -> Partial * Partial -> option Partial -> Result Error Signature;
  combine_members : Session -> Partial * Partial -> Result Error Partial;
  combine_partial_signatures :
    list bytes -> AggregateNonce -> bytes -> option bytes -> Partial * Partial -> Signature;
  verify_signature : SigningInput -> Signature -> Result Error unit;
  taproot_script_spend_sighash : Transaction -> N -> list TxOut -> bytes -> Result Error bytes;
  taproot_key_spend_sighash : Transaction -> N -> list TxOut -> Result Error bytes;
  x_only : PublicKey -> bytes;
  xonly_from_slice : bytes -> Result Error bytes;
  verify_schnorr : Signature -> bytes -> bytes -> Result Error unit;
  outer_participants : Intent -> list bytes;
  signing_key : Intent -> bytes;
}.

(** Member [k] of an intent: the wallet, then the program. *)
Definition member `{ark : ArkLib} (intent : Intent) (k : N) : ArkSigner.PublicKey :=
  if k =? 0 then fst (members intent) else snd (members intent).

Definition member_nonce {A} (ns : A * A) (k : N) : A := if k =? 0 then fst ns else snd ns.

(** Documented: nonces and partial signatures survive their encodings; a
    session keeps its intent and needs the nonce of an intent's server; a share
    made with a member's own nonce and key verifies, and so does the server's;
    verified shares aggregate to a Schnorr signature of the intent's message,
    which the native combination of the group's and the server's share equals;
    and BIP32 derivation commutes with taking public keys. *)
Class NestedMusigLaws {sapio : SapioProgram} {prim : KeyPrimitives} {upstream : Upstream} {ark : ArkLib}
    {musig : NestedMusig} : Prop := {
  nonce_wire n : parse_nonce (hex_encode (nonce_serialize n)) = Ok n;
  partial_wire p : parse_partial (hex_encode (partial_serialize p)) = Ok p;
  member_nonce_wire intent pk r n :
    nonce_new intent pk r = Ok n ->
    exists public, parse_nonce (hex_encode (member_nonce_serialize (nonce_public n))) = Ok public /\
      member_nonce_from_bytes intent pk (nonce_serialize public) = Ok (nonce_public n);
  session_new_intent i ns s session : session_new i ns s = Ok session -> session_intent session = i;
  session_needs_server i ns k : intent_server i = Some k -> exists e, session_new i ns None = Err e;
  member_signs i ns s session k r n kp :
    session_new i ns s = Ok session -> k < 2 ->
    nonce_new i (member i k) r = Ok n -> nonce_public n = member_nonce ns k -> keypair_public kp = member i k ->
    exists p, nonce_sign n kp session = Ok p /\ verify_member session k p = Ok tt;
  server_signs i ns s session kp r :
    session_new i ns (Some s) = Ok session -> intent_server i = Some (keypair_public kp) ->
    snd (nonce_pair_with_msg kp (intent_message i) r) = s ->
    verify_server session (partial_sign (outer_participants i) (aggregate_nonce session) kp
      (fst (nonce_pair_with_msg kp (intent_message i) r)) (intent_message i) (intent_tweak i)) = Ok tt;
  aggregate_completes i ns s session p0 p1 share :
    session_new i ns s = Ok session ->
    verify_member session 0 p0 = Ok tt -> verify_member session 1 p1 = Ok tt ->
    is_Some share <-> is_Some (intent_server i) -> (forall sh, share = Some sh -> verify_server session sh = Ok tt) ->
    exists signature, aggregate session (p0, p1) share = Ok signature /\
      verify_schnorr signature (intent_message i) (signing_key i) = Ok tt /\
      forall sh, share = Some sh -> exists group, combine_members session (p0, p1) = Ok group /\
        combine_partial_signatures (outer_participants i) (aggregate_nonce session) (intent_message i)
          (intent_tweak i) (group, sh) = signature;
  derivation_agrees p root_ pk :
    derive_public_key p (xpub_from_priv root_) = Ok pk ->
    exists priv kp, derive_priv root_ (program_id p) = Ok priv /\
      add_xonly_tweak_zero (to_keypair priv) = Ok kp /\ keypair_public kp = pk;
}.

(** The wallet whose program a test signs for. *)
Record Fixture {sapio : SapioProgram} {prim : KeyPrimitives} {upstream : Upstream} {ark : ArkLib} := {
  fixture_key : ProgramKey;
  fixture_input : SigningInput;
  fixture_server : option Keypair;
  fixture_witness : bytes;
}.

(** What the wallet keeps between prepare and finish. *)
Record PreparedSession {sapio : SapioProgram} {prim : KeyPrimitives} {upstream : Upstream} {ark : ArkLib} := {
  user_nonce : Nonce;
  prepared_session : Session;
  server_partial : option Partial;
  prepared_finish : FinishRequest;
}.

Section Wallet.
  Context {runtime : WasmRuntime} {outpoint_codec : OutPointCodec} {auth : NativeAuth}.
  Context {sapio : SapioProgram} {prim : KeyPrimitives} {upstream : Upstream} {ark : ArkLib} {requests : ArkRequests}.
  Context {codec : PolicyCodec VtxoPolicy} {musig : NestedMusig}.
  Variable world : World.

(** [key(byte)]. *)
Definition key (b : byte) : Result Error Keypair :=
  unwrap_ok (keypair_from_secret (replicate 32 b)) "SecretKey::from_slice".

(** [Fixture::action]. *)
Definition Fixture_action (self : Fixture) : Result Error SigningAction :=
  request ← unwrap_ok (spend_from_input (fixture_input self) (keypair_public <$> fixture_server self)
                         (fixture_witness self)) "SpendRequest::from_input";
  Ok (Spend request).

(** [Fixture::request]. *)
Definition Fixture_request (self : Fixture) : Test (PrepareRequest * Nonce) :=
  action ← lift (Fixture_action self);
  intent ← unwrap (action_intent action (fixture_key self));
  m ← draw world;
  nonce ← unwrap (nonce_new intent (user_pubkey (fixture_key self)) (wallet_randomness m));
  mret ({| prepare_protocol := SIGNING_PROTOCOL;
           prepare_key := fixture_key self;
           prepare_user_nonce := hex_encode (member_nonce_serialize (nonce_public nonce));
           prepare_action := action |}, nonce).

(** The server's share of a session, checked as the wallet receives it. *)
Definition server_share (self : Fixture) (intent : Intent) (session : Session)
    (secret : option SecretNonce) : Result Error (option Partial) :=
  match secret with
  | None => Ok None
  | Some secret =>
      server ← expect (fixture_server self) "called `Option::unwrap()` on a `None` value";
      let partial := partial_sign (participants (fixture_input self)) (aggregate_nonce session) server secret
                       (intent_message intent) (intent_tweak intent) in
      _ ← unwrap_ok (verify_server session partial) "verify_server";
      Ok (Some partial)
  end.

(** [Fixture::prepare]. *)
Definition Fixture_prepare (self : Fixture) : Test PreparedSession :=
  '(request, user_nonce) ← Fixture_request self;
  intent ← unwrap (action_intent (prepare_action request) (prepare_key request));
  response ← signer_prepare world request;
  response ← unwrap response;
  assert_that (bool_decide (response_protocol response = SIGNING_PROTOCOL));;
  program ← unwrap (program_pubkey (fixture_key self));
  public ← unwrap (parse_nonce (response_program_nonce response));
  program_nonce ← unwrap (member_nonce_from_bytes intent program (nonce_serialize public));
  m ← draw world;
  let server := (fun key => nonce_pair_with_msg key (intent_message intent) (server_randomness m))
                  <$> fixture_server self in
  session ← unwrap (session_new intent (nonce_public user_nonce, program_nonce) (snd <$> server));
  share ← lift (server_share self intent session (fst <$> server));
  mret {| user_nonce := user_nonce; prepared_session := session; server_partial := share;
          prepared_finish := {|
            finish_protocol := SIGNING_PROTOCOL;
            finish_session := response_session response;
            finish_server_nonce := (fun nonce => hex_encode (nonce_serialize nonce)) <$> (snd <$> server);
            finish_server_partial := (fun share => hex_encode (partial_serialize share)) <$> share |} |}.

(** The hash and the key [Fixture::verify] computes without the Ark library. *)
Definition signature_hash (self : Fixture) : Result Error bytes :=
  let input := fixture_input self in
  prevouts ← try_map (fun m => expect (witness_utxo m) "called `Option::unwrap()` on a `None` value")
               (psbt_inputs (psbt input));
  let tx := unsigned_tx (psbt input) in
  match script_leaf input with
  | Some leaf => unwrap_ok (taproot_script_spend_sighash tx (input_index input) prevouts leaf) "sighash"
  | None => unwrap_ok (taproot_key_spend_sighash tx (input_index input) prevouts) "sighash"
  end.

Definition verification_key (self : Fixture) : Result Error bytes :=
  let input := fixture_input self in
  prevouts ← try_map (fun m => expect (witness_utxo m) "called `Option::unwrap()` on a `None` value")
               (psbt_inputs (psbt input));
  if bool_decide (is_Some (script_leaf input)) then
    x_only <$> unwrap_ok (group_pubkey (fixture_key self)) "public_key"
  else
    prevout ← expect (prevouts !! N.to_nat (input_index input)) "index out of bounds";
    if len (script_pubkey prevout) <? 2 then Panic "range start index 2 out of range" else
    unwrap_ok (xonly_from_slice (drop 2 (script_pubkey prevout))) "from_slice".

(** [Fixture::verify]. *)
Definition Fixture_verify (self : Fixture) (signature : Signature) : Result Error unit :=
  _ ← unwrap_ok (verify_signature (fixture_input self) signature) "verify_signature";
  hash ← signature_hash self;
  verification_key ← verification_key self;
  _ ← unwrap_ok (verify_schnorr signature hash verification_key) "verify_schnorr";
  expected ← unwrap_ok (sighash (fixture_input self)) "sighash";
  if bool_decide (hash = expected) then Ok tt else Panic "assertion failed".

(** [Prepared::complete]. *)
Definition complete (self : PreparedSession) (fixture : Fixture) (response : FinishResponse)
    : Result Error Signature :=
  if negb (bool_decide (finished_protocol response = SIGNING_PROTOCOL)) then Panic "assertion failed" else
  program_partial ← unwrap_ok (parse_partial (program_partial response)) "parse_partial";
  let session := prepared_session self in
  _ ← unwrap_ok (verify_member session 1 program_partial) "verify_member";
  user ← key Byte.x42;
  user_partial ← unwrap_ok (nonce_sign (user_nonce self) user session) "sign";
  let members := (user_partial, program_partial) in
  signature ← unwrap_ok (aggregate session members (server_partial self)) "aggregate";
  _ ← match server_partial self with
      | Some server =>
          group ← unwrap_ok (combine_members session members) "combine_members";
          let native := combine_partial_signatures (participants (fixture_input fixture)) (aggregate_nonce session)
                          (intent_message (session_intent session)) (intent_tweak (session_intent session))
                          (group, server) in
          if bool_decide (native = signature) then Ok tt else Panic "assertion failed"
      | None => Ok tt
      end;
  _ ← Fixture_verify fixture signature;
  Ok signature.

(** [Fixture::sign]. *)
Definition Fixture_sign (self : Fixture) : Test Signature :=
  prepared ← Fixture_prepare self;
  response ← signer_finish world (prepared_finish prepared);
  response ← unwrap response;
  again ← signer_finish world (prepared_finish prepared);
  assert_that (is_err again);;
  lift (complete prepared self response).

(** [refused]. *)
Definition refused (request : PrepareRequest) : Test Error :=
  before ← signer_pending;
  result ← signer_prepare world request;
  error ← lift (match result with
                | Ok _ => Panic "unauthorized request exposed a program nonce"
                | Err e => Ok e
                | Panic w => Panic w
                end);
  after ← signer_pending;
  assert_that (bool_decide (size after = size before));;
  mret error.

(** [predicate_refused]. *)
Definition predicate_refused (fixture : Fixture) : Test unit :=
  '(request, _) ← Fixture_request fixture;
  error ← refused request;
  assert_that (match downcast_program error with Some Rejected => true | _ => false end).

(** [invalid_evaluation]. *)
Definition invalid_evaluation (fixture : Fixture) : Test unit :=
  '(request, _) ← Fixture_request fixture;
  error ← refused request;
  assert_that (match downcast_program error with Some (Evaluation _) => true | _ => false end).

End Wallet.

(* ------------------------------------------------------------------ *)
(** ** Specification *)

Section Specification.
  Context {runtime : WasmRuntime} {outpoint_codec : OutPointCodec} {auth : NativeAuth}.
  Context {sapio : SapioProgram} {prim : KeyPrimitives} {upstream : Upstream} {ark : ArkLib} {requests : ArkRequests}.
  Context {codec : PolicyCodec VtxoPolicy} {musig : NestedMusig}.

Definition clock (world : World) (t : nat) : N := now (signer_env (world t)).

(** A world that keeps working: every moment supplies enough new session ids
    and usable randomness, no honest nonces cancel out, and the clock starts
    after its first second, never goes back, and stays within one session
    lifetime. *)
Record healthy (world : World) : Prop := {
  ids_enough t : NoDup (session_ids (signer_env (world t))) /\
    MAX_PENDING_SESSIONS <= len (session_ids (signer_env (world t)));
  ids_new t u id : t <> u -> id ∈ session_ids (signer_env (world t)) -> id ∉ session_ids (signer_env (world u));
  clock_started t : 1000000000 <= clock world t;
  clock_monotone t u : (t <= u)%nat -> clock world t <= clock world u;
  clock_in_time t u : clock world u < clock world t + SESSION_LIFETIME;
  wallet_entropy t intent :
    exists n, nonce_new intent (fst (members intent)) (wallet_randomness (world t)) = Ok n;
  signer_entropy t intent :
    exists n, nonce_new intent (snd (members intent)) (nonce_randomness (signer_env (world t))) = Ok n;
  nonces_aggregate t u v intent user program server :
    nonce_new intent (fst (members intent)) (wallet_randomness (world t)) = Ok user ->
    nonce_new intent (snd (members intent)) (nonce_randomness (signer_env (world u))) = Ok program ->
    intent_server intent = keypair_public <$> server ->
    exists session, session_new intent (nonce_public user, nonce_public program)
      (snd <$> ((fun kp => nonce_pair_with_msg kp (intent_message intent) (server_randomness (world v))) <$> server))
      = Ok session;
}.

(** A fixture whose native context is the one its intent describes. *)
Record authentic (f : Fixture) (action : SigningAction) (intent : Intent) : Prop := {
  authentic_action : Fixture_action f = Ok action;
  authentic_intent : action_intent action (fixture_key f) = Ok intent;
  authentic_user : user_pubkey (fixture_key f) = fst (members intent);
  authentic_keypair : exists kp, key Byte.x42 = Ok kp /\ keypair_public kp = fst (members intent);
  authentic_program : program_pubkey (fixture_key f) = Ok (snd (members intent));
  authentic_server : intent_server intent = keypair_public <$> fixture_server f;
  authentic_participants : participants (fixture_input f) = outer_participants intent;
  authentic_sighash : sighash (fixture_input f) = Ok (intent_message intent);
  authentic_hash : signature_hash f = Ok (intent_message intent);
  authentic_verification_key : verification_key f = Ok (signing_key intent);
  authentic_verify s : verify_schnorr s (intent_message intent) (signing_key intent) = Ok tt ->
    verify_signature (fixture_input f) s = Ok tt;
}.

(** The reservation and the wallet state that a [Fixture::prepare] started at
    tick [t] leads to: the wallet draws its nonce there, the signer at the next
    tick. *)
Record honest (world : World) (intent : Intent) (program : ProgramInstance)
    (t : nat) (p : PreparedSession) (e : Pending) : Prop := {
  honest_program_id : pending_program_id e = program_id program;
  honest_intent : pending_intent e = intent;
  honest_expires : expires e = clock world (S t) + SESSION_LIFETIME;
  honest_user : pending_user_nonce e = nonce_public (user_nonce p) /\
    nonce_new intent (fst (members intent)) (wallet_randomness (world t)) = Ok (user_nonce p);
  honest_program :
    nonce_new intent (snd (members intent)) (nonce_randomness (signer_env (world (S t)))) = Ok (pending_nonce e);
  honest_protocol : finish_protocol (prepared_finish p) = SIGNING_PROTOCOL;
  honest_id : finish_session (prepared_finish p) ∈ session_ids (signer_env (world (S t)));
  honest_server : exists s, transpose (parse_nonce <$> finish_server_nonce (prepared_finish p)) = Ok s /\
    session_new intent (pending_user_nonce e, nonce_public (pending_nonce e)) s = Ok (prepared_session p);
  honest_share : transpose (parse_partial <$> finish_server_partial (prepared_finish p)) = Ok (server_partial p);
  honest_share_server : is_Some (server_partial p) <-> is_Some (intent_server intent);
  honest_share_verifies sh : server_partial p = Some sh -> verify_server (prepared_session p) sh = Ok tt;
}.

(** The reservations no moment of the world finds expired. *)
Definition fresh (world : World) (p : gmap bytes Pending) : Prop :=
  map_Forall (fun _ e => forall t, clock world t < expires e) p.

(** There is room for one more session of [user]. *)
Definition room (user : ArkSigner.PublicKey) (p : gmap bytes Pending) : Prop :=
  N.of_nat (size p) < MAX_PENDING_SESSIONS /\ N.of_nat (size (held_by user p)) < MAX_SESSIONS_PER_USER.

(** The request of a wallet with this nonce. *)
Definition honest_request (f : Fixture) (action : SigningAction) (n : Nonce) : PrepareRequest := {|
  prepare_protocol := SIGNING_PROTOCOL; prepare_key := fixture_key f;
  prepare_user_nonce := hex_encode (member_nonce_serialize (nonce_public n)); prepare_action := action |}.

(* ------------------------------------------------------------------ *)
(** ** Lemmas *)

Context {musig_laws : NestedMusigLaws}.

Lemma live_fresh world p t : fresh world p -> live (clock world t) p = p.
Proof. intros H. apply map_filter_id. intros i e Hi. exact (H i e Hi t). Qed.

Lemma fresh_insert world p s e :
  fresh world p -> (forall t, clock world t < expires e) -> fresh world (<[s := e]> p).
Proof. intros Hp He. by apply map_Forall_insert_2. Qed.

Lemma fresh_delete world p s : fresh world p -> fresh world (delete s p).
Proof. apply map_Forall_delete. Qed.

Lemma fresh_empty world : fresh world ∅.
Proof. apply map_Forall_empty. Qed.

Lemma honest_fresh world intent program t p e :
  healthy world -> honest world intent program t p e -> forall u, clock world u < expires e.
Proof. intros H Hp u. rewrite (honest_expires _ _ _ _ _ _ Hp). by apply clock_in_time. Qed.

Lemma admissible_at self p key_ action program intent :
  admissible self key_ action program intent -> admissible (with_pending self p) key_ action program intent.
Proof. by intros [[]]. Qed.

Lemma wp_request world f action intent self p t (Q : PrepareRequest * Nonce -> TestState -> Prop) :
  healthy world -> authentic f action intent ->
  (forall n, nonce_new intent (fst (members intent)) (wallet_randomness (world t)) = Ok n ->
     Q (honest_request f action n, n) (at_ self p (S t))) ->
  wp (Fixture_request world f) Q (at_ self p t).
Proof.
  intros Hw Hf HQ. unfold Fixture_request.
  apply wp_bind. eapply wp_lift; [apply (authentic_action _ _ _ Hf)|].
  apply wp_bind. eapply wp_unwrap; [by rewrite (authentic_intent _ _ _ Hf)|].
  apply wp_bind, wp_draw. apply wp_bind.
  destruct (wallet_entropy world Hw t intent) as [n Hn].
  eapply wp_unwrap; [by rewrite (authentic_user _ _ _ Hf), Hn|]. by apply wp_ret, HQ.
Qed.

(** An admitted request of an honest wallet reserves a session. *)
Lemma wp_signer_prepare world f action program intent self p n r t
    (Q : Result Error PrepareResponse -> TestState -> Prop) :
  healthy world -> authentic f action intent -> poisoned self = false ->
  admissible self (fixture_key f) action program intent ->
  room (fst (members intent)) (live (clock world t) p) ->
  nonce_new intent (fst (members intent)) r = Ok n ->
  (forall session nonce,
     live (clock world t) p !! session = None -> session ∈ session_ids (signer_env (world t)) ->
     nonce_new intent (snd (members intent)) (nonce_randomness (signer_env (world t))) = Ok nonce ->
     Q (Ok {| response_protocol := SIGNING_PROTOCOL; response_session := session;
              response_program_nonce := hex_encode (member_nonce_serialize (nonce_public nonce)) |})
       (at_ self (<[session :=
          {| pending_program_id := program_id program; pending_intent := intent;
             pending_user_nonce := nonce_public n; pending_nonce := nonce;
             expires := clock world t + SESSION_LIFETIME |}]> (live (clock world t) p)) (S t))) ->
  wp (signer_prepare world (honest_request f action n)) Q (at_ self p t).
Proof.
  intros Hw Hf Hp Ha [Hr1 Hr2] Hn HQ. unfold signer_prepare. apply wp_bind, wp_draw.
  destruct (member_nonce_wire intent _ r n Hn) as (public & Hpub & Hfrom).
  destruct (signer_entropy world Hw t intent) as [nonce Hnonce].
  destruct (ids_enough world Hw t) as [Hd Hl].
  destruct (prepare_admitted (with_pending self p) (signer_env (world t)) (honest_request f action n)
              program intent (nonce_public n) nonce) as (session & Hprep & Hfree & Hin); try done.
  - apply (check_request_intro _ _ _ _ public); [done|by apply admissible_at|done|].
    cbn. by rewrite (authentic_user _ _ _ Hf).
  - eapply wp_call; [exact Hprep|done|]. by apply HQ.
Qed.

(** The server's share of a session made with its nonce verifies. *)
Lemma server_share_ok f action intent ns session m :
  authentic f action intent ->
  let pair := fun kp => nonce_pair_with_msg kp (intent_message intent) (server_randomness m) in
  session_new intent ns (snd <$> (pair <$> fixture_server f)) = Ok session ->
  exists share, server_share f intent session (fst <$> (pair <$> fixture_server f)) = Ok share /\
    (is_Some share <-> is_Some (intent_server intent)) /\
    forall sh, share = Some sh -> verify_server session sh = Ok tt.
Proof.
  intros Hf pair Hs. unfold server_share. pose proof (authentic_server _ _ _ Hf) as Hsrv.
  destruct (fixture_server f) as [kp|]; cbn in *.
  - rewrite (authentic_participants _ _ _ Hf). pose proof (server_signs _ _ _ _ kp _ Hs Hsrv eq_refl) as Hv.
    unfold pair. rewrite Hv. cbn. eexists. split; [reflexivity|]. rewrite Hsrv.
    split; [split; eauto|]. by intros sh [= <-].
  - rewrite Hsrv. exists None. split; [done|]. split; [split; intros []; discriminate|]. done.
Qed.

(** [Fixture::prepare] reserves a session that the wallet can finish. *)
Lemma wp_prepare world f action program intent self p t (Q : PreparedSession -> TestState -> Prop) :
  healthy world -> authentic f action intent -> poisoned self = false ->
  admissible self (fixture_key f) action program intent ->
  room (fst (members intent)) (live (clock world (S t)) p) ->
  (forall prepared e,
     honest world intent program t prepared e ->
     live (clock world (S t)) p !! finish_session (prepared_finish prepared) = None ->
     Q prepared (at_ self (<[finish_session (prepared_finish prepared) := e]> (live (clock world (S t)) p)) (3 + t))) ->
  wp (Fixture_prepare world f) Q (at_ self p t).
Proof.
  intros Hw Hf Hp Ha Hr HQ. unfold Fixture_prepare. apply wp_bind. eapply wp_request; [done..|].
  intros n Hn. apply wp_bind. eapply wp_unwrap; [exact (authentic_intent _ _ _ Hf)|].
  apply wp_bind. eapply wp_signer_prepare; [done..|]. intros session nonce Hfree Hin Hnonce.
  apply wp_bind. eapply wp_unwrap; [reflexivity|].
  apply wp_bind, wp_assert; [by apply bool_decide_eq_true|].
  apply wp_bind. eapply wp_unwrap; [exact (authentic_program _ _ _ Hf)|].
  destruct (member_nonce_wire intent _ _ nonce Hnonce) as (public & Hpub & Hfrom).
  apply wp_bind. eapply wp_unwrap; [exact Hpub|].
  apply wp_bind. eapply wp_unwrap; [exact Hfrom|]. apply wp_bind, wp_draw.
  destruct (nonces_aggregate world Hw t (S t) (S (S t)) intent n nonce (fixture_server f) Hn Hnonce
              (authentic_server _ _ _ Hf)) as [s Hs].
  apply wp_bind. eapply wp_unwrap; [exact Hs|].
  destruct (server_share_ok f action intent _ s _ Hf Hs) as (share & Hshare & Hsome & Hverify).
  apply wp_bind. eapply wp_lift; [exact Hshare|]. apply wp_ret, HQ; [|done].
  split; cbn; try done.
  - eexists. split; [|exact Hs].
    destruct (fixture_server f); cbn; [|done]. by rewrite nonce_wire.
  - destruct share; cbn; [|done]. by rewrite partial_wire.
Qed.

(** What the wallet holds of a session that the signer finished. *)
Definition answered_by (intent : Intent) (p : PreparedSession) (response : FinishResponse) : Prop :=
  finished_protocol response = SIGNING_PROTOCOL /\
  exists partial, program_partial response = hex_encode (partial_serialize partial) /\
    verify_member (prepared_session p) 1 partial = Ok tt.

(** The finish request of a wallet, perhaps without the server's share. *)
Definition finishes (p : PreparedSession) (r : FinishRequest) : Prop :=
  r = prepared_finish p \/
  r = {| finish_protocol := finish_protocol (prepared_finish p); finish_session := finish_session (prepared_finish p);
         finish_server_nonce := finish_server_nonce (prepared_finish p); finish_server_partial := None |}.

(** The checks of [finish] pass on an honest request before the session expires. *)
Lemma finish_session_honest world intent program self t p e env r :
  healthy world -> honest world intent program t p e ->
  derive_public_key program (xpub_from_priv (root self)) = Ok (snd (members intent)) ->
  finishes p r -> now env < expires e ->
  exists response, finish_session_with self env e r = Ok response /\ answered_by intent p response.
Proof.
  intros Hw Hp Hd Hr Ht.
  destruct (honest_server _ _ _ _ _ _ Hp) as (s & Hs & Hsession).
  pose proof (honest_program _ _ _ _ _ _ Hp) as Hn.
  destruct (derivation_agrees _ _ _ Hd) as (priv & kp & Hpriv & Hkp & Hpk).
  destruct (member_signs intent _ s _ 1 _ _ kp Hsession eq_refl Hn eq_refl Hpk) as (partial & Hsign & Hverify).
  assert (finish_protocol r = SIGNING_PROTOCOL /\
    transpose (parse_nonce <$> finish_server_nonce r) = Ok s /\
    exists share, transpose (parse_partial <$> finish_server_partial r) = Ok share /\
      (share = server_partial p \/ share = None)) as (Hproto & Hsn & share & Hshare & Hcase).
  { pose proof (honest_protocol _ _ _ _ _ _ Hp). pose proof (honest_share _ _ _ _ _ _ Hp).
    destruct Hr as [->| ->]; (split; [done|]); (split; [done|]); cbn; eauto. }
  exists {| finished_protocol := SIGNING_PROTOCOL; program_partial := hex_encode (partial_serialize partial) |}.
  split; [|split; [done|by exists partial]].
  unfold finish_session_with. rewrite (bool_decide_eq_true_2 _ Hproto). cbn [ensure mbind Result_bind].
  apply N.ltb_lt in Ht. rewrite Ht. cbn [ensure mbind Result_bind].
  rewrite Hsn. cbn [mbind Result_bind]. rewrite Hshare. cbn [mbind Result_bind].
  rewrite (honest_intent _ _ _ _ _ _ Hp), (honest_program_id _ _ _ _ _ _ Hp).
  assert (bool_decide (intent_server intent = None) && bool_decide (is_Some share) = false) as ->.
  { apply not_true_iff_false. rewrite andb_true_iff, !bool_decide_eq_true. intros [Hi Hsh].
    destruct Hcase as [->| ->]; [|by destruct Hsh]. apply (honest_share_server _ _ _ _ _ _ Hp) in Hsh.
    rewrite Hi in Hsh. by destruct Hsh. }
  rewrite Hsession. cbn [mbind Result_bind].
  assert (match share with Some partial => verify_server (prepared_session p) partial | None => Ok tt end = Ok tt) as ->.
  { destruct share as [sh|]; [|done]. apply (honest_share_verifies _ _ _ _ _ _ Hp). by destruct Hcase as [<-|]. }
  cbn [mbind Result_bind]. rewrite Hpriv. cbn [mbind Result_bind]. rewrite Hkp. cbn [mbind Result_bind].
  by rewrite Hsign.
Qed.

Lemma wp_finish world intent program self q t t' p e r (Q : Result Error FinishResponse -> TestState -> Prop) :
  healthy world -> honest world intent program t p e -> poisoned self = false ->
  derive_public_key program (xpub_from_priv (root self)) = Ok (snd (members intent)) ->
  finishes p r -> q !! finish_session (prepared_finish p) = Some e ->
  (forall response, answered_by intent p response ->
     Q (Ok response) (at_ self (delete (finish_session (prepared_finish p)) q) (S t'))) ->
  wp (signer_finish world r) Q (at_ self q t').
Proof.
  intros Hw Hp Hpois Hd Hr Hl HQ. unfold signer_finish. apply wp_bind, wp_draw.
  set (self' := with_pending self (delete (finish_session (prepared_finish p)) q)).
  destruct (finish_session_honest world intent program self' t p e (signer_env (world t')) r)
    as (response & Hresponse & Hanswer); [done|exact Hp|done|exact Hr|by eapply honest_fresh|].
  eapply (wp_call _ (Ok response) self'); [|done|by apply HQ]. unfold finish. cbn [poisoned pending with_pending at_ test_signer]. rewrite Hpois.
  assert (finish_session r = finish_session (prepared_finish p)) as -> by by destruct Hr as [->| ->].
  rewrite Hl. by rewrite <- Hresponse.
Qed.

(** A session the signer does not hold is refused by both calls. *)
Lemma wp_finish_gone world self q t r (Q : Result Error FinishResponse -> TestState -> Prop) :
  poisoned self = false -> q !! finish_session r = None ->
  Q (Err unknown_session) (at_ self q (S t)) -> wp (signer_finish world r) Q (at_ self q t).
Proof.
  intros Hpois Hl HQ. unfold signer_finish. apply wp_bind, wp_draw.
  eapply (wp_call _ (Err unknown_session) (with_pending self q)); [|done|exact HQ].
  unfold finish. cbn [poisoned pending with_pending at_ test_signer]. rewrite Hpois, Hl.
  unfold with_pending. cbn. by rewrite delete_id.
Qed.

(** A Schnorr signature of the intent passes both verifications. *)
Lemma verify_honest f action intent signature :
  authentic f action intent -> verify_schnorr signature (intent_message intent) (signing_key intent) = Ok tt ->
  Fixture_verify f signature = Ok tt.
Proof.
  intros Hf Hschnorr. unfold Fixture_verify.
  rewrite (authentic_verify _ _ _ Hf signature Hschnorr). cbn [unwrap_ok mbind Result_bind].
  rewrite (authentic_hash _ _ _ Hf). cbn [mbind Result_bind].
  rewrite (authentic_verification_key _ _ _ Hf). cbn [mbind Result_bind]. rewrite Hschnorr.
  cbn [unwrap_ok mbind Result_bind]. rewrite (authentic_sighash _ _ _ Hf). cbn [unwrap_ok mbind Result_bind].
  by rewrite bool_decide_eq_true_2.
Qed.

(** The wallet completes what the signer answered. *)
Lemma complete_honest world f action intent program t p e response :
  authentic f action intent -> honest world intent program t p e -> answered_by intent p response ->
  exists signature, complete p f response = Ok signature /\
    verify_schnorr signature (intent_message intent) (signing_key intent) = Ok tt.
Proof.
  intros Hf Hp (Hproto & partial & Htext & Hpartial).
  destruct (honest_server _ _ _ _ _ _ Hp) as (s & _ & Hsession).
  destruct (honest_user _ _ _ _ _ _ Hp) as [Hun Huser].
  destruct (authentic_keypair _ _ _ Hf) as (kp & Hkey & Hpk).
  destruct (member_signs intent _ s _ 0 _ _ kp Hsession eq_refl Huser (eq_sym Hun) Hpk) as (up & Hsign & Hup).
  destruct (aggregate_completes intent _ s _ up partial (server_partial p) Hsession Hup Hpartial)
    as (signature & Hagg & Hschnorr & Hnative).
  { apply (honest_share_server _ _ _ _ _ _ Hp). }
  { apply (honest_share_verifies _ _ _ _ _ _ Hp). }
  exists signature. split; [|done]. unfold complete. rewrite bool_decide_eq_true_2 by done. cbn [negb].
  rewrite Htext, partial_wire. cbn [unwrap_ok mbind Result_bind]. rewrite Hpartial. cbn [unwrap_ok mbind Result_bind].
  rewrite Hkey. cbn [mbind Result_bind]. rewrite Hsign. cbn [unwrap_ok mbind Result_bind].
  rewrite Hagg. cbn [unwrap_ok mbind Result_bind]. rewrite (session_new_intent _ _ _ _ Hsession).
  rewrite (authentic_participants _ _ _ Hf).
  pose proof (verify_honest f action intent signature Hf Hschnorr) as Hverify.
  rewrite Hverify. destruct (server_partial p) as [sh|]; [|done].
  destruct (Hnative sh eq_refl) as (group & -> & Hcomb). cbn [unwrap_ok mbind Result_bind].
  rewrite Hcomb. by rewrite bool_decide_eq_true_2.
Qed.

(** A signer as [ArkSigner::new] makes it and no panic leaves it. *)
Definition available (self : ArkSigner) : Prop :=
  poisoned self = false /\ public_root self = xpub_from_priv (root self).

Lemma admissible_derives self key_ action program intent :
  available self -> admissible self key_ action program intent ->
  derive_public_key program (xpub_from_priv (root self)) = Ok (snd (members intent)).
Proof. intros [_ Hr] [[Hk _ _ _ Hd] _]. by rewrite <- Hr, <- Hk. Qed.

(** [Fixture::sign] takes and releases one session, whatever else is held. *)
Lemma wp_sign world f action program intent self p t (Q : Signature -> TestState -> Prop) :
  healthy world -> available self -> authentic f action intent ->
  admissible self (fixture_key f) action program intent ->
  room (fst (members intent)) (live (clock world (S t)) p) ->
  (forall signature, verify_schnorr signature (intent_message intent) (signing_key intent) = Ok tt ->
     Q signature (at_ self (live (clock world (S t)) p) (5 + t))) ->
  wp (Fixture_sign world f) Q (at_ self p t).
Proof.
  intros Hw Hav Hf Ha Hr HQ. unfold Fixture_sign. apply wp_bind.
  eapply wp_prepare; [done..|apply Hav|done|done|]. intros prepared e Hp Hfree.
  apply wp_bind. eapply wp_finish; [done|exact Hp|apply Hav|by eapply admissible_derives|by left|by apply lookup_insert_eq|].
  intros response Hanswer. apply wp_bind. eapply wp_unwrap; [reflexivity|].
  rewrite delete_insert_id by done. apply wp_bind. eapply wp_finish_gone; [apply Hav|done|].
  apply wp_bind, wp_assert; [done|].
  destruct (complete_honest world f action intent program t prepared e response Hf Hp Hanswer)
    as (signature & Hc & Hs).
  eapply wp_lift; [exact Hc|]. by apply HQ.
Qed.

(** A request that fails its checks reveals no nonce and takes no session. *)
Lemma wp_refused world self p t request e (Q : Error -> TestState -> Prop) :
  poisoned self = false -> check_request (with_pending self p) request = Err e ->
  Q e (at_ self p (S t)) -> wp (refused world request) Q (at_ self p t).
Proof.
  intros Hp Hc HQ. unfold refused. apply wp_bind, wp_pending; [done|]. apply wp_bind.
  unfold signer_prepare. apply wp_bind, wp_draw.
  eapply (wp_call _ (Err e) (with_pending self p)); [|done|].
  - unfold prepare. cbn [at_ test_signer]. by rewrite Hc.
  - apply wp_bind. eapply wp_lift; [reflexivity|]. apply wp_bind.
    change (wp signer_pending (fun after => wp (assert_that (bool_decide (size after = size p));; mret e) Q) (at_ self p (S t))).
    apply wp_pending; [done|]. apply wp_bind, wp_assert; [by apply bool_decide_eq_true|]. by apply wp_ret.
Qed.

End Specification.

(* ------------------------------------------------------------------ *)
(** ** Properties *)

Section Theorems.
  Context {runtime : WasmRuntime} {outpoint_codec : OutPointCodec} {auth : NativeAuth}.
  Context {sapio : SapioProgram} {prim : KeyPrimitives} {upstream : Upstream} {ark : ArkLib} {requests : ArkRequests}.
  Context {codec : PolicyCodec VtxoPolicy} {musig : NestedMusig} {musig_laws : NestedMusigLaws}.

(** C7: the protocol completes: a wallet whose request passes the checks, on an
    available signer with room for one more session of its key, gets through
    prepare, finish and its own last signature in a healthy world; every
    assertion on the way holds, the replayed finish is refused, the aggregate
    is a Schnorr signature of the intent's message, and the pool is left with
    exactly the sessions that were unexpired. *)
Theorem honest_signing_completes world f action program intent self p t :
  healthy world -> available self -> authentic f action intent ->
  admissible self (fixture_key f) action program intent ->
  room (fst (members intent)) (live (clock world (S t)) p) ->
  exists signature,
    Fixture_sign world f (at_ self p t) = (Ok signature, at_ self (live (clock world (S t)) p) (5 + t)) /\
    verify_schnorr signature (intent_message intent) (signing_key intent) = Ok tt.
Proof.
  intros Hw Hav Hf Ha Hr.
  assert (wp (Fixture_sign world f) (fun signature st => st = at_ self (live (clock world (S t)) p) (5 + t) /\
    verify_schnorr signature (intent_message intent) (signing_key intent) = Ok tt) (at_ self p t)) as H
    by (eapply wp_sign; eauto).
  unfold wp in H. destruct (Fixture_sign world f (at_ self p t)) as [[signature|e|w] st]; [|done..].
  destruct H as [-> Hs]. by exists signature.
Qed.

End Theorems.
