(* ===== verification/SignerTests.v ===== *)
(** * SignerTests: the session tests (src/ark_signer.rs, mod tests)

    The unit tests about sessions, each a program of [Scenario] over the wallet
    of [SigningProtocol], and the theorem that it passes: in every healthy
    world, and for threads under every schedule.  [template] stands for the
    constructor of the tests' fixtures, which upstream's PSBT and taproot code
    builds; the theorems ask of it what makes an honest wallet. *)

From S2P Require Import Prelude Bytes NativePolicy Bitcoin Program Evaluator Keys Deployment ArkSigner Scenario SigningProtocol.

Open Scope N_scope.

(** Updates of the public [FinishRequest] fields. *)
Definition set_finish_protocol (protocol : bytes) (r : FinishRequest) : FinishRequest := {|
  finish_protocol := protocol; finish_session := finish_session r;
  finish_server_nonce := finish_server_nonce r; finish_server_partial := finish_server_partial r |}.

Definition set_server_nonce (nonce : option bytes) (r : FinishRequest) : FinishRequest := {|
  finish_protocol := finish_protocol r; finish_session := finish_session r;
  finish_server_nonce := nonce; finish_server_partial := finish_server_partial r |}.

Definition set_server_partial (partial : option bytes) (r : FinishRequest) : FinishRequest := {|
  finish_protocol := finish_protocol r; finish_session := finish_session r;
  finish_server_nonce := finish_server_nonce r; finish_server_partial := partial |}.

Section Tests.
  Context {runtime : WasmRuntime} {outpoint_codec : OutPointCodec} {auth : NativeAuth}.
  Context {sapio : SapioProgram} {prim : KeyPrimitives} {upstream : Upstream} {ark : ArkLib} {requests : ArkRequests}.
  Context {codec : PolicyCodec VtxoPolicy} {musig : NestedMusig}.
  Variable world : World.
  Variable template : bool -> Fixture.

(** [root()]. *)
Definition test_root : Result Error Xpriv :=
  unwrap_ok (new_master Regtest (replicate 32 Byte.x41)) "Xpriv::new_master".

(** [let signer = signer();], which drops a signer of that name. *)
Definition new_test_signer : Test unit :=
  root_ ← lift test_root;
  self ← unwrap (ArkSigner_new root_);
  use_signer self.

Definition cancel_of (prepared : PreparedSession) (protocol : bytes) : CancelRequest :=
  {| cancel_protocol := protocol; cancel_session := finish_session (prepared_finish prepared) |}.

(** [consumed]. *)
Definition assert_consumed (prepared : PreparedSession) (invalid : FinishRequest) : Test unit :=
  first ← signer_finish world invalid;
  assert_that (is_err first);;
  p ← signer_pending;
  assert_that (bool_decide (p !! finish_session (prepared_finish prepared) = None));;
  second ← signer_finish world (prepared_finish prepared);
  assert_that (is_err second).

(** [signer.finish(..).unwrap()] and [complete]. *)
Definition finish_and_complete (fixture : Fixture) (prepared : PreparedSession) : Test unit :=
  response ← signer_finish world (prepared_finish prepared);
  response ← unwrap response;
  _ ← lift (complete prepared fixture response);
  mret tt.

Definition finish_mutations : list (FinishRequest -> FinishRequest) := [
  set_finish_protocol (lit "unsupported");
  set_server_nonce (Some (lit "not-hex"));
  set_server_nonce (Some (hex_encode (replicate 66 Byte.x00)));
  set_server_nonce None;
  set_server_partial (Some (lit "not-hex"));
  set_server_partial (Some (hex_encode (replicate 32 Byte.x00)))].

Definition malformed_finish_and_wrong_server_shares_consume_the_session : Test unit :=
  new_test_signer;;
  let fixture := template false in
  mapM (fun mutate =>
    prepared ← Fixture_prepare world fixture;
    assert_consumed prepared (mutate (prepared_finish prepared))) finish_mutations;;
  first ← Fixture_prepare world fixture;
  second ← Fixture_prepare world fixture;
  assert_consumed first
    (set_server_partial (finish_server_partial (prepared_finish second)) (prepared_finish first));;
  finish_and_complete fixture second;;
  prepared ← Fixture_prepare world (template true);
  assert_consumed prepared
    (set_server_partial (Some (hex_encode (replicate 32 Byte.x00))) (prepared_finish prepared)).

(** One round of the loop over protocols. *)
Definition cancel_round (fixture : Fixture) (protocol : bytes) : Test unit :=
  prepared ← Fixture_prepare world fixture;
  let request := cancel_of prepared protocol in
  cancelled ← signer_cancel request;
  assert_that (bool_decide (is_ok cancelled = bool_decide (protocol = SIGNING_PROTOCOL)));;
  again ← signer_cancel request;
  assert_that (is_err again);;
  finished ← signer_finish world (prepared_finish prepared);
  assert_that (is_err finished).

Definition cancellation_and_expiry_are_terminal_without_sleeping : Test unit :=
  new_test_signer;;
  let fixture := template true in
  mapM (cancel_round fixture) [SIGNING_PROTOCOL; lit "unsupported"];;
  expired ← Fixture_prepare world fixture;
  expire world (finish_session (prepared_finish expired));;
  assert_consumed expired (prepared_finish expired);;
  pruned ← Fixture_prepare world fixture;
  expire world (finish_session (prepared_finish pruned));;
  fresh ← Fixture_prepare world fixture;
  p ← signer_pending;
  assert_that (bool_decide (p !! finish_session (prepared_finish pruned) = None));;
  finished ← signer_finish world (prepared_finish pruned);
  assert_that (is_err finished);;
  finish_and_complete fixture fresh.

(** The threads of the test return results of two types. *)
Definition finish_thread (r : FinishRequest) : Test (Result Error FinishResponse + Result Error unit) :=
  result ← signer_finish world r; mret (inl result).
Definition cancel_thread (r : CancelRequest) : Test (Result Error FinishResponse + Result Error unit) :=
  result ← signer_cancel r; mret (inr result).

Definition concurrent_finish_and_cancel_have_one_terminal_winner (schedule : list nat) : Test unit :=
  new_test_signer;;
  let fixture := template false in
  prepared ← Fixture_prepare world fixture;
  let retry := prepared_finish prepared in
  let cancel_ := cancel_of prepared SIGNING_PROTOCOL in
  results ← concurrently schedule [finish_thread retry; cancel_thread cancel_];
  '(finished, cancelled) ← lift (match results with
                                 | [inl finished; inr cancelled] => Ok (finished, cancelled)
                                 | _ => Panic "join"
                                 end);
  assert_that (negb (bool_decide (is_ok finished = is_ok cancelled)));;
  match finished with
  | Ok response => _ ← lift (complete prepared fixture response); mret tt
  | _ => mret tt
  end;;
  finished ← signer_finish world retry;
  assert_that (is_err finished);;
  cancelled ← signer_cancel cancel_;
  assert_that (is_err cancelled).

Definition concurrent_finish_releases_exactly_one_valid_share (schedule : list nat) : Test unit :=
  new_test_signer;;
  let fixture := template false in
  prepared ← Fixture_prepare world fixture;
  results ← concurrently schedule (replicate 8 (signer_finish world (prepared_finish prepared)));
  assert_that (bool_decide (length (filter (fun r => is_ok r = true) results) = 1%nat));;
  assert_that (bool_decide (length (filter (fun r => is_err r = true) results) = 7%nat));;
  p ← signer_pending;
  assert_that (bool_decide (p = ∅));;
  again ← signer_finish world (prepared_finish prepared);
  assert_that (is_err again);;
  response ← lift (expect (list_find (fun r => is_ok r = true) results ≫= fun r =>
                             match snd r with Ok response => Some response | _ => None end) "find_map");
  _ ← lift (complete prepared fixture response);
  mret tt.

Definition fresh_signer_with_identical_root_cannot_revive_old_sessions : Test unit :=
  let fixture := template false in
  new_test_signer;;
  old ← Fixture_prepare world fixture;
  first ← the_signer;
  let old_root := public_root first in
  new_test_signer;;
  restarted ← the_signer;
  assert_that (bool_decide (public_root restarted = old_root));;
  finished ← signer_finish world (prepared_finish old);
  assert_that (is_err finished);;
  cancelled ← signer_cancel (cancel_of old SIGNING_PROTOCOL);
  assert_that (is_err cancelled);;
  fresh ← Fixture_prepare world fixture;
  assert_that (negb (bool_decide (finish_session (prepared_finish fresh) = finish_session (prepared_finish old))));;
  finished ← signer_finish world (prepared_finish old);
  assert_that (is_err finished);;
  finish_and_complete fixture fresh.

Definition native_forfeit_can_receive_server_share_after_program_share : Test unit :=
  new_test_signer;;
  let fixture := template false in
  prepared ← Fixture_prepare world fixture;
  response ← signer_finish world (set_server_partial None (prepared_finish prepared));
  response ← unwrap response;
  again ← signer_finish world (prepared_finish prepared);
  assert_that (is_err again);;
  _ ← lift (complete prepared fixture response);
  mret tt.

Definition signed_delayed_claim_verifies_after_signer_is_dropped : Test unit :=
  new_test_signer;;
  let fixture := template true in
  signature ← Fixture_sign world fixture;
  lift (Fixture_verify fixture signature).

End Tests.

(* ------------------------------------------------------------------ *)
(** ** Lemmas *)

Section Lemmas.
  Context {runtime : WasmRuntime} {outpoint_codec : OutPointCodec} {auth : NativeAuth}.
  Context {sapio : SapioProgram} {prim : KeyPrimitives} {upstream : Upstream} {ark : ArkLib} {requests : ArkRequests}.
  Context {codec : PolicyCodec VtxoPolicy} {musig : NestedMusig}.

(** A world in which the tests' fixtures are honest wallets of the tests'
    signer: [template true] signs a claim without the server, [template false]
    a spend with it. *)
Record bench (world : World) (template : bool -> Fixture) (root_ : Xpriv) (self : ArkSigner)
    (action : bool -> SigningAction) (program : bool -> ProgramInstance) (intent : bool -> Intent) : Prop := {
  bench_world : healthy world;
  bench_root : new_master Regtest (replicate 32 Byte.x41) = Ok root_;
  bench_signer : ArkSigner_new root_ = Ok self;
  bench_authentic claim : authentic (template claim) (action claim) (intent claim);
  bench_admissible claim : admissible self (fixture_key (template claim)) (action claim) (program claim) (intent claim);
  bench_server claim : is_Some (intent_server (intent claim)) <-> claim = false;
}.

(** What the encodings and the verification of shares refuse: texts that are
    not hexadecimal, the all-zero nonce, the zero share and a share of another
    session. *)
Record wire_rejects (world : World) (program : bool -> ProgramInstance) (intent : bool -> Intent) : Prop := {
  protocol_supported : lit "unsupported" <> SIGNING_PROTOCOL;
  nonce_not_hex : exists x, parse_nonce (lit "not-hex") = Err x;
  nonce_zero : exists x, parse_nonce (hex_encode (replicate 66 Byte.x00)) = Err x;
  partial_not_hex : exists x, parse_partial (lit "not-hex") = Err x;
  partial_zero :
    (exists x, parse_partial (hex_encode (replicate 32 Byte.x00)) = Err x) \/
    exists zero, parse_partial (hex_encode (replicate 32 Byte.x00)) = Ok zero /\
      forall t prepared e, honest world (intent false) (program false) t prepared e ->
        exists x, verify_server (prepared_session prepared) zero = Err x;
  shares_bind t1 t2 p1 p2 e1 e2 share :
    t1 <> t2 -> honest world (intent false) (program false) t1 p1 e1 ->
    honest world (intent false) (program false) t2 p2 e2 -> server_partial p2 = Some share ->
    exists x, verify_server (prepared_session p1) share = Err x;
}.

(** The test passes whatever was held before it. *)
Definition passes (test : Test unit) : Prop := forall st, exists st', test st = (Ok tt, st').

Lemma wp_passes test : (forall st, wp test (fun _ _ => True) st) -> passes test.
Proof.
  intros H st. specialize (H st). unfold wp in H. destruct (test st) as [[[]|e|w] st']; [by exists st'|done..].
Qed.

Lemma available_new r s : ArkSigner_new r = Ok s -> available s.
Proof.
  unfold ArkSigner_new. destruct (_ <? _); [done|]. intros H.
  apply bind_ok in H as (es & _ & H). by apply Ok_inj in H as <-.
Qed.

(** [let signer = signer();] starts from an empty pool. *)
Lemma wp_new_test_signer r s (Q : unit -> TestState -> Prop) st :
  new_master Regtest (replicate 32 Byte.x41) = Ok r -> ArkSigner_new r = Ok s ->
  Q tt (at_ s ∅ (tick st)) -> wp new_test_signer Q st.
Proof.
  intros Hr Hs HQ. unfold new_test_signer, test_root. apply wp_bind.
  eapply wp_lift; [by rewrite Hr|]. apply wp_bind. eapply wp_unwrap; [by rewrite Hs|].
  assert (with_pending s ∅ = s) as Hself.
  { destruct (new_empty _ _ Hs) as (Hp & _). destruct s; cbn in *. by rewrite <- Hp. }
  unfold wp, use_signer. unfold at_ in HQ. by rewrite Hself in HQ.
Qed.

Context {musig_laws : NestedMusigLaws}.
Context (world : World) (template : bool -> Fixture) (root_ : Xpriv) (self : ArkSigner).
Context (action : bool -> SigningAction) (program : bool -> ProgramInstance) (intent : bool -> Intent).
Hypothesis Hb : bench world template root_ self action program intent.

Lemma bench_available : available self.
Proof. by eapply available_new, bench_signer. Qed.

Lemma bench_derives claim :
  derive_public_key (program claim) (xpub_from_priv (root self)) = Ok (snd (members (intent claim))).
Proof. eapply admissible_derives; [exact bench_available|apply (bench_admissible _ _ _ _ _ _ _ Hb)]. Qed.

Lemma wp_new_signer (Q : unit -> TestState -> Prop) st :
  Q tt (at_ self ∅ (tick st)) -> wp new_test_signer Q st.
Proof. eapply wp_new_test_signer; apply Hb. Qed.

(** An honest prepare where few sessions are held, all fresh. *)
Lemma wp_bench_prepare claim p t (Q : PreparedSession -> TestState -> Prop) :
  fresh world (live (clock world (S t)) p) -> (size (live (clock world (S t)) p) < 8)%nat ->
  (forall prepared e,
     honest world (intent claim) (program claim) t prepared e ->
     live (clock world (S t)) p !! finish_session (prepared_finish prepared) = None ->
     fresh world (<[finish_session (prepared_finish prepared) := e]> (live (clock world (S t)) p)) ->
     Q prepared (at_ self (<[finish_session (prepared_finish prepared) := e]> (live (clock world (S t)) p)) (3 + t))) ->
  wp (Fixture_prepare world (template claim)) Q (at_ self p t).
Proof.
  intros Hf Hs HQ. set (q := live _ p) in *.
  eapply wp_prepare; [apply Hb|apply (bench_authentic _ _ _ _ _ _ _ Hb)|apply bench_available
    |apply (bench_admissible _ _ _ _ _ _ _ Hb)| |].
  - fold q. pose proof (map_subseteq_size _ _ (map_filter_subseteq
      (fun entry => fst (members (pending_intent (snd entry))) = fst (members (intent claim))) q)) as Hle.
    unfold room, held_by, MAX_PENDING_SESSIONS, MAX_SESSIONS_PER_USER. lia.
  - intros prepared e Hp Hfree. apply HQ; [done|done|].
    apply fresh_insert; [done|]. by eapply honest_fresh; [apply Hb|].
Qed.

Lemma wp_prepare_fresh claim p t (Q : PreparedSession -> TestState -> Prop) :
  fresh world p -> (size p < 8)%nat ->
  (forall prepared e,
     honest world (intent claim) (program claim) t prepared e ->
     p !! finish_session (prepared_finish prepared) = None ->
     Q prepared (at_ self (<[finish_session (prepared_finish prepared) := e]> p) (3 + t))) ->
  wp (Fixture_prepare world (template claim)) Q (at_ self p t).
Proof.
  intros Hf Hs HQ. apply wp_bench_prepare; rewrite live_fresh by done; [done..|].
  intros prepared e Hp Hn _. by apply HQ.
Qed.

Lemma wp_bench_finish claim p t t' prepared e r (Q : Result Error FinishResponse -> TestState -> Prop) :
  honest world (intent claim) (program claim) t prepared e -> finishes prepared r ->
  p !! finish_session (prepared_finish prepared) = Some e ->
  (forall response, answered_by (intent claim) prepared response ->
     Q (Ok response) (at_ self (delete (finish_session (prepared_finish prepared)) p) (S t'))) ->
  wp (signer_finish world r) Q (at_ self p t').
Proof.
  intros Hp Hr Hl HQ. eapply wp_finish; [apply Hb|exact Hp|apply bench_available|apply bench_derives|done..].
Qed.

Lemma wp_complete claim t prepared e response (Q : unit -> TestState -> Prop) st :
  honest world (intent claim) (program claim) t prepared e -> answered_by (intent claim) prepared response ->
  Q tt st -> wp (_ ← lift (complete prepared (template claim) response); mret tt) Q st.
Proof.
  intros Hp Ha HQ. destruct (complete_honest world (template claim) (action claim) (intent claim)
    (program claim) t prepared e response) as (s & Hc & _); [apply (bench_authentic _ _ _ _ _ _ _ Hb)|done..|].
  apply wp_bind. eapply wp_lift; [exact Hc|]. by apply wp_ret.
Qed.

Lemma wp_finish_and_complete claim p t t' prepared e (Q : unit -> TestState -> Prop) :
  honest world (intent claim) (program claim) t prepared e ->
  p !! finish_session (prepared_finish prepared) = Some e ->
  Q tt (at_ self (delete (finish_session (prepared_finish prepared)) p) (S t')) ->
  wp (finish_and_complete world (template claim) prepared) Q (at_ self p t').
Proof.
  intros Hp Hl HQ. apply wp_bind. eapply wp_bench_finish; [done|by left|done|]. intros response Ha.
  apply wp_bind. eapply wp_unwrap; [done|]. by eapply wp_complete.
Qed.

(** A refused finish consumes the session. *)
Lemma wp_finish_fails p t r e x (Q : Result Error FinishResponse -> TestState -> Prop) :
  p !! finish_session r = Some e ->
  (forall q, finish_session_with (with_pending self q) (signer_env (world t)) e r = Err x) ->
  Q (Err x) (at_ self (delete (finish_session r) p) (S t)) -> wp (signer_finish world r) Q (at_ self p t).
Proof.
  intros Hl Hx HQ. unfold signer_finish. apply wp_bind, wp_draw.
  eapply (wp_call _ (Err x) (with_pending self (delete (finish_session r) p))); [|done|exact HQ].
  unfold finish. cbn [poisoned pending with_pending at_ test_signer].
  rewrite (proj1 bench_available), Hl. by rewrite <- (Hx (delete (finish_session r) p)).
Qed.

Lemma wp_is_err {A} (r : Result Error A) e (Q : unit -> TestState -> Prop) st :
  r = Err e -> Q tt st -> wp (assert_that (is_err r)) Q st.
Proof. intros ->. by apply wp_assert. Qed.

Lemma wp_gone p t r (Q : Result Error FinishResponse -> TestState -> Prop) :
  p !! finish_session r = None -> Q (Err unknown_session) (at_ self p (S t)) ->
  wp (signer_finish world r) Q (at_ self p t).
Proof. apply wp_finish_gone, bench_available. Qed.

Lemma wp_consumed p t prepared r e x (Q : unit -> TestState -> Prop) :
  finish_session r = finish_session (prepared_finish prepared) ->
  p !! finish_session (prepared_finish prepared) = Some e ->
  (forall q, finish_session_with (with_pending self q) (signer_env (world t)) e r = Err x) ->
  Q tt (at_ self (delete (finish_session (prepared_finish prepared)) p) (2 + t)) ->
  wp (assert_consumed world prepared r) Q (at_ self p t).
Proof.
  intros Hr Hl Hx HQ. apply wp_bind. eapply wp_finish_fails; [by rewrite Hr|done|].
  rewrite Hr. apply wp_bind, wp_assert; [done|]. apply wp_bind, wp_pending; [apply bench_available|].
  apply wp_bind, wp_assert; [by rewrite lookup_delete_eq, bool_decide_eq_true_2|].
  apply wp_bind, wp_gone; [by rewrite lookup_delete_eq|]. by apply wp_assert.
Qed.

Lemma wp_cancel p t r e (Q : Result Error unit -> TestState -> Prop) :
  p !! cancel_session r = Some e ->
  Q (ensure (bool_decide (cancel_protocol r = SIGNING_PROTOCOL)) (Message "unsupported signing protocol"))
    (at_ self (delete (cancel_session r) p) t) ->
  wp (signer_cancel r) Q (at_ self p t).
Proof.
  intros Hl HQ. unfold signer_cancel.
  eapply wp_call with (self' := with_pending self (delete (cancel_session r) p)); [| |exact HQ]; [|by case_bool_decide].
  unfold cancel. cbn [poisoned pending with_pending at_ test_signer]. rewrite (proj1 bench_available), Hl.
  by case_bool_decide.
Qed.

Lemma wp_cancel_gone p t r (Q : Result Error unit -> TestState -> Prop) :
  p !! cancel_session r = None -> (forall e, Q (Err e) (at_ self p t)) -> wp (signer_cancel r) Q (at_ self p t).
Proof.
  intros Hl HQ. unfold signer_cancel.
  destruct (cancel (with_pending self p) r) as [c s] eqn:Hc. pose proof Hc as Hc'.
  unfold cancel in Hc'. cbn [poisoned pending with_pending] in Hc'. rewrite (proj1 bench_available), Hl in Hc'.
  unfold with_pending in Hc'. cbn in Hc'. rewrite delete_id in Hc' by done.
  assert (exists e, c = Err e) as [e ->] by (case_bool_decide; injection Hc' as <- _; eauto).
  injection Hc' as _ <-. eapply wp_call; [exact Hc|done|apply HQ].
Qed.

(** A session whose lifetime is moved into the past. *)
Lemma wp_expire p t session e (Q : unit -> TestState -> Prop) :
  p !! session = Some e ->
  (forall e', pending_intent e' = pending_intent e -> (forall u, (t <= u)%nat -> expires e' <= clock world u) ->
     Q tt (at_ self (<[session := e']> p) (S t))) ->
  wp (expire world session) Q (at_ self p t).
Proof.
  intros Hl HQ. unfold expire. apply wp_bind, wp_pending; [apply bench_available|].
  apply wp_bind. eapply wp_lift; [by rewrite Hl|]. apply wp_bind, wp_draw.
  pose proof (clock_started world (bench_world _ _ _ _ _ _ _ Hb) t) as Hclock. unfold clock in Hclock.
  apply N.ltb_ge in Hclock. rewrite Hclock. apply (HQ {| expires := _ |}); [done|].
  intros u Hu. pose proof (clock_monotone world (bench_world _ _ _ _ _ _ _ Hb) t u Hu) as Hm.
  unfold clock in *. cbn. lia.
Qed.

Lemma live_expired p session e t :
  expires e <= clock world t -> live (clock world t) (<[session := e]> p) = delete session (live (clock world t) p).
Proof. intros He. unfold live. by rewrite map_filter_insert_False, map_filter_delete by (cbn; lia). Qed.

(** Sessions of different ticks have different ids. *)
Lemma honest_ids_differ i1 i2 p1 p2 t1 t2 a1 a2 e1 e2 :
  honest world i1 p1 t1 a1 e1 -> honest world i2 p2 t2 a2 e2 -> t1 <> t2 ->
  finish_session (prepared_finish a1) <> finish_session (prepared_finish a2).
Proof.
  intros H1 H2 Ht E. pose proof (honest_id _ _ _ _ _ _ H1) as Hin. rewrite E in Hin.
  eapply ids_new; [apply Hb| |exact Hin|apply (honest_id _ _ _ _ _ _ H2)]. congruence.
Qed.

(** An expired session is refused whatever the request. *)
Lemma finish_session_expired t e r :
  expires e <= clock world t ->
  exists x, forall q, finish_session_with (with_pending self q) (signer_env (world t)) e r = Err x.
Proof.
  intros He. unfold finish_session_with. unfold clock in He. apply N.ltb_ge in He. rewrite He.
  destruct (bool_decide (finish_protocol r = SIGNING_PROTOCOL)); cbn; eauto.
Qed.

Lemma wp_cancel_round claim protocol p t (Q : unit -> TestState -> Prop) :
  fresh world p -> (size p < 8)%nat -> Q tt (at_ self p (4 + t)) ->
  wp (cancel_round world (template claim) protocol) Q (at_ self p t).
Proof.
  intros Hf Hs HQ. apply wp_bind, wp_prepare_fresh; [done..|]. intros prepared e Hp Hn.
  apply wp_bind. eapply wp_cancel; [by rewrite lookup_insert_eq|]. cbn [cancel_of cancel_session cancel_protocol].
  rewrite delete_insert_id by done.
  apply wp_bind, wp_assert; [apply bool_decide_eq_true_2; by case_bool_decide|].
  apply wp_bind, wp_cancel_gone; [done|]. intros x. apply wp_bind, wp_assert; [done|].
  apply wp_bind, wp_gone; [done|]. by apply wp_assert.
Qed.

(** [finish] of a live session fails where one of its public inputs does. *)
Lemma finish_bad_protocol t e r :
  finish_protocol r <> SIGNING_PROTOCOL ->
  exists x, forall q, finish_session_with (with_pending self q) (signer_env (world t)) e r = Err x.
Proof.
  intros H. eexists. intros q. unfold finish_session_with. rewrite (bool_decide_eq_false_2 _ H). reflexivity.
Qed.

Lemma finish_bad_nonce t e r x :
  finish_protocol r = SIGNING_PROTOCOL -> clock world t < expires e ->
  transpose (parse_nonce <$> finish_server_nonce r) = Err x ->
  forall q, finish_session_with (with_pending self q) (signer_env (world t)) e r = Err x.
Proof.
  intros H1 H2 H3 q. unfold finish_session_with. unfold clock in H2. apply N.ltb_lt in H2.
  rewrite (bool_decide_eq_true_2 _ H1), H2. cbn [ensure mbind Result_bind]. by rewrite H3.
Qed.

(** The three ways in which the server's share or session is refused. *)
Lemma finish_bad_share t e r s :
  finish_protocol r = SIGNING_PROTOCOL -> clock world t < expires e ->
  transpose (parse_nonce <$> finish_server_nonce r) = Ok s ->
  (exists x, transpose (parse_partial <$> finish_server_partial r) = Err x) \/
  (exists share, transpose (parse_partial <$> finish_server_partial r) = Ok share /\
     ((intent_server (pending_intent e) = None /\ is_Some share) \/
      (is_Some (intent_server (pending_intent e)) /\
       ((exists x, session_new (pending_intent e) (pending_user_nonce e, nonce_public (pending_nonce e)) s = Err x) \/
        exists session partial,
          session_new (pending_intent e) (pending_user_nonce e, nonce_public (pending_nonce e)) s = Ok session /\
          share = Some partial /\ exists x, verify_server session partial = Err x)))) ->
  exists x, forall q, finish_session_with (with_pending self q) (signer_env (world t)) e r = Err x.
Proof.
  intros H1 H2 H3 H. unfold finish_session_with. unfold clock in H2. apply N.ltb_lt in H2.
  rewrite (bool_decide_eq_true_2 _ H1), H2. cbn [ensure mbind Result_bind]. rewrite H3. cbn [mbind Result_bind].
  destruct H as [[x H]|(share & H & Hcase)]; rewrite H; cbn [mbind Result_bind]; [eexists; intros q; reflexivity|].
  destruct Hcase as [[Hi Hs]|[Hi Hcase]].
  - rewrite (bool_decide_eq_true_2 _ Hi), (bool_decide_eq_true_2 _ Hs). eexists. intros q. reflexivity.
  - rewrite bool_decide_eq_false_2 by (intros E; rewrite E in Hi; by destruct Hi). cbn [andb].
    destruct Hcase as [[x Hx]|(session & partial & Hs & -> & x & Hx)]; rewrite ?Hx, ?Hs; cbn [mbind Result_bind]; [eexists; intros q; reflexivity|].
    rewrite Hx. eexists. intros q. reflexivity.
Qed.

(** Each mutation of the malformed-finish test is refused. *)
Lemma mutations_refused t t' prepared e mutate :
  wire_rejects world program intent -> honest world (intent false) (program false) t prepared e ->
  mutate ∈ finish_mutations ->
  finish_session (mutate (prepared_finish prepared)) = finish_session (prepared_finish prepared) /\
  exists x, forall q, finish_session_with (with_pending self q) (signer_env (world t')) e
    (mutate (prepared_finish prepared)) = Err x.
Proof.
  intros Hwire Hp Hin. pose proof (honest_fresh _ _ _ _ _ _ (bench_world _ _ _ _ _ _ _ Hb) Hp t') as Ht.
  pose proof (honest_protocol _ _ _ _ _ _ Hp) as Hproto.
  destruct (honest_server _ _ _ _ _ _ Hp) as (s & Hs & Hsession).
  pose proof (honest_intent _ _ _ _ _ _ Hp) as Hi.
  assert (is_Some (intent_server (intent false))) as Hsrv by by apply (bench_server _ _ _ _ _ _ _ Hb).
  unfold finish_mutations in Hin. rewrite !elem_of_cons in Hin.
  destruct Hin as [->|[->|[->|[->|[->|[->|Hin]]]]]]; [..|by apply not_elem_of_nil in Hin]; (split; [done|]).
  - apply finish_bad_protocol, (protocol_supported _ _ _ Hwire).
  - destruct (nonce_not_hex _ _ _ Hwire) as [x Hx]. exists x. apply finish_bad_nonce; [done..|].
    cbn [set_server_nonce finish_server_nonce fmap option_fmap option_map]. by rewrite Hx.
  - destruct (nonce_zero _ _ _ Hwire) as [x Hx]. exists x. apply finish_bad_nonce; [done..|].
    cbn [set_server_nonce finish_server_nonce fmap option_fmap option_map]. by rewrite Hx.
  - eapply finish_bad_share; [done..|]. right. eexists. split; [apply (honest_share _ _ _ _ _ _ Hp)|]. right.
    rewrite Hi. split; [done|]. left. destruct Hsrv as [k Hk]. by eapply session_needs_server.
  - eapply finish_bad_share; [done|done|exact Hs|]. left. destruct (partial_not_hex _ _ _ Hwire) as [x Hx].
    exists x. cbn [set_server_partial finish_server_partial fmap option_fmap option_map]. by rewrite Hx.
  - eapply finish_bad_share; [done|done|exact Hs|].
    cbn [set_server_partial finish_server_partial fmap option_fmap option_map].
    destruct (partial_zero _ _ _ Hwire) as [[x Hx]|(zero & Hz & Hv)]; [left; exists x; by rewrite Hx|right].
    exists (Some zero). rewrite Hz. split; [done|]. right. rewrite Hi. split; [done|]. right.
    exists (prepared_session prepared), zero. split; [exact Hsession|]. split; [done|]. by eapply Hv.
Qed.

(** A share of another session is refused, *)
Lemma crossed_refused t1 t2 t prepared1 prepared2 e1 e2 :
  wire_rejects world program intent ->
  honest world (intent false) (program false) t1 prepared1 e1 ->
  honest world (intent false) (program false) t2 prepared2 e2 -> t1 <> t2 ->
  exists x, forall q, finish_session_with (with_pending self q) (signer_env (world t)) e1
    (set_server_partial (finish_server_partial (prepared_finish prepared2)) (prepared_finish prepared1)) = Err x.
Proof.
  intros Hwire Hp1 Hp2 Ht. pose proof (honest_fresh _ _ _ _ _ _ (bench_world _ _ _ _ _ _ _ Hb) Hp1 t) as Hl.
  destruct (honest_server _ _ _ _ _ _ Hp1) as (s & Hs & Hsession).
  pose proof (honest_intent _ _ _ _ _ _ Hp1) as Hi.
  assert (is_Some (intent_server (intent false))) as Hsrv by by apply (bench_server _ _ _ _ _ _ _ Hb).
  eapply finish_bad_share; [apply (honest_protocol _ _ _ _ _ _ Hp1)|done|exact Hs|]. right.
  exists (server_partial prepared2). split; [apply (honest_share _ _ _ _ _ _ Hp2)|]. right. rewrite Hi. split; [done|].
  right. destruct (proj2 (honest_share_server _ _ _ _ _ _ Hp2) Hsrv) as [share Hshare].
  exists (prepared_session prepared1), share. split; [exact Hsession|]. split; [done|].
  eapply shares_bind; [exact Hwire|exact Ht|exact Hp1|exact Hp2|done].
Qed.

(** and so is any share where the intent has no server. *)
Lemma extraneous_refused t t' prepared e text :
  honest world (intent true) (program true) t prepared e ->
  ((exists x, parse_partial text = Err x) \/ exists p, parse_partial text = Ok p) ->
  exists x, forall q, finish_session_with (with_pending self q) (signer_env (world t')) e
    (set_server_partial (Some text) (prepared_finish prepared)) = Err x.
Proof.
  intros Hp Htext. pose proof (honest_fresh _ _ _ _ _ _ (bench_world _ _ _ _ _ _ _ Hb) Hp t') as Hl.
  destruct (honest_server _ _ _ _ _ _ Hp) as (s & Hs & _). pose proof (honest_intent _ _ _ _ _ _ Hp) as Hi.
  eapply finish_bad_share; [apply (honest_protocol _ _ _ _ _ _ Hp)|done|exact Hs|].
  cbn [set_server_partial finish_server_partial fmap option_fmap option_map].
  destruct Htext as [[x Hx]|[p Hx]]; [left; exists x; by rewrite Hx|right]. exists (Some p). rewrite Hx.
  split; [done|]. left. rewrite Hi. split; [|by eexists].
  apply eq_None_not_Some. intros H. apply (bench_server _ _ _ _ _ _ _ Hb) in H. discriminate H.
Qed.

(** Counting the one element that satisfies a test. *)
Lemma filter_none {A} (f : A -> bool) l :
  (forall j b, l !! j = Some b -> f b = false) ->
  filter (fun x => f x = true) l = [] /\ filter (fun x => negb (f x) = true) l = l.
Proof.
  induction l as [|x l IH]; intros H; [done|]. pose proof (H 0%nat x eq_refl) as Hx.
  destruct IH as [IH1 IH2]; [intros j b Hj; exact (H (S j) b Hj)|].
  rewrite !filter_cons, Hx, decide_False, decide_True by done. by rewrite IH1, IH2.
Qed.

Lemma filter_one {A} (f : A -> bool) l k a :
  l !! k = Some a -> f a = true -> (forall j b, j <> k -> l !! j = Some b -> f b = false) ->
  filter (fun x => f x = true) l = [a] /\ length (filter (fun x => negb (f x) = true) l) = pred (length l).
Proof.
  revert k; induction l as [|x l IH]; intros k Hk Ha H; [done|]. destruct k as [|k].
  - injection Hk as ->. destruct (filter_none f l) as [H1 H2]; [intros j b Hj; exact (H (S j) b ltac:(done) Hj)|].
    rewrite !filter_cons, Ha, decide_True, decide_False by done. by rewrite H1, H2.
  - pose proof (H 0%nat x ltac:(done) eq_refl) as Hx.
    destruct (IH k Hk Ha) as [H1 H2]; [intros j b Hj; apply (H (S j)); congruence|].
    rewrite !filter_cons, Hx, decide_False, decide_True by done. rewrite H1. split; [done|].
    cbn [length]. rewrite H2. apply lookup_lt_Some in Hk. cbn in Hk. lia.
Qed.

(** Threads that compete for one session: whoever takes the lock first wins. *)
Section Threads.
  Context {A : Type} (ok : A -> bool) (post : nat -> A -> Prop) (threads : list (Test A)).
  Context (p : gmap bytes Pending) (session : bytes) (e : Pending).
  Hypothesis loses : forall k th t (Q : A -> TestState -> Prop), threads !! k = Some th ->
    (forall a t', ok a = false -> post k a -> Q a (at_ self p t')) -> wp th Q (at_ self p t).
  Hypothesis wins : forall k th t (Q : A -> TestState -> Prop), threads !! k = Some th ->
    (forall a t', ok a = true -> post k a -> Q a (at_ self p t')) -> wp th Q (at_ self (<[session := e]> p) t).

Lemma wp_losers schedule t (Q : list (nat * A) -> TestState -> Prop) :
  Forall (fun k => k < length threads)%nat schedule ->
  (forall rs t', rs.*1 = schedule -> Forall (fun r => ok (snd r) = false /\ post (fst r) (snd r)) rs ->
     Q rs (at_ self p t')) ->
  wp (run_threads threads schedule) Q (at_ self p t).
Proof.
  revert t Q; induction schedule as [|k schedule IH]; intros t Q Hs HQ; cbn [run_threads].
  - apply wp_ret. by apply HQ.
  - apply Forall_cons_iff in Hs as [Hk Hs]. apply lookup_lt_is_Some_2 in Hk as [th Hth].
    apply wp_bind. eapply wp_lift; [by rewrite Hth|]. apply wp_bind. eapply loses; [exact Hth|]. intros a t' Ha Hpost.
    apply wp_bind, IH; [done|]. intros rs t'' Hrs Hall. apply wp_ret, HQ; [by rewrite fmap_cons, Hrs|by constructor].
Qed.

Lemma wp_winner k schedule t (Q : list (nat * A) -> TestState -> Prop) :
  Forall (fun k => k < length threads)%nat (k :: schedule) ->
  (forall a rs t', ok a = true -> post k a -> rs.*1 = schedule ->
     Forall (fun r => ok (snd r) = false /\ post (fst r) (snd r)) rs -> Q ((k, a) :: rs) (at_ self p t')) ->
  wp (run_threads threads (k :: schedule)) Q (at_ self (<[session := e]> p) t).
Proof.
  intros [Hk Hs]%Forall_cons_iff HQ. apply lookup_lt_is_Some_2 in Hk as [th Hth]. cbn [run_threads].
  apply wp_bind. eapply wp_lift; [by rewrite Hth|]. apply wp_bind. eapply wins; [exact Hth|]. intros a t' Ha Hg.
  apply wp_bind, wp_losers; [done|]. intros rs t'' Hrs Hall. by apply wp_ret, HQ.
Qed.

Lemma join_ok (rs : list (nat * A)) k a : NoDup rs.*1 -> (k, a) ∈ rs -> join rs k = Ok a.
Proof.
  intros Hd Hin. unfold join. apply expect_ok. apply list_elem_of_lookup in Hin as [i Hi].
  assert (list_find (fun r => fst r = k) rs = Some (i, (k, a))) as ->; [|done].
  apply list_find_Some. split; [done|]. split; [done|]. intros j [k' b] Hj Hlt E. cbn in E. subst k'.
  assert (j = i) as ->; [|lia]. eapply NoDup_lookup; [exact Hd| |];
    rewrite list_lookup_fmap; [by rewrite Hj|by rewrite Hi].
Qed.

Lemma joins_ok (rs : list (nat * A)) n :
  rs.*1 ≡ₚ seq 0 n ->
  exists out, try_map (join rs) (seq 0 n) = Ok out /\ length out = n /\
    forall j a, out !! j = Some a <-> (j, a) ∈ rs.
Proof.
  intros Hs. assert (NoDup rs.*1) as Hd by (rewrite Hs; apply NoDup_seq).
  assert (forall j, (j < n)%nat -> exists b, (j, b) ∈ rs) as Hall_in.
  { intros j Hj. assert (j ∈ rs.*1) as Hin by (rewrite Hs; apply elem_of_seq; lia).
    apply list_elem_of_fmap in Hin as ([j' b] & E & Hin). cbn in E. subst j'. by exists b. }
  destruct (try_map_total (join rs) (seq 0 n)) as [out Hout].
  { apply list.Forall_forall. intros j [_ Hj]%elem_of_seq. destruct (Hall_in j) as [b Hb']; [lia|].
    exists b. by apply join_ok. }
  exists out. split; [done|]. apply try_map_ok in Hout.
  assert (length out = n) as Hlen by (apply Forall2_length in Hout; by rewrite length_seq in Hout).
  split; [done|]. intros j a. split; intros Hj.
  - destruct (Forall2_lookup_r _ _ _ _ _ Hout Hj) as (j' & Hj' & Hjoin).
    apply lookup_seq in Hj' as [-> Hlt]. cbn in Hjoin. destruct (Hall_in j Hlt) as [b Hb'].
    rewrite (join_ok _ _ _ Hd Hb') in Hjoin. by apply Ok_inj in Hjoin as <-.
  - assert (j < n)%nat as Hlt.
    { assert (j ∈ rs.*1) as Hin by (apply list_elem_of_fmap; by exists (j, a)).
      rewrite Hs in Hin. apply elem_of_seq in Hin. lia. }
    destruct (Forall2_lookup_l _ _ _ j j Hout) as (b & Hb' & Hjoin); [by apply lookup_seq|].
    rewrite (join_ok _ _ _ Hd Hj) in Hjoin. by apply Ok_inj in Hjoin as <-.
Qed.

(** The handles are joined: one result is the winner's. *)
Lemma wp_concurrently schedule t (Q : list A -> TestState -> Prop) :
  schedules (length threads) schedule -> (0 < length threads)%nat ->
  (forall rs k a t', length rs = length threads -> rs !! k = Some a -> ok a = true ->
     (forall j b, j <> k -> rs !! j = Some b -> ok b = false) ->
     (forall j b, rs !! j = Some b -> post j b) -> Q rs (at_ self p t')) ->
  wp (concurrently schedule threads) Q (at_ self (<[session := e]> p) t).
Proof.
  intros Hs Hn HQ. unfold schedules in Hs.
  assert (Forall (fun k => k < length threads)%nat schedule) as Hlt.
  { rewrite Hs. apply list.Forall_forall. intros k [_ Hk]%elem_of_seq. exact Hk. }
  destruct schedule as [|k schedule].
  { apply Permutation_nil_l in Hs. destruct (length threads); [lia|discriminate Hs]. }
  unfold concurrently. apply wp_bind, wp_winner; [done|]. intros a rs t' Ha Hg Hrs Hall.
  destruct (joins_ok ((k, a) :: rs) (length threads)) as (out & Hout & Hlen & Hlookup);
    [by rewrite fmap_cons, Hrs|].
  rewrite list.Forall_forall in Hall.
  eapply wp_lift; [exact Hout|]. apply (HQ out k a); [done|apply Hlookup, elem_of_cons; by left|done|..].
  - intros j b Hj Hb'. apply Hlookup, elem_of_cons in Hb' as [E|Hb']; [by injection E as -> _|]. apply (Hall _ Hb').
  - intros j b Hb'. apply Hlookup, elem_of_cons in Hb' as [E|Hb']; [by injection E as -> ->|]. apply (Hall _ Hb').
Qed.

End Threads.

(** The two racing calls. *)
Definition race_ok (r : Result Error FinishResponse + Result Error unit) : bool :=
  match r with inl r => is_ok r | inr r => is_ok r end.

Definition race_post (i : Intent) (prepared : PreparedSession) (k : nat)
    (r : Result Error FinishResponse + Result Error unit) : Prop :=
  match k with
  | O => exists result, r = inl result /\ forall response, result = Ok response -> answered_by i prepared response
  | _ => exists result, r = inr result
  end.

End Lemmas.

(* ------------------------------------------------------------------ *)
(** ** Properties *)

Section Theorems.
  Context {runtime : WasmRuntime} {outpoint_codec : OutPointCodec} {auth : NativeAuth}.
  Context {sapio : SapioProgram} {prim : KeyPrimitives} {upstream : Upstream} {ark : ArkLib} {requests : ArkRequests}.
  Context {codec : PolicyCodec VtxoPolicy} {musig : NestedMusig} {musig_laws : NestedMusigLaws}.
  Context (world : World) (template : bool -> Fixture) (root_ : Xpriv) (self : ArkSigner).
  Context (action : bool -> SigningAction) (program : bool -> ProgramInstance) (intent : bool -> Intent).

(** A program share may be released before the server's, and once. *)
Theorem deferred_server_share_passes :
  bench world template root_ self action program intent ->
  passes (native_forfeit_can_receive_server_share_after_program_share world template).
Proof.
  intros Hb. apply wp_passes. intros st. apply wp_bind. eapply wp_new_signer; [exact Hb|].
  apply wp_bind. eapply wp_prepare_fresh; [exact Hb|apply fresh_empty|rewrite map_size_empty; lia|].
  intros prepared e Hp Hn. apply wp_bind. eapply wp_bench_finish; [exact Hb|exact Hp|by right|by rewrite lookup_insert_eq|].
  intros response Ha. rewrite delete_insert_id by done. apply wp_bind. eapply wp_unwrap; [done|].
  apply wp_bind. eapply wp_gone; [exact Hb|done|]. apply wp_bind, wp_assert; [done|].
  by eapply wp_complete.
Qed.

(** Of a finish and a cancel that race for one session, exactly one
    succeeds under every schedule of the two threads, a released share
    completes, and afterwards both calls are refused. *)
Theorem one_terminal_winner schedule :
  bench world template root_ self action program intent -> schedules 2 schedule ->
  passes (concurrent_finish_and_cancel_have_one_terminal_winner world template schedule).
Proof.
  intros Hb Hs. apply wp_passes. intros st. apply wp_bind. eapply wp_new_signer; [exact Hb|].
  apply wp_bind. eapply wp_prepare_fresh; [exact Hb|apply fresh_empty|rewrite map_size_empty; lia|].
  intros prepared e Hp Hn. apply wp_bind.
  eapply (wp_concurrently _ race_ok (race_post (intent false) prepared)); [..|exact Hs|cbn; lia|].
  - intros [|[|k]] th t' Q Hth HQ; [injection Hth as <-|injection Hth as <-|discriminate Hth].
    + apply wp_bind. eapply wp_gone; [exact Hb|done|]. apply wp_ret, HQ; [done|]. by eexists.
    + apply wp_bind. eapply wp_cancel_gone; [exact Hb|done|]. intros x. apply wp_ret, HQ; [done|]. by eexists.
  - intros [|[|k]] th t' Q Hth HQ; [injection Hth as <-|injection Hth as <-|discriminate Hth].
    + apply wp_bind. eapply wp_bench_finish; [exact Hb|exact Hp|by left|by rewrite lookup_insert_eq|].
      intros response Ha. rewrite delete_insert_id by done. apply wp_ret, HQ; [done|].
      eexists. split; [done|]. by intros ? [= <-].
    + apply wp_bind. eapply wp_cancel; [exact Hb|by rewrite lookup_insert_eq|].
      cbn [cancel_of cancel_session cancel_protocol]. rewrite delete_insert_id, bool_decide_eq_true_2 by done.
      apply wp_ret, HQ; [done|]. by eexists.
  - intros rs k a t' Hlen Hk Hok Hlose Hpost.
    destruct rs as [|r0 [|r1 [|? ?]]]; try discriminate Hlen.
    destruct (Hpost 0%nat r0 eq_refl) as (finished & -> & Hans). destruct (Hpost 1%nat r1 eq_refl) as [cancelled ->].
    apply wp_bind. eapply wp_lift; [reflexivity|].
    assert (is_ok finished <> is_ok cancelled) as Hne.
    { destruct k as [|[|k]]; [| |discriminate Hk]; injection Hk as <-; cbn in Hok; rewrite Hok.
      - pose proof (Hlose 1%nat _ ltac:(done) eq_refl) as H1. cbn in H1. by rewrite H1.
      - pose proof (Hlose 0%nat _ ltac:(done) eq_refl) as H0. cbn in H0. by rewrite H0. }
    apply wp_bind, wp_assert; [by rewrite bool_decide_eq_false_2|]. apply wp_bind.
    assert (forall Q : unit -> TestState -> Prop, Q tt (at_ self ∅ t') ->
      wp match finished with Ok response => _ ← lift (complete prepared (template false) response); mret tt
         | _ => mret tt end Q (at_ self ∅ t')) as Hcomplete.
    { intros Q HQ. destruct finished as [response|x|w]; [|by apply wp_ret..].
      eapply wp_complete; [exact Hb|exact Hp|by apply Hans|done]. }
    apply Hcomplete. apply wp_bind. eapply wp_gone; [exact Hb|done|]. apply wp_bind, wp_assert; [done|].
    apply wp_bind. eapply wp_cancel_gone; [exact Hb|done|]. intros x. by apply wp_assert.
Qed.

(** C8: of eight concurrent finishes of one session, exactly one releases a
    share under every schedule, the share completes, and the pool is empty. *)
Theorem exactly_one_share schedule :
  bench world template root_ self action program intent -> schedules 8 schedule ->
  passes (concurrent_finish_releases_exactly_one_valid_share world template schedule).
Proof.
  intros Hb Hs. apply wp_passes. intros st. apply wp_bind. eapply wp_new_signer; [exact Hb|].
  apply wp_bind. eapply wp_prepare_fresh; [exact Hb|apply fresh_empty|rewrite map_size_empty; lia|].
  intros prepared e Hp Hn. apply wp_bind.
  eapply (wp_concurrently _ is_ok (fun _ r => forall response, r = Ok response -> answered_by (intent false) prepared response));
    [..|exact Hs|cbn; lia|].
  - intros k th t Q Hth HQ. apply lookup_replicate in Hth as [-> _]. eapply wp_gone; [exact Hb|done|]. by apply HQ.
  - intros k th t Q Hth HQ. apply lookup_replicate in Hth as [-> _].
    eapply wp_bench_finish; [exact Hb|exact Hp|by left|by rewrite lookup_insert_eq|].
    intros response Ha. rewrite delete_insert_id by done. apply HQ; [done|]. by intros ? [= <-].
  - intros rs k a t' Hlen Hk Hok Hlose Hpost. destruct (filter_one _ _ _ _ Hk Hok Hlose) as [H1 H2].
    destruct a as [response|x|w]; [|discriminate Hok..].
    apply wp_bind, wp_assert; [by rewrite H1, bool_decide_eq_true_2|].
    apply wp_bind, wp_assert; [unfold is_err; rewrite H2, Hlen; by apply bool_decide_eq_true_2|].
    apply wp_bind, wp_pending; [apply (bench_available _ _ _ _ _ _ _ Hb)|].
    apply wp_bind, wp_assert; [by rewrite bool_decide_eq_true_2|].
    apply wp_bind. eapply wp_gone; [exact Hb|done|]. apply wp_bind, wp_assert; [done|].
    destruct (list_find (fun r => is_ok r = true) rs) as [[i r]|] eqn:Hfind.
    + pose proof Hfind as Hfound. apply list_find_Some in Hfound as (Hi & Hr & _).
      destruct r as [response'|x|w]; [|discriminate Hr..].
      apply wp_bind. eapply wp_lift; [reflexivity|].
      eapply wp_complete; [exact Hb|exact Hp|by apply (Hpost _ _ Hi)|done].
    + apply list_find_None in Hfind. rewrite list.Forall_forall in Hfind.
      exfalso. apply (Hfind (Ok response)); [by eapply list_elem_of_lookup_2|done].
Qed.

(** A restarted signer of the same root knows no session of the old one. *)
Theorem fresh_signer_passes :
  bench world template root_ self action program intent ->
  passes (fresh_signer_with_identical_root_cannot_revive_old_sessions world template).
Proof.
  intros Hb. apply wp_passes. intros st. apply wp_bind. eapply wp_new_signer; [exact Hb|].
  apply wp_bind. eapply wp_prepare_fresh; [exact Hb|apply fresh_empty|rewrite map_size_empty; lia|].
  intros old e Hold _. apply wp_bind, wp_read. apply wp_bind. eapply wp_new_signer; [exact Hb|].
  apply wp_bind, wp_read. apply wp_bind, wp_assert; [by apply bool_decide_eq_true_2|].
  apply wp_bind. eapply wp_gone; [exact Hb|done|]. apply wp_bind, wp_assert; [done|].
  apply wp_bind. eapply wp_cancel_gone; [exact Hb|done|]. intros x. apply wp_bind, wp_assert; [done|].
  apply wp_bind. eapply wp_prepare_fresh; [exact Hb|apply fresh_empty|rewrite map_size_empty; lia|].
  intros fresh_ e' Hfresh _.
  assert (finish_session (prepared_finish fresh_) <> finish_session (prepared_finish old)) as Hne
    by (eapply honest_ids_differ; [exact Hb|exact Hfresh|exact Hold|cbn; lia]).
  apply wp_bind, wp_assert; [by rewrite bool_decide_eq_false_2|].
  apply wp_bind. eapply wp_gone; [exact Hb|by rewrite lookup_insert_ne|]. apply wp_bind, wp_assert; [done|].
  eapply wp_finish_and_complete; [exact Hb|exact Hfresh|by rewrite lookup_insert_eq|done].
Qed.

(** Cancelling and expiry end a session: after a cancel of any protocol
    text, and once a session is past its lifetime, no call finds it; an expired
    session is dropped by the next prepare and its slot used again. *)
Theorem cancellation_and_expiry_pass :
  bench world template root_ self action program intent ->
  passes (cancellation_and_expiry_are_terminal_without_sleeping world template).
Proof.
  intros Hb. apply wp_passes. intros st. apply wp_bind. eapply wp_new_signer; [exact Hb|].
  assert (fresh world ∅ /\ (size (∅ : gmap bytes Pending) < 8)%nat) as [Hf Hs]
    by (split; [apply fresh_empty|rewrite map_size_empty; lia]).
  apply wp_bind. cbn [mapM]. apply wp_bind. eapply wp_cancel_round; [exact Hb|done..|].
  apply wp_bind, wp_bind. eapply wp_cancel_round; [exact Hb|done..|]. apply wp_bind, wp_ret, wp_ret, wp_ret.
  (* the expired session *)
  apply wp_bind. eapply wp_prepare_fresh; [exact Hb|done..|]. intros expired e Hp Hn.
  apply wp_bind. eapply wp_expire; [exact Hb|by rewrite lookup_insert_eq|]. intros e1 _ He1. rewrite insert_insert_eq.
  destruct (finish_session_expired world self (S (3 + (4 + (4 + tick st)))) e1 (prepared_finish expired)) as [x Hx];
    [apply He1; lia|].
  apply wp_bind. eapply wp_consumed; [exact Hb|done|by rewrite lookup_insert_eq|exact Hx|].
  rewrite delete_insert_id by done.
  (* the pruned one *)
  apply wp_bind. eapply wp_prepare_fresh; [exact Hb|done..|]. intros pruned e2 Hp2 Hn2.
  apply wp_bind. eapply wp_expire; [exact Hb|by rewrite lookup_insert_eq|]. intros e3 _ He3. rewrite insert_insert_eq.
  match goal with |- wp _ _ (at_ _ ?q ?t) =>
    assert (live (clock world (S t)) q = ∅) as Hlive
      by (rewrite live_expired by (apply He3; lia); rewrite live_fresh by done; by rewrite delete_id) end.
  apply wp_bind. eapply wp_bench_prepare; [exact Hb|by rewrite Hlive..|].
  rewrite Hlive. intros fresh_ e4 Hp4 Hn4 _.
  assert (finish_session (prepared_finish fresh_) <> finish_session (prepared_finish pruned)) as Hne
    by (eapply honest_ids_differ; [exact Hb|exact Hp4|exact Hp2|lia]).
  apply wp_bind, wp_pending; [apply (bench_available _ _ _ _ _ _ _ Hb)|].
  apply wp_bind, wp_assert; [rewrite lookup_insert_ne by done; by apply bool_decide_eq_true_2|].
  apply wp_bind. eapply wp_gone; [exact Hb|by rewrite lookup_insert_ne|]. apply wp_bind, wp_assert; [done|].
  eapply wp_finish_and_complete; [exact Hb|exact Hp4|by rewrite lookup_insert_eq|done].
Qed.

(** C10: every malformed finish and every wrong server share is refused and still
    consumes its session: no retry of the honest request succeeds, and a session
    prepared beside it is unaffected. *)
Theorem malformed_finish_passes :
  bench world template root_ self action program intent -> wire_rejects world program intent ->
  passes (malformed_finish_and_wrong_server_shares_consume_the_session world template).
Proof.
  intros Hb Hwire. apply wp_passes. intros st. apply wp_bind. eapply wp_new_signer; [exact Hb|].
  assert (fresh world ∅ /\ (size (∅ : gmap bytes Pending) < 8)%nat) as [Hf Hs]
    by (split; [apply fresh_empty|rewrite map_size_empty; lia]).
  apply wp_bind.
  eapply wp_mono; [apply (wp_mapM _ (fun l (_ : list unit) st => (forall m, m ∈ l -> m ∈ finish_mutations) /\
    exists t, st = at_ self ∅ t) _ []); [split; [done|by eexists]|]|].
  { intros mutate l acc st' (Hl & t & ->). apply wp_bind. eapply wp_prepare_fresh; [exact Hb|done..|].
    intros prepared e Hp Hn.
    destruct (mutations_refused _ _ _ _ _ _ _ Hb t (3 + t) prepared e mutate) as [Hid [x Hx]];
      [done..|apply Hl, elem_of_cons; by left|].
    eapply wp_consumed; [exact Hb|done|by rewrite lookup_insert_eq|exact Hx|]. rewrite delete_insert_id by done.
    split; [|by eexists]. intros m Hm. apply Hl, elem_of_cons. by right. }
  intros ys st' (_ & t & ->). apply wp_bind. eapply wp_prepare_fresh; [exact Hb|done..|]. intros first e1 Hp1 Hn1.
  pose proof (honest_fresh _ _ _ _ _ _ (bench_world _ _ _ _ _ _ _ Hb) Hp1) as Hf1.
  apply wp_bind. eapply wp_prepare_fresh; [exact Hb|by apply fresh_insert|rewrite map_size_insert_None, map_size_empty by done; lia|].
  intros second e2 Hp2 Hn2. apply lookup_insert_None in Hn2 as [_ Hne].
  apply wp_bind. destruct (crossed_refused _ _ _ _ _ _ _ Hb _ _ (3 + (3 + t)) first second e1 e2 Hwire Hp1 Hp2) as [x Hx]; [lia|].
  eapply wp_consumed; [exact Hb|done|by rewrite lookup_insert_ne, lookup_insert_eq|exact Hx|].
  rewrite insert_insert_ne, delete_insert_id; [|by rewrite lookup_insert_ne|done].
  apply wp_bind. eapply wp_finish_and_complete; [exact Hb|exact Hp2|by rewrite lookup_insert_eq|].
  rewrite delete_insert_id by done.
  apply wp_bind. eapply wp_prepare_fresh; [exact Hb|done..|]. intros claim e3 Hp3 Hn3.
  match goal with |- wp _ _ (at_ _ _ ?u) => destruct (extraneous_refused _ _ _ _ _ _ _ Hb _ u claim e3 (hex_encode (replicate 32 Byte.x00)) Hp3) as [y Hy] end.
  { destruct (partial_zero _ _ _ Hwire) as [[y Hy]|(zero & Hz & _)]; eauto. }
  by eapply wp_consumed; [exact Hb|done|by rewrite lookup_insert_eq|exact Hy|].
Qed.

(** The signature of a claim outlives the signer. *)
Theorem delayed_claim_passes :
  bench world template root_ self action program intent ->
  passes (signed_delayed_claim_verifies_after_signer_is_dropped world template).
Proof.
  intros Hb. apply wp_passes. intros st. apply wp_bind. eapply wp_new_signer; [exact Hb|].
  pose proof (bench_authentic _ _ _ _ _ _ _ Hb true) as Hf.
  apply wp_bind. eapply wp_sign; [apply Hb|apply (bench_available _ _ _ _ _ _ _ Hb)|exact Hf
    |apply (bench_admissible _ _ _ _ _ _ _ Hb)| |].
  - rewrite live_fresh by apply fresh_empty. unfold room, held_by. by rewrite map_filter_empty, map_size_empty.
  - intros s Hs. eapply wp_lift; [by eapply verify_honest|done].
Qed.

End Theorems.
