(* ===== verification/OwnershipTests.v ===== *)
(** * OwnershipTests: ownership requests and the native policy (src/ark_signer.rs, mod tests)

    The fixtures of the tests that prepare ownership proofs, the tests of the
    native policy in front of a reservation, and the theorems that they pass.
    Programs, VTXOs and JSON values are upstream's: [OwnershipLib].  What serde
    derives for the policy document is [document_of_json]. *)

From S2P Require Import Prelude Bytes NativePolicy Bitcoin Program Evaluator Keys Deployment ArkSigner Scenario SigningProtocol.
From S2P Require Import SignerTests.

Open Scope N_scope.

(** The JSON values the policy tests build with [serde_json::json!]. *)
Inductive Json :=
| JsonNumber (n : N)
| JsonBool (b : bool)
| JsonStrings (l : list bytes).

Class OwnershipLib {sapio : SapioProgram} {prim : KeyPrimitives} {upstream : Upstream} {ark : ArkLib} := {
  program_new : EvaluatorId -> bytes -> bytes -> Result Error ProgramId;
  public_key_bytes : ArkSigner.PublicKey -> bytes;
  new_p2tr : ArkSigner.PublicKey -> bytes;
  new_pubkey : ArkSigner.PublicKey -> VtxoPolicy;
  check_block_delta : N -> Result Error N;
  Vtxo : Type;
  vtxo_new : OutPoint -> VtxoPolicy -> N -> N -> ArkSigner.PublicKey -> N -> OutPoint -> Vtxo;
  vtxo_serialize : Vtxo -> bytes;
  vtxo_deserialize : bytes -> Result Error Vtxo;
  vtxo_id : Vtxo -> bytes;
  from_sat_per_vb : N -> option N;
  ownership_request_new : Vtxo -> OwnershipProof VtxoPolicy -> OwnershipRequest;
  json_to_vec : list (bytes * Json) -> Result Error bytes;
  TEMPLATEHASH : bytes;
}.

(* ------------------------------------------------------------------ *)
(** ** The derived deserializer of the document *)

(** The value of a field; serde refuses a second one. *)
Definition json_field (name : string) (fields : list (bytes * Json)) : option (option Json) :=
  match filter (fun f => fst f = lit name) fields with
  | [] => Some None
  | [(_, v)] => Some (Some v)
  | _ => None
  end.

Definition json_strings (name : string) (fields : list (bytes * Json)) : option (list bytes) :=
  v ← json_field name fields;
  match v with
  | None => Some []
  | Some (JsonStrings l) => Some l
  | Some _ => None
  end.

Definition json_bool (name : string) (fields : list (bytes * Json)) : option bool :=
  v ← json_field name fields;
  match v with
  | None => Some false
  | Some (JsonBool b) => Some b
  | Some _ => None
  end.

Definition document_fields : list bytes := lit <$>
  ["version"; "offboard"; "arkoor"; "round"; "delegated_round"; "status"; "lightning_receive"]%string.

(** [#[derive(Deserialize)]] on [Document]: unknown and repeated fields are
    refused, all but the version have a default. *)
Definition document_of_json (fields : list (bytes * Json)) : option Document :=
  if negb (forallb (fun f => bool_decide (fst f ∈ document_fields)) fields) then None else
  v ← json_field "version" fields;
  version ← match v with Some (JsonNumber n) => if n <? 256 then Some n else None | _ => None end;
  o ← json_strings "offboard" fields;
  a ← json_strings "arkoor" fields;
  r ← json_strings "round" fields;
  d ← json_strings "delegated_round" fields;
  s ← json_bool "status" fields;
  l ← json_bool "lightning_receive" fields;
  Some {| version := version; doc_offboard := o; doc_arkoor := a; doc_round := r; doc_delegated_round := d;
          doc_status := s; doc_lightning_receive := l |}.

(** Documented: a JSON object is read back as its fields. *)
Class OwnershipLaws {sapio : SapioProgram} {prim : KeyPrimitives} {upstream : Upstream} {ark : ArkLib}
    {codec : PolicyCodec VtxoPolicy} {ownership : OwnershipLib} : Prop := {
  json_read fields text d :
    json_to_vec fields = Ok text -> document_of_json fields = Some d -> document_from_slice text = Ok d;
  ownership_proof_new input proof : ownership_proof (ownership_request_new input proof) = proof;
}.

(** ark::sapio::program::Program: its parts and its id. *)
Record TestProgram := {
  program_evaluator : EvaluatorId;
  program_module : bytes;
  program_parameters : bytes;
  program_identity : ProgramId;
}.

Section Tests.
  Context {runtime : WasmRuntime} {outpoint_codec : OutPointCodec} {auth : NativeAuth}.
  Context {sapio : SapioProgram} {prim : KeyPrimitives} {upstream : Upstream} {ark : ArkLib} {requests : ArkRequests}.
  Context {codec : PolicyCodec VtxoPolicy} {musig : NestedMusig} {ownership : OwnershipLib}.
  Variable world : World.

(** [Program::new(..).unwrap()]. *)
Definition new_program (evaluator_ : EvaluatorId) (module parameters_ : bytes) : Result Error TestProgram :=
  id ← unwrap_ok (program_new evaluator_ module parameters_) "Program::new";
  Ok {| program_evaluator := evaluator_; program_module := module; program_parameters := parameters_;
        program_identity := id |}.

(** [recipient(byte)]. *)
Definition recipient (b : byte) : Result Error bytes := (fun kp => new_p2tr (keypair_public kp)) <$> key b.

Definition payment_parameters (amount_ : N) : Result Error bytes :=
  destination ← recipient Byte.x45;
  Ok (le_bytes 8 amount_ ++ le_bytes 4 (len destination mod 2 ^ 32) ++ destination).

Definition payment_program : Result Error TestProgram :=
  parameters_ ← payment_parameters 9000;
  new_program (for_wasm_version PAY_AT_LEAST_WASM V1) PAY_AT_LEAST_SELECTOR parameters_.

Definition FUNDING : N := 10000.
Definition EXIT_DELAY : N := 12.

Definition ownership_fixture (program_ : TestProgram) (user : byte) : Result Error (ProgramKey * Vtxo * Keypair) :=
  user_key ← key user;
  root_ ← test_root;
  let program_key := {|
    key_root := xpub_from_priv root_; user_pubkey := keypair_public user_key;
    key_evaluator := program_evaluator program_; key_program := program_module program_;
    key_parameters := program_parameters program_; key_program_id := program_identity program_ |} in
  let point := {| txid := replicate 32 user; vout := 0 |} in
  owner ← unwrap_ok (group_pubkey program_key) "public_key";
  server ← key Byte.x43;
  delta ← unwrap_ok (check_block_delta EXIT_DELAY) "check_block_delta";
  let bare := vtxo_new point (new_pubkey owner) FUNDING 500 (keypair_public server) delta point in
  input ← unwrap_ok (vtxo_deserialize (vtxo_serialize bare)) "deserialize";
  Ok (program_key, input, user_key).

Definition ownership_prepare (program_key : ProgramKey) (input : Vtxo) (proof : OwnershipProof VtxoPolicy)
    (user_key : Keypair) : Test PrepareRequest :=
  let action := Ownership (ownership_request_new input proof) in
  intent ← unwrap (action_intent action program_key);
  m ← draw world;
  nonce ← unwrap (nonce_new intent (keypair_public user_key) (wallet_randomness m));
  mret {| prepare_protocol := SIGNING_PROTOCOL; prepare_key := program_key;
          prepare_user_nonce := hex_encode (member_nonce_serialize (nonce_public nonce));
          prepare_action := action |}.

Definition ownership_request (user : byte) : Test PrepareRequest :=
  program_ ← lift payment_program;
  '(program_key, input, user_key) ← lift (ownership_fixture program_ user);
  ownership_prepare program_key input Status user_key.

Definition policy_program (document : list (bytes * Json)) (inner : bytes) : Result Error TestProgram :=
  document ← unwrap_ok (json_to_vec document) "to_vec";
  parameters_ ← encode document inner;
  new_program wasm_id TEMPLATEHASH parameters_.

Definition offboard_proof (input : Vtxo) (script : bytes) : Result Error (OwnershipProof VtxoPolicy) :=
  fee_rate ← expect (from_sat_per_vb 1) "valid fee rate";
  Ok (Offboard {| NativePolicy.script_pubkey := script; net_amount := FUNDING;
                  deduct_fees_from_gross_amount := false; fee_rate := fee_rate |} [vtxo_id input]).

(* ------------------------------------------------------------------ *)
(** ** The tests *)

(** Prepare an ownership proof; [signer.prepare(ownership_prepare(..))]. *)
Definition prepare_proof (program_key : ProgramKey) (input : Vtxo) (proof : OwnershipProof VtxoPolicy)
    (user_key : Keypair) : Test (Result Error PrepareResponse) :=
  request ← ownership_prepare program_key input proof user_key;
  signer_prepare world request.

Definition offboard_document (allowed : bytes) : list (bytes * Json) := [
  (lit "version", JsonNumber 1); (lit "offboard", JsonStrings [script_hex allowed]);
  (lit "arkoor", JsonStrings []); (lit "round", JsonStrings []); (lit "delegated_round", JsonStrings []);
  (lit "status", JsonBool true); (lit "lightning_receive", JsonBool false)].

Definition native_policy_binds_offboard_destination : Test unit :=
  allowed ← lift (recipient Byte.x45);
  denied ← lift (recipient Byte.x46);
  program_ ← lift (policy_program (offboard_document allowed) []);
  new_test_signer;;
  '(program_key, input, user_key) ← lift (ownership_fixture program_ Byte.x42);
  proof ← lift (offboard_proof input allowed);
  accepted ← prepare_proof program_key input proof user_key;
  unwrap accepted;;
  proof ← lift (offboard_proof input denied);
  rejected ← prepare_proof program_key input proof user_key;
  assert_that (error_contains rejected "offboard destination").

(** The two policies of the output tests. *)
Definition test_policy (b : byte) : Result Error VtxoPolicy := (fun kp => new_pubkey (keypair_public kp)) <$> key b.

Definition delegated_round_proof (p : VtxoPolicy) : OwnershipProof VtxoPolicy :=
  DelegatedRound [{| amount := 1000; policy := p |}].

Definition delegated_round_document (allowed : VtxoPolicy) : list (bytes * Json) := [
  (lit "version", JsonNumber 1); (lit "delegated_round", JsonStrings [policy_hex allowed]);
  (lit "status", JsonBool true)].

Definition native_policy_binds_delegated_round_outputs : Test unit :=
  allowed ← lift (test_policy Byte.x47);
  denied ← lift (test_policy Byte.x48);
  program_ ← lift (policy_program (delegated_round_document allowed) []);
  new_test_signer;;
  '(program_key, input, user_key) ← lift (ownership_fixture program_ Byte.x42);
  accepted ← prepare_proof program_key input (delegated_round_proof allowed) user_key;
  unwrap accepted;;
  rejected ← prepare_proof program_key input (delegated_round_proof denied) user_key;
  assert_that (error_contains rejected "delegated-round output policy").

Definition round_proof (cosign : Keypair) (p : VtxoPolicy) : OwnershipProof VtxoPolicy :=
  Round (replicate 32 Byte.x55) [{| vtxo := {| amount := 1000; policy := p |};
    cosign_pubkey := public_key_bytes (keypair_public cosign); nonces := [] |}].

Definition round_document (allowed : VtxoPolicy) : list (bytes * Json) := [
  (lit "version", JsonNumber 1); (lit "round", JsonStrings [policy_hex allowed]); (lit "status", JsonBool true)].

Definition native_policy_binds_round_outputs : Test unit :=
  allowed ← lift (test_policy Byte.x47);
  denied ← lift (test_policy Byte.x48);
  program_ ← lift (policy_program (round_document allowed) []);
  new_test_signer;;
  '(program_key, input, user_key) ← lift (ownership_fixture program_ Byte.x42);
  cosign ← lift (key Byte.x49);
  accepted ← prepare_proof program_key input (round_proof cosign allowed) user_key;
  unwrap accepted;;
  rejected ← prepare_proof program_key input (round_proof cosign denied) user_key;
  assert_that (error_contains rejected "round output policy").

Definition status_document (allowed : bool) : list (bytes * Json) :=
  [(lit "version", JsonNumber 1); (lit "status", JsonBool allowed)].

Definition native_policy_is_default_deny_for_status : Test unit :=
  program_ ← lift (policy_program (status_document false) []);
  new_test_signer;;
  '(program_key, input, user_key) ← lift (ownership_fixture program_ Byte.x42);
  rejected ← prepare_proof program_key input Status user_key;
  assert_that (error_contains rejected "does not allow status").

Definition malformed_native_policy_fails_closed : Test unit :=
  program_ ← lift (new_program wasm_id TEMPLATEHASH (MAGIC ++ [Byte.x01; Byte.x00]));
  new_test_signer;;
  '(program_key, input, user_key) ← lift (ownership_fixture program_ Byte.x42);
  rejected ← prepare_proof program_key input Status user_key;
  assert_that (error_contains rejected "native ownership policy").

Definition native_policy_requires_inline_wasm_program : Test unit :=
  document ← unwrap (json_to_vec (status_document true));
  parameters_ ← lift (encode document []);
  program_ ← lift (new_program (for_wasm_version PAY_AT_LEAST_WASM V1) PAY_AT_LEAST_SELECTOR parameters_);
  new_test_signer;;
  '(program_key, input, user_key) ← lift (ownership_fixture program_ Byte.x42);
  rejected ← prepare_proof program_key input Status user_key;
  assert_that (error_contains rejected "inline WASM").

End Tests.

(* ------------------------------------------------------------------ *)
(** ** Lemmas *)

Section Lemmas.
  Context {runtime : WasmRuntime} {outpoint_codec : OutPointCodec} {auth : NativeAuth}.
  Context {sapio : SapioProgram} {sapio_laws : SapioProgramLaws}.
  Context {prim : KeyPrimitives} {upstream : Upstream} {ark : ArkLib} {requests : ArkRequests}.
  Context {codec : PolicyCodec VtxoPolicy} {codec_laws : PolicyCodecLaws VtxoPolicy}.
  Context {musig : NestedMusig} {musig_laws : NestedMusigLaws}.
  Context {ownership : OwnershipLib} {ownership_laws : OwnershipLaws}.

(** A world in which an ownership request of a test key names the signer's root
    and its parts agree. *)
Record ownership_bench (world : World) (root_ : Xpriv) (self : ArkSigner) : Prop := {
  owner_world : healthy world;
  owner_root : new_master Regtest (replicate 32 Byte.x41) = Ok root_;
  owner_signer : ArkSigner_new root_ = Ok self;
  owner_key b : Byte.to_N b <> 0 -> Byte.to_N b <> 255 -> exists kp, key b = Ok kp;
  owner_program e m ps id : program_new e m ps = Ok id ->
    exists program, program_instance_new e m ps = Ok program /\ program_id program = id;
  owner_fixture program_ b : Byte.to_N b <> 0 -> Byte.to_N b <> 255 ->
    exists key_ input kp, ownership_fixture program_ b = Ok (key_, input, kp);
  owner_intent program_ b key_ input kp program proof :
    ownership_fixture program_ b = Ok (key_, input, kp) ->
    program_instance_new (key_evaluator key_) (key_program key_) (key_parameters key_) = Ok program ->
    exists intent, action_intent (Ownership (ownership_request_new input proof)) key_ = Ok intent /\
      fst (members intent) = user_pubkey key_ /\
      derive_public_key program (key_root key_) = Ok (snd (members intent)) /\
      ownership_message (ownership_request_new input proof) key_ = Ok (intent_message intent);
}.

Context (world : World) (root_ : Xpriv) (self : ArkSigner).
Hypothesis Hb : ownership_bench world root_ self.

(** A program with the id upstream gives it. *)
Definition well_made (program_ : TestProgram) : Prop :=
  program_new (program_evaluator program_) (program_module program_) (program_parameters program_)
  = Ok (program_identity program_).

Lemma new_program_made e m ps program_ :
  new_program e m ps = Ok program_ ->
  well_made program_ /\ program_evaluator program_ = e /\ program_parameters program_ = ps.
Proof.
  unfold new_program, well_made. destruct (program_new e m ps) as [id|x|w] eqn:H; intros E; try discriminate E.
  by apply Ok_inj in E as <-.
Qed.

Lemma owner_available : available self.
Proof. by eapply available_new, owner_signer. Qed.

(** The request of an ownership proof, its program and its intent. *)
Lemma owner_identified program_ b key_ input kp proof :
  well_made program_ -> ownership_fixture program_ b = Ok (key_, input, kp) ->
  exists program intent,
    identified self key_ (Ownership (ownership_request_new input proof)) program intent /\
    evaluator program = program_evaluator program_ /\ parameters program = program_parameters program_ /\
    fst (members intent) = user_pubkey key_ /\ user_pubkey key_ = keypair_public kp /\ key b = Ok kp /\
    ownership_message (ownership_request_new input proof) key_ = Ok (intent_message intent).
Proof.
  intros Hmade Hfix. destruct (owner_program _ _ _ Hb _ _ _ _ Hmade) as (program & Hprogram & Hid).
  pose proof Hfix as Hparts. unfold ownership_fixture in Hparts. apply bind_ok in Hparts as (kp' & Hkey & Hparts).
  apply bind_ok in Hparts as (r & Hroot & Hparts). unfold test_root in Hroot.
  rewrite (owner_root _ _ _ Hb) in Hroot. apply Ok_inj in Hroot as <-.
  apply bind_ok in Hparts as (? & _ & Hparts). apply bind_ok in Hparts as (? & _ & Hparts).
  apply bind_ok in Hparts as (? & _ & Hparts). apply bind_ok in Hparts as (? & _ & Hparts).
  apply Ok_inj in Hparts as [= Hk _ <-].
  assert (program_instance_new (key_evaluator key_) (key_program key_) (key_parameters key_) = Ok program) as Hinst
    by by rewrite <- Hk.
  destruct (owner_intent _ _ _ Hb _ _ _ _ _ program proof Hfix Hinst) as (intent & Hi & Hu & Hd & Hm).
  exists program, intent. split; [|split_and!; try done; try (by rewrite <- Hk)].
  - split; try done; [|by rewrite <- Hk]. rewrite <- Hk. cbn. destruct owner_available as [_ ->].
    by destruct (new_empty _ _ (owner_signer _ _ _ Hb)) as (_ & _ & -> & _).
  - apply program_instance_new_ok in Hprogram as ->. done.
  - apply program_instance_new_ok in Hprogram as ->. done.
Qed.

(** The request [ownership_prepare] builds. *)
Definition proof_request (key_ : ProgramKey) (input : Vtxo) (proof : OwnershipProof VtxoPolicy) (n : Nonce) : PrepareRequest := {|
  prepare_protocol := SIGNING_PROTOCOL; prepare_key := key_;
  prepare_user_nonce := hex_encode (member_nonce_serialize (nonce_public n));
  prepare_action := Ownership (ownership_request_new input proof) |}.

(** What the checks say of an ownership request, whatever nonce it carries. *)
Definition decided (key_ : ProgramKey) (input : Vtxo) (proof : OwnershipProof VtxoPolicy) (intent : Intent)
    (verdict : Result Error unit) : Prop :=
  forall p n r, nonce_new intent (fst (members intent)) r = Ok n ->
    match verdict with
    | Ok _ => exists program, check_request (with_pending self p) (proof_request key_ input proof n)
                              = Ok (program, intent, nonce_public n)
    | Err x => check_request (with_pending self p) (proof_request key_ input proof n) = Err x
    | Panic w => check_request (with_pending self p) (proof_request key_ input proof n) = Panic w
    end.

(** The policy's verdict on a proof: envelope, inline program, then the lists. *)
Definition policy_verdict (program_ : TestProgram) (proof : OwnershipProof VtxoPolicy) : Result Error unit :=
  native_policy ← NativePolicy.parse (program_parameters program_);
  if bool_decide (is_Some native_policy) && bool_decide (inline_wasm_version (program_evaluator program_) = None)
  then Err (Message "native ownership policy requires an inline WASM program") else
  match native_policy with
  | Some policy => NativePolicy_enforce policy proof
  | None => Ok tt
  end.

Lemma owner_decided program_ b key_ input kp proof :
  well_made program_ -> ownership_fixture program_ b = Ok (key_, input, kp) ->
  exists intent, action_intent (Ownership (ownership_request_new input proof)) key_ = Ok intent /\
    fst (members intent) = keypair_public kp /\
    decided key_ input proof intent (policy_verdict program_ proof).
Proof.
  intros Hmade Hfix.
  destruct (owner_identified _ _ _ _ _ proof Hmade Hfix) as (program & intent & Hid & He & Hps & Hu & Huk & _ & Hm).
  exists intent. split; [apply Hid|]. split; [congruence|]. intros p n r Hn.
  destruct (member_nonce_wire intent _ r n Hn) as (public & Hpub & Hfrom).
  assert (identified (with_pending self p) key_ (Ownership (ownership_request_new input proof)) program intent)
    as Hid' by (destruct Hid; by split).
  assert (member_nonce_from_bytes intent (user_pubkey key_) (nonce_serialize public) = Ok (nonce_public n)) as Hfrom'
    by by rewrite <- Hu.
  rewrite (check_request_identified (with_pending self p) (proof_request key_ input proof n) _ _ _ _ eq_refl Hid' Hpub Hfrom').
  cbn [prepare_key prepare_action proof_request]. rewrite He, Hps. unfold policy_verdict, authorize_action.
  rewrite ownership_proof_new, Hm.
  destruct (NativePolicy.parse (program_parameters program_)) as [[policy|]|x|w]; cbn [mbind Result_bind]; [..|done|done].
  - destruct (_ && _); [done|]. destruct (NativePolicy_enforce policy proof) as [[]|x|w]; cbn [mbind Result_bind]; [|done..].
    rewrite bool_decide_eq_true_2 by done. by eexists.
  - rewrite bool_decide_eq_false_2 by (intros []; discriminate). cbn [andb mbind Result_bind].
    rewrite bool_decide_eq_true_2 by done. by eexists.
Qed.

Lemma wp_ownership_prepare key_ input proof kp intent p t (Q : PrepareRequest -> TestState -> Prop) :
  action_intent (Ownership (ownership_request_new input proof)) key_ = Ok intent ->
  fst (members intent) = keypair_public kp ->
  (forall n, nonce_new intent (fst (members intent)) (wallet_randomness (world t)) = Ok n ->
     Q (proof_request key_ input proof n) (at_ self p (S t))) ->
  wp (ownership_prepare world key_ input proof kp) Q (at_ self p t).
Proof.
  intros Hi Hu HQ. destruct (wallet_entropy world (owner_world _ _ _ Hb) t intent) as [n Hn].
  apply wp_bind. eapply wp_unwrap; [by rewrite Hi|]. apply wp_bind, wp_draw.
  apply wp_bind. eapply wp_unwrap; [by rewrite <- Hu, Hn|]. by apply wp_ret, HQ.
Qed.

(** A request the checks refuse takes nothing. *)
Lemma wp_prepare_denied key_ input proof intent n r x p t (Q : Result Error PrepareResponse -> TestState -> Prop) :
  decided key_ input proof intent (Err x) -> nonce_new intent (fst (members intent)) r = Ok n ->
  Q (Err x) (at_ self p (S t)) -> wp (signer_prepare world (proof_request key_ input proof n)) Q (at_ self p t).
Proof.
  intros Hd Hn HQ. apply wp_bind, wp_draw. eapply (wp_call _ (Err x) (with_pending self p)); [|done|exact HQ].
  unfold prepare. cbn [at_ test_signer]. by rewrite (Hd p n r Hn).
Qed.

(** One they accept reserves a session where there is room. *)
Lemma wp_prepare_allowed key_ input proof intent n r p t (Q : Result Error PrepareResponse -> TestState -> Prop) :
  decided key_ input proof intent (Ok tt) -> nonce_new intent (fst (members intent)) r = Ok n ->
  room (fst (members intent)) (live (clock world t) p) ->
  (forall response e, live (clock world t) p !! response_session response = None ->
     response_session response ∈ session_ids (signer_env (world t)) ->
     pending_intent e = intent -> (forall u, clock world u < expires e) ->
     Q (Ok response) (at_ self (<[response_session response := e]> (live (clock world t) p)) (S t))) ->
  wp (signer_prepare world (proof_request key_ input proof n)) Q (at_ self p t).
Proof.
  intros Hd Hn [Hr1 Hr2] HQ. apply wp_bind, wp_draw. destruct (Hd p n r Hn) as [program Hc].
  destruct (signer_entropy world (owner_world _ _ _ Hb) t intent) as [nonce Hnonce].
  destruct (ids_enough world (owner_world _ _ _ Hb) t) as [Hids Hlen].
  destruct (prepare_admitted (with_pending self p) (signer_env (world t)) (proof_request key_ input proof n)
              program intent (nonce_public n) nonce) as (session & Hprep & Hfree & Hin); try done.
  { apply owner_available. }
  eapply wp_call; [exact Hprep|done|].
  apply (HQ {| response_protocol := SIGNING_PROTOCOL; response_session := session; response_program_nonce := _ |}
            {| pending_intent := intent |}); [done..|]. intros u. apply (clock_in_time _ (owner_world _ _ _ Hb)).
Qed.

(** The policy program of a document enforces the policy it denotes. *)
Lemma policy_program_verdict document policy program_ proof :
  policy_program document [] = Ok program_ -> document_of_json document = Some (document_of policy) ->
  well_made program_ /\ policy_verdict program_ proof = NativePolicy_enforce policy proof.
Proof.
  intros Hp Hd. unfold policy_program in Hp. apply bind_ok in Hp as (text & Htext & Hp).
  apply bind_ok in Hp as (ps & Hps & Hp). apply new_program_made in Hp as (Hmade & He & Hpar).
  split; [done|]. unfold policy_verdict. rewrite He, Hpar. apply encode_ok in Hps as [Hl ->].
  destruct (json_to_vec document) as [t|x|w] eqn:Ht; try discriminate Htext. apply Ok_inj in Htext as ->.
  rewrite (parse_denoted text [] (document_of policy) policy);
    [|done|by eapply json_read|apply document_of_denotes].
  cbn [mbind Result_bind]. rewrite inline_v1. rewrite (bool_decide_eq_false_2 (Some V1 = None)) by done.
  by rewrite andb_false_r.
Qed.

(** The two halves of the policy tests: a proof accepted on an empty pool, and
    a proof refused. *)
Lemma wp_accept program_ key_ input kp accepted t (k : unit -> Test unit) (Q : unit -> TestState -> Prop) :
  well_made program_ -> ownership_fixture program_ Byte.x42 = Ok (key_, input, kp) ->
  policy_verdict program_ accepted = Ok tt -> (forall p t', wp (k tt) Q (at_ self p t')) ->
  wp (accepted ← prepare_proof world key_ input accepted kp; unwrap accepted ;; k tt) Q (at_ self ∅ t).
Proof.
  intros Hmade Hfix Ha HQ.
  destruct (owner_decided _ _ _ _ _ accepted Hmade Hfix) as (i1 & Hi1 & Hu1 & Hd1). rewrite Ha in Hd1.
  apply wp_bind, wp_bind. eapply wp_ownership_prepare; [done..|]. intros n Hn.
  eapply wp_prepare_allowed; [exact Hd1|exact Hn| |].
  { rewrite live_fresh by apply fresh_empty. unfold room, held_by. by rewrite map_filter_empty, map_size_empty. }
  intros response e _ _ _ _. apply wp_bind. by eapply wp_unwrap.
Qed.

Lemma wp_deny program_ key_ input kp denied x text p t (Q : unit -> TestState -> Prop) :
  well_made program_ -> ownership_fixture program_ Byte.x42 = Ok (key_, input, kp) ->
  policy_verdict program_ denied = Err (Message x) ->
  String.index 0 text x <> None -> (forall st, Q tt st) ->
  wp (rejected ← prepare_proof world key_ input denied kp;
      assert_that (error_contains rejected text)) Q (at_ self p t).
Proof.
  intros Hmade Hfix Hd Htext HQ.
  destruct (owner_decided _ _ _ _ _ denied Hmade Hfix) as (i2 & Hi2 & Hu2 & Hd2). rewrite Hd in Hd2.
  apply wp_bind, wp_bind. eapply wp_ownership_prepare; [done..|]. intros n Hn.
  eapply wp_prepare_denied; [exact Hd2|exact Hn|]. apply wp_assert; [|apply HQ].
  apply bool_decide_eq_true_2. by apply not_eq_None_Some.
Qed.

(** The documents and programs of the policy tests can be built, and their
    destinations and policies differ. *)
Record policy_documents : Prop := {
  builds_offboard allowed : recipient Byte.x45 = Ok allowed ->
    exists program_, policy_program (offboard_document allowed) [] = Ok program_;
  builds_delegated allowed : test_policy Byte.x47 = Ok allowed ->
    exists program_, policy_program (delegated_round_document allowed) [] = Ok program_;
  builds_round allowed : test_policy Byte.x47 = Ok allowed ->
    exists program_, policy_program (round_document allowed) [] = Ok program_;
  builds_status : exists program_, policy_program (status_document false) [] = Ok program_;
  builds_malformed : exists program_, new_program wasm_id TEMPLATEHASH (MAGIC ++ [Byte.x01; Byte.x00]) = Ok program_;
  builds_registered : exists text ps program_, json_to_vec (status_document true) = Ok text /\
    encode text [] = Ok ps /\
    new_program (for_wasm_version PAY_AT_LEAST_WASM V1) PAY_AT_LEAST_SELECTOR ps = Ok program_;
  recipients_differ : recipient Byte.x45 <> recipient Byte.x46;
  policies_differ : test_policy Byte.x47 <> test_policy Byte.x48;
  one_sat_per_vb : is_Some (from_sat_per_vb 1);
}.

Lemma recipient_ok b : Byte.to_N b <> 0 -> Byte.to_N b <> 255 -> exists r, recipient b = Ok r.
Proof. intros H1 H2. destruct (owner_key _ _ _ Hb b H1 H2) as [kp Hk]. unfold recipient. rewrite Hk. by eexists. Qed.

Lemma test_policy_ok b : Byte.to_N b <> 0 -> Byte.to_N b <> 255 -> exists p, test_policy b = Ok p.
Proof. intros H1 H2. destruct (owner_key _ _ _ Hb b H1 H2) as [kp Hk]. unfold test_policy. rewrite Hk. by eexists. Qed.

Lemma wp_start {A} (f : unit -> Test A) Q st : wp (f tt) Q (at_ self ∅ (tick st)) -> wp (new_test_signer ≫= f) Q st.
Proof. intros H. apply wp_bind. eapply wp_new_test_signer; [apply Hb|apply Hb|exact H]. Qed.

(** The refusal texts of the lists. *)
Definition refusal_text (proof : OwnershipProof VtxoPolicy) : string :=
  match proof with
  | Status => "native ownership policy does not allow status proofs"
  | Arkoor _ => "native ownership policy does not allow an arkoor output policy"
  | Round _ _ => "native ownership policy does not allow a round output policy"
  | DelegatedRound _ => "native ownership policy does not allow a delegated-round output policy"
  | Offboard _ _ => "native ownership policy does not allow the offboard destination"
  | LightningReceive _ => "native ownership policy does not allow lightning receives"
  end.

Lemma enforce_denies policy proof :
  ~ proof_allowed policy proof -> NativePolicy_enforce policy proof = Err (Message (refusal_text proof)).
Proof.
  intros H. rewrite <- enforce_allowed in H. destruct proof; cbn in *; unfold ensure in *;
    match goal with |- (if ?b then _ else _) = _ => destruct b end; congruence.
Qed.

(** A signer, the fixture of a policy program, and what its policy says. *)
Lemma wp_policy_fixture document policy program_ (k : ProgramKey * Vtxo * Keypair -> Test unit) Q st :
  policy_program document [] = Ok program_ -> document_of_json document = Some (document_of policy) ->
  (forall key_ input kp, well_made program_ -> ownership_fixture program_ Byte.x42 = Ok (key_, input, kp) ->
     (forall proof, policy_verdict program_ proof = NativePolicy_enforce policy proof) ->
     forall t, wp (k (key_, input, kp)) Q (at_ self ∅ t)) ->
  wp (new_test_signer ;; parts ← lift (ownership_fixture program_ Byte.x42); k parts) Q st.
Proof.
  intros Hp Hd HQ. apply wp_start.
  destruct (owner_fixture _ _ _ Hb program_ Byte.x42) as (key_ & input & kp & Hfix); [done..|].
  apply wp_bind. eapply wp_lift; [exact Hfix|].
  apply HQ; [apply (policy_program_verdict _ _ _ Status Hp Hd)|done|].
  intros proof. apply (policy_program_verdict _ _ _ proof Hp Hd).
Qed.

Lemma wp_refuses program_ policy key_ input kp proof text p t :
  well_made program_ -> ownership_fixture program_ Byte.x42 = Ok (key_, input, kp) ->
  policy_verdict program_ proof = NativePolicy_enforce policy proof -> ~ proof_allowed policy proof ->
  String.index 0 text (refusal_text proof) <> None ->
  wp (rejected ← prepare_proof world key_ input proof kp;
      assert_that (error_contains rejected text)) (fun _ _ => True) (at_ self p t).
Proof.
  intros Hmade Hfix Hv Hn Ht. rewrite (enforce_denies policy proof Hn) in Hv.
  by eapply wp_deny; [..|exact Hv|exact Ht|].
Qed.

Lemma offboard_test_passes : policy_documents -> passes (native_policy_binds_offboard_destination world).
Proof.
  intros Hdoc. apply wp_passes. intros st.
  destruct (recipient_ok Byte.x45) as [allowed Ha]; [done..|]. destruct (recipient_ok Byte.x46) as [denied Hd]; [done..|].
  apply wp_bind. eapply wp_lift; [exact Ha|]. apply wp_bind. eapply wp_lift; [exact Hd|].
  destruct (builds_offboard Hdoc allowed Ha) as [program_ Hp]. apply wp_bind. eapply wp_lift; [exact Hp|].
  eapply (wp_policy_fixture _ {| offboard := [allowed]; arkoor := []; round := []; delegated_round := [];
    status := true; lightning_receive := false |}); [exact Hp|reflexivity|].
  intros key_ input kp Hmade Hfix Hv t. destruct (one_sat_per_vb Hdoc) as [fee Hfee].
  apply wp_bind. eapply wp_lift; [by unfold offboard_proof; rewrite Hfee|].
  eapply (wp_accept _ _ _ _ _ _ (fun _ => _)); [done..| |].
  - rewrite Hv. apply enforce_allowed. cbn. by apply list_elem_of_singleton.
  - intros p t'. apply wp_bind. eapply wp_lift; [by unfold offboard_proof; rewrite Hfee|].
    eapply wp_refuses; [done|done|apply Hv| |done].
    cbn. intros H%list_elem_of_singleton. apply (recipients_differ Hdoc). by rewrite Ha, Hd, H.
Qed.

(** The two tests of output policies. *)
Lemma output_policies allowed denied :
  policy_documents -> test_policy Byte.x47 = Ok allowed -> test_policy Byte.x48 = Ok denied -> denied <> allowed.
Proof. intros Hdoc Ha Hd ->. apply (policies_differ Hdoc). by rewrite Ha, Hd. Qed.

Lemma delegated_round_test_passes : policy_documents -> passes (native_policy_binds_delegated_round_outputs world).
Proof.
  intros Hdoc. apply wp_passes. intros st.
  destruct (test_policy_ok Byte.x47) as [allowed Ha]; [done..|]. destruct (test_policy_ok Byte.x48) as [denied Hd]; [done..|].
  pose proof (output_policies _ _ Hdoc Ha Hd) as Hne.
  apply wp_bind. eapply wp_lift; [exact Ha|]. apply wp_bind. eapply wp_lift; [exact Hd|].
  destruct (builds_delegated Hdoc allowed Ha) as [program_ Hp]. apply wp_bind. eapply wp_lift; [exact Hp|].
  eapply (wp_policy_fixture _ {| offboard := []; arkoor := []; round := []; delegated_round := [allowed];
    status := true; lightning_receive := false |}); [exact Hp|reflexivity|].
  intros key_ input kp Hmade Hfix Hv t. eapply (wp_accept _ _ _ _ _ _ (fun _ => _)); [done..| |].
  - rewrite Hv. apply enforce_allowed. cbn. intros o ->%list_elem_of_singleton. by apply list_elem_of_singleton.
  - intros p t'. eapply wp_refuses; [done|done|apply Hv| |done].
    cbn. intros H. apply Hne, list_elem_of_singleton.
    specialize (H _ (list_elem_of_here _ _)). exact H.
Qed.

Lemma round_test_passes : policy_documents -> passes (native_policy_binds_round_outputs world).
Proof.
  intros Hdoc. apply wp_passes. intros st.
  destruct (test_policy_ok Byte.x47) as [allowed Ha]; [done..|]. destruct (test_policy_ok Byte.x48) as [denied Hd]; [done..|].
  pose proof (output_policies _ _ Hdoc Ha Hd) as Hne. destruct (owner_key _ _ _ Hb Byte.x49) as [cosign Hcosign]; [done..|].
  apply wp_bind. eapply wp_lift; [exact Ha|]. apply wp_bind. eapply wp_lift; [exact Hd|].
  destruct (builds_round Hdoc allowed Ha) as [program_ Hp]. apply wp_bind. eapply wp_lift; [exact Hp|].
  eapply (wp_policy_fixture _ {| offboard := []; arkoor := []; round := [allowed]; delegated_round := [];
    status := true; lightning_receive := false |}); [exact Hp|reflexivity|].
  intros key_ input kp Hmade Hfix Hv t. apply wp_bind. eapply wp_lift; [exact Hcosign|].
  eapply (wp_accept _ _ _ _ _ _ (fun _ => _)); [done..| |].
  - rewrite Hv. apply enforce_allowed. cbn. intros o ->%list_elem_of_singleton. by apply list_elem_of_singleton.
  - intros p t'. eapply wp_refuses; [done|done|apply Hv| |done].
    cbn. intros H. apply Hne, list_elem_of_singleton.
    specialize (H _ (list_elem_of_here _ _)). exact H.
Qed.

Lemma status_test_passes : policy_documents -> passes (native_policy_is_default_deny_for_status world).
Proof.
  intros Hdoc. apply wp_passes. intros st. destruct (builds_status Hdoc) as [program_ Hp].
  apply wp_bind. eapply wp_lift; [exact Hp|].
  eapply (wp_policy_fixture _ {| offboard := []; arkoor := []; round := []; delegated_round := [];
    status := false; lightning_receive := false |}); [exact Hp|reflexivity|].
  intros key_ input kp Hmade Hfix Hv t. by eapply wp_refuses; [done|done|apply Hv| |].
Qed.

(** A signer and the fixture of any program. *)
Lemma wp_fixture program_ (k : ProgramKey * Vtxo * Keypair -> Test unit) Q st :
  (forall key_ input kp, ownership_fixture program_ Byte.x42 = Ok (key_, input, kp) ->
     forall t, wp (k (key_, input, kp)) Q (at_ self ∅ t)) ->
  wp (new_test_signer ;; parts ← lift (ownership_fixture program_ Byte.x42); k parts) Q st.
Proof.
  intros HQ. apply wp_start. destruct (owner_fixture _ _ _ Hb program_ Byte.x42) as (key_ & input & kp & Hfix); [done..|].
  apply wp_bind. eapply wp_lift; [exact Hfix|]. by apply HQ.
Qed.

Lemma malformed_policy_test_passes : policy_documents -> passes (malformed_native_policy_fails_closed world).
Proof.
  intros Hdoc. apply wp_passes. intros st. destruct (builds_malformed Hdoc) as [program_ Hp].
  apply wp_bind. eapply wp_lift; [exact Hp|]. apply new_program_made in Hp as (Hmade & _ & Hps).
  eapply wp_fixture. intros key_ input kp Hfix t.
  eapply wp_deny; [done|done|unfold policy_verdict; rewrite Hps; reflexivity|done|done].
Qed.

Lemma inline_test_passes : policy_documents -> passes (native_policy_requires_inline_wasm_program world).
Proof.
  intros Hdoc. apply wp_passes. intros st. destruct (builds_registered Hdoc) as (text & ps & program_ & Ht & Hps & Hp).
  apply wp_bind. eapply wp_unwrap; [by rewrite Ht|]. apply wp_bind. eapply wp_lift; [exact Hps|].
  apply wp_bind. eapply wp_lift; [exact Hp|]. apply new_program_made in Hp as (Hmade & He & Hpar).
  eapply wp_fixture. intros key_ input kp Hfix t.
  eapply wp_deny with (x := "native ownership policy requires an inline WASM program"%string);
    [done|done| |done|done]. unfold policy_verdict. rewrite Hpar, He, registered_id_not_inline.
  apply encode_ok in Hps as [Hl ->].
  rewrite (parse_denoted text [] (document_of {| offboard := []; arkoor := []; round := []; delegated_round := [];
    status := true; lightning_receive := false |}) _ Hl (json_read _ _ _ Ht eq_refl) (document_of_denotes _)).
  cbn [mbind Result_bind]. rewrite !bool_decide_eq_true_2 by done. reflexivity.
Qed.

End Lemmas.

(* ------------------------------------------------------------------ *)
(** ** Properties *)

Section Theorems.
  Context {runtime : WasmRuntime} {outpoint_codec : OutPointCodec} {auth : NativeAuth}.
  Context {sapio : SapioProgram} {sapio_laws : SapioProgramLaws}.
  Context {prim : KeyPrimitives} {upstream : Upstream} {ark : ArkLib} {requests : ArkRequests}.
  Context {codec : PolicyCodec VtxoPolicy} {codec_laws : PolicyCodecLaws VtxoPolicy}.
  Context {musig : NestedMusig} {musig_laws : NestedMusigLaws}.
  Context {ownership : OwnershipLib} {ownership_laws : OwnershipLaws}.

(** C34: the native policy stands in front of every reservation: for a document a
    client writes, the listed offboard destination, delegated-round or round
    output reserves a session and any other is refused by name; a status proof
    needs its flag; a malformed envelope, or one on a registered program, is
    refused whatever the proof. *)
Theorem native_policy_tests_pass world root_ self :
  ownership_bench world root_ self -> policy_documents ->
  passes (native_policy_binds_offboard_destination world) /\
  passes (native_policy_binds_delegated_round_outputs world) /\
  passes (native_policy_binds_round_outputs world) /\
  passes (native_policy_is_default_deny_for_status world) /\
  passes (malformed_native_policy_fails_closed world) /\
  passes (native_policy_requires_inline_wasm_program world).
Proof.
  intros Hb Hdoc. split_and!;
    eauto using offboard_test_passes, delegated_round_test_passes, round_test_passes, status_test_passes,
      malformed_policy_test_passes, inline_test_passes.
Qed.

End Theorems.
