(* ===== verification/CapacityTests.v ===== *)
(** * CapacityTests: the bounds of the pool under load (src/ark_signer.rs, mod tests)

    The three tests that fill the pool of sessions, from one wallet and from
    many, and the theorems that they pass: the caps refuse exactly the request
    that would exceed them, release a slot where a session is cancelled or
    expires, and never evict a live session. *)

From S2P Require Import Prelude Bytes NativePolicy Bitcoin Program Evaluator Keys Deployment ArkSigner Scenario SigningProtocol.
From S2P Require Import SignerTests OwnershipTests.

Open Scope N_scope.

Section Tests.
  Context {runtime : WasmRuntime} {outpoint_codec : OutPointCodec} {auth : NativeAuth}.
  Context {sapio : SapioProgram} {prim : KeyPrimitives} {upstream : Upstream} {ark : ArkLib} {requests : ArkRequests}.
  Context {codec : PolicyCodec VtxoPolicy} {musig : NestedMusig} {ownership : OwnershipLib}.
  Variable world : World.
  Variable template : bool -> Fixture.

(** [n as u8] of a counter that stays in range. *)
Definition u8 (n : N) : Result Error byte := expect (Byte.of_N n) "u8".

(** [sessions.push(signer.prepare(request.clone()).unwrap().session)]. *)
Definition reserve_session (request : PrepareRequest) : Test bytes :=
  response ← signer_prepare world request;
  response ← unwrap response;
  mret (response_session response).

Definition reserve_sessions (request : PrepareRequest) (n : nat) : Test (list bytes) :=
  mapM (fun _ => reserve_session request) (seq 0 n).

Definition per_wallet_session_cap_is_enforced_without_blocking_other_wallets : Test unit :=
  new_test_signer;;
  alice ← ownership_request world Byte.x42;
  bob ← ownership_request world Byte.x46;
  assert_that (negb (bool_decide (user_pubkey (prepare_key alice) = user_pubkey (prepare_key bob))));;
  sessions ← reserve_sessions alice (N.to_nat MAX_SESSIONS_PER_USER);
  error ← signer_prepare world alice;
  assert_that (error_contains error "per-wallet session capacity exceeded");;
  reserve_session bob;;
  session ← lift (expect (list.last sessions) "called `Option::unwrap()` on a `None` value");
  cancelled ← signer_cancel {| cancel_protocol := SIGNING_PROTOCOL; cancel_session := session |};
  unwrap cancelled;;
  reserve_session alice;;
  mret tt.

Definition global_capacity_is_still_enforced_across_distinct_wallets : Test unit :=
  new_test_signer;;
  mapM (fun n =>
    b ← lift (u8 n);
    request ← ownership_request world b;
    reserve_sessions request (N.to_nat MAX_SESSIONS_PER_USER)) (N.of_nat <$> seq 0x60 0x20);;
  request ← ownership_request world Byte.x80;
  error ← signer_prepare world request;
  assert_that (error_contains error "signer session capacity exceeded").

(** The inner loop of the fill: at most [n] more sessions of one wallet. *)
Fixpoint fill_wallet (n live : nat) (request : PrepareRequest) (sessions : list bytes) : Test (list bytes) :=
  match n with
  | O => mret sessions
  | S n =>
      if N.of_nat (length sessions + live) <? MAX_PENDING_SESSIONS then
        session ← reserve_session request;
        fill_wallet n live request (sessions ++ [session])
      else fill_wallet n live request sessions
  end.

(** The [while] loop of the fill; one round takes at least one slot, so as many
    rounds as the pool has slots are enough. *)
Fixpoint fill_pool (fuel live : nat) (byte : N) (sessions : list bytes) : Test (N * list bytes) :=
  match fuel with
  | O => lift (Panic "out of fuel")
  | S fuel =>
      if N.of_nat (length sessions + live) <? MAX_PENDING_SESSIONS then
        b ← lift (u8 byte);
        request ← ownership_request world b;
        byte ← lift (expect (checked_add 8 byte 1) "called `Option::unwrap()` on a `None` value");
        sessions ← fill_wallet (N.to_nat MAX_SESSIONS_PER_USER) live request sessions;
        fill_pool fuel live byte sessions
      else mret (byte, sessions)
  end.

(** [assert!(signer.prepare(fixture.request().0).is_err())]. *)
Definition assert_full (fixture : Fixture) : Test unit :=
  '(request, _) ← Fixture_request world fixture;
  refused ← signer_prepare world request;
  assert_that (is_err refused).

(** [list.pop().unwrap()]. *)
Definition pop {A} (l : list A) : Result Error (A * list A) :=
  x ← expect (list.last l) "called `Option::unwrap()` on a `None` value";
  Ok (x, removelast l).

Definition session_capacity_preserves_live_sessions_and_reuses_released_slots : Test unit :=
  new_test_signer;;
  let fixture := template true in
  live ← mapM (fun _ => Fixture_prepare world fixture) (seq 0 3);
  '(byte, sessions) ← fill_pool (S (N.to_nat MAX_PENDING_SESSIONS)) (length live) 0x10 [];
  assert_full fixture;;
  '(cancelled, live) ← lift (pop live);
  done_ ← signer_cancel (cancel_of cancelled SIGNING_PROTOCOL);
  unwrap done_;;
  replacement ← Fixture_prepare world fixture;
  finished ← signer_finish world (prepared_finish cancelled);
  assert_that (is_err finished);;
  assert_full fixture;;
  '(expired, sessions) ← lift (pop sessions);
  expire world expired;;
  b ← lift (u8 byte);
  request ← ownership_request world b;
  recovered ← reserve_session request;
  assert_full fixture;;
  done_ ← signer_cancel {| cancel_protocol := SIGNING_PROTOCOL; cancel_session := recovered |};
  unwrap done_;;
  mapM (finish_and_complete world fixture) (live ++ [replacement]);;
  mret tt.

End Tests.

(* ------------------------------------------------------------------ *)
(** ** Counting *)

Section Counting.
  Context {sapio : SapioProgram} {prim : KeyPrimitives} {upstream : Upstream} {ark : ArkLib}.

Definition holder (e : Pending) : ArkSigner.PublicKey := fst (members (pending_intent e)).

(** The number of sessions a wallet key holds. *)
Definition held (u : ArkSigner.PublicKey) (p : gmap bytes Pending) : nat := size (held_by u p).

Lemma held_empty u : held u ∅ = 0%nat.
Proof. unfold held, held_by. by rewrite map_filter_empty, map_size_empty. Qed.

Lemma held_insert u p s e : p !! s = None ->
  held u (<[s := e]> p) = ((if decide (holder e = u) then 1 else 0) + held u p)%nat.
Proof.
  intros Hs. unfold held, held_by. case_decide as Hu; unfold holder in Hu.
  - rewrite map_filter_insert_True by done. rewrite map_size_insert_None; [done|].
    apply map_lookup_filter_None_2. by left.
  - rewrite map_filter_insert_False by done. by rewrite delete_id.
Qed.

Lemma held_delete u p s e : p !! s = Some e ->
  held u p = ((if decide (holder e = u) then 1 else 0) + held u (delete s p))%nat.
Proof.
  intros Hs. rewrite <- (held_insert u (delete s p) s e) by apply lookup_delete_eq. by rewrite insert_delete_id.
Qed.

Lemma size_delete (p : gmap bytes Pending) s e : p !! s = Some e -> size p = S (size (delete s p)).
Proof.
  intros Hs. rewrite <- (insert_delete_id p s e Hs) at 1. by rewrite map_size_insert_None by apply lookup_delete_eq.
Qed.

End Counting.

(* ------------------------------------------------------------------ *)
(** ** Lemmas *)

Section Lemmas.
  Context {runtime : WasmRuntime} {outpoint_codec : OutPointCodec} {auth : NativeAuth}.
  Context {sapio : SapioProgram} {sapio_laws : SapioProgramLaws}.
  Context {prim : KeyPrimitives} {upstream : Upstream} {ark : ArkLib} {requests : ArkRequests}.
  Context {codec : PolicyCodec VtxoPolicy} {codec_laws : PolicyCodecLaws VtxoPolicy}.
  Context {musig : NestedMusig} {musig_laws : NestedMusigLaws}.
  Context {ownership : OwnershipLib} {ownership_laws : OwnershipLaws}.

(** The wallets of the capacity tests: different secret bytes have different
    public keys, and their program can be built. *)
Record wallets_differ : Prop := {
  keys_differ b1 b2 kp1 kp2 :
    key b1 = Ok kp1 -> key b2 = Ok kp2 -> keypair_public kp1 = keypair_public kp2 -> b1 = b2;
  builds_payment : exists program_, payment_program = Ok program_;
}.

Context (world : World) (root_ : Xpriv) (self : ArkSigner).
Hypothesis Hb : ownership_bench world root_ self.
Hypothesis Hw : wallets_differ.

(** A request the checks accept, whatever is held. *)
Definition asks (request : PrepareRequest) (intent : Intent) : Prop :=
  forall p, exists program user_nonce, check_request (with_pending self p) request = Ok (program, intent, user_nonce).

(** A reservation of [intent] that stays live. *)
Definition lasting (intent : Intent) (e : Pending) : Prop :=
  pending_intent e = intent /\ forall u, clock world u < expires e.

Lemma wp_ownership_request b kp p t (Q : PrepareRequest -> TestState -> Prop) :
  Byte.to_N b <> 0 -> Byte.to_N b <> 255 -> key b = Ok kp ->
  (forall request intent, asks request intent -> fst (members intent) = keypair_public kp ->
     user_pubkey (prepare_key request) = keypair_public kp -> Q request (at_ self p (S t))) ->
  wp (ownership_request world b) Q (at_ self p t).
Proof.
  intros H1 H2 Hkey HQ. destruct (builds_payment Hw) as [program_ Hp]. apply wp_bind. eapply wp_lift; [exact Hp|].
  unfold payment_program, payment_parameters in Hp. apply bind_ok in Hp as (ps & Hps & Hp).
  apply bind_ok in Hps as (destination & _ & Hps). apply Ok_inj in Hps as <-.
  apply new_program_made in Hp as (Hmade & _ & Hpar).
  destruct (owner_fixture _ _ _ Hb program_ b H1 H2) as (key_ & input & kp' & Hfix).
  apply wp_bind. eapply wp_lift; [exact Hfix|].
  destruct (owner_identified _ _ _ Hb _ _ _ _ _ Status Hmade Hfix) as (_ & _ & _ & _ & _ & _ & Huk & Hk' & _).
  rewrite Hkey in Hk'. apply Ok_inj in Hk' as <-.
  destruct (owner_decided _ _ _ Hb _ _ _ _ _ Status Hmade Hfix) as (intent & Hi & Hu & Hd).
  assert (policy_verdict program_ Status = Ok tt) as Hv by (unfold policy_verdict; rewrite Hpar; reflexivity).
  rewrite Hv in Hd. eapply wp_ownership_prepare; [exact Hb|exact Hi|exact Hu|]. intros n Hn.
  apply (HQ _ intent); [|done|done]. intros q. destruct (Hd q n _ Hn) as [program Hc]. by exists program, (nonce_public n).
Qed.

(** An accepted request reserves where there is room, *)
Lemma wp_reserve request intent p t (Q : Result Error PrepareResponse -> TestState -> Prop) :
  asks request intent -> room (fst (members intent)) (live (clock world t) p) ->
  (forall response e, live (clock world t) p !! response_session response = None ->
     response_session response ∈ session_ids (signer_env (world t)) -> lasting intent e ->
     Q (Ok response) (at_ self (<[response_session response := e]> (live (clock world t) p)) (S t))) ->
  wp (signer_prepare world request) Q (at_ self p t).
Proof.
  intros Ha [Hr1 Hr2] HQ. apply wp_bind, wp_draw. destruct (Ha p) as (program & un & Hc).
  destruct (signer_entropy world (owner_world _ _ _ Hb) t intent) as [nonce Hnonce].
  destruct (ids_enough world (owner_world _ _ _ Hb) t) as [Hids Hlen].
  destruct (prepare_admitted (with_pending self p) (signer_env (world t)) request program intent un nonce)
    as (session & Hprep & Hfree & Hin); try done.
  { apply (owner_available _ _ _ Hb). }
  eapply wp_call; [exact Hprep|done|].
  apply (HQ {| response_protocol := SIGNING_PROTOCOL; response_session := session; response_program_nonce := _ |}
            {| pending_intent := intent |}); [done..|]. split; [done|].
  intros u. apply (clock_in_time _ (owner_world _ _ _ Hb)).
Qed.

(** and is refused by name where there is none. *)
Definition no_room (u : ArkSigner.PublicKey) (p : gmap bytes Pending) : option string :=
  if N.of_nat (size p) <? MAX_PENDING_SESSIONS then
    if N.of_nat (held u p) <? MAX_SESSIONS_PER_USER then None else Some "per-wallet session capacity exceeded"%string
  else Some "signer session capacity exceeded"%string.

Lemma wp_full request intent p t x (Q : Result Error PrepareResponse -> TestState -> Prop) :
  asks request intent -> no_room (fst (members intent)) (live (clock world t) p) = Some x ->
  Q (Err (Message x)) (at_ self (live (clock world t) p) (S t)) ->
  wp (signer_prepare world request) Q (at_ self p t).
Proof.
  intros Ha Hx HQ. apply wp_bind, wp_draw. destruct (Ha p) as (program & un & Hc).
  eapply (wp_call _ (Err (Message x)) (with_pending self (live (clock world t) p))); [|done|exact HQ].
  unfold prepare. cbn [at_ test_signer]. rewrite Hc. cbn [poisoned with_pending pending].
  rewrite (proj1 (owner_available _ _ _ Hb)). unfold reserve, no_room, held in *. fold (clock world t).
  destruct (N.of_nat (size (live (clock world t) p)) <? MAX_PENDING_SESSIONS); cbn [ensure mbind Result_bind];
    [|by injection Hx as <-].
  destruct (N.of_nat (size (held_by _ _)) <? MAX_SESSIONS_PER_USER); cbn [ensure mbind Result_bind];
    [discriminate Hx|by injection Hx as <-].
Qed.

(** What a number of new sessions of one wallet does to the pool. *)
Record grown (u : ArkSigner.PublicKey) (p q : gmap bytes Pending) (sessions : list bytes) : Prop := {
  grown_fresh : fresh world q;
  grown_sub : p ⊆ q;
  grown_size : size q = (size p + length sessions)%nat;
  grown_held : held u q = (held u p + length sessions)%nat;
  grown_others v : v <> u -> held v q = held v p;
  grown_sessions : Forall (fun s => exists e, q !! s = Some e /\ holder e = u) sessions;
}.

Lemma grown_nil u p : fresh world p -> grown u p p [].
Proof. intros H. split; [done|done|cbn; lia|cbn; lia|done|constructor]. Qed.

Lemma grown_cons u p s e q sessions :
  p !! s = None -> holder e = u -> grown u (<[s := e]> p) q sessions -> grown u p q (s :: sessions).
Proof.
  intros Hs He [Hf Hsub Hsize Hheld Hothers Hall]. split; [done| | | | |].
  - transitivity (<[s := e]> p); [by apply insert_subseteq|done].
  - rewrite Hsize, map_size_insert_None by done. cbn. lia.
  - rewrite Hheld, held_insert by done. rewrite decide_True by done. cbn. lia.
  - intros v Hv. rewrite Hothers, held_insert by done. by rewrite decide_False by congruence.
  - constructor; [|done]. exists e. split; [|done]. eapply lookup_weaken; [|exact Hsub]. apply lookup_insert_eq.
Qed.

Lemma wp_reserve_session request intent p t (Q : bytes -> TestState -> Prop) :
  asks request intent -> fresh world p -> room (fst (members intent)) p ->
  (forall session e, p !! session = None -> session ∈ session_ids (signer_env (world t)) -> lasting intent e ->
     Q session (at_ self (<[session := e]> p) (S t))) ->
  wp (reserve_session world request) Q (at_ self p t).
Proof.
  intros Ha Hf Hr HQ. apply wp_bind. eapply wp_reserve; [done|by rewrite live_fresh|].
  rewrite live_fresh by done. intros response e Hn Hin He. apply wp_bind. eapply wp_unwrap; [done|]. by apply wp_ret, HQ.
Qed.

Lemma wp_reserve_many {A} request intent (l : list A) p t (Q : list bytes -> TestState -> Prop) :
  asks request intent -> fresh world p ->
  N.of_nat (size p + length l) <= MAX_PENDING_SESSIONS ->
  N.of_nat (held (fst (members intent)) p + length l) <= MAX_SESSIONS_PER_USER ->
  (forall q sessions t', length sessions = length l -> grown (fst (members intent)) p q sessions ->
     Q sessions (at_ self q t')) ->
  wp (mapM (fun _ => reserve_session world request) l) Q (at_ self p t).
Proof.
  intros Ha. revert p t Q; induction l as [|x l IH]; intros p t Q Hf Hs Hh HQ; cbn [mapM].
  - apply wp_ret, HQ; [done|by apply grown_nil].
  - cbn [length] in *. apply wp_bind. eapply wp_reserve_session; [done|done|unfold room; unfold held in Hh; lia|].
    intros s e Hn _ [He Hlast].
    apply wp_bind, IH; [by apply fresh_insert| | |].
    + rewrite map_size_insert_None by done. lia.
    + rewrite held_insert by done. unfold holder. rewrite He, decide_True by done. lia.
    + intros q sessions t' Hlen Hg. apply wp_ret, HQ; [cbn; by rewrite Hlen|].
      eapply grown_cons; [done| |exact Hg]. unfold holder. by rewrite He.
Qed.

Lemma wp_cancel_ok p t s e (Q : Result Error unit -> TestState -> Prop) :
  p !! s = Some e -> Q (Ok tt) (at_ self (delete s p) t) ->
  wp (signer_cancel {| cancel_protocol := SIGNING_PROTOCOL; cancel_session := s |}) Q (at_ self p t).
Proof.
  intros Hl HQ. eapply (wp_call _ (Ok tt) (with_pending self (delete s p))); [|done|exact HQ].
  unfold cancel. cbn [poisoned pending with_pending at_ test_signer cancel_session cancel_protocol].
  rewrite (proj1 (owner_available _ _ _ Hb)), Hl. by rewrite (bool_decide_eq_true_2 (SIGNING_PROTOCOL = SIGNING_PROTOCOL)).
Qed.

Lemma room_of (u : ArkSigner.PublicKey) (p : gmap bytes Pending) : N.of_nat (size p) < MAX_PENDING_SESSIONS -> N.of_nat (held u p) < MAX_SESSIONS_PER_USER -> room u p.
Proof. done. Qed.

Lemma held_le_size (u : ArkSigner.PublicKey) (p : gmap bytes Pending) : (held u p <= size p)%nat.
Proof. apply map_subseteq_size, map_filter_subseteq. Qed.

(** The last of the sessions taken is one of them. *)
Lemma last_in {A} (l : list A) : (0 < length l)%nat -> exists x, list.last l = Some x /\ x ∈ l.
Proof.
  intros H. destruct l as [|x l] using rev_ind; [cbn in H; lia|]. exists x. rewrite last_snoc. split; [done|].
  apply elem_of_app. right. by apply list_elem_of_singleton.
Qed.

Lemma per_wallet_test_passes :
  passes (per_wallet_session_cap_is_enforced_without_blocking_other_wallets world).
Proof.
  apply wp_passes. intros st. apply wp_bind. eapply wp_new_test_signer; [apply Hb|apply Hb|].
  destruct (owner_key _ _ _ Hb Byte.x42) as [ka Hka]; [done..|]. destruct (owner_key _ _ _ Hb Byte.x46) as [kb Hkb]; [done..|].
  assert (keypair_public ka <> keypair_public kb) as Hne by (intros E; by pose proof (keys_differ Hw _ _ _ _ Hka Hkb E)).
  apply wp_bind. eapply wp_ownership_request; [done|done|exact Hka|]. intros alice ia Ha Hua Hpa.
  apply wp_bind. eapply wp_ownership_request; [done|done|exact Hkb|]. intros bob ib Hbb Hub Hpb.
  apply wp_bind, wp_assert; [by rewrite Hpa, Hpb, bool_decide_eq_false_2|].
  apply wp_bind. eapply wp_reserve_many; [exact Ha|apply fresh_empty|by rewrite map_size_empty|by rewrite held_empty|].
  intros q sessions t' Hlen Hg. rewrite length_seq in Hlen. change (N.to_nat MAX_SESSIONS_PER_USER) with 8%nat in Hlen.
  pose proof (grown_size _ _ _ _ Hg) as Hsize. rewrite map_size_empty, Hlen in Hsize.
  pose proof (grown_held _ _ _ _ Hg) as Hheld. rewrite held_empty, Hlen in Hheld.
  pose proof (grown_fresh _ _ _ _ Hg) as Hfq.
  apply wp_bind. eapply (wp_full _ _ _ _ "per-wallet session capacity exceeded"); [exact Ha| |].
  { rewrite live_fresh by done. unfold no_room. rewrite Hsize, Hheld. reflexivity. }
  rewrite live_fresh by done. apply wp_bind, wp_assert; [reflexivity|].
  apply wp_bind. eapply wp_reserve_session; [exact Hbb|done| |].
  { apply room_of; [rewrite Hsize; done|]. rewrite (grown_others _ _ _ _ Hg), held_empty by congruence. done. }
  intros sb eb Hnb _ [Heb Hlb].
  destruct (last_in sessions) as (s & Hlast & Hin); [lia|]. apply wp_bind. eapply wp_lift; [by rewrite Hlast|].
  pose proof (grown_sessions _ _ _ _ Hg) as Hall. rewrite list.Forall_forall in Hall. destruct (Hall s Hin) as (e & He & Hu).
  assert (sb <> s) as Hsb by congruence.
  apply wp_bind. eapply wp_cancel_ok; [by rewrite lookup_insert_ne|]. apply wp_bind. eapply wp_unwrap; [done|].
  apply wp_bind. eapply wp_reserve_session; [exact Ha|by apply fresh_delete, fresh_insert| |].
  - pose proof (size_delete (<[sb := eb]> q) s e) as H1. rewrite lookup_insert_ne in H1 by done. specialize (H1 He).
    pose proof (held_delete (fst (members ia)) (<[sb := eb]> q) s e) as H2. rewrite lookup_insert_ne in H2 by done.
    specialize (H2 He). rewrite held_insert, Hheld in H2 by done. rewrite map_size_insert_None, Hsize in H1 by done.
    unfold holder in H2. rewrite Heb, decide_False, decide_True in H2 by (unfold holder in Hu; congruence).
    apply room_of; unfold MAX_PENDING_SESSIONS, MAX_SESSIONS_PER_USER; lia.
  - intros s' e' _ _ _. by apply wp_ret.
Qed.

(** Eight sessions of every wallet of a list. *)
Lemma wp_fill_wallets (bs : list nat) p t (Q : list (list bytes) -> TestState -> Prop) :
  fresh world p -> NoDup bs -> Forall (fun n => 0 < n < 255)%nat bs ->
  N.of_nat (size p + 8 * length bs) <= MAX_PENDING_SESSIONS ->
  (forall n b kp, n ∈ bs -> Byte.of_N (N.of_nat n) = Some b -> key b = Ok kp -> held (keypair_public kp) p = 0%nat) ->
  (forall q ys t', fresh world q -> size q = (size p + 8 * length bs)%nat -> Q ys (at_ self q t')) ->
  wp (mapM (fun n =>
    b ← lift (u8 n);
    request ← ownership_request world b;
    reserve_sessions world request (N.to_nat MAX_SESSIONS_PER_USER)) (N.of_nat <$> bs)) Q (at_ self p t).
Proof.
  revert p t Q; induction bs as [|n bs IH]; intros p t Q Hf Hd Hr Hs Hh HQ; rewrite ?fmap_cons; cbn [mapM fmap list_fmap].
  - apply wp_ret, HQ; [done|cbn; lia].
  - apply list.NoDup_cons in Hd as [Hnot Hd]. apply Forall_cons_iff in Hr as [Hn Hr]. cbn [length] in Hs, HQ.
    destruct (Byte.of_N (N.of_nat n)) as [b|] eqn:Hb'; [|apply Byte.of_N_None_iff in Hb'; lia].
    pose proof (proj1 (Byte.to_of_N_iff _ _) Hb') as Hto.
    destruct (owner_key _ _ _ Hb b) as [kp Hk]; [lia..|].
    apply wp_bind, wp_bind. eapply wp_lift; [unfold u8; by rewrite Hb'|].
    apply wp_bind. eapply wp_ownership_request; [lia|lia|exact Hk|]. intros request intent Ha Hu _.
    eapply wp_reserve_many; [exact Ha|done| | |].
    { rewrite length_seq. unfold MAX_PENDING_SESSIONS in *. change (N.to_nat MAX_SESSIONS_PER_USER) with 8%nat. lia. }
    { rewrite Hu, (Hh n b kp); [rewrite length_seq; done| |done..]. apply elem_of_cons. by left. }
    intros q sessions t' Hlen Hg. rewrite length_seq in Hlen. change (N.to_nat MAX_SESSIONS_PER_USER) with 8%nat in Hlen.
    pose proof (grown_size _ _ _ _ Hg) as Hsize. rewrite Hlen in Hsize.
    apply wp_bind, IH; [apply (grown_fresh _ _ _ _ Hg)|done|done|lia| |].
    + intros n' b' kp' Hin Hb'' Hk'. rewrite (grown_others _ _ _ _ Hg).
      * apply (Hh n' b' kp'); [apply elem_of_cons; by right|done|done].
      * rewrite Hu. intros E. pose proof (keys_differ Hw _ _ _ _ Hk' Hk E) as ->.
        apply Byte.to_of_N_iff in Hb''. assert (n' = n) by lia. by subst.
    + intros q' ys t'' Hfq Hsq. apply wp_ret, HQ; [done|lia].
Qed.

Lemma global_capacity_test_passes :
  passes (global_capacity_is_still_enforced_across_distinct_wallets world).
Proof.
  apply wp_passes. intros st. apply wp_bind. eapply wp_new_test_signer; [apply Hb|apply Hb|].
  apply wp_bind, wp_fill_wallets; [apply fresh_empty|apply NoDup_seq| |rewrite map_size_empty, length_seq; done| |].
  { apply list.Forall_forall. intros n Hn%elem_of_seq. lia. }
  { intros. apply held_empty. }
  intros q ys t' Hf Hs. rewrite map_size_empty, length_seq in Hs.
  destruct (owner_key _ _ _ Hb Byte.x80) as [kp Hk]; [done..|].
  apply wp_bind. eapply wp_ownership_request; [done|done|exact Hk|]. intros request intent Ha _ _.
  apply wp_bind. eapply (wp_full _ _ _ _ "signer session capacity exceeded"); [exact Ha| |by apply wp_assert].
  rewrite live_fresh by done. unfold no_room. by rewrite Hs.
Qed.

(** The inner loop takes sessions until its wallet or the pool is full. *)
Lemma wp_fill_wallet n live_ request intent sessions p t (Q : list bytes -> TestState -> Prop) :
  asks request intent -> fresh world p -> size p = (length sessions + live_)%nat ->
  (size p <= 256)%nat -> N.of_nat (held (fst (members intent)) p + n) <= MAX_SESSIONS_PER_USER ->
  (forall q new t', (t <= t')%nat -> grown (fst (members intent)) p q new -> size q = (Nat.min (size p + n) 256)%nat ->
     Q (sessions ++ new) (at_ self q t')) ->
  wp (fill_wallet world n live_ request sessions) Q (at_ self p t).
Proof.
  intros Ha. revert sessions p t Q; induction n as [|n IH]; intros sessions p t Q Hf Hs Hle Hh HQ; cbn [fill_wallet].
  - apply wp_ret. rewrite <- (app_nil_r sessions) at 1. apply HQ; [lia|by apply grown_nil|lia].
  - destruct (N.ltb_spec (N.of_nat (length sessions + live_)) MAX_PENDING_SESSIONS) as [Hlt|Hge].
    + apply wp_bind. eapply wp_reserve_session; [exact Ha|done|apply room_of; [by rewrite Hs|unfold MAX_SESSIONS_PER_USER in *; lia]|].
      intros s e Hn _ [He Hl]. unfold MAX_PENDING_SESSIONS in *. apply IH.
      * by apply fresh_insert.
      * rewrite map_size_insert_None, length_app by done. cbn. lia.
      * rewrite map_size_insert_None by done. lia.
      * rewrite held_insert by done. unfold holder. rewrite He, decide_True by done. lia.
      * intros q new t' Ht Hg Hsize. rewrite <- app_assoc. apply HQ.
        -- lia.
        -- eapply grown_cons; [done| |exact Hg]. unfold holder. by rewrite He.
        -- rewrite Hsize, map_size_insert_None by done. lia.
    + unfold MAX_PENDING_SESSIONS in *. apply IH; [done|done|done|lia|]. intros q new t' Ht Hg Hsize. apply HQ; [done|done|lia].
Qed.

(** A public key of one of the wallets that fill the pool. *)
Definition filler (lo : nat) (v : ArkSigner.PublicKey) : Prop :=
  exists n b kp, (lo <= n < 49)%nat /\ Byte.of_N (N.of_nat n) = Some b /\ key b = Ok kp /\ v = keypair_public kp.

Lemma filler_not n b kp lo :
  (n < lo \/ 49 <= n)%nat -> Byte.of_N (N.of_nat n) = Some b -> key b = Ok kp -> ~ filler lo (keypair_public kp).
Proof.
  intros Hn Hb' Hk (n' & b' & kp' & Hn' & Hb'' & Hk' & E). pose proof (keys_differ Hw _ _ _ _ Hk Hk' E) as ->.
  apply Byte.to_of_N_iff in Hb', Hb''. assert (n = n') as -> by lia. lia.
Qed.

(** The outer loop fills the pool with the wallets of the bytes from 16 on, of
    which [k] are used up. *)
Record filling (live_ k : nat) (sessions : list bytes) (p : gmap bytes Pending) : Prop := {
  filling_fresh : fresh world p;
  filling_size : size p = (length sessions + live_)%nat;
  filling_rounds : (size p = live_ + 8 * k \/ size p = 256 /\ k <= 32)%nat;
  filling_bound : (size p <= 256)%nat;
  filling_next v : filler (16 + k) v -> held v p = 0%nat;
  filling_sessions : Forall (fun s => exists e, p !! s = Some e /\ filler 16 (holder e)) sessions;
}.

Lemma filling_round live_ k sessions p q new u b kp :
  filling live_ k sessions p -> (size p < 256)%nat -> (3 <= live_)%nat ->
  Byte.of_N (N.of_nat (16 + k)) = Some b -> key b = Ok kp -> u = keypair_public kp ->
  grown u p q new -> size q = (Nat.min (size p + 8) 256)%nat -> filling live_ (S k) (sessions ++ new) q.
Proof.
  intros [Hf Hs Hr Hle Hnext Hall] Hlt Hlive Hb' Hk -> Hg Hsize.
  assert (size p = live_ + 8 * k)%nat as Hr' by (destruct Hr; lia). split.
  - apply (grown_fresh _ _ _ _ Hg).
  - pose proof (grown_size _ _ _ _ Hg). rewrite length_app. lia.
  - lia.
  - lia.
  - intros v Hv. rewrite (grown_others _ _ _ _ Hg).
    + apply Hnext. destruct Hv as (n & b' & kp' & Hn & ?). exists n, b', kp'. split; [lia|done].
    + intros ->. revert Hv. apply (filler_not (16 + k) b); [lia|done|done].
  - apply Forall_app. split.
    + eapply list.Forall_impl; [exact Hall|]. intros s (e & He & Hv). exists e.
      split; [eapply lookup_weaken; [exact He|apply (grown_sub _ _ _ _ Hg)]|done].
    + eapply list.Forall_impl; [apply (grown_sessions _ _ _ _ Hg)|]. intros s (e & He & Hv). exists e. split; [done|].
      exists (16 + k)%nat, b, kp. split; [lia|]. by rewrite Hv.
Qed.

Lemma wp_fill_pool fuel live_ k sessions p t (Q : N * list bytes -> TestState -> Prop) :
  filling live_ k sessions p -> (3 <= live_)%nat -> (256 - size p < fuel)%nat ->
  (forall k' sessions' q t', (t <= t')%nat -> filling live_ k' sessions' q -> size q = 256%nat -> (k' <= 32)%nat -> p ⊆ q ->
     (forall v, ~ filler 16 v -> held v q = held v p) ->
     Q (N.of_nat (16 + k'), sessions') (at_ self q t')) ->
  wp (fill_pool world fuel live_ (N.of_nat (16 + k)) sessions) Q (at_ self p t).
Proof.
  revert k sessions p t Q; induction fuel as [|fuel IH]; intros k sessions p t Q Hfill Hlive Hfuel HQ; [lia|].
  pose proof Hfill as [Hf Hs Hr Hle Hnext Hall]. cbn [fill_pool].
  destruct (N.ltb_spec (N.of_nat (length sessions + live_)) MAX_PENDING_SESSIONS) as [Hlt|Hge];
    unfold MAX_PENDING_SESSIONS in *.
  - assert (k < 32)%nat as Hk by lia. destruct (Byte.of_N (N.of_nat (16 + k))) as [b|] eqn:Hb';
      [|apply Byte.of_N_None_iff in Hb'; lia].
    pose proof (proj1 (Byte.to_of_N_iff _ _) Hb') as Hto. destruct (owner_key _ _ _ Hb b) as [kp Hkey]; [lia..|].
    apply wp_bind. eapply wp_lift; [unfold u8; by rewrite Hb'|].
    apply wp_bind. eapply wp_ownership_request; [lia|lia|exact Hkey|]. intros request intent Ha Hu _.
    apply wp_bind. eapply wp_lift; [apply expect_ok; unfold checked_add; case_match eqn:Hc; [reflexivity|]; rewrite N.ltb_ge in Hc; lia|].
    apply wp_bind. eapply wp_fill_wallet; [exact Ha|done|done|done| |].
    { rewrite Hnext; [reflexivity|]. exists (16 + k)%nat, b, kp. split; [lia|]. by rewrite Hu. }
    change (N.to_nat MAX_SESSIONS_PER_USER) with 8%nat. intros q new t' Ht Hg Hsize.
    replace (N.of_nat (16 + k) + 1) with (N.of_nat (16 + S k)) by lia.
    assert (filling live_ (S k) (sessions ++ new) q) as Hfill' by (eapply filling_round; [done|lia|done|done|done|exact Hu|done|done]).
    apply IH; [done|done|lia|]. intros k' sessions' q' t'' H0 H1 H2 H3 H4 H5. apply HQ; [lia|done|done|done| |].
    + transitivity q; [apply (grown_sub _ _ _ _ Hg)|done].
    + intros v Hv. rewrite H5, (grown_others _ _ _ _ Hg); [done| |done]. intros ->. apply Hv. rewrite Hu.
      exists (16 + k)%nat, b, kp. split; [lia|done].
  - apply wp_ret. apply HQ; [lia|done|lia|lia|done|done].
Qed.

(** The fixture's wallet on a pool that the others fill. *)
Section Fixture.
  Context (template : bool -> Fixture) (action : bool -> SigningAction) (program : bool -> ProgramInstance).
  Context (intent : bool -> Intent).
  Hypothesis Hbench : bench world template root_ self action program intent.

Lemma wp_assert_full p t (Q : unit -> TestState -> Prop) :
  fresh world p -> size p = 256%nat -> Q tt (at_ self p (2 + t)) -> wp (assert_full world (template true)) Q (at_ self p t).
Proof.
  intros Hf Hs HQ. apply wp_bind.
  eapply wp_request; [apply Hb|apply (bench_authentic _ _ _ _ _ _ _ Hbench)|]. intros n Hn.
  destruct (member_nonce_wire _ _ _ n Hn) as (public & Hpub & Hfrom).
  apply wp_bind. eapply (wp_full _ (intent true) _ _ "signer session capacity exceeded").
  - intros q. exists (program true), (nonce_public n). apply (check_request_intro _ _ _ _ public); [done| |done|].
    + apply admissible_at, (bench_admissible _ _ _ _ _ _ _ Hbench).
    + cbn. by rewrite (authentic_user _ _ _ (bench_authentic _ _ _ _ _ _ _ Hbench true)).
  - rewrite live_fresh by done. unfold no_room. by rewrite Hs.
  - rewrite live_fresh by done. by apply wp_assert.
Qed.

(** The fixture's own key is not one of the fillers. *)
Lemma fixture_not_filler lo : ~ filler lo (fst (members (intent true))).
Proof.
  destruct (authentic_keypair _ _ _ (bench_authentic _ _ _ _ _ _ _ Hbench true)) as (kp & Hk & <-).
  apply (filler_not 66 Byte.x42); [lia|done|done].
Qed.

Lemma honest_holder t prepared e :
  honest world (intent true) (program true) t prepared e -> holder e = fst (members (intent true)).
Proof. intros H. unfold holder. by rewrite (honest_intent _ _ _ _ _ _ H). Qed.

(** The pool after the fill, the slot reuse and the expiry. *)
Lemma wp_recover sessions expired e k p t (rest : Test unit) (Q : unit -> TestState -> Prop) :
  fresh world p -> size p = 256%nat -> (k <= 32)%nat -> p !! expired = Some e -> filler 16 (holder e) ->
  (forall v, filler (16 + k) v -> held v p = 0%nat) ->
  list.last sessions = Some expired ->
  (forall t', wp rest Q (at_ self (delete expired p) t')) ->
  wp ('(expired, sessions) ← lift (pop sessions);
      expire world expired;;
      b ← lift (u8 (N.of_nat (16 + k)));
      request ← ownership_request world b;
      recovered ← reserve_session world request;
      assert_full world (template true);;
      done_ ← signer_cancel {| cancel_protocol := SIGNING_PROTOCOL; cancel_session := recovered |};
      unwrap done_;; rest) Q (at_ self p t).
Proof.
  intros Hf Hs Hk He Hfiller Hnext Hlast HQ. apply wp_bind. eapply wp_lift; [unfold pop; by rewrite Hlast|].
  apply wp_bind. eapply wp_expire; [exact Hbench|exact He|]. intros e' Hi He'.
  destruct (Byte.of_N (N.of_nat (16 + k))) as [b|] eqn:Hb'; [|apply Byte.of_N_None_iff in Hb'; lia].
  pose proof (proj1 (Byte.to_of_N_iff _ _) Hb') as Hto. destruct (owner_key _ _ _ Hb b) as [kp Hkey]; [lia..|].
  apply wp_bind. eapply wp_lift; [unfold u8; by rewrite Hb'|].
  apply wp_bind. eapply wp_ownership_request; [lia|lia|exact Hkey|]. intros request i Ha Hu _.
  pose proof (size_delete _ _ _ He) as Hsize.
  assert (live (clock world (S (S t))) (<[expired := e']> p) = delete expired p) as Hlive.
  { rewrite (live_expired world) by (apply He'; lia). by rewrite live_fresh. }
  apply wp_bind, wp_bind. eapply wp_reserve; [exact Ha| |].
  { rewrite Hlive. apply room_of; [unfold MAX_PENDING_SESSIONS; lia|]. rewrite Hu.
    assert (held (keypair_public kp) (delete expired p) = 0%nat) as ->; [|done].
    pose proof (Hnext (keypair_public kp)) as H0. rewrite (held_delete _ _ _ _ He) in H0.
    assert (filler (16 + k) (keypair_public kp)) as Hfil by (exists (16 + k)%nat, b, kp; split; [lia|done]).
    specialize (H0 Hfil). lia. }
  rewrite Hlive. intros response ec Hn Hin [Hec Hlc].
  apply wp_bind. eapply wp_unwrap; [done|]. apply wp_ret.
  apply wp_bind, wp_assert_full.
  { apply fresh_insert; [by apply fresh_delete|done]. }
  { rewrite map_size_insert_None by done. lia. }
  apply wp_bind. eapply wp_cancel_ok; [by rewrite lookup_insert_eq|]. rewrite delete_insert_id by done.
  apply wp_bind. by eapply wp_unwrap.
Qed.

(** Finishing the surviving sessions, oldest first. *)
Lemma wp_finish_all (l : list (PreparedSession * Pending)) p t (Q : unit -> TestState -> Prop) :
  NoDup ((fun x => finish_session (prepared_finish (fst x))) <$> l) ->
  Forall (fun x => p !! finish_session (prepared_finish (fst x)) = Some (snd x) /\
    exists t0, honest world (intent true) (program true) t0 (fst x) (snd x)) l ->
  (forall st, Q tt st) ->
  wp (mapM (finish_and_complete world (template true)) (fst <$> l) ;; mret tt) Q (at_ self p t).
Proof.
  intros Hd Hall HQ. apply wp_bind. revert p t Hall; induction l as [|[prepared e] l IH]; intros p t Hall; cbn [fmap list_fmap mapM].
  - apply wp_ret. apply wp_ret, HQ.
  - apply Forall_cons_iff in Hall as [[Hl (t0 & Hp)] Hall]. rewrite fmap_cons in Hd. apply list.NoDup_cons in Hd as [Hnot Hd].
    cbn [fst snd] in *. apply wp_bind. eapply wp_finish_and_complete; [exact Hbench|exact Hp|exact Hl|].
    apply wp_bind. eapply wp_mono; [apply (IH Hd)|].
    + rewrite list.Forall_forall in *. intros x Hx. destruct (Hall x Hx) as [H1 H2]. split; [|done].
      rewrite lookup_delete_ne; [done|]. intros E. apply Hnot. rewrite E. apply list_elem_of_fmap. by exists x.
    + intros ys st _. apply wp_ret. apply wp_ret, HQ.
Qed.

(** Three sessions of the fixture on an empty pool. *)
Lemma wp_three t (Q : list PreparedSession -> TestState -> Prop) :
  (forall (l : list (PreparedSession * Pending)) p t',
     length l = 3%nat -> fresh world p -> size p = 3%nat -> held (fst (members (intent true))) p = 3%nat ->
     (forall v, v <> fst (members (intent true)) -> held v p = 0%nat) ->
     NoDup ((fun x => finish_session (prepared_finish (fst x))) <$> l) ->
     Forall (fun x => p !! finish_session (prepared_finish (fst x)) = Some (snd x) /\
       exists t0, (t0 < t')%nat /\ honest world (intent true) (program true) t0 (fst x) (snd x)) l ->
     Q (fst <$> l) (at_ self p t')) ->
  wp (mapM (fun _ => Fixture_prepare world (template true)) (seq 0 3)) Q (at_ self ∅ t).
Proof.
  intros HQ. cbn [seq mapM].
  apply wp_bind. eapply wp_prepare_fresh; [exact Hbench|apply fresh_empty|rewrite map_size_empty; lia|].
  intros a1 e1 H1 N1. pose proof (honest_fresh _ _ _ _ _ _ (owner_world _ _ _ Hb) H1) as F1.
  apply wp_bind, wp_bind. eapply wp_prepare_fresh;
    [exact Hbench|by apply fresh_insert|by rewrite map_size_insert_None, map_size_empty by done; lia|].
  intros a2 e2 H2 N2. pose proof (honest_fresh _ _ _ _ _ _ (owner_world _ _ _ Hb) H2) as F2.
  apply wp_bind, wp_bind. eapply wp_prepare_fresh;
    [exact Hbench|by apply fresh_insert; [apply fresh_insert|]
    |by rewrite map_size_insert_None, map_size_insert_None, map_size_empty by done; lia|].
  intros a3 e3 H3 N3. pose proof (honest_fresh _ _ _ _ _ _ (owner_world _ _ _ Hb) H3) as F3.
  apply wp_bind, wp_ret, wp_ret, wp_ret, wp_ret.
  pose proof (proj1 (lookup_insert_None _ _ _ _) N2) as [_ D12].
  pose proof (proj1 (lookup_insert_None _ _ _ _) N3) as [N3' D23].
  pose proof (proj1 (lookup_insert_None _ _ _ _) N3') as [_ D13].
  apply (HQ [(a1, e1); (a2, e2); (a3, e3)]); [done| | | | | |].
  - by repeat apply fresh_insert.
  - by rewrite !map_size_insert_None, map_size_empty by done.
  - rewrite !held_insert, held_empty by done.
    by rewrite (honest_holder _ _ _ H1), (honest_holder _ _ _ H2), (honest_holder _ _ _ H3), !decide_True by done.
  - intros v Hv. rewrite !held_insert, held_empty by done.
    by rewrite (honest_holder _ _ _ H1), (honest_holder _ _ _ H2), (honest_holder _ _ _ H3), !decide_False by done.
  - cbn. apply list.NoDup_cons. split; [by rewrite !elem_of_cons, elem_of_nil; intuition congruence|].
    apply list.NoDup_cons. split; [by rewrite !elem_of_cons, elem_of_nil; intuition congruence|].
    apply list.NoDup_cons. split; [apply not_elem_of_nil|constructor].
  - apply Forall_cons_iff; split; [|apply Forall_cons_iff; split; [|apply Forall_cons_iff; split; [|constructor]]];
      cbn [fst snd].
    + rewrite !lookup_insert_ne, lookup_insert_eq by done. split; [done|]. eexists. split; [|exact H1]. lia.
    + rewrite lookup_insert_ne, lookup_insert_eq by done. split; [done|]. eexists. split; [|exact H2]. lia.
    + rewrite lookup_insert_eq. split; [done|]. eexists. split; [|exact H3]. lia.
Qed.

(** The pool after the slot of [a] has gone to its replacement [r]. *)
Record reused (q : gmap bytes Pending) (a r : PreparedSession) (er : Pending) (q2 : gmap bytes Pending) : Prop := {
  reused_fresh : fresh world q2;
  reused_size : size q2 = size q;
  reused_lookup : q2 !! finish_session (prepared_finish r) = Some er;
  reused_honest : exists t, honest world (intent true) (program true) t r er;
  reused_old : q !! finish_session (prepared_finish r) = None \/ finish_session (prepared_finish r) = finish_session (prepared_finish a);
  reused_keeps s e : q !! s = Some e -> s <> finish_session (prepared_finish a) ->
    s <> finish_session (prepared_finish r) /\ q2 !! s = Some e;
  reused_held v : v <> fst (members (intent true)) -> (held v q2 <= held v q)%nat;
}.

Lemma reused_intro q a e t r er :
  fresh world q -> q !! finish_session (prepared_finish a) = Some e ->
  honest world (intent true) (program true) t r er ->
  delete (finish_session (prepared_finish a)) q !! finish_session (prepared_finish r) = None ->
  reused q a r er (<[finish_session (prepared_finish r) := er]> (delete (finish_session (prepared_finish a)) q)).
Proof.
  intros Hf Hl Hr Hn. pose proof (honest_fresh _ _ _ _ _ _ (owner_world _ _ _ Hb) Hr) as Fr. split.
  - by apply fresh_insert; [apply fresh_delete|].
  - by rewrite map_size_insert_None, (size_delete _ _ _ Hl).
  - apply lookup_insert_eq.
  - by exists t.
  - apply lookup_delete_None in Hn as [|]; auto.
  - intros s es Hs Hne. rewrite <- (lookup_delete_ne q (finish_session (prepared_finish a))) in Hs by congruence.
    split; [congruence|]. rewrite lookup_insert_ne; congruence.
  - intros v Hv. rewrite held_insert by done. rewrite (honest_holder _ _ _ Hr), decide_False by congruence.
    rewrite (held_delete v q _ _ Hl). lia.
Qed.

(** Cancelling frees the slot, its replacement takes it, and the cancelled
    session can no longer be finished. *)
Lemma wp_reuse a e u q t (rest : PreparedSession -> Test unit) (Q : unit -> TestState -> Prop) :
  fresh world q -> size q = 256%nat -> held (fst (members (intent true))) q = 3%nat ->
  q !! finish_session (prepared_finish a) = Some e -> (u < t)%nat -> honest world (intent true) (program true) u a e ->
  (forall r er q2 t', reused q a r er q2 -> wp (rest r) Q (at_ self q2 t')) ->
  wp (done_ ← signer_cancel (cancel_of a SIGNING_PROTOCOL);
      unwrap done_;;
      replacement ← Fixture_prepare world (template true);
      finished ← signer_finish world (prepared_finish a);
      assert_that (is_err finished);;
      assert_full world (template true);;
      rest replacement) Q (at_ self q t).
Proof.
  intros Hf Hs Hheld Hl Hu Ha HQ. apply wp_bind. eapply wp_cancel_ok; [exact Hl|]. apply wp_bind. eapply wp_unwrap; [done|].
  apply wp_bind. eapply wp_prepare; [apply Hb|apply (bench_authentic _ _ _ _ _ _ _ Hbench)|apply (owner_available _ _ _ Hb)
    |apply (bench_admissible _ _ _ _ _ _ _ Hbench)| |]; rewrite live_fresh by by apply fresh_delete.
  { pose proof (size_delete _ _ _ Hl) as Hs1. rewrite (held_delete _ _ _ _ Hl) in Hheld.
    rewrite decide_True in Hheld by by eapply honest_holder.
    apply room_of; unfold MAX_PENDING_SESSIONS, MAX_SESSIONS_PER_USER; lia. }
  intros r er Hr Nr. pose proof (reused_intro _ _ _ _ _ _ Hf Hl Hr Nr) as Hre.
  apply wp_bind. eapply wp_gone; [exact Hbench| |].
  { rewrite lookup_insert_ne; [apply lookup_delete_eq|]. eapply honest_ids_differ; [exact Hbench|exact Hr|exact Ha|lia]. }
  apply wp_bind, wp_assert; [done|].
  apply wp_bind, wp_assert_full; [apply (reused_fresh _ _ _ _ _ Hre)|by rewrite (reused_size _ _ _ _ _ Hre)|]. eapply HQ; exact Hre.
Qed.

(** The sessions of the fixture survive the reuse and the expiry of a filler. *)
Lemma survivors q a1 e1 a2 e2 a3 e3 r er q2 s es :
  reused q a3 r er q2 -> q !! finish_session (prepared_finish a3) = Some e3 -> holder e3 = fst (members (intent true)) ->
  q !! s = Some es -> filler 16 (holder es) ->
  NoDup ((fun x : PreparedSession * Pending => finish_session (prepared_finish (fst x))) <$> [(a1, e1); (a2, e2); (a3, e3)]) ->
  Forall (fun x => q !! finish_session (prepared_finish (fst x)) = Some (snd x) /\
    exists t0, honest world (intent true) (program true) t0 (fst x) (snd x)) [(a1, e1); (a2, e2)] ->
  NoDup ((fun x : PreparedSession * Pending => finish_session (prepared_finish (fst x))) <$> [(a1, e1); (a2, e2); (r, er)]) /\
  Forall (fun x => delete s q2 !! finish_session (prepared_finish (fst x)) = Some (snd x) /\
    exists t0, honest world (intent true) (program true) t0 (fst x) (snd x)) [(a1, e1); (a2, e2); (r, er)].
Proof.
  intros Hre M3 Hh3 Hes Hfs Hd Hall. cbn [fmap list_fmap fst] in *.
  rewrite !list.NoDup_cons, !elem_of_cons, !elem_of_nil in *. destruct Hd as (D1 & D2 & _).
  rewrite !Forall_cons_iff in *. cbn [fst snd] in *. destruct Hall as ((M1 & u1 & H1) & (M2 & u2 & H2) & _).
  assert (forall x ex, q !! x = Some ex -> holder ex = fst (members (intent true)) -> s <> x) as Hmine.
  { intros x ex Hx Hh ->. rewrite Hes in Hx. injection Hx as <-. rewrite Hh in Hfs. by apply fixture_not_filler in Hfs. }
  assert (s <> finish_session (prepared_finish r)) as Hr.
  { destruct (reused_old _ _ _ _ _ Hre) as [Hn| ->]; [congruence|by eapply Hmine]. }
  destruct (reused_keeps _ _ _ _ _ Hre _ _ M1) as [R1 K1]; [intuition congruence|].
  destruct (reused_keeps _ _ _ _ _ Hre _ _ M2) as [R2 K2]; [intuition congruence|].
  pose proof (Hmine _ _ M1 (honest_holder _ _ _ H1)) as S1. pose proof (Hmine _ _ M2 (honest_holder _ _ _ H2)) as S2.
  split; [split; [intuition congruence|]; split; [intuition congruence|]; split; [tauto|constructor]|].
  rewrite !lookup_delete_ne by done.
  split; [by split; [|exists u1]|]. split; [by split; [|exists u2]|]. split; [|constructor].
  split; [apply (reused_lookup _ _ _ _ _ Hre)|apply (reused_honest _ _ _ _ _ Hre)].
Qed.

Lemma session_capacity_test_passes :
  passes (session_capacity_preserves_live_sessions_and_reuses_released_slots world template).
Proof.
  apply wp_passes. intros st. apply wp_bind. eapply wp_new_test_signer; [apply Hb|apply Hb|].
  apply wp_bind, wp_three. intros l p t Hlen Hf Hs Hheld Hothers Hd Hall.
  apply wp_bind. rewrite length_fmap, Hlen.
  eapply (wp_fill_pool _ 3 0 []); [|lia|rewrite Hs; unfold MAX_PENDING_SESSIONS; lia|].
  { split; [done|done|left; lia|lia| |constructor]. intros v Hv. apply Hothers. intros ->. by apply fixture_not_filler in Hv. }
  intros k sessions q t1 Ht1 [Hfq Hsq _ _ Hnext Hsess] Hq Hk Hsub Hother.
  apply wp_bind, wp_assert_full; [done|done|].
  destruct l as [|[a1 e1] [|[a2 e2] [|[a3 e3] [|? ?]]]]; try discriminate Hlen.
  rewrite !Forall_cons_iff in Hall. cbn [fst snd] in Hall.
  destruct Hall as ((L1 & u1 & U1 & H1) & (L2 & u2 & U2 & H2) & (L3 & u3 & U3 & H3) & _).
  pose proof (lookup_weaken _ _ _ _ L1 Hsub) as M1. pose proof (lookup_weaken _ _ _ _ L2 Hsub) as M2.
  pose proof (lookup_weaken _ _ _ _ L3 Hsub) as M3. rewrite !fmap_cons. cbn [fst fmap list_fmap].
  apply wp_bind. eapply wp_lift; [reflexivity|].
  eapply (wp_reuse a3 e3 u3); [done|done|by rewrite (Hother _ (fixture_not_filler 16))|done|lia|done|].
  intros r er q2 t2 Hre. destruct (last_in sessions) as (s & Hlast & Hin); [lia|].
  rewrite list.Forall_forall in Hsess. destruct (Hsess s Hin) as (es & Hes & Hfs).
  destruct (survivors q a1 e1 a2 e2 a3 e3 r er q2 s es) as [Hd' Hall']; try done; [by eapply honest_holder| |].
  { repeat apply Forall_cons_2; cbn [fst snd]; [split; [done|by eexists]..|constructor]. }
  assert (s <> finish_session (prepared_finish a3)) as Ds.
  { intros ->. rewrite M3 in Hes. injection Hes as <-. rewrite (honest_holder _ _ _ H3) in Hfs. by apply fixture_not_filler in Hfs. }
  destruct (reused_keeps _ _ _ _ _ Hre _ _ Hes Ds) as [_ Hes2].
  eapply wp_recover;
    [apply (reused_fresh _ _ _ _ _ Hre)|by rewrite (reused_size _ _ _ _ _ Hre)|exact Hk|exact Hes2|exact Hfs| |exact Hlast|].
  { intros v Hv. pose proof (reused_held _ _ _ _ _ Hre v) as Hle. rewrite (Hnext v Hv) in Hle.
    assert (held v q2 <= 0)%nat; [|lia]. apply Hle. intros ->. by apply fixture_not_filler in Hv. }
  intros t3. by apply (wp_finish_all [(a1, e1); (a2, e2); (r, er)]).
Qed.

End Fixture.

(** C36: The signer passes its three capacity tests for all keys, nonces, clocks
    and session ids of the hypotheses: a ninth live session of one wallet is
    refused by name while another wallet still gets one, and a cancelled slot is
    usable again; the 257th session of any wallet is refused; and in a full pool
    a cancelled or expired session frees exactly one slot, its id stays dead,
    and the surviving sessions of the fixture still complete. *)
Theorem capacity_tests_pass template action program intent :
  bench world template root_ self action program intent ->
  passes (per_wallet_session_cap_is_enforced_without_blocking_other_wallets world) /\
  passes (global_capacity_is_still_enforced_across_distinct_wallets world) /\
  passes (session_capacity_preserves_live_sessions_and_reuses_released_slots world template).
Proof.
  intros Hbench. split; [apply per_wallet_test_passes|]. split; [apply global_capacity_test_passes|].
  by eapply session_capacity_test_passes.
Qed.

End Lemmas.
