(* ===== verification/ProtocolExamples.v ===== *)
(** * ProtocolExamples: the signing tests on a concrete scheme

    An instance of the MuSig interface whose shares and signatures list what
    they authenticate, a world that yields new randomness and new ids at every
    moment, and two fixtures: a spend that the Ark server cosigns and a claim
    that it does not.  On them the hypotheses of the theorems of
    [SigningProtocol] and [SignerTests] hold. *)

From S2P Require Import Prelude Bytes NativePolicy Bitcoin Program SignedView Guest Vault Evaluator.
From S2P Require Import GuestRuntime EndToEnd Keys Deployment ArkSigner ArkExamples Scenario SigningProtocol SignerTests.
From S2P Require Import OwnershipTests.

Open Scope N_scope.

(** A policy codec that writes JSON objects as length-prefixed chunks. *)
Module SampleJson.

#[export] Instance json_eq_dec : EqDecision Json.
Proof. solve_decision. Defined.

Definition write_chunks (l : list bytes) : bytes := concat ((fun c => le_bytes 4 (len c) ++ c) <$> l).

Fixpoint read_chunks (fuel : nat) (text : bytes) : option (list bytes) :=
  match fuel, text with
  | _, [] => Some []
  | O, _ => None
  | S fuel, _ =>
      let n := of_le (slice text 0 4) in
      cons (slice text 4 n) <$> read_chunks fuel (skipn (4 + N.to_nat n)%nat text)
  end.

Definition write_field (field : bytes * Json) : bytes :=
  write_chunks (fst field ::
    match snd field with
    | JsonNumber n => [lit "number"; le_bytes 8 n]
    | JsonBool b => [lit "bool"; if b then lit "true" else lit "false"]
    | JsonStrings l => lit "strings" :: l
    end).

Definition read_field (text : bytes) : option (bytes * Json) :=
  chunks ← read_chunks (length text) text;
  match chunks with
  | name :: tag :: values =>
      if decide (tag = lit "strings") then Some (name, JsonStrings values)
      else if decide (tag = lit "number") then (fun n => (name, JsonNumber (of_le n))) <$> head values
      else (fun b => (name, JsonBool (bool_decide (b = lit "true")))) <$> head values
  | _ => None
  end.

Definition write (fields : list (bytes * Json)) : bytes := write_chunks (write_field <$> fields).

Definition read (text : bytes) : option (list (bytes * Json)) :=
  chunks ← read_chunks (length text) text; mapM read_field chunks.

(** Objects the format cannot hold are refused. *)
Definition to_vec (fields : list (bytes * Json)) : Result Error bytes :=
  if decide (read (write fields) = Some fields) then Ok (write fields) else Err (Foreign "too long").

Lemma read_to_vec fields text : to_vec fields = Ok text -> read text = Some fields.
Proof. unfold to_vec. case_decide as H; intros E; [|discriminate E]. by apply Ok_inj in E as <-. Qed.

#[export] Instance codec : PolicyCodec bytes := {|
  policy_eq_dec := _;
  document_from_slice bs := ok_or (fields ← read bs; document_of_json fields) (Foreign "expected value");
  script_from_hex := NativePolicy.Sample.hex;
  to_lower_hex_string := Bytes.hex_encode;
  policy_deserialize_hex := NativePolicy.Sample.hex;
  policy_serialize_hex := Bytes.hex_encode;
|}.

#[export] Instance codec_laws : PolicyCodecLaws bytes.
Proof.
  split; cbn; unfold NativePolicy.Sample.hex; intros.
  1,2: by rewrite hex_decode_encode.
  1: by destruct (_ ≫= _).
  1,2: by destruct (hex_decode _).
Qed.

End SampleJson.

Module SampleMusig.

#[export] Existing Instances StandardOutPoint.codec StandardOutPoint.codec_laws
  SampleProgram.sapio SampleProgram.sapio_laws SampleHost.auth SampleHost.runtime SampleKeys.prim
  SampleUpstream.upstream SampleUpstream.upstream_laws SampleJson.codec SampleJson.codec_laws.

(** Members, message and server. *)
Definition SampleIntent : Type := (bytes * bytes) * bytes * option bytes.

Record SampleSession := { of_intent : SampleIntent; nonces : bytes * bytes; server_nonce : option bytes }.

(** Nonces travel with a leading 02, as compressed points do. *)
Definition decode_point (bs : bytes) : option bytes :=
  match bs with
  | b :: n => if Byte.eqb b Byte.x02 then Some n else None
  | [] => None
  end.

(** The nonces a share is bound to. *)
Definition transcript (s : SampleSession) : bytes := fst (nonces s) ++ snd (nonces s).

Definition member_share (key : bytes) (s : SampleSession) : bytes := lit "m" ++ key ++ transcript s.
Definition server_share_text (s : SampleSession) : bytes := lit "s" ++ transcript s.

#[export] Instance ark : ArkLib := {|
  ArkSigner.PublicKey := bytes;
  Xpub := Network * bytes;
  Intent := SampleIntent;
  members i := fst (fst i);
  intent_message i := snd (fst i);
  intent_server i := snd i;
  PubNonce := bytes;
  nonce_serialize n := Byte.x02 :: n;
  MemberNonce := bytes;
  member_nonce_from_bytes _ _ bs := ok_or (decode_point bs) (Foreign "member nonce");
  member_nonce_serialize n := Byte.x02 :: n;
  Nonce := bytes;
  nonce_new i k r := if decide (r = []) then Err (Foreign "no randomness") else Ok r;
  nonce_public n := rev n;
  ArkSigner.Session := SampleSession;
  session_new i ns s :=
    match snd i, s with
    | Some _, None => Err (Foreign "missing server nonce")
    | None, Some _ => Err (Foreign "unexpected server nonce")
    | _, _ => Ok {| of_intent := i; nonces := ns; server_nonce := s |}
    end;
  Partial := bytes;
  partial_serialize p := p;
  verify_server s p := ensure (bool_decide (p = server_share_text s)) (Foreign "server share");
  parse_nonce bs := ok_or (b ← hex_decode bs; decode_point b) (Foreign "nonce");
  parse_partial bs := ok_or (hex_decode bs) (Foreign "partial");
  ArkSigner.hex_encode := Bytes.hex_encode;
  Keypair := bytes;
  root_depth _ := 0;
  ArkSigner.MAX_PROGRAM_ROOT_DEPTH := 4;
  xpub_from_priv r := r;
  derive_priv r _ := Ok r;
  to_keypair r := snd r;
  add_xonly_tweak_zero k := Ok k;
  nonce_sign n k s := Ok (member_share k s);
  derive_public_key _ xpub := Ok (snd xpub);
  VtxoPolicy := bytes;
  SpendRequest := SigningInput * option bytes * bytes;
  spend_witness s := snd s;
  OwnershipRequest := OwnershipProof bytes;
  ownership_proof p := p;
|}.

#[export] Instance requests : ArkRequests := {|
  action_intent action key :=
    Ok ((user_pubkey key, snd (key_root key)), lit "message",
        match action with Spend s => snd (fst s) | Ownership _ => None end);
  spend_signing_input s _ := Ok (fst (fst s));
  ownership_message _ _ := Ok (lit "message");
|}.

#[export] Instance musig : NestedMusig := {|
  Signature := bytes * bytes;
  SecretNonce := bytes;
  AggregateNonce := SampleSession;
  keypair_from_secret bs := Ok bs;
  keypair_public k := k;
  program_pubkey key := Ok (snd (key_root key));
  group_pubkey key := Ok (user_pubkey key);
  spend_from_input input server witness := Ok (input, server, witness);
  nonce_pair_with_msg k m r := (r, r);
  session_intent s := of_intent s;
  intent_tweak _ := None;
  aggregate_nonce s := s;
  partial_sign _ s _ _ _ _ := server_share_text s;
  verify_member s k p :=
    ensure (bool_decide (p = member_share (member_nonce (fst (fst (of_intent s))) k) s)) (Foreign "member share");
  aggregate s ps share := Ok (snd (fst (of_intent s)), lit "key");
  combine_members _ ps := Ok (fst ps ++ snd ps);
  combine_partial_signatures _ _ m _ _ := (m, lit "key");
  verify_signature _ s := ensure (bool_decide (s = (lit "message", lit "key"))) (Foreign "signature");
  taproot_script_spend_sighash _ _ _ _ := Ok (lit "message");
  taproot_key_spend_sighash _ _ _ := Ok (lit "message");
  x_only _ := lit "key";
  xonly_from_slice _ := Ok (lit "key");
  verify_schnorr s m k := ensure (bool_decide (s = (m, k))) (Foreign "schnorr");
  outer_participants i := match snd i with Some _ => [] | None => [lit "user"; lit "program"] end;
  signing_key _ := lit "key";
|}.

Lemma new_session i ns s session :
  session_new i ns s = Ok session -> session = {| of_intent := i; nonces := ns; server_nonce := s |}.
Proof. cbn. destruct (snd i), s; intros H; try discriminate H; by injection H as <-. Qed.

#[export] Instance musig_laws : NestedMusigLaws.
Proof.
  split.
  - intros n. cbn. by rewrite hex_decode_encode.
  - intros p. cbn. by rewrite hex_decode_encode.
  - intros i k r n _. exists (rev n). cbn. by rewrite hex_decode_encode.
  - by intros i ns s session ->%new_session.
  - intros i ns k H. cbn in *. rewrite H. by eexists.
  - intros i ns s session k r n kp ->%new_session _ _ _ Hk. eexists. split; [reflexivity|].
    assert (kp = member_nonce (fst (fst i)) k) as -> by exact Hk. cbn. by rewrite bool_decide_eq_true_2.
  - intros. cbn. by rewrite bool_decide_eq_true_2.
  - intros i ns s session p0 p1 share ->%new_session _ _ _ _. eexists. split; [reflexivity|].
    cbn. split; [by rewrite bool_decide_eq_true_2|]. intros sh _. eexists. by split.
  - intros p r pk [= <-]. by do 2 eexists.
Qed.

(** New ids and new randomness at every moment, and a clock that stands still. *)
Definition world : World := fun t => {|
  signer_env := {| now := 5000000000; nonce_randomness := replicate (S t) Byte.x05;
                   session_ids := (fun k => replicate t Byte.x00 ++ le_bytes 2 (N.of_nat k)) <$> seq 0 256 |};
  wallet_randomness := replicate (S t) Byte.x06;
  server_randomness := replicate (S t) Byte.x07 |}.

Lemma world_ids t : NoDup (session_ids (signer_env (world t))).
Proof.
  apply (NoDup_fmap_2_strong _ _); [|apply NoDup_seq]. intros x y [_ Hx]%elem_of_seq [_ Hy]%elem_of_seq E.
  apply app_inv_head in E. apply le_bytes_inj in E; lia.
Qed.

Lemma world_healthy : healthy world.
Proof.
  split.
  - intros t. split; [apply world_ids|]. cbn [session_ids signer_env world]. unfold len. rewrite length_fmap, length_seq. done.
  - intros t u id Ht (k & -> & _)%list_elem_of_fmap (k' & E & _)%list_elem_of_fmap.
    apply (f_equal length) in E. rewrite !length_app, !length_replicate, !length_le_bytes in E. lia.
  - intros t. unfold clock. cbn. lia.
  - intros t u _. unfold clock. cbn. lia.
  - intros t u. unfold clock, SESSION_LIFETIME, SESSION_LIFETIME_SECS. cbn. lia.
  - intros t i. by eexists.
  - intros t i. by eexists.
  - intros t u v i user program server _ _ H. cbn in *. destruct (snd i), server; try discriminate H; by eexists.
Qed.

(** The two fixtures. *)
Definition seed : bytes := replicate 32 Byte.x41.
Definition user : bytes := replicate 32 Byte.x42.
Definition key (parameters : bytes) : ProgramKey := {|
  key_root := (Regtest, seed); user_pubkey := user; key_evaluator := wasm_id;
  key_program := SampleHost.module; key_parameters := parameters;
  key_program_id := wasm_id ++ SampleHost.module ++ parameters |}.

(** The contexts of SignedView, with a taproot script that is long enough. *)
Definition fixture (claim : bool) : Fixture := {|
  fixture_key := key SampleArk.vault_parameters_bytes;
  fixture_input := if claim then SampleContext.claim_context else SampleContext.context;
  fixture_server := if claim then None else Some (lit "server");
  fixture_witness := [] |}.

Definition action (claim : bool) : SigningAction :=
  Spend (fixture_input (fixture claim), fixture_server (fixture claim), []).

Definition program (claim : bool) : ProgramInstance :=
  {| evaluator := wasm_id; program := SampleHost.module; parameters := SampleArk.vault_parameters_bytes |}.

Definition intent (claim : bool) : Intent := ((user, seed), lit "message", fixture_server (fixture claim)).

Definition root_ : Xpriv := (Regtest, seed).
Definition signer : ArkSigner := {|
  root := root_; public_root := root_;
  signer_evaluators := [{| evaluator_id := for_wasm_version WASM_HEADER V1; evaluator_version := V1;
                           evaluator_module := WASM_HEADER |}];
  pending := ∅; poisoned := false |}.

Lemma fixtures_authentic claim : authentic (fixture claim) (action claim) (intent claim).
Proof.
  destruct claim; split; try reflexivity; try (eexists; split; reflexivity).
  all: intros s H; cbn in *; by case_bool_decide.
Qed.

Lemma fixtures_admissible claim :
  admissible signer (fixture_key (fixture claim)) (action claim) (program claim) (intent claim).
Proof.
  destruct claim; (split; [by split|]); exists None; (split; [vm_compute; reflexivity|]);
    (split; [intros []; discriminate|]); vm_compute; reflexivity.
Qed.

Lemma sample_bench : bench world fixture root_ signer action program intent.
Proof.
  split; [exact world_healthy|reflexivity|reflexivity|exact fixtures_authentic|exact fixtures_admissible|].
  intros []; cbn; split; intros H; [by destruct H|discriminate H|done|by eexists].
Qed.

Lemma verify_share s p :
  verify_server s p = ensure (bool_decide (p = server_share_text s)) (Foreign "server share").
Proof. reflexivity. Qed.

(** The length of a share tells the tick. *)
Lemma sample_share_length i p t prepared e :
  honest world i p t prepared e -> length (server_share_text (prepared_session prepared)) = (4 + 2 * t)%nat.
Proof.
  intros H. destruct (honest_server _ _ _ _ _ _ H) as (s & _ & Hs). apply new_session in Hs as ->.
  destruct (honest_user _ _ _ _ _ _ H) as [-> Hu]. pose proof (honest_program _ _ _ _ _ _ H) as Hp.
  cbn in Hu, Hp. apply Ok_inj in Hu as <-. apply Ok_inj in Hp as <-.
  unfold server_share_text, transcript. cbn [nonces fst snd nonce_public ark].
  rewrite !length_app, !length_rev. cbn. rewrite !length_replicate. lia.
Qed.

Lemma sample_wire : wire_rejects world program intent.
Proof.
  split.
  - intros H. vm_compute in H. discriminate H.
  - eexists. vm_compute. reflexivity.
  - eexists. vm_compute. reflexivity.
  - eexists. vm_compute. reflexivity.
  - right. exists (replicate 32 Byte.x00). split; [vm_compute; reflexivity|]. intros t p e _.
    exists (Foreign "server share"). cbn. by rewrite bool_decide_eq_false_2.
  - intros t1 t2 p1 p2 e1 e2 share Ht H1 H2 Hs. exists (Foreign "server share").
    apply (honest_share_verifies _ _ _ _ _ _ H2) in Hs. rewrite verify_share in *. case_bool_decide as Es; [|discriminate Hs].
    subst share. rewrite bool_decide_eq_false_2; [done|]. intros E%(f_equal length). apply Ht.
    rewrite (sample_share_length _ _ _ _ _ H1), (sample_share_length _ _ _ _ _ H2) in E. lia.
Qed.

End SampleMusig.

Import SampleMusig.

Definition start : TestState := at_ signer ∅ 0.

(** The tests run. *)
Example malformed_runs :
  fst (malformed_finish_and_wrong_server_shares_consume_the_session world fixture start) = Ok tt.
Proof. vm_compute. reflexivity. Qed.

Example cancellation_runs :
  fst (cancellation_and_expiry_are_terminal_without_sleeping world fixture start) = Ok tt.
Proof. vm_compute. reflexivity. Qed.

Example race_runs :
  fst (concurrent_finish_releases_exactly_one_valid_share world fixture [3; 0; 1; 2; 7; 6; 5; 4]%nat start) = Ok tt.
Proof. vm_compute. reflexivity. Qed.

(* ------------------------------------------------------------------ *)
(** ** Witnesses *)

Lemma sample_available : available signer.
Proof. done. Qed.

Lemma honest_signing_completes_witness : exists signature st,
  Fixture_sign world (fixture false) start = (Ok signature, st) /\
  verify_schnorr signature (lit "message") (lit "key") = Ok tt.
Proof.
  destruct (honest_signing_completes world (fixture false) (action false) (program false) (intent false) signer ∅ 0
    world_healthy sample_available (fixtures_authentic false) (fixtures_admissible false)) as (s & H & Hv);
    [split; vm_compute; reflexivity|].
  exists s. eexists. split; [exact H|exact Hv].
Defined.

Lemma one_terminal_winner_witness : exists st,
  concurrent_finish_and_cancel_have_one_terminal_winner world fixture [1; 0]%nat start = (Ok tt, st).
Proof.
  apply (one_terminal_winner world fixture root_ signer action program intent [1; 0]%nat sample_bench).
  apply Permutation_swap.
Defined.

Lemma exactly_one_share_witness : exists st,
  concurrent_finish_releases_exactly_one_valid_share world fixture (rev (seq 0 8)) start = (Ok tt, st).
Proof.
  apply (exactly_one_share world fixture root_ signer action program intent (rev (seq 0 8)) sample_bench).
  unfold schedules. symmetry. apply Permutation_rev.
Defined.

Lemma malformed_finish_passes_witness : exists st,
  malformed_finish_and_wrong_server_shares_consume_the_session world fixture start = (Ok tt, st).
Proof. exact (malformed_finish_passes world fixture root_ signer action program intent sample_bench sample_wire start). Defined.

Lemma cancellation_and_expiry_pass_witness : exists st,
  cancellation_and_expiry_are_terminal_without_sleeping world fixture start = (Ok tt, st).
Proof. exact (cancellation_and_expiry_pass world fixture root_ signer action program intent sample_bench start). Defined.

Lemma fresh_signer_passes_witness : exists st,
  fresh_signer_with_identical_root_cannot_revive_old_sessions world fixture start = (Ok tt, st).
Proof. exact (fresh_signer_passes world fixture root_ signer action program intent sample_bench start). Defined.

Lemma deferred_server_share_passes_witness : exists st,
  native_forfeit_can_receive_server_share_after_program_share world fixture start = (Ok tt, st).
Proof. exact (deferred_server_share_passes world fixture root_ signer action program intent sample_bench start). Defined.

Lemma delayed_claim_passes_witness : exists st,
  signed_delayed_claim_verifies_after_signer_is_dropped world fixture start = (Ok tt, st).
Proof. exact (delayed_claim_passes world fixture root_ signer action program intent sample_bench start). Defined.
