(* ===== verification/OwnershipExamples.v ===== *)
(** * OwnershipExamples: the ownership and capacity tests on a concrete scheme

    The instance of [OwnershipLib] over the scheme of [ProtocolExamples], where
    the hypotheses of the theorems of [OwnershipTests] and [CapacityTests]
    hold. *)

From S2P Require Import Prelude Bytes NativePolicy Bitcoin Program SignedView Guest Vault Evaluator.
From S2P Require Import GuestRuntime EndToEnd Keys Deployment ArkSigner ArkExamples Scenario SigningProtocol SignerTests.
From S2P Require Import OwnershipTests CapacityTests ProtocolExamples.

Open Scope N_scope.

Import SampleMusig.

Module SampleOwnership.

Record SampleVtxo := { vtxo_point : OutPoint; vtxo_policy : bytes; vtxo_amount : N }.

#[export] Instance vtxo_eq_dec : EqDecision SampleVtxo.
Proof. solve_decision. Defined.

#[export] Instance ownership : OwnershipLib := {|
  program_new e m ps := program_id <$> program_instance_new e m ps;
  public_key_bytes k := if decide (k = user) then lit "user" else lit "program";
  new_p2tr k := [Byte.x51; Byte.x20] ++ firstn 32 (k ++ replicate 32 Byte.x00);
  new_pubkey k := k;
  check_block_delta n := Ok n;
  Vtxo := bytes;
  vtxo_new point policy amount _ _ _ _ := txid point ++ le_bytes 8 amount ++ policy;
  vtxo_serialize v := v;
  vtxo_deserialize bs := Ok bs;
  vtxo_id v := slice v 0 32;
  from_sat_per_vb n := Some (250 * n);
  ownership_request_new _ proof := proof;
  json_to_vec := SampleJson.to_vec;
  TEMPLATEHASH := SampleHost.module;
|}.

#[export] Instance ownership_laws : OwnershipLaws.
Proof.
  split; [|done]. intros fields text d H%SampleJson.read_to_vec Hd.
  cbn [document_from_slice SampleJson.codec]. rewrite H. cbn [mbind option_bind]. by rewrite Hd.
Qed.

Lemma sample_owner : ownership_bench world root_ signer.
Proof.
  split; [exact world_healthy|reflexivity|reflexivity| | | |].
  - intros b _ _. by eexists.
  - intros e m ps id H. cbn in *. apply Ok_inj in H as <-. by eexists.
  - intros program_ b _ _. do 3 eexists. reflexivity.
  - intros program_ b key_ input kp program proof Hfix _. eexists. split; [reflexivity|]. by cbn.
Qed.

Lemma sample_documents : policy_documents.
Proof.
  split.
  1-3: intros allowed [= <-]; eexists; vm_compute; reflexivity.
  1,2: eexists; vm_compute; reflexivity.
  1: { eexists _, _, _. split; [vm_compute; reflexivity|]. split; [vm_compute; reflexivity|]. vm_compute. reflexivity. }
  1,2: intros H; vm_compute in H; discriminate H.
  by eexists.
Qed.

Lemma sample_wallets : wallets_differ.
Proof.
  split; [|eexists; vm_compute; reflexivity].
  intros b1 b2 kp1 kp2 H1 H2 E. apply Ok_inj in H1 as <-, H2 as <-. by injection E.
Qed.

End SampleOwnership.

Import SampleOwnership.

(** The tests run. *)
Example offboard_runs : fst (native_policy_binds_offboard_destination world start) = Ok tt.
Proof. vm_compute. reflexivity. Qed.

Example session_cap_runs :
  fst (per_wallet_session_cap_is_enforced_without_blocking_other_wallets world start) = Ok tt.
Proof. vm_compute. reflexivity. Qed.

Lemma native_policy_tests_pass_witness :
  (exists st, native_policy_binds_offboard_destination world start = (Ok tt, st)) /\
  (exists st, native_policy_requires_inline_wasm_program world start = (Ok tt, st)).
Proof.
  pose proof (native_policy_tests_pass world root_ signer sample_owner sample_documents) as (H1 & _ & _ & _ & _ & H6).
  split; [exact (H1 start)|exact (H6 start)].
Defined.

Lemma capacity_tests_pass_witness : exists st,
  session_capacity_preserves_live_sessions_and_reuses_released_slots world fixture start = (Ok tt, st).
Proof.
  exact (proj2 (proj2 (capacity_tests_pass world root_ signer sample_owner sample_wallets fixture action program intent
    sample_bench)) start).
Defined.
