(* ===== verification/Nsm.v ===== *)
(** * Nsm: the attestation device (src/nsm.rs)

    [Nsm_open] refuses a missing device and unlocked, short or zero
    measurements; [attest] requests a document over the digest of the served
    identity.  [Nsm_open_traced] is [open] with its driver calls, among them the
    release of the descriptor by [Drop].  The driver is the interface
    [NsmDriver]. *)

From S2P Require Import Prelude Bytes Keys.
From stdpp Require Import pretty.

Open Scope N_scope.

Inductive NsmRequest :=
| DescribePCRRequest (index : N)
| AttestationRequest (nonce user_data public_key : option bytes).

Inductive NsmResponse :=
| DescribePCR (lock : bool) (data : bytes)
| Attestation (document : bytes)
| OtherResponse.

Class NsmDriver := {
  nsm_init : Z;
  nsm_process_request : Z -> NsmRequest -> NsmResponse;
}.

Section Nsm.
  Context {driver : NsmDriver} {prim : KeyPrimitives}.

(** The guard of the [DescribePCR] arm. *)
Definition pcr_locked (response : NsmResponse) : bool :=
  match response with
  | DescribePCR lock data =>
      lock && (len data =? 48) && existsb (fun byte => negb (Byte.eqb byte Byte.x00)) data
  | _ => false
  end.

(** [Nsm::open]; the value is the descriptor. *)
Definition Nsm_open : Result Error Z :=
  let fd := nsm_init in
  _ ← ensure (0 <=? fd)%Z (Message "Nitro NSM unavailable; production requires /dev/nsm");
  _ ← try_fold (fun _ index =>
        ensure (pcr_locked (nsm_process_request fd (DescribePCRRequest index)))
          (Message ("PCR" +:+ pretty index
                    +:+ " must be locked, nonzero SHA-384; debug enclaves are forbidden")))
        tt [0; 1; 2];
  Ok fd.

(** [Nsm::attest]. *)
Definition attest (nsm : Z) (nonce identity_json : bytes) : Result Error bytes :=
  _ ← ensure ((16 <=? len nonce) && (len nonce <=? 64)) (Message "nonce must contain 16..64 bytes");
  match nsm_process_request nsm
          (AttestationRequest (Some nonce) (Some (sha256 identity_json)) None) with
  | Attestation document => Ok document
  | _ => Err (Message "NSM attestation failed")
  end.

(* ------------------------------------------------------------------ *)
(** ** The descriptor *)

(** The calls into the driver, in order. *)
Inductive DriverCall :=
| InitCall
| ProcessCall (fd : Z) (request : NsmRequest)
| ExitCall (fd : Z).

(** [Drop for Nsm]. *)
Definition Nsm_drop (nsm : Z) : list DriverCall := [ExitCall nsm].

(** The loop of [open], with its calls. *)
Fixpoint describe_all (fd : Z) (indices : list N) : Result Error unit * list DriverCall :=
  match indices with
  | [] => (Ok tt, [])
  | index :: indices =>
      let call := ProcessCall fd (DescribePCRRequest index) in
      if pcr_locked (nsm_process_request fd (DescribePCRRequest index)) then
        let '(result, calls) := describe_all fd indices in (result, call :: calls)
      else (Err (Message ("PCR" +:+ pretty index
                          +:+ " must be locked, nonzero SHA-384; debug enclaves are forbidden")), [call])
  end.

(** [open] with its calls: the value owns the descriptor from its construction,
    and is dropped when a measurement is refused. *)
Definition Nsm_open_traced : Result Error Z * list DriverCall :=
  let fd := nsm_init in
  if (0 <=? fd)%Z then
    match describe_all fd [0; 1; 2] with
    | (Ok _, calls) => (Ok fd, InitCall :: calls)
    | (Err e, calls) => (Err e, InitCall :: calls ++ Nsm_drop fd)
    | (Panic w, calls) => (Panic w, InitCall :: calls ++ Nsm_drop fd)
    end
  else (Err (Message "Nitro NSM unavailable; production requires /dev/nsm"), [InitCall]).

(* ------------------------------------------------------------------ *)
(** ** Lemmas *)

(** The loop asks for a prefix of the registers, all of them when it succeeds. *)
Lemma describe_all_calls fd indices :
  fst (describe_all fd indices) =
    try_fold (fun _ index =>
        ensure (pcr_locked (nsm_process_request fd (DescribePCRRequest index)))
          (Message ("PCR" +:+ pretty index
                    +:+ " must be locked, nonzero SHA-384; debug enclaves are forbidden")))
      tt indices /\
  exists n, (n <= length indices)%nat /\
    snd (describe_all fd indices) = (fun i => ProcessCall fd (DescribePCRRequest i)) <$> firstn n indices /\
    (fst (describe_all fd indices) = Ok tt -> n = length indices) /\
    (indices <> [] -> n <> 0%nat).
Proof.
  induction indices as [|i indices (IH & n & Hn & Hc & Hok & _)]; [split; [done|by exists 0%nat]|].
  cbn [describe_all try_fold]. destruct (pcr_locked _); cbn [ensure mbind Result_bind].
  - destruct (describe_all fd indices) as [r calls]. cbn in *. split; [done|].
    exists (S n). split; [lia|]. split; [by rewrite Hc|]. split; [|done]. intros E. by rewrite Hok.
  - split; [done|]. exists 1%nat. split; [cbn; lia|]. by repeat split.
Qed.

Lemma nonzero_iff data :
  existsb (fun byte => negb (Byte.eqb byte Byte.x00)) data = true <-> data <> replicate (length data) Byte.x00.
Proof.
  induction data as [|b data IH]; cbn; [done|]. rewrite orb_true_iff, negb_true_iff, IH.
  destruct (Byte.eqb b Byte.x00) eqn:E.
  - apply byte_eqb_eq in E as ->. split; [intros [?|H]; [done|congruence]|]. intros H. right. congruence.
  - split; [|by left]. intros _ [= -> _]. discriminate E.
Qed.

(** A measurement register as production requires it. *)
Definition measured (fd : Z) (index : N) : Prop :=
  exists data, nsm_process_request fd (DescribePCRRequest index) = DescribePCR true data /\
    len data = 48 /\ data <> replicate 48 Byte.x00.

Lemma pcr_locked_iff fd index :
  pcr_locked (nsm_process_request fd (DescribePCRRequest index)) = true <-> measured fd index.
Proof.
  unfold pcr_locked, measured. destruct (nsm_process_request fd _) as [lock data|d|].
  2,3: split; [done|]; by intros (? & [=] & _).
  rewrite !andb_true_iff, N.eqb_eq, nonzero_iff. split.
  - intros [[-> Hl] Hd]. exists data. split; [done|]. split; [done|].
    replace 48%nat with (length data) by (unfold len in Hl; lia). done.
  - intros (d & [= -> ->] & Hl & Hd). split; [done|].
    replace (length d) with 48%nat by (unfold len in Hl; lia). done.
Qed.

Lemma open_ok fd :
  Nsm_open = Ok fd <-> nsm_init = fd /\ (0 <= fd)%Z /\ forall index, index <= 2 -> measured fd index.
Proof.
  unfold Nsm_open. split.
  - intros H. apply bind_ok in H as ([] & Hfd & H). apply ensure_ok, Z.leb_le in Hfd.
    apply bind_ok in H as ([] & Hp & H). apply Ok_inj in H as <-. split; [done|]. split; [done|].
    cbn [try_fold] in Hp. apply bind_ok in Hp as (? & H0 & Hp). apply bind_ok in Hp as (? & H1 & Hp).
    apply bind_ok in Hp as (? & H2 & _). apply ensure_ok in H0, H1, H2.
    apply pcr_locked_iff in H0, H1, H2. intros index Hi.
    assert (index = 0 \/ index = 1 \/ index = 2) as [-> | [-> | ->]] by lia; done.
  - intros (<- & Hfd & H). apply Z.leb_le in Hfd. rewrite Hfd. cbn [ensure mbind Result_bind try_fold].
    rewrite !(proj2 (pcr_locked_iff _ _)) by (apply H; lia). done.
Qed.

Lemma attest_ok nsm nonce identity_json document :
  attest nsm nonce identity_json = Ok document <->
  16 <= len nonce <= 64 /\
  nsm_process_request nsm (AttestationRequest (Some nonce) (Some (sha256 identity_json)) None)
    = Attestation document.
Proof.
  unfold attest. rewrite bind_ok. split.
  - intros ([] & H & Hr). apply ensure_ok in H. rewrite andb_true_iff, !N.leb_le in H.
    split; [done|]. destruct (nsm_process_request _ _); try done. by apply Ok_inj in Hr as ->.
  - intros [[H1 H2] Hr]. exists tt. apply N.leb_le in H1, H2. rewrite H1, H2, Hr. done.
Qed.

End Nsm.

(* ------------------------------------------------------------------ *)
(** ** Properties *)

Section Theorems.
  Context {driver : NsmDriver}.

(** The production binary starts only on a present device whose PCR0, PCR1
    and PCR2 are all locked, 48 bytes and not all zero; debug enclaves, whose
    measurements are zero, are refused. *)
Theorem nsm_open_iff fd :
  Nsm_open = Ok fd <-> nsm_init = fd /\ (0 <= fd)%Z /\ forall index, index <= 2 -> measured fd index.
Proof.
  apply open_ok.
Qed.

(** The descriptor is closed exactly when opening fails after it was obtained:
    the traced [open] returns what [Nsm_open] does; on success its only calls
    are the initialization and the three register queries; when a register is
    refused, the queries stop there and the one further call releases the
    descriptor; and a failed initialization is followed by no call. *)
Theorem open_releases :
  fst Nsm_open_traced = Nsm_open /\
  match Nsm_open with
  | Ok fd => fd = nsm_init /\
      snd Nsm_open_traced = InitCall :: ((fun i => ProcessCall fd (DescribePCRRequest i)) <$> [0; 1; 2])
  | _ =>
      (nsm_init < 0 /\ snd Nsm_open_traced = [InitCall])%Z \/
      exists n, (1 <= n <= 3)%nat /\
        snd Nsm_open_traced = InitCall
          :: ((fun i => ProcessCall nsm_init (DescribePCRRequest i)) <$> firstn n [0; 1; 2])
          ++ [ExitCall nsm_init]
  end.
Proof.
  unfold Nsm_open_traced, Nsm_open. destruct (Z.leb_spec 0 nsm_init) as [H0|H0]; cbn [ensure mbind Result_bind].
  2: { split; [done|]. by left. }
  destruct (describe_all_calls nsm_init [0; 1; 2]) as (<- & n & Hn & Hc & Hok & Hpos).
  destruct (describe_all nsm_init [0; 1; 2]) as [[[]|e|w] calls]; cbn [fst snd mbind Result_bind] in *; subst calls.
  - split; [done|]. split; [done|]. by rewrite (Hok eq_refl).
  - split; [done|]. right. exists n. split; [|done]. cbn in Hn. specialize (Hpos ltac:(done)). lia.
  - split; [done|]. right. exists n. split; [|done]. cbn in Hn. specialize (Hpos ltac:(done)). lia.
Qed.

End Theorems.
