(* ===== verification/App.v ===== *)
(** * App: setup, publication and the HTTP handlers (src/app.rs)

    The process holds one [AppState], a dedicated signer thread and a
    one-element job channel between them.  [setup] is asynchronous: it awaits
    the KMS derivation and then the signer's readiness, and its future can be
    dropped at either point by the request deadline or a disconnected client.
    [app_step] is the transition system of these parts; an [Action] is one
    scheduling step, and [app_run] executes a sequence of them.  The other
    handlers are functions of the state they find.

    serde_json, base64, hex, the oracle's public root and error display are
    the interface [AppLib].  The system keeps running after the signer thread
    has stopped, which the process does only until [run] returns; the local-dev
    start and that supervision are in [Lifecycle]. *)

From S2P Require Import Prelude Bytes NativePolicy Bitcoin Program SignedView Evaluator Keys Deployment ArkSigner Nsm.

Open Scope N_scope.

Definition API_ADDRESS : bytes := lit "127.0.0.1:8000".
Definition SIGNER_ADDRESS : bytes := lit "127.0.0.1:8367".

(** [StatusCode]. *)
Definition OK : N := 200.
Definition NO_CONTENT : N := 204.
Definition BAD_REQUEST : N := 400.
Definition CONFLICT : N := 409.
Definition UNPROCESSABLE_ENTITY : N := 422.
Definition INTERNAL_SERVER_ERROR : N := 500.
Definition BAD_GATEWAY : N := 502.
Definition SERVICE_UNAVAILABLE : N := 503.

Abbreviation ApiError := (N * bytes)%type.

Section Types.
  Context {sapio : SapioProgram} {prim : KeyPrimitives} {upstream : Upstream} {ark : ArkLib}.

Record Identity := {
  identity_protocol : bytes;
  mode : bytes;
  xpub : Xpub;
  identity_settings : option Settings;
  signing : ProgramProfile;
}.

Class AppLib := {
  oracle_public_root : ProgramOracle -> Xpub;
  identity_to_string : Identity -> Result Error bytes;
  base64_encode : bytes -> bytes;
  nonce_from_hex : bytes -> Result string bytes;
  error_to_string : Error -> bytes;
}.

Record AppState := {
  identity : option bytes;
  ark_signer : option ArkSigner;
  ark_admission : N;
  setup_gate : bool;
  nsm : option Z;
}.

(** A job in the channel; [job_id] names its [ready] oneshot. *)
Record SignerJob := { job_oracle : ProgramOracle; job_id : N }.

(** The setup future, at its two await points. *)
Inductive SetupTask :=
| Deriving (settings : Settings)
| AwaitingReady (job : N) (signer : ArkSigner) (identity_json : bytes).

(** The program-oracle thread. *)
Inductive SignerThread :=
| WaitingForJob
| Binding (job : SignerJob)
| Serving (oracle : ProgramOracle)
| Stopped.

(** [ready] holds the values sent on the oneshots, [evaluating] counts the
    blocking prepare tasks that hold a permit. *)
Record System := {
  app : AppState;
  setup_task : option SetupTask;
  work : option SignerJob;
  thread : SignerThread;
  ready : gmap N (Result string unit);
  next_job : N;
  evaluating : N;
}.

Record AttestationResponse := { identity_json : bytes; document : bytes }.

End Types.

Section App.
  Context {sapio : SapioProgram} {prim : KeyPrimitives} {upstream : Upstream} {ark : ArkLib}.
  Context {requests : ArkRequests} {applib : AppLib} {driver : NsmDriver}.
  Context {runtime : WasmRuntime} {outpoint_codec : OutPointCodec} {auth : NativeAuth}.
  Context {codec : PolicyCodec VtxoPolicy}.

(* ------------------------------------------------------------------ *)
(** ** install *)

(** [OnceLock::set]. *)
Definition once_set {A} (cell : option A) (value : A) (e : Error) : Result Error (option A) :=
  match cell with
  | None => Ok (Some value)
  | Some _ => Err e
  end.

(** Lines 62-74: the oracle, the Ark signer and the identity of one root. *)
Definition install_start (st : AppState) (root : Xpriv) (settings : option Settings)
    : Result Error (ProgramOracle * ArkSigner * bytes) :=
  oracle ← program_oracle root;
  signer ← ArkSigner_new root;
  identity ← identity_to_string {|
    identity_protocol := IDENTITY_PROTOCOL;
    mode := (match nsm st with Some _ => lit "nitro" | None => lit "local-dev" end);
    xpub := oracle_public_root oracle;
    identity_settings := settings;
    signing := program_profile |};
  Ok (oracle, signer, identity).

(** Lines 91-97: publication; the state keeps what was set before a failure. *)
Definition install_finish (st : AppState) (signer : ArkSigner) (identity_ : bytes)
    : Result Error unit * AppState :=
  match once_set (ark_signer st) signer (Message "Ark signer already initialized") with
  | Ok cell =>
      let st := {| identity := identity st; ark_signer := cell; ark_admission := ark_admission st;
                   setup_gate := setup_gate st; nsm := nsm st |} in
      match once_set (identity st) identity_ (Message "already initialized") with
      | Ok cell => (Ok tt, {| identity := cell; ark_signer := ark_signer st;
                              ark_admission := ark_admission st; setup_gate := setup_gate st; nsm := nsm st |})
      | Err e => (Err e, st)
      | Panic w => (Panic w, st)
      end
  | Err e => (Err e, st)
  | Panic w => (Panic w, st)
  end.

(* ------------------------------------------------------------------ *)
(** ** Handlers *)

Definition public_key (st : AppState) : Result ApiError bytes :=
  ok_or (identity st) (SERVICE_UNAVAILABLE, lit "not initialized").

Definition health (st : AppState) : N * bytes :=
  match identity st with
  | Some _ => (OK, lit "ready")
  | None => (SERVICE_UNAVAILABLE, lit "not initialized")
  end.

Definition attestation (st : AppState) (request_nonce : bytes) : Result ApiError AttestationResponse :=
  nonce ← map_err (fun _ => (BAD_REQUEST, lit "nonce must be hexadecimal")) (nonce_from_hex request_nonce);
  _ ← ensure ((16 <=? len nonce) && (len nonce <=? 64)) (BAD_REQUEST, lit "nonce must contain 16..64 bytes");
  identity ← ok_or (identity st) (SERVICE_UNAVAILABLE, lit "not initialized");
  nsm ← ok_or (nsm st) (SERVICE_UNAVAILABLE, lit "local-dev cannot attest");
  document ← map_err (fun _ => (SERVICE_UNAVAILABLE, lit "NSM attestation failed"))
               (attest nsm nonce identity);
  Ok {| identity_json := identity; document := base64_encode document |}.

(** The function [ark_signer]. *)
Definition get_ark_signer (st : AppState) : Result ApiError ArkSigner :=
  match identity st with
  | None => Err (SERVICE_UNAVAILABLE, lit "not initialized")
  | Some _ => ok_or (ark_signer st) (SERVICE_UNAVAILABLE, lit "Ark signer unavailable")
  end.

Definition with_signer (st : AppState) (signer : ArkSigner) (admission : N) : AppState :=
  {| identity := identity st; ark_signer := Some signer; ark_admission := admission;
     setup_gate := setup_gate st; nsm := nsm st |}.

(** [ark_prepare] up to [spawn_blocking]: the signer and one permit. *)
Definition ark_prepare_admit (st : AppState) : Result ApiError AppState :=
  signer ← get_ark_signer st;
  if ark_admission st =? 0
  then Err (SERVICE_UNAVAILABLE, lit "program evaluation capacity exceeded")
  else Ok (with_signer st signer (ark_admission st - 1)).

(** The blocking task: its reply (a panic is a [JoinError]) and the state with
    the permit dropped. *)
Definition ark_prepare_run (st : AppState) (env : Env) (request : PrepareRequest)
    : Result ApiError PrepareResponse * AppState :=
  match ark_signer st with
  | None => (Panic "Ark signer unavailable", st)
  | Some signer =>
      let '(result, signer) := prepare signer env request in
      (match result with
       | Ok response => Ok response
       | Err e => Err (UNPROCESSABLE_ENTITY, error_to_string e)
       | Panic _ => Err (INTERNAL_SERVER_ERROR, lit "program evaluator unavailable")
       end, with_signer st signer (ark_admission st + 1))
  end.

Definition ark_finish (st : AppState) (env : Env) (request : FinishRequest)
    : Result ApiError FinishResponse * AppState :=
  match get_ark_signer st with
  | Ok signer =>
      let '(result, signer) := finish signer env request in
      (map_err (fun e => (UNPROCESSABLE_ENTITY, error_to_string e)) result,
       with_signer st signer (ark_admission st))
  | Err e => (Err e, st)
  | Panic w => (Panic w, st)
  end.

(** The value is the status code. *)
Definition ark_cancel (st : AppState) (request : CancelRequest) : Result ApiError N * AppState :=
  match get_ark_signer st with
  | Ok signer =>
      let '(result, signer) := cancel signer request in
      (map_err (fun e => (UNPROCESSABLE_ENTITY, error_to_string e)) ((fun _ => NO_CONTENT) <$> result),
       with_signer st signer (ark_admission st))
  | Err e => (Err e, st)
  | Panic w => (Panic w, st)
  end.

(* ------------------------------------------------------------------ *)
(** ** The router *)

Inductive Method := GET | HEAD | POST.

Inductive Handler := Health | Setup | PublicKeyHandler | AttestationHandler | ArkPrepare | ArkFinish | ArkCancel.

(** A route with the body limit its extractors apply and its CORS layer. *)
Record Route := {
  route_method : Method;
  route_path : bytes;
  route_handler : Handler;
  route_body_limit : N;
  route_cors : bool;
}.

Definition CONCURRENCY_LIMIT : N := 16.

(** [build_router]; the inner limit of [/ark/prepare] replaces the outer one. *)
Definition build_router (MAX_REQUEST_BYTES : N) : list Route := [
  {| route_method := GET; route_path := lit "/health"; route_handler := Health;
     route_body_limit := 4096; route_cors := false |};
  {| route_method := POST; route_path := lit "/setup"; route_handler := Setup;
     route_body_limit := 4096; route_cors := false |};
  {| route_method := GET; route_path := lit "/public-key"; route_handler := PublicKeyHandler;
     route_body_limit := 4096; route_cors := false |};
  {| route_method := POST; route_path := lit "/attestation"; route_handler := AttestationHandler;
     route_body_limit := 4096; route_cors := false |};
  {| route_method := POST; route_path := lit "/ark/prepare"; route_handler := ArkPrepare;
     route_body_limit := MAX_REQUEST_BYTES; route_cors := true |};
  {| route_method := POST; route_path := lit "/ark/finish"; route_handler := ArkFinish;
     route_body_limit := 4096; route_cors := true |};
  {| route_method := POST; route_path := lit "/ark/cancel"; route_handler := ArkCancel;
     route_body_limit := 4096; route_cors := true |}].

(* ------------------------------------------------------------------ *)
(** ** Scheduling steps *)

Definition set_gate (st : AppState) (gate : bool) : AppState :=
  {| identity := identity st; ark_signer := ark_signer st; ark_admission := ark_admission st;
     setup_gate := gate; nsm := nsm st |}.

Definition with_app (sys : System) (st : AppState) : System :=
  {| app := st; setup_task := setup_task sys; work := work sys; thread := thread sys;
     ready := ready sys; next_job := next_job sys; evaluating := evaluating sys |}.

Definition with_evaluating (sys : System) (n : N) : System :=
  {| app := app sys; setup_task := setup_task sys; work := work sys; thread := thread sys;
     ready := ready sys; next_job := next_job sys; evaluating := n |}.

(** The setup future ends, by returning or by being dropped: its guard and its
    oneshot receiver go with it. *)
Definition end_setup (sys : System) : System :=
  {| app := set_gate (app sys) false; setup_task := None; work := work sys; thread := thread sys;
     ready := ready sys; next_job := next_job sys; evaluating := evaluating sys |}.

Inductive Reply :=
| SetupReply (result : Result ApiError bytes)
| NoReply.

Inductive Action :=
| SetupRequest (settings : Settings)
| Derived (send : KmsRequest -> Result string KmsResponse)
| ReadyReceived
| ReadyTimeout
| SetupDropped
| SignerReceives
| SignerBinds (result : Result string unit)
| SignerExits
| PrepareAdmitted
| PrepareRuns (env : Env) (request : PrepareRequest)
| FinishCall (env : Env) (request : FinishRequest)
| CancelCall (request : CancelRequest).

(** [setup] up to its first await; the reply is immediate when it is refused. *)
Definition setup_start (sys : System) (settings : Settings) : System * Reply :=
  match validate settings with
  | Ok _ =>
      if setup_gate (app sys) then
        (sys, SetupReply (Err (CONFLICT, lit "setup already in progress")))
      else if bool_decide (is_Some (identity (app sys))) then
        (sys, SetupReply (Err (CONFLICT, lit "already initialized; restart to change identity")))
      else if bool_decide (nsm (app sys) = None) then
        (sys, SetupReply (Err (SERVICE_UNAVAILABLE, lit "Nitro provisioning unavailable")))
      else
        ({| app := set_gate (app sys) true; setup_task := Some (Deriving settings); work := work sys;
            thread := thread sys; ready := ready sys; next_job := next_job sys; evaluating := evaluating sys |}, NoReply)
  | _ => (sys, SetupReply (Err (BAD_REQUEST, lit "invalid setup settings")))
  end.

(** After the derivation: install up to its await.  [try_send] fails on a full
    channel or a dropped receiver. *)
Definition setup_derived (sys : System) (settings : Settings)
    (send : KmsRequest -> Result string KmsResponse) : System * Reply :=
  match derive_root send settings with
  | Ok root =>
      match install_start (app sys) root (Some settings), work sys, thread sys with
      | Ok (oracle, signer, identity), None, (WaitingForJob | Binding _ | Serving _) =>
          ({| app := app sys;
              setup_task := Some (AwaitingReady (next_job sys) signer identity);
              work := Some {| job_oracle := oracle; job_id := next_job sys |};
              thread := thread sys; ready := ready sys; next_job := N.succ (next_job sys);
              evaluating := evaluating sys |}, NoReply)
      | _, _, _ => (end_setup sys, SetupReply (Err (SERVICE_UNAVAILABLE, lit "could not start signer")))
      end
  | _ => (end_setup sys, SetupReply (Err (BAD_GATEWAY, lit "attested KMS provisioning failed")))
  end.

(** The readiness arrives: publish and answer with the identity. *)
Definition setup_ready (sys : System) (signer : ArkSigner) (identity_ : bytes)
    (result : Result string unit) : System * Reply :=
  match result with
  | Ok _ =>
      let '(installed, st) := install_finish (app sys) signer identity_ in
      let sys := end_setup (with_app sys st) in
      match installed with
      | Ok _ => (sys, SetupReply (public_key (app sys)))
      | _ => (sys, SetupReply (Err (SERVICE_UNAVAILABLE, lit "could not start signer")))
      end
  | _ => (end_setup sys, SetupReply (Err (SERVICE_UNAVAILABLE, lit "could not start signer")))
  end.

(** The oneshot receiver of a job is alive while its setup awaits it. *)
Definition receiver_alive (sys : System) (job : N) : bool :=
  match setup_task sys with
  | Some (AwaitingReady j _ _) => j =? job
  | _ => false
  end.

(** The thread binds the listener and reports; without a receiver it stops. *)
Definition signer_binds (sys : System) (job : SignerJob) (result : Result string unit) : System :=
  let alive := receiver_alive sys (job_id job) in
  {| app := app sys; setup_task := setup_task sys; work := work sys;
     thread := (match result with
                | Ok _ => if alive then Serving (job_oracle job) else Stopped
                | _ => Stopped
                end);
     ready := (if alive then <[job_id job := result]> (ready sys) else ready sys);
     next_job := next_job sys; evaluating := evaluating sys |}.

Definition with_thread (sys : System) (w : option SignerJob) (t : SignerThread) : System :=
  {| app := app sys; setup_task := setup_task sys; work := w; thread := t;
     ready := ready sys; next_job := next_job sys; evaluating := evaluating sys |}.

(** The thread ends before it takes a job (its runtime could not be built): the
    channel closes, and a job in it is dropped with its sender. *)
Definition signer_aborts (sys : System) : System :=
  {| app := app sys; setup_task := setup_task sys; work := None; thread := Stopped;
     ready := (match work sys with
               | Some job => if receiver_alive sys (job_id job)
                             then <[job_id job := Err "sender dropped"%string]> (ready sys) else ready sys
               | None => ready sys
               end);
     next_job := next_job sys; evaluating := evaluating sys |}.

(** One step; [None] when the action is not enabled. *)
Definition app_step (sys : System) (action : Action) : option (System * Reply) :=
  match action with
  | SetupRequest settings => Some (setup_start sys settings)
  | Derived send =>
      match setup_task sys with
      | Some (Deriving settings) => Some (setup_derived sys settings send)
      | _ => None
      end
  | ReadyReceived =>
      match setup_task sys with
      | Some (AwaitingReady job signer identity) =>
          result ← ready sys !! job;
          Some (setup_ready sys signer identity result)
      | _ => None
      end
  | ReadyTimeout =>
      match setup_task sys with
      | Some (AwaitingReady job _ _) =>
          if bool_decide (ready sys !! job = None)
          then Some (end_setup sys, SetupReply (Err (SERVICE_UNAVAILABLE, lit "could not start signer")))
          else None
      | _ => None
      end
  | SetupDropped =>
      match setup_task sys with
      | Some _ => Some (end_setup sys, NoReply)
      | None => None
      end
  | SignerReceives =>
      match thread sys, work sys with
      | WaitingForJob, Some job => Some (with_thread sys None (Binding job), NoReply)
      | _, _ => None
      end
  | SignerBinds result =>
      match thread sys with
      | Binding job => Some (signer_binds sys job result, NoReply)
      | _ => None
      end
  | SignerExits =>
      match thread sys with
      | Serving _ => Some (with_thread sys (work sys) Stopped, NoReply)
      | WaitingForJob => Some (signer_aborts sys, NoReply)
      | _ => None
      end
  | PrepareAdmitted =>
      match ark_prepare_admit (app sys) with
      | Ok st => Some (with_evaluating (with_app sys st) (evaluating sys + 1), NoReply)
      | _ => None
      end
  | PrepareRuns env request =>
      if evaluating sys =? 0 then None else
      Some (with_evaluating (with_app sys (snd (ark_prepare_run (app sys) env request)))
              (evaluating sys - 1), NoReply)
  | FinishCall env request => Some (with_app sys (snd (ark_finish (app sys) env request)), NoReply)
  | CancelCall request => Some (with_app sys (snd (ark_cancel (app sys) request)), NoReply)
  end.

(** [run] before the first request, with the device [open] returned. *)
Definition initial (nsm_ : option Z) : System := {|
  app := {| identity := None; ark_signer := None; ark_admission := MAX_CONNECTIONS;
            setup_gate := false; nsm := nsm_ |};
  setup_task := None; work := None; thread := WaitingForJob; ready := ∅; next_job := 0;
  evaluating := 0 |}.

(** Executions: every enabled sequence of steps. *)
Inductive reaches : System -> System -> Prop :=
| reaches_refl sys : reaches sys sys
| reaches_step sys action sys' reply sys'' :
    app_step sys action = Some (sys', reply) -> reaches sys' sys'' -> reaches sys sys''.

Definition reachable (sys : System) : Prop := exists nsm_, reaches (initial nsm_) sys.

(* ------------------------------------------------------------------ *)
(** ** Invariant *)

(** Everything a setup makes from one derived root. *)
Record Bundle := {
  b_settings : Settings;
  b_root : Xpriv;
  b_oracle : ProgramOracle;
  b_signer : ArkSigner;
  b_identity : bytes;
}.

(** The bundle was derived for its settings and its parts belong together. *)
Definition consistent (b : Bundle) : Prop :=
  (exists send, derive_root send (b_settings b) = Ok (b_root b)) /\
  program_oracle (b_root b) = Ok (b_oracle b) /\
  ArkSigner_new (b_root b) = Ok (b_signer b) /\
  identity_to_string {| identity_protocol := IDENTITY_PROTOCOL; mode := lit "nitro";
    xpub := oracle_public_root (b_oracle b); identity_settings := Some (b_settings b);
    signing := program_profile |} = Ok (b_identity b).

(** [signer'] is what some execution of Ark calls makes of [signer]. *)
Definition advances (signer signer' : ArkSigner) : Prop := exists calls, snd (run signer calls) = signer'.

(** The job of [b], wherever it is, carries the oracle of [b]. *)
Definition tracks (sys : System) (j : N) (b : Bundle) : Prop :=
  (forall job, work sys = Some job -> job_id job = j -> job_oracle job = b_oracle b) /\
  (forall job, thread sys = Binding job -> job_id job = j -> job_oracle job = b_oracle b) /\
  (forall u, ready sys !! j = Some (Ok u) -> thread sys = Serving (b_oracle b) \/ thread sys = Stopped).

Record invariant (sys : System) : Prop := {
  inv_gate : setup_gate (app sys) = bool_decide (is_Some (setup_task sys));
  inv_idle : is_Some (setup_task sys) -> identity (app sys) = None;
  inv_nitro : is_Some (setup_task sys) -> is_Some (nsm (app sys));
  inv_both : identity (app sys) = None -> ark_signer (app sys) = None;
  inv_work : forall job, work sys = Some job -> job_id job < next_job sys;
  inv_binding : forall job, thread sys = Binding job -> job_id job < next_job sys;
  inv_ready : forall j r, ready sys !! j = Some r -> j < next_job sys;
  inv_unsent : match thread sys with WaitingForJob | Binding _ => ready sys = ∅ | _ => True end;
  inv_task : forall j signer id, setup_task sys = Some (AwaitingReady j signer id) ->
    j < next_job sys /\
    exists b, consistent b /\ b_signer b = signer /\ b_identity b = id /\ tracks sys j b;
  inv_published : forall id, identity (app sys) = Some id ->
    exists b signer, consistent b /\ b_identity b = id /\ ark_signer (app sys) = Some signer /\
      advances (b_signer b) signer /\ (thread sys = Serving (b_oracle b) \/ thread sys = Stopped);
  inv_permits : ark_admission (app sys) + evaluating sys = MAX_CONNECTIONS;
  inv_evaluating : 0 < evaluating sys -> is_Some (ark_signer (app sys));
}.

Lemma invariant_initial nsm_ : invariant (initial nsm_).
Proof.
  split; cbn; try done; try (by intros [? ?]); intros j r; by rewrite lookup_empty.
Qed.

(** Ending a setup keeps the invariant, whatever the task was. *)
Lemma invariant_end_setup sys : invariant sys -> invariant (end_setup sys).
Proof.
  intros [H1 H2 H3 H4 H5 H6 H7 H8 H9 H10 H11 H12]. split; cbn; try done; by intros [? ?].
Qed.

Lemma setup_start_invariant sys settings :
  invariant sys -> invariant (fst (setup_start sys settings)).
Proof.
  intros H. unfold setup_start. destruct (validate settings); [|done..].
  destruct (setup_gate (app sys)) eqn:Hg; [done|].
  destruct (bool_decide_reflect (is_Some (identity (app sys)))) as [|Hid]; [done|].
  destruct (bool_decide_reflect (nsm (app sys) = None)) as [|Hn]; [done|].
  destruct H as [H1 H2 H3 H4 H5 H6 H7 H8 H9 H10 H11 H12]. split; cbn; try done.
  - intros _. by apply eq_None_not_Some.
  - intros _. by apply not_eq_None_Some.
Qed.

Lemma install_start_ok st root settings oracle signer id :
  install_start st root settings = Ok (oracle, signer, id) ->
  program_oracle root = Ok oracle /\ ArkSigner_new root = Ok signer /\
  identity_to_string {| identity_protocol := IDENTITY_PROTOCOL;
    mode := (match nsm st with Some _ => lit "nitro" | None => lit "local-dev" end);
    xpub := oracle_public_root oracle; identity_settings := settings; signing := program_profile |} = Ok id.
Proof.
  unfold install_start. intros H. apply bind_ok in H as (o & Ho & H). apply bind_ok in H as (s & Hs & H).
  apply bind_ok in H as (i & Hi & H). by apply Ok_inj in H as [= <- <- <-].
Qed.

Lemma setup_derived_invariant sys settings send :
  invariant sys -> setup_task sys = Some (Deriving settings) ->
  invariant (fst (setup_derived sys settings send)).
Proof.
  intros H Ht. unfold setup_derived. destruct (derive_root send settings) as [root|e|w] eqn:Hd;
    [|by apply invariant_end_setup..].
  destruct (install_start _ root _) as [[[oracle signer] id]|e|w] eqn:Hi; [|by apply invariant_end_setup..].
  destruct (work sys) as [job|] eqn:Hw; [by apply invariant_end_setup|].
  assert (thread sys <> Stopped -> invariant
    {| app := app sys; setup_task := Some (AwaitingReady (next_job sys) signer id);
       work := Some {| job_oracle := oracle; job_id := next_job sys |}; thread := thread sys;
       ready := ready sys; next_job := N.succ (next_job sys); evaluating := evaluating sys |}) as Hinv.
  2: { destruct (thread sys) eqn:Hth; first [by apply invariant_end_setup | by apply Hinv]. }
  intros _. assert (is_Some (nsm (app sys))) as [fd Hfd] by (apply (inv_nitro _ H); by rewrite Ht).
  assert (is_Some (setup_task sys)) as Htask by (by rewrite Ht).
  apply install_start_ok in Hi as (Ho & Hs & Hid). rewrite Hfd in Hid.
  destruct H as [H1 H2 H3 H4 H5 H6 H7 H8 H9 H10 H11 H12]. split; cbn; try done.
  - rewrite H1, Ht. done.
  - intros _. auto.
  - intros job [= <-]. cbn. lia.
  - intros job Hb. apply H6 in Hb. lia.
  - intros j r Hr. apply H7 in Hr. lia.
  - intros j sg i [= <- <- <-]. split; [lia|].
    exists {| b_settings := settings; b_root := root; b_oracle := oracle; b_signer := signer; b_identity := id |}.
    split; [by repeat split; [exists send|..]|]. do 2 (split; [done|]). split; [|split]; cbn.
    + by intros job [= <-].
    + intros job Hb E. apply H6 in Hb. lia.
    + intros u Hr. apply H7 in Hr. lia.
Qed.

(** Publication. *)
Lemma setup_ready_invariant sys j signer id result :
  invariant sys -> setup_task sys = Some (AwaitingReady j signer id) -> ready sys !! j = Some result ->
  invariant (fst (setup_ready sys signer id result)).
Proof.
  intros H Ht Hr. unfold setup_ready. destruct result as [u|e|w]; [|by apply invariant_end_setup..].
  assert (is_Some (setup_task sys)) as Htask by (by rewrite Ht).
  pose proof (inv_idle _ H Htask) as Hid. pose proof (inv_both _ H Hid) as Hark.
  unfold install_finish. rewrite Hark. cbn [once_set]. rewrite Hid. cbn [once_set].
  destruct (inv_task _ H _ _ _ Ht) as (_ & b & Hb & Hsig & Hident & _ & _ & Hserve).
  apply Hserve in Hr. destruct Hb as (Hsend & Ho & Hs & Hi).
  destruct H as [H1 H2 H3 H4 H5 H6 H7 H8 H9 H10 H11 H12]. split; cbn; try done; try (by intros [? ?]).
  intros i [= <-]. exists b, signer. do 2 (split; [done|]). split; [done|]. split; [|done].
  subst signer. by exists [].
Qed.

Lemma signer_binds_invariant sys job result :
  invariant sys -> thread sys = Binding job -> invariant (signer_binds sys job result).
Proof.
  intros H Hth. pose proof (inv_unsent _ H) as Hempty. rewrite Hth in Hempty.
  pose proof (inv_binding _ H _ Hth) as Hlt. unfold signer_binds.
  assert (receiver_alive sys (job_id job) = true -> exists signer id,
    setup_task sys = Some (AwaitingReady (job_id job) signer id)) as Halive.
  { unfold receiver_alive. destruct (setup_task sys) as [[?|j signer id]|]; try done.
    intros E%N.eqb_eq. subst. eauto. }
  destruct H as [H1 H2 H3 H4 H5 H6 H7 H8 H9 H10 H11 H12]. split; cbn; try done.
  - intros job'. destruct result; [destruct (receiver_alive _ _)|..]; done.
  - intros j r. destruct (receiver_alive _ _); [|by apply H7]. rewrite Hempty.
    intros [[<- _]|[_ Hr]]%lookup_insert_Some; [done|by rewrite lookup_empty in Hr].
  - destruct result; [destruct (receiver_alive _ _)|..]; done.
  - intros j signer id Ht. destruct (H9 _ _ _ Ht) as (Hj & b & Hb & Hs & Hi & Hw & Hbind & _).
    split; [done|]. exists b. do 3 (split; [done|]). split; [done|]. split.
    + intros job'. destruct result; [destruct (receiver_alive _ _)|..]; done.
    + intros u. cbn [ready]. rewrite Hempty. destruct (receiver_alive sys (job_id job)) eqn:Ha; [|by rewrite lookup_empty].
      intros [[<- ->]|[_ Hr]]%lookup_insert_Some; [|by rewrite lookup_empty in Hr].
      left. cbn. by rewrite (Hbind job).
  - intros id Hpub. destruct (H10 _ Hpub) as (b & signer & _ & _ & _ & _ & [E|E]); congruence.
Qed.

Lemma signer_receives_invariant sys job :
  invariant sys -> thread sys = WaitingForJob -> work sys = Some job ->
  invariant (with_thread sys None (Binding job)).
Proof.
  intros H Hth Hw. pose proof (inv_unsent _ H) as Hempty. rewrite Hth in Hempty.
  destruct H as [H1 H2 H3 H4 H5 H6 H7 H8 H9 H10 H11 H12]. split; cbn; try done.
  - intros job' [= <-]. auto.
  - intros j signer id Ht. destruct (H9 _ _ _ Ht) as (Hj & b & Hb & Hs & Hi & Hwork & _ & _).
    split; [done|]. exists b. do 3 (split; [done|]). split; [done|]. split.
    + intros job' [= <-] E. cbn. by apply (Hwork job).
    + intros u. cbn. rewrite Hempty. by rewrite lookup_empty.
  - intros id Hpub. destruct (H10 _ Hpub) as (b & signer & _ & _ & _ & _ & [E|E]); congruence.
Qed.

Lemma signer_exits_invariant sys oracle :
  invariant sys -> thread sys = Serving oracle -> invariant (with_thread sys (work sys) Stopped).
Proof.
  intros [H1 H2 H3 H4 H5 H6 H7 H8 H9 H10 H11 H12] Hth. split; cbn; try done.
  - intros j signer id Ht. destruct (H9 _ _ _ Ht) as (Hj & b & Hb & Hs & Hi & Hw & _ & _).
    split; [done|]. exists b. do 3 (split; [done|]). split; [done|]. split; [done|]. intros u _. by right.
  - intros id Hpub. destruct (H10 _ Hpub) as (b & signer & ? & ? & ? & ? & _).
    exists b, signer. repeat (split; [done|]). by right.
Qed.

Lemma signer_aborts_invariant sys :
  invariant sys -> thread sys = WaitingForJob -> invariant (signer_aborts sys).
Proof.
  intros H Hth. pose proof (inv_unsent _ H) as Hempty. rewrite Hth in Hempty.
  destruct H as [H1 H2 H3 H4 H5 H6 H7 H8 H9 H10 H11 H12]. split; cbn; try done.
  - intros j r. destruct (work sys) as [job|] eqn:Hw; [|by apply H7].
    destruct (receiver_alive _ _); [|by apply H7].
    intros [[<- _]|[_ Hr]]%lookup_insert_Some; [by apply H5|by apply (H7 j r)].
  - intros j signer id Ht. destruct (H9 _ _ _ Ht) as (Hj & b & Hb & Hs & Hi & _).
    split; [done|]. exists b. do 3 (split; [done|]). split; [done|]. split; [done|]. intros u _. by right.
  - intros id Hpub. destruct (H10 _ Hpub) as (b & signer & ? & ? & ? & ? & _).
    exists b, signer. repeat (split; [done|]). by right.
Qed.

(** The Ark handlers keep the identity; the signer advances. *)
Definition same_service (st st' : AppState) : Prop :=
  identity st' = identity st /\ setup_gate st' = setup_gate st /\ nsm st' = nsm st /\
  match ark_signer st, ark_signer st' with
  | Some s, Some s' => advances s s'
  | None, None => True
  | _, _ => False
  end.

Lemma advances_refl s : advances s s.
Proof. by exists []. Qed.

Lemma advances_trans s1 s2 s3 : advances s1 s2 -> advances s2 s3 -> advances s1 s3.
Proof. intros [c1 <-] [c2 <-]. exists (c1 ++ c2). by rewrite run_app. Qed.

(** One operation advances the signer. *)
Lemma advances_step s env call : advances s (snd (step s env call)).
Proof. exists [(env, call)]. cbn. by destruct (step s env call). Qed.

Lemma same_service_invariant sys st n :
  invariant sys -> same_service (app sys) st -> ark_admission st + n = MAX_CONNECTIONS ->
  (0 < n -> is_Some (ark_signer (app sys))) ->
  invariant (with_evaluating (with_app sys st) n).
Proof.
  intros [H1 H2 H3 H4 H5 H6 H7 H8 H9 H10 H11 H12] (Ei & Eg & En & Er) Hn Hev.
  split; cbn; try done; rewrite ?Ei, ?Eg, ?En; try done.
  - intros Hid. apply H4 in Hid. rewrite Hid in Er. by destruct (ark_signer st).
  - intros id Hid. destruct (H10 _ Hid) as (b & signer & Hb & Hi & Hs & Hroot & Hth).
    rewrite Hs in Er. destruct (ark_signer st) as [s|] eqn:Es; [|done].
    exists b, s. repeat (split; [done|]). split; [by eapply advances_trans|done].
  - intros Hlt. destruct (Hev Hlt) as [s Es]. rewrite Es in Er. by destruct (ark_signer st).
Qed.

Lemma get_ark_signer_ok st signer :
  get_ark_signer st = Ok signer <-> is_Some (identity st) /\ ark_signer st = Some signer.
Proof.
  unfold get_ark_signer. destruct (identity st); [rewrite ok_or_ok; naive_solver|].
  split; [done|]. by intros [[? ?] _].
Qed.

Lemma same_service_refl st : same_service st st.
Proof. repeat split. destruct (ark_signer st); [apply advances_refl|done]. Qed.

(** The state a handler leaves: a later signer. *)
Lemma same_service_signer st signer signer' n :
  ark_signer st = Some signer -> advances signer signer' -> same_service st (with_signer st signer' n).
Proof. intros Hs Hr. unfold same_service. by rewrite Hs. Qed.

Lemma admit_same st st' :
  ark_prepare_admit st = Ok st' -> same_service st st' /\ ark_admission st' + 1 = ark_admission st.
Proof.
  unfold ark_prepare_admit. intros H. apply bind_ok in H as (signer & Hs & H).
  apply get_ark_signer_ok in Hs as [_ Hs].
  destruct (N.eqb_spec (ark_admission st) 0) as [|Hn]; [done|]. apply Ok_inj in H as <-.
  split; [apply (same_service_signer st signer); [done|apply advances_refl]|]. cbn. lia.
Qed.

Lemma prepare_run_same st env request :
  same_service st (snd (ark_prepare_run st env request)) /\
  (is_Some (ark_signer st) ->
   ark_admission (snd (ark_prepare_run st env request)) = ark_admission st + 1).
Proof.
  unfold ark_prepare_run. destruct (ark_signer st) as [signer|] eqn:Hs.
  - pose proof (advances_step signer env (Prepare request)) as Hp. cbn in Hp.
    destruct (prepare signer env request) as [r s']. cbn. split; [|done].
    by apply (same_service_signer st signer).
  - split; [apply same_service_refl|by intros [? ?]].
Qed.

Lemma finish_same st env request :
  same_service st (snd (ark_finish st env request)) /\ ark_admission (snd (ark_finish st env request)) = ark_admission st.
Proof.
  unfold ark_finish. destruct (get_ark_signer st) as [signer|e|w] eqn:Hs; [|by split; [apply same_service_refl|]..].
  apply get_ark_signer_ok in Hs as [_ Hs]. pose proof (advances_step signer env (Finish request)) as Hf.
  cbn in Hf. destruct (finish signer env request) as [r s']. cbn.
  split; [by apply (same_service_signer st signer)|done].
Qed.

Lemma cancel_same st request :
  same_service st (snd (ark_cancel st request)) /\ ark_admission (snd (ark_cancel st request)) = ark_admission st.
Proof.
  unfold ark_cancel. destruct (get_ark_signer st) as [signer|e|w] eqn:Hs; [|by split; [apply same_service_refl|]..].
  apply get_ark_signer_ok in Hs as [_ Hs].
  pose proof (advances_step signer {| now := 0; nonce_randomness := []; session_ids := [] |} (Cancel request)) as Hc.
  cbn in Hc. destruct (cancel signer request) as [r s']. cbn.
  split; [by apply (same_service_signer st signer)|done].
Qed.

Lemma app_step_invariant sys action sys' reply :
  invariant sys -> app_step sys action = Some (sys', reply) -> invariant sys'.
Proof.
  intros H Hs. pose proof (inv_permits _ H) as Hperm. pose proof (inv_evaluating _ H) as Hev.
  destruct action as [settings|send| | | | |result| | |env request|env request|request]; cbn in Hs.
  - injection Hs as Hs. pose proof (setup_start_invariant _ settings H) as H'. by rewrite Hs in H'.
  - destruct (setup_task sys) as [[settings|]|] eqn:Ht; try done. injection Hs as Hs.
    pose proof (setup_derived_invariant _ _ send H Ht) as H'. by rewrite Hs in H'.
  - destruct (setup_task sys) as [[|j signer id]|] eqn:Ht; try done.
    destruct (ready sys !! j) as [result|] eqn:Hr; [|done]. injection Hs as Hs.
    pose proof (setup_ready_invariant _ _ _ _ _ H Ht Hr) as H'. by rewrite Hs in H'.
  - destruct (setup_task sys) as [[|j signer id]|]; try done. case_bool_decide; [|done].
    injection Hs as <- <-. by apply invariant_end_setup.
  - destruct (setup_task sys); [|done]. injection Hs as <- <-. by apply invariant_end_setup.
  - destruct (thread sys) eqn:Hth; try done. destruct (work sys) as [job|] eqn:Hw; [|done].
    injection Hs as <- <-. by apply signer_receives_invariant.
  - destruct (thread sys) as [|job| |] eqn:Hth; try done. injection Hs as <- <-. by apply signer_binds_invariant.
  - destruct (thread sys) as [| |oracle|] eqn:Hth; try done; injection Hs as <- <-;
      [by apply signer_aborts_invariant|by eapply signer_exits_invariant].
  - destruct (ark_prepare_admit (app sys)) as [st|e|w] eqn:Ha; try done. injection Hs as <- <-.
    pose proof Ha as Hok. unfold ark_prepare_admit in Hok. apply bind_ok in Hok as (signer & Hok & _).
    apply get_ark_signer_ok in Hok as [_ Hok]. apply admit_same in Ha as [Hsame Hn].
    apply same_service_invariant; [done|done|lia|]. by rewrite Hok.
  - destruct (N.eqb_spec (evaluating sys) 0) as [|Hn]; [done|]. injection Hs as <- <-.
    destruct (prepare_run_same (app sys) env request) as [Hsame Ha].
    apply same_service_invariant; [done|done| |intros _; apply Hev; lia]. rewrite Ha by (apply Hev; lia). lia.
  - injection Hs as <- <-. destruct (finish_same (app sys) env request) as [Hsame Ha].
    apply (same_service_invariant sys (snd (ark_finish (app sys) env request)) (evaluating sys));
      [done|done|by rewrite Ha|done].
  - injection Hs as <- <-. destruct (cancel_same (app sys) request) as [Hsame Ha].
    apply (same_service_invariant sys (snd (ark_cancel (app sys) request)) (evaluating sys));
      [done|done|by rewrite Ha|done].
Qed.

Lemma reaches_invariant sys sys' : reaches sys sys' -> invariant sys -> invariant sys'.
Proof. induction 1; eauto using app_step_invariant. Qed.

Lemma reachable_invariant sys : reachable sys -> invariant sys.
Proof. intros [n H]. eapply reaches_invariant; [exact H|apply invariant_initial]. Qed.

(** The identity is written once. *)
Lemma install_finish_keeps st signer id published :
  identity st = Some published -> identity (snd (install_finish st signer id)) = Some published.
Proof.
  intros H. unfold install_finish. destruct (ark_signer st); cbn [once_set]; [done|]. cbn [identity].
  rewrite H. cbn. done.
Qed.

Lemma app_step_identity sys action sys' reply id :
  app_step sys action = Some (sys', reply) -> identity (app sys) = Some id -> identity (app sys') = Some id.
Proof.
  intros Hs Hid. destruct action as [settings|send| | | | |result| | |env request|env request|request]; cbn in Hs.
  - injection Hs as Hs. unfold setup_start in Hs. repeat case_match; by simplify_eq.
  - unfold setup_derived in Hs. repeat case_match; by simplify_eq.
  - destruct (setup_task sys) as [[|j signer i]|]; try done. destruct (ready sys !! j) as [result|]; [|done].
    injection Hs as Hs. unfold setup_ready in Hs. destruct result as [u|e|w]; [|by simplify_eq..].
    pose proof (install_finish_keeps (app sys) signer i id Hid) as Hk.
    destruct (install_finish (app sys) signer i) as [r st]. by destruct r; simplify_eq.
  - repeat case_match; by simplify_eq.
  - repeat case_match; by simplify_eq.
  - repeat case_match; by simplify_eq.
  - repeat case_match; by simplify_eq.
  - repeat case_match; by simplify_eq.
  - destruct (ark_prepare_admit (app sys)) as [st|e|w] eqn:Ha; try done. injection Hs as <- <-.
    apply admit_same in Ha as [(E & _) _]. cbn. by rewrite E.
  - destruct (evaluating sys =? 0); [done|]. injection Hs as <- <-.
    destruct (prepare_run_same (app sys) env request) as [(E & _) _]. cbn. by rewrite E.
  - injection Hs as <- <-. destruct (finish_same (app sys) env request) as [(E & _) _]. cbn. by rewrite E.
  - injection Hs as <- <-. destruct (cancel_same (app sys) request) as [(E & _) _]. cbn. by rewrite E.
Qed.

(** The thread has taken its only job. *)
Definition past_binding (t : SignerThread) : Prop :=
  match t with Serving _ | Stopped => True | _ => False end.

(** A served oracle whose setup is gone. *)
Definition orphaned (sys : System) : Prop :=
  identity (app sys) = None /\
  past_binding (thread sys) /\
  forall j signer id, setup_task sys = Some (AwaitingReady j signer id) -> ready sys !! j = None.

Lemma orphaned_end_setup sys : orphaned sys -> orphaned (end_setup sys).
Proof. intros (H1 & H2 & _). split; [exact H1|]. by split; [exact H2|]. Qed.

Lemma orphaned_start sys settings : orphaned sys -> orphaned (fst (setup_start sys settings)).
Proof.
  intros H. unfold setup_start. destruct (validate settings); [|done..].
  destruct (setup_gate _); [done|]. destruct (bool_decide _); [done|]. destruct (bool_decide _); [done|].
  destruct H as (H1 & H2 & _). split; [exact H1|]. by split; [exact H2|].
Qed.

Lemma orphaned_derived sys settings send :
  ready sys !! next_job sys = None -> orphaned sys -> orphaned (fst (setup_derived sys settings send)).
Proof.
  intros Hfresh H. pose proof (orphaned_end_setup _ H) as Hend. unfold setup_derived.
  destruct (derive_root send settings) as [root|e|w]; [|done..].
  destruct (install_start _ root _) as [[[oracle signer] id]|e|w]; [|done..].
  destruct (work sys); [done|]. destruct H as (H1 & H2 & _).
  destruct (thread sys) eqn:Hth; try done; (split; [exact H1|]); (split; [by cbn; rewrite ?Hth|]);
    intros j sg i [= <- <- <-]; done.
Qed.

Lemma orphaned_step sys action sys' reply :
  invariant sys -> orphaned sys -> app_step sys action = Some (sys', reply) -> orphaned sys'.
Proof.
  intros H Ho Hs. pose proof (orphaned_end_setup _ Ho) as Hend. destruct Ho as (Hid & Hth & Hwait).
  pose proof (inv_both _ H Hid) as Hark.
  assert (ready sys !! next_job sys = None) as Hfresh.
  { destruct (ready sys !! next_job sys) as [r|] eqn:Hr; [|done]. apply (inv_ready _ H) in Hr. lia. }
  assert (orphaned sys) as Ho by done.
  destruct action as [settings|send| | | | |result| | |env request|env request|request]; cbn in Hs.
  - injection Hs as Hs. apply (orphaned_start _ settings) in Ho. by rewrite Hs in Ho.
  - destruct (setup_task sys) as [[settings|]|]; try done. injection Hs as Hs.
    apply (orphaned_derived _ settings send Hfresh) in Ho. by rewrite Hs in Ho.
  - destruct (setup_task sys) as [[|j signer i]|]; try done. by rewrite (Hwait _ _ _ eq_refl) in Hs.
  - destruct (setup_task sys) as [[|j signer i]|]; try done. case_bool_decide; [|done]. by injection Hs as <- <-.
  - destruct (setup_task sys); [|done]. by injection Hs as <- <-.
  - by destruct (thread sys).
  - by destruct (thread sys).
  - destruct (thread sys); try done. injection Hs as <- <-. done.
  - unfold ark_prepare_admit, get_ark_signer in Hs. by rewrite Hid in Hs.
  - destruct (N.eqb_spec (evaluating sys) 0) as [|Hn]; [done|].
    destruct (inv_evaluating _ H) as [s Es]; [lia|]. congruence.
  - unfold ark_finish, get_ark_signer in Hs. rewrite Hid in Hs. injection Hs as <- <-. done.
  - unfold ark_cancel, get_ark_signer in Hs. rewrite Hid in Hs. injection Hs as <- <-. done.
Qed.

Lemma orphaned_forever sys sys' :
  reaches sys sys' -> invariant sys -> orphaned sys -> orphaned sys'.
Proof. induction 1; eauto using app_step_invariant, orphaned_step. Qed.

Lemma reaches_trans s1 s2 s3 : reaches s1 s2 -> reaches s2 s3 -> reaches s1 s3.
Proof. induction 1; eauto using reaches_step. Qed.

(** A finite list of actions, for concrete executions. *)
Fixpoint app_run (sys : System) (actions : list Action) : option (System * list Reply) :=
  match actions with
  | [] => Some (sys, [])
  | action :: actions =>
      '(sys, reply) ← app_step sys action;
      '(sys, replies) ← app_run sys actions;
      Some (sys, reply :: replies)
  end.

Lemma app_run_reaches sys actions sys' replies :
  app_run sys actions = Some (sys', replies) -> reaches sys sys'.
Proof.
  revert sys replies; induction actions as [|a actions IH]; intros sys replies H; cbn in H.
  - injection H as <- _. constructor.
  - destruct (app_step sys a) as [[sys1 reply]|] eqn:Hs; [|done]. cbn in H.
    destruct (app_run sys1 actions) as [[sys2 rs]|] eqn:Hr; [|done]. cbn in H. injection H as <- _.
    eapply reaches_step; [exact Hs|]. by eapply IH.
Qed.

Lemma app_run_snoc sys actions sys1 replies action sys2 reply :
  app_run sys actions = Some (sys1, replies) -> app_step sys1 action = Some (sys2, reply) ->
  app_run sys (actions ++ [action]) = Some (sys2, replies ++ [reply]).
Proof.
  revert sys replies; induction actions as [|a actions IH]; intros sys replies H Hs; cbn [app_run Datatypes.app] in *.
  - injection H as -> <-. rewrite Hs. done.
  - destruct (app_step sys a) as [[sys' r]|]; [|done]. cbn [mbind option_bind] in *.
    destruct (app_run sys' actions) as [[sys'' rs]|] eqn:Hr; [|done]. cbn [mbind option_bind] in H.
    injection H as -> <-. rewrite (IH sys' rs Hr Hs). done.
Qed.

Lemma app_run_app sys actions sys1 replies actions' sys2 replies' :
  app_run sys actions = Some (sys1, replies) -> app_run sys1 actions' = Some (sys2, replies') ->
  app_run sys (actions ++ actions') = Some (sys2, replies ++ replies').
Proof.
  revert sys replies; induction actions as [|a actions IH]; intros sys replies H H'; cbn [app_run Datatypes.app] in *.
  - by injection H as -> <-.
  - destruct (app_step sys a) as [[sys' r]|]; [|done]. cbn [mbind option_bind] in *.
    destruct (app_run sys' actions) as [[sys'' rs]|] eqn:Hr; [|done]. cbn [mbind option_bind] in H.
    injection H as -> <-. rewrite (IH sys' rs Hr H'). done.
Qed.

(** A setup whose root derives and whose listener binds. *)
Definition setup_actions (settings : Settings) (send : KmsRequest -> Result string KmsResponse) : list Action :=
  [SetupRequest settings; Derived send; SignerReceives; SignerBinds (Ok tt)].

Lemma setup_serves settings send fd root oracle signer id :
  derive_root send settings = Ok root ->
  install_start (app (initial (Some fd))) root (Some settings) = Ok (oracle, signer, id) ->
  exists sys replies,
    app_run (initial (Some fd)) (setup_actions settings send) = Some (sys, replies) /\
    thread sys = Serving oracle /\ setup_task sys = Some (AwaitingReady 0 signer id) /\
    identity (app sys) = None /\ ark_signer (app sys) = None /\ ready sys !! 0 = Some (Ok tt).
Proof.
  intros Hd Hi. assert (validate settings = Ok tt) as Hv.
  { unfold derive_root in Hd. apply bind_ok in Hd as ([] & Hv & _). done. }
  unfold setup_actions. cbn [app_run app_step]. unfold setup_start. rewrite Hv.
  cbn -[derive_root install_start]. unfold setup_derived. rewrite Hd. cbn -[install_start].
  replace (install_start _ root (Some settings)) with
    (install_start (app (initial (Some fd))) root (Some settings)) by reflexivity.
  rewrite Hi. cbn. do 2 eexists. split; [reflexivity|]. cbn. done.
Qed.

End App.

(* ------------------------------------------------------------------ *)
(** ** Properties *)

Section Theorems.
  Context {sapio : SapioProgram} {prim : KeyPrimitives} {upstream : Upstream} {ark : ArkLib}.
  Context {requests : ArkRequests} {applib : AppLib} {driver : NsmDriver}.
  Context {runtime : WasmRuntime} {outpoint_codec : OutPointCodec} {auth : NativeAuth}.
  Context {codec : PolicyCodec VtxoPolicy}.

(** C27: in every reachable state, a published identity is one consistent setup:
    there are settings and a root derived from them such that the identity is
    the serialization of that root's public key, those settings and the
    measured profile, the TCP signer serves the oracle of that root or has
    stopped, and the Ark signer is what an execution of calls makes of a fresh
    signer of that root, so that the theorems on executions apply to it. *)
Theorem published_identity_consistent sys id :
  reachable sys -> identity (app sys) = Some id ->
  exists settings root_ send oracle fresh calls,
    derive_root send settings = Ok root_ /\ program_oracle root_ = Ok oracle /\
    identity_to_string {| identity_protocol := IDENTITY_PROTOCOL; mode := lit "nitro";
      xpub := oracle_public_root oracle; identity_settings := Some settings;
      signing := program_profile |} = Ok id /\
    ArkSigner_new root_ = Ok fresh /\ ark_signer (app sys) = Some (snd (run fresh calls)) /\
    (thread sys = Serving oracle \/ thread sys = Stopped).
Proof.
  intros H%reachable_invariant Hid.
  destruct (inv_published _ H _ Hid) as (b & signer & ([send Hd] & Ho & Hs & Hi) & <- & Hsig & [calls <-] & Hth).
  by exists (b_settings b), (b_root b), send, (b_oracle b), (b_signer b), calls.
Qed.

(** The identity cannot change within a process: once published it is the
    answer of [public_key] in every later state, whatever requests arrive. *)
Theorem identity_immutable sys sys' id :
  reaches sys sys' -> identity (app sys) = Some id -> public_key (app sys') = Ok id.
Proof.
  intros H Hid. unfold public_key. enough (identity (app sys') = Some id) as -> by done.
  induction H as [sys|sys action sys1 reply sys2 Hs _ IH]; [done|].
  apply IH. by eapply app_step_identity.
Qed.

(** One setup at a time and at most one ever: while a setup is in progress,
    or after publication, valid settings are answered with a conflict and
    nothing changes. *)
Theorem setup_exclusive sys settings :
  reachable sys -> validate settings = Ok tt ->
  is_Some (setup_task sys) \/ is_Some (identity (app sys)) ->
  exists text, app_step sys (SetupRequest settings) = Some (sys, SetupReply (Err (CONFLICT, text))).
Proof.
  intros H%reachable_invariant Hv Hbusy. cbn. unfold setup_start. rewrite Hv.
  pose proof (inv_gate _ H) as Hg. destruct (setup_gate (app sys)); [by eexists|].
  destruct Hbusy as [Ht|Hi]; [by rewrite bool_decide_eq_true_2 in Hg|].
  rewrite bool_decide_eq_true_2 by done. by eexists.
Qed.

(** The Ark handlers find a signer exactly after publication: before it they
    answer 503, and the half-published case of [ark_signer] never occurs. *)
Theorem ark_signer_iff_published sys :
  reachable sys ->
  (is_ok (get_ark_signer (app sys)) = true <-> is_Some (identity (app sys))) /\
  (identity (app sys) = None <-> ark_signer (app sys) = None).
Proof.
  intros H%reachable_invariant.
  assert (forall id, identity (app sys) = Some id -> exists signer, ark_signer (app sys) = Some signer) as Hsome.
  { intros id Hid. destruct (inv_published _ H _ Hid) as (b & signer & _ & _ & Hs & _). eauto. }
  pose proof (inv_both _ H) as Hnone. unfold get_ark_signer.
  destruct (identity (app sys)) as [id|].
  - destruct (Hsome id eq_refl) as [signer ->]. cbn. by split; split.
  - rewrite Hnone by done. cbn. split; split; try done; by intros [? ?].
Qed.

(** Program evaluation is bounded: in every reachable state the prepare
    tasks that hold a permit number at most the advertised [max_connections],
    and a permit is free exactly when fewer run. *)
Theorem evaluations_bounded sys :
  reachable sys ->
  evaluating sys <= max_connections program_profile /\
  (ark_admission (app sys) = 0 <-> evaluating sys = max_connections program_profile).
Proof. intros H%reachable_invariant. pose proof (inv_permits _ H). cbn. unfold MAX_CONNECTIONS in *. lia. Qed.

(** An attestation binds the served identity: it succeeds exactly for a hex
    nonce of 16 to 64 bytes once an identity is published and the device
    answers the request carrying that nonce and the digest of that very
    identity text, which is returned with the document. *)
Theorem attestation_iff st request_nonce response :
  attestation st request_nonce = Ok response <->
  exists nonce fd document_,
    nonce_from_hex request_nonce = Ok nonce /\ 16 <= len nonce <= 64 /\
    identity st = Some (identity_json response) /\ nsm st = Some fd /\
    nsm_process_request fd
      (AttestationRequest (Some nonce) (Some (sha256 (identity_json response))) None) = Attestation document_ /\
    document response = base64_encode document_.
Proof.
  unfold attestation. split.
  - intros H. apply bind_ok in H as (nonce & Hn & H). apply map_err_ok in Hn.
    apply bind_ok in H as ([] & Hl & H). apply ensure_ok in Hl. rewrite andb_true_iff, !N.leb_le in Hl.
    apply bind_ok in H as (id & Hid & H). apply ok_or_ok in Hid.
    apply bind_ok in H as (fd & Hfd & H). apply ok_or_ok in Hfd.
    apply bind_ok in H as (d & Hd & H). apply map_err_ok, attest_ok in Hd as [_ Hd].
    apply Ok_inj in H as <-. by exists nonce, fd, d.
  - intros (nonce & fd & d & Hn & Hl & Hid & Hfd & Hd & He).
    rewrite Hn. cbn [map_err mbind Result_bind]. destruct Hl as [H1 H2].
    rewrite (proj2 (N.leb_le _ _) H1), (proj2 (N.leb_le _ _) H2). cbn [andb ensure mbind Result_bind].
    rewrite Hid. cbn [ok_or mbind Result_bind]. rewrite Hfd. cbn [ok_or mbind Result_bind].
    rewrite (proj2 (attest_ok fd nonce (identity_json response) d)) by done.
    cbn [map_err mbind Result_bind]. destruct response; cbn in *. by subst.
Qed.

(** Setup completes: from the start of a process with a device, settings
    whose root derives and installs, a listener that binds, and no
    cancellation, setup answers with the identity, which is then published with
    the oracle of that root serving. *)
Theorem setup_completes settings send fd root_ oracle signer id :
  derive_root send settings = Ok root_ ->
  install_start (app (initial (Some fd))) root_ (Some settings) = Ok (oracle, signer, id) ->
  exists sys replies,
    app_run (initial (Some fd)) (setup_actions settings send ++ [ReadyReceived])
      = Some (sys, replies ++ [SetupReply (Ok id)]) /\
    identity (app sys) = Some id /\ ark_signer (app sys) = Some signer /\ thread sys = Serving oracle.
Proof.
  intros Hd Hi. destruct (setup_serves _ _ _ _ _ _ _ Hd Hi) as (sys & rs & Hrun & Hth & Ht & Hid & Hark & Hr).
  assert (app_step sys ReadyReceived = Some (setup_ready sys signer id (Ok tt))) as Hs.
  { cbn. rewrite Ht, Hr. done. }
  unfold setup_ready, install_finish in Hs. rewrite Hark in Hs. cbn [once_set identity] in Hs.
  rewrite Hid in Hs. cbn [once_set] in Hs.
  pose proof (app_run_snoc _ _ _ _ _ _ _ Hrun Hs) as Hfinal.
  do 2 eexists. split; [exact Hfinal|]. done.
Qed.

(** C38: publication is not atomic with serving: a setup whose future is dropped
    (by the request deadline or a closed connection) after the listener is
    bound and before the readiness is received leaves the TCP signer serving
    the derived root while no identity is published, no setup is in progress,
    and no later step of the process ever publishes one. *)
Theorem orphaned_signer settings send fd root_ oracle signer id :
  derive_root send settings = Ok root_ ->
  install_start (app (initial (Some fd))) root_ (Some settings) = Ok (oracle, signer, id) ->
  exists sys, reachable sys /\
    thread sys = Serving oracle /\ setup_task sys = None /\ identity (app sys) = None /\
    forall sys', reaches sys sys' -> identity (app sys') = None.
Proof.
  intros Hd Hi. destruct (setup_serves _ _ _ _ _ _ _ Hd Hi) as (sys & rs & Hrun & Hth & Ht & Hid & Hark & Hr).
  assert (reachable (end_setup sys)) as Hreach.
  { exists (Some fd). eapply reaches_trans; [by eapply app_run_reaches|].
    apply (reaches_step _ SetupDropped (end_setup sys) NoReply); [|constructor]. cbn. by rewrite Ht. }
  exists (end_setup sys). split; [exact Hreach|]. do 3 (split; [done|]).
  intros sys' Hs. apply (orphaned_forever _ _ Hs); [by apply reachable_invariant|].
  split; [exact Hid|]. split; [cbn; by rewrite Hth|done].
Qed.

End Theorems.
