(* ===== verification/Service.v ===== *)
(** * Service: requests in front of the application (src/app.rs, build_router)

    A request that reaches a route takes one of the route's sixteen permits or
    is shed; an admitted one is an [Exchange] that waits for its body, then for
    its handler, and ends with one [Outcome]: the handler's response, the
    deadline's 408, or nothing when the client or the handler is gone.  However
    it ends, its permit goes back.  [Server] is the application of [App] with
    its exchanges, the blocking evaluations and a clock; a [Stimulus] is what
    the clients, the runtime and time do to it.  The deadline drops the future
    of a handler, so it ends a setup ([SetupDropped]), but a blocking evaluation
    runs on and reserves its session with nobody to answer.

    The layers of tower are the interface [Tower], the extractors and JSON
    encoders of axum are [Axum]. *)

From S2P Require Import Prelude Bytes NativePolicy Bitcoin Program SignedView Evaluator Keys Deployment ArkSigner Nsm App.

Open Scope N_scope.

(** tower: the semaphore of a concurrency limit, asked for readiness by the
    load shedder, and the timeout's timer. *)
Class Tower := {
  Limit : Type;
  limit_new : N -> Limit;
  poll_ready : Limit -> option Limit;
  drop_permit : Limit -> Limit;
  timer_fired : N -> N -> N -> bool;
  permits : Limit -> N;
}.

(** Documented: a limit starts with its permits, is ready while one is left,
    takes it for the response future and gets it back when that is dropped; a
    timeout elapses when the deadline has passed since the call. *)
Class TowerLaws {tower : Tower} : Prop := {
  permits_new n : permits (limit_new n) = n;
  ready_none l : poll_ready l = None <-> permits l = 0;
  ready_some l l' : poll_ready l = Some l' -> permits l' + 1 = permits l;
  permits_drop l : permits (drop_permit l) = permits l + 1;
  fired deadline started now : timer_fired deadline started now = true <-> started + deadline <= now;
}.

(** What a layer can fail with. *)
Inductive BoxError := Elapsed | Overloaded.

Definition REQUEST_TIMEOUT : N := 408.

(** The closure of [HandleErrorLayer]. *)
Definition handle_error (error : BoxError) : N * bytes :=
  match error with
  | Elapsed => (REQUEST_TIMEOUT, lit "request deadline exceeded")
  | Overloaded => (SERVICE_UNAVAILABLE, lit "API capacity exceeded")
  end.

#[export] Instance method_eq_dec : EqDecision Method.
Proof. solve_decision. Defined.

#[export] Instance handler_eq_dec : EqDecision Handler.
Proof. solve_decision. Defined.

Section Types.
  Context {sapio : SapioProgram} {prim : KeyPrimitives} {upstream : Upstream} {ark : ArkLib} {tower : Tower}.

(** axum's extractors under a body limit, with the limit of ark::sapio::protocol,
    and serde_json's encoders. *)
Class Axum := {
  MAX_REQUEST_BYTES : N;
  settings_of_body : N -> bytes -> Result (N * bytes) Settings;
  nonce_of_body : N -> bytes -> Result (N * bytes) bytes;
  prepare_of_body : N -> bytes -> Result (N * bytes) PrepareRequest;
  finish_of_body : N -> bytes -> Result (N * bytes) FinishRequest;
  cancel_of_body : N -> bytes -> Result (N * bytes) CancelRequest;
  attestation_json : AttestationResponse -> bytes;
  prepare_json : PrepareResponse -> bytes;
  finish_json : FinishResponse -> bytes;
}.

(** The argument a handler's extractors give it. *)
Inductive Input :=
| HealthInput
| PublicKeyInput
| SettingsInput (settings : Settings)
| NonceInput (nonce : bytes)
| PrepareInput (request : PrepareRequest)
| FinishInput (request : FinishRequest)
| CancelInput (request : CancelRequest).

(** Where the response future of an admitted request is suspended. *)
Inductive Phase := Extracting | OnSetup | OnPrepare.

Record Exchange := { route : Route; started : N; phase : Phase }.

(** [tasks] holds the blocking evaluations with the exchange each would answer. *)
Record Server := {
  core : System;
  limits : Handler -> Limit;
  exchanges : gmap N Exchange;
  next_exchange : N;
  tasks : list (N * PrepareRequest);
  clock : N;
}.

(** How an exchange ends. *)
Inductive Outcome :=
| Responded (status : N) (body : bytes)
| Reset.

(** A handler's first run: done, or suspended. *)
Inductive Progress :=
| Done (outcome : Outcome)
| Suspended (at_ : Phase).

Inductive Stimulus :=
| Arrive (method : Method) (path : bytes)
| Body (id : N) (body : bytes) (env : Env)
| SetupStep (id : N) (action : Action)
| SignerStep (action : Action)
| TaskRuns (k : nat) (env : Env)
| Deadline (id : N)
| Disconnect (id : N)
| Tick (now_ : N).

End Types.

Section Service.
  Context {sapio : SapioProgram} {prim : KeyPrimitives} {upstream : Upstream} {ark : ArkLib}.
  Context {requests : ArkRequests} {applib : AppLib} {driver : NsmDriver}.
  Context {runtime : WasmRuntime} {outpoint_codec : OutPointCodec} {auth : NativeAuth}.
  Context {codec : PolicyCodec VtxoPolicy} {tower : Tower} {axum : Axum}.

(* ------------------------------------------------------------------ *)
(** ** Responses *)

(** [IntoResponse] of an error pair. *)
Definition error_response (e : N * bytes) : Outcome := Responded (fst e) (snd e).

(** [IntoResponse] of a handler's result; a panic unwinds its task. *)
Definition into_outcome {A} (ok : A -> N * bytes) (r : Result ApiError A) : Outcome :=
  match r with
  | Ok a => error_response (ok a)
  | Err e => error_response e
  | Panic _ => Reset
  end.

(** The extractors of a route. *)
Definition extract (r : Route) (body : bytes) : Result (N * bytes) Input :=
  match route_handler r with
  | Health => Ok HealthInput
  | PublicKeyHandler => Ok PublicKeyInput
  | Setup => SettingsInput <$> settings_of_body (route_body_limit r) body
  | AttestationHandler => NonceInput <$> nonce_of_body (route_body_limit r) body
  | ArkPrepare => PrepareInput <$> prepare_of_body (route_body_limit r) body
  | ArkFinish => FinishInput <$> finish_of_body (route_body_limit r) body
  | ArkCancel => CancelInput <$> cancel_of_body (route_body_limit r) body
  end.

(** The handler up to its first await, with the blocking task it spawns. *)
Definition begin_handler (sys : System) (env : Env) (input : Input)
    : System * Progress * list PrepareRequest :=
  match input with
  | HealthInput => (sys, Done (error_response (health (app sys))), [])
  | PublicKeyInput => (sys, Done (into_outcome (fun id => (OK, id)) (public_key (app sys))), [])
  | NonceInput nonce =>
      (sys, Done (into_outcome (fun a => (OK, attestation_json a)) (attestation (app sys) nonce)), [])
  | SettingsInput settings =>
      match setup_start sys settings with
      | (sys, SetupReply r) => (sys, Done (into_outcome (fun id => (OK, id)) r), [])
      | (sys, NoReply) => (sys, Suspended OnSetup, [])
      end
  | PrepareInput request =>
      match ark_prepare_admit (app sys) with
      | Ok st => (with_evaluating (with_app sys st) (evaluating sys + 1), Suspended OnPrepare, [request])
      | Err e => (sys, Done (error_response e), [])
      | Panic _ => (sys, Done Reset, [])
      end
  | FinishInput request =>
      let '(r, st) := ark_finish (app sys) env request in
      (with_app sys st, Done (into_outcome (fun a => (OK, finish_json a)) r), [])
  | CancelInput request =>
      let '(r, st) := ark_cancel (app sys) request in
      (with_app sys st, Done (into_outcome (fun code => (code, [])) r), [])
  end.

(* ------------------------------------------------------------------ *)
(** ** Exchanges *)

Definition set_limit (limits : Handler -> Limit) (h : Handler) (l : Limit) : Handler -> Limit :=
  fun h' => if decide (h' = h) then l else limits h'.

Definition with_core (srv : Server) (sys : System) : Server :=
  {| core := sys; limits := limits srv; exchanges := exchanges srv; next_exchange := next_exchange srv;
     tasks := tasks srv; clock := clock srv |}.

Definition with_tasks (srv : Server) (ts : list (N * PrepareRequest)) : Server :=
  {| core := core srv; limits := limits srv; exchanges := exchanges srv; next_exchange := next_exchange srv;
     tasks := ts; clock := clock srv |}.

Definition with_exchange (srv : Server) (id : N) (ex : Exchange) : Server :=
  {| core := core srv; limits := limits srv; exchanges := <[id := ex]> (exchanges srv);
     next_exchange := next_exchange srv; tasks := tasks srv; clock := clock srv |}.

(** The response future is dropped, and its permit with it. *)
Definition conclude (srv : Server) (id : N) : Server :=
  match exchanges srv !! id with
  | Some ex =>
      let h := route_handler (route ex) in
      {| core := core srv; limits := set_limit (limits srv) h (drop_permit (limits srv h));
         exchanges := delete id (exchanges srv); next_exchange := next_exchange srv;
         tasks := tasks srv; clock := clock srv |}
  | None => srv
  end.

(** Dropping a suspended handler drops the setup future. *)
Definition drop_handler (sys : System) (p : Phase) : System :=
  match p with
  | OnSetup => match setup_task sys with Some _ => end_setup sys | None => sys end
  | _ => sys
  end.

(** The method whose route serves a request: axum's [get] serves HEAD too, and
    drops the body of the response on its way out. *)
Definition served_method (method : Method) : Method :=
  match method with HEAD => GET | _ => method end.

(** The router's own match of a request head. *)
Definition dispatch (method : Method) (path : bytes) : option Route :=
  snd <$> list_find (fun r => route_method r = served_method method /\ route_path r = path)
            (build_router MAX_REQUEST_BYTES).

Section Steps.
  Variable request_deadline : N.

(** Lines 262-276 from the outside in: the error handler, the timeout, the load
    shedder and the concurrency limit of the route. *)
Definition arrive (srv : Server) (r : Route) : Server * list (N * Outcome) :=
  let id := next_exchange srv in
  match poll_ready (limits srv (route_handler r)) with
  | Some l =>
      ({| core := core srv; limits := set_limit (limits srv) (route_handler r) l;
          exchanges := <[id := {| route := r; started := clock srv; phase := Extracting |}]> (exchanges srv);
          next_exchange := id + 1; tasks := tasks srv; clock := clock srv |}, [])
  | None =>
      ({| core := core srv; limits := limits srv; exchanges := exchanges srv; next_exchange := id + 1;
          tasks := tasks srv; clock := clock srv |}, [(id, error_response (handle_error Overloaded))])
  end.

(** The body of an admitted request is complete: extraction and the handler. *)
Definition body_complete (srv : Server) (id : N) (ex : Exchange) (body : bytes) (env : Env)
    : Server * list (N * Outcome) :=
  match extract (route ex) body with
  | Ok input =>
      let '(sys, progress, spawned) := begin_handler (core srv) env input in
      let srv := with_tasks (with_core srv sys) (tasks srv ++ ((fun r => (id, r)) <$> spawned)) in
      match progress with
      | Done outcome => (conclude srv id, [(id, outcome)])
      | Suspended p => (with_exchange srv id {| route := route ex; started := started ex; phase := p |}, [])
      end
  | Err rejection => (conclude srv id, [(id, error_response rejection)])
  | Panic _ => (conclude srv id, [(id, Reset)])
  end.

(** The setup future's own steps, and the signer thread's. *)
Definition setup_action (action : Action) : bool :=
  match action with Derived _ | ReadyReceived | ReadyTimeout => true | _ => false end.

Definition signer_action (action : Action) : bool :=
  match action with SignerReceives | SignerBinds _ | SignerExits => true | _ => false end.

(** The response of the setup future, which only fails with an error pair. *)
Definition setup_outcome (r : Result ApiError bytes) : Outcome := into_outcome (fun id => (OK, id)) r.

Definition setup_advances (srv : Server) (id : N) (action : Action) : option (Server * list (N * Outcome)) :=
  '(sys, reply) ← app_step (core srv) action;
  Some (match reply with
        | SetupReply r => (conclude (with_core srv sys) id, [(id, setup_outcome r)])
        | NoReply => (with_core srv sys, [])
        end).

(** A blocking evaluation ends; its caller may be gone. *)
Definition task_ends (srv : Server) (k : nat) (id : N) (request : PrepareRequest) (env : Env)
    : Server * list (N * Outcome) :=
  let '(r, st) := ark_prepare_run (app (core srv)) env request in
  let srv := with_tasks (with_core srv (with_evaluating (with_app (core srv) st) (evaluating (core srv) - 1)))
               (delete k (tasks srv)) in
  match exchanges srv !! id with
  | Some _ => (conclude srv id, [(id, into_outcome (fun a => (OK, prepare_json a)) r)])
  | None => (srv, [])
  end.

(** The response future of [id] is dropped where it is suspended. *)
Definition drop_exchange (srv : Server) (id : N) (ex : Exchange) : Server :=
  conclude (with_core srv (drop_handler (core srv) (phase ex))) id.

(** One step; [None] when the stimulus is not enabled. *)
Definition server_step (srv : Server) (stimulus : Stimulus) : option (Server * list (N * Outcome)) :=
  match stimulus with
  | Arrive method path => r ← dispatch method path; Some (arrive srv r)
  | Body id body env =>
      ex ← exchanges srv !! id;
      match phase ex with
      | Extracting => if now env =? clock srv then Some (body_complete srv id ex body env) else None
      | _ => None
      end
  | SetupStep id action =>
      ex ← exchanges srv !! id;
      match phase ex with
      | OnSetup => if setup_action action then setup_advances srv id action else None
      | _ => None
      end
  | SignerStep action =>
      if signer_action action then
        '(sys, _) ← app_step (core srv) action; Some (with_core srv sys, [])
      else None
  | TaskRuns k env =>
      '(id, request) ← tasks srv !! k;
      if now env =? clock srv then Some (task_ends srv k id request env) else None
  | Deadline id =>
      ex ← exchanges srv !! id;
      if timer_fired request_deadline (started ex) (clock srv)
      then Some (drop_exchange srv id ex, [(id, error_response (handle_error Elapsed))]) else None
  | Disconnect id =>
      ex ← exchanges srv !! id;
      Some (drop_exchange srv id ex, [(id, Reset)])
  | Tick t =>
      if clock srv <=? t then
        Some ({| core := core srv; limits := limits srv; exchanges := exchanges srv;
                 next_exchange := next_exchange srv; tasks := tasks srv; clock := t |}, [])
      else None
  end.

(** The router of a process that has just started serving. *)
Definition serving (sys : System) (t : N) : Server := {|
  core := sys; limits := fun _ => limit_new CONCURRENCY_LIMIT; exchanges := ∅; next_exchange := 0;
  tasks := []; clock := t |}.

Fixpoint server_run (srv : Server) (stimuli : list Stimulus) : option (Server * list (N * Outcome)) :=
  match stimuli with
  | [] => Some (srv, [])
  | s :: stimuli =>
      '(srv, out) ← server_step srv s;
      '(srv, outs) ← server_run srv stimuli;
      Some (srv, out ++ outs)
  end.

(** Executions with the outcomes they produce. *)
Inductive serves (srv : Server) : list (N * Outcome) -> Server -> Prop :=
| serves_start : serves srv [] srv
| serves_next outs srv1 stimulus out srv2 :
    serves srv outs srv1 -> server_step srv1 stimulus = Some (srv2, out) -> serves srv (outs ++ out) srv2.

End Steps.

End Service.

(* ------------------------------------------------------------------ *)
(** ** The actions behind a stimulus *)

Section Projection.
  Context {sapio : SapioProgram} {prim : KeyPrimitives} {upstream : Upstream} {ark : ArkLib}.
  Context {requests : ArkRequests} {applib : AppLib} {driver : NsmDriver}.
  Context {runtime : WasmRuntime} {outpoint_codec : OutPointCodec} {auth : NativeAuth}.
  Context {codec : PolicyCodec VtxoPolicy} {tower : Tower} {axum : Axum}.

Definition handler_actions (sys : System) (env : Env) (input : Input) : list Action :=
  match input with
  | SettingsInput settings => [SetupRequest settings]
  | PrepareInput _ => if is_ok (ark_prepare_admit (app sys)) then [PrepareAdmitted] else []
  | FinishInput request => [FinishCall env request]
  | CancelInput request => [CancelCall request]
  | _ => []
  end.

Definition drop_actions (sys : System) (p : Phase) : list Action :=
  match p with
  | OnSetup => if bool_decide (is_Some (setup_task sys)) then [SetupDropped] else []
  | _ => []
  end.

Definition core_actions (srv : Server) (stimulus : Stimulus) : list Action :=
  match stimulus with
  | Body id body env =>
      match exchanges srv !! id with
      | Some ex => match extract (route ex) body with
                   | Ok input => handler_actions (core srv) env input
                   | _ => []
                   end
      | None => []
      end
  | SetupStep _ action | SignerStep action => [action]
  | TaskRuns k env => match tasks srv !! k with Some (_, request) => [PrepareRuns env request] | None => [] end
  | Deadline id | Disconnect id =>
      match exchanges srv !! id with Some ex => drop_actions (core srv) (phase ex) | None => [] end
  | Arrive _ _ | Tick _ => []
  end.

Lemma app_run_one sys action sys' reply :
  app_step sys action = Some (sys', reply) -> app_run sys [action] = Some (sys', [reply]).
Proof. cbn. by intros ->. Qed.

Lemma core_conclude srv id : core (conclude srv id) = core srv.
Proof. unfold conclude. by destruct (exchanges srv !! id). Qed.

Lemma handler_simulates sys env input sys' progress spawned :
  begin_handler sys env input = (sys', progress, spawned) ->
  exists replies, app_run sys (handler_actions sys env input) = Some (sys', replies).
Proof.
  destruct input as [| |settings|nonce|request|request|request]; cbn [begin_handler handler_actions];
    try by intros [= <- _ _]; eexists.
  - intros H. exists [snd (setup_start sys settings)]. apply app_run_one. cbn.
    destruct (setup_start sys settings) as [s [r|]]; by injection H as <- _ _.
  - destruct (ark_prepare_admit (app sys)) as [st|e|w] eqn:Ha; intros [= <- _ _]; [|by eexists..].
    exists [NoReply]. apply app_run_one. cbn. by rewrite Ha.
  - intros H. exists [NoReply]. apply app_run_one. cbn. destruct (ark_finish (app sys) env request) as [r st]. by injection H as <- _ _.
  - intros H. exists [NoReply]. apply app_run_one. cbn. destruct (ark_cancel (app sys) request) as [r st]. by injection H as <- _ _.
Qed.

Lemma drop_simulates sys p :
  exists replies, app_run sys (drop_actions sys p) = Some (drop_handler sys p, replies).
Proof.
  destruct p; cbn; try by eexists. destruct (setup_task sys) as [t|] eqn:Ht.
  - rewrite bool_decide_eq_true_2 by done. exists [NoReply]. apply app_run_one. cbn. by rewrite Ht.
  - rewrite bool_decide_eq_false_2 by (by intros [? ?]). by eexists.
Qed.

(** Every step of the server is those actions of the application. *)
Lemma server_step_simulates d srv stimulus srv' out :
  evaluating (core srv) = len (tasks srv) ->
  server_step d srv stimulus = Some (srv', out) ->
  exists replies, app_run (core srv) (core_actions srv stimulus) = Some (core srv', replies).
Proof.
  intros Htasks. destruct stimulus as [m p|id body env|id action|action|k env|id|id|t]; cbn [server_step core_actions].
  - destruct (dispatch m p) as [r|]; [|done]. cbn. unfold arrive. destruct (poll_ready _); intros [= <- _]; by eexists.
  - destruct (exchanges srv !! id) as [ex|]; [|done]. cbn [mbind option_bind]. destruct (phase ex); [|done..].
    destruct (now env =? clock srv); [|done]. intros [= H]. unfold body_complete in H.
    destruct (extract (route ex) body) as [input|e|w]; [|injection H as <- _; rewrite core_conclude; by eexists..].
    destruct (begin_handler (core srv) env input) as [[sys progress] spawned] eqn:Hb.
    destruct (handler_simulates _ _ _ _ _ _ Hb) as [rs Hr]. exists rs. rewrite Hr.
    destruct progress; injection H as <- _; [|done]. by rewrite core_conclude.
  - destruct (exchanges srv !! id) as [ex|]; [|done]. cbn [mbind option_bind]. destruct (phase ex); [done| |done].
    destruct (setup_action action); [|done]. unfold setup_advances. intros H.
    destruct (app_step (core srv) action) as [[sys reply]|] eqn:Hs; [|done]. exists [reply]. rewrite (app_run_one _ _ _ _ Hs).
    cbn in H. destruct reply; injection H as <- _; [|done]. by rewrite core_conclude.
  - destruct (signer_action action); [|done]. intros H.
    destruct (app_step (core srv) action) as [[sys reply]|] eqn:Hs; [|done]. exists [reply]. rewrite (app_run_one _ _ _ _ Hs).
    by injection H as <- _.
  - destruct (tasks srv !! k) as [[id request]|] eqn:Hk; [|done]. cbn [mbind option_bind].
    destruct (now env =? clock srv); [|done]. intros [= H]. exists [NoReply]. apply app_run_one. cbn.
    destruct (N.eqb_spec (evaluating (core srv)) 0) as [E|_].
    { apply lookup_lt_Some in Hk. unfold len in Htasks. lia. }
    unfold task_ends in H. destruct (ark_prepare_run (app (core srv)) env request) as [r st].
    cbn in H. destruct (exchanges srv !! id); injection H as <- _; [|done]. by rewrite core_conclude.
  - destruct (exchanges srv !! id) as [ex|]; [|done]. cbn [mbind option_bind]. destruct (timer_fired _ _ _); [|done].
    intros [= <- _]. unfold drop_exchange. rewrite core_conclude. apply drop_simulates.
  - destruct (exchanges srv !! id) as [ex|]; [|done]. intros [= <- _]. unfold drop_exchange. rewrite core_conclude.
    apply drop_simulates.
  - destruct (clock srv <=? t); [|done]. intros [= <- _]. by eexists.
Qed.

End Projection.
