(* ===== verification/Admission.v ===== *)
(** * Admission: what the request layers guarantee (src/app.rs, build_router)

    The invariant of a [Server]: on every route the free permits and the
    requests in flight make sixteen, the setup future and the blocking
    evaluations belong to the exchanges that wait for them, and the core is a
    reachable state of [App].  The theorems say when a request is shed, that
    the deadline frees its slot, and that under a fair runtime no client can
    pin a route. *)

From S2P Require Import Prelude Bytes NativePolicy Bitcoin Program SignedView Evaluator Keys Deployment ArkSigner Nsm App Service.

Open Scope N_scope.

(* ------------------------------------------------------------------ *)
(** ** Counting in a map *)

Section Counting.
  Context {A : Type} (P : N * A -> Prop) `{forall x, Decision (P x)}.

Definition count_map (m : gmap N A) : N := N.of_nat (size (filter P m)).

Lemma count_insert m i x :
  m !! i = None -> count_map (<[i := x]> m) = (if decide (P (i, x)) then 1 else 0) + count_map m.
Proof.
  intros Hi. unfold count_map. destruct (decide (P (i, x))) as [Hp|Hp].
  - rewrite map_filter_insert_True, map_size_insert_None by (done || (apply map_lookup_filter_None_2; by left)). lia.
  - rewrite map_filter_insert_False, delete_id by done. lia.
Qed.

Lemma count_delete m i x :
  m !! i = Some x -> count_map m = (if decide (P (i, x)) then 1 else 0) + count_map (delete i m).
Proof.
  intros Hi. rewrite <- (insert_delete_id m i x) at 1 by done. apply count_insert, lookup_delete_eq.
Qed.

Lemma count_update m i x y :
  m !! i = Some x ->
  count_map (<[i := y]> m) + (if decide (P (i, x)) then 1 else 0) =
  count_map m + (if decide (P (i, y)) then 1 else 0).
Proof.
  intros Hi. rewrite (count_delete m i x Hi), <- insert_delete_eq, count_insert by apply lookup_delete_eq. lia.
Qed.

Lemma count_empty : count_map ∅ = 0.
Proof. unfold count_map. by rewrite map_filter_empty, map_size_empty. Qed.

Lemma count_zero m i x : count_map m = 0 -> m !! i = Some x -> ~ P (i, x).
Proof. intros Hz Hi Hp. rewrite (count_delete m i x Hi), decide_True in Hz by done. lia. Qed.

Lemma count_nonzero m i x : m !! i = Some x -> P (i, x) -> 1 <= count_map m.
Proof. intros Hi Hp. rewrite (count_delete m i x Hi), decide_True by done. lia. Qed.

Lemma count_some m : 1 <= count_map m -> exists i x, m !! i = Some x /\ P (i, x).
Proof.
  intros Hc. destruct (map_choose (filter P m)) as (i & x & [Hi Hp]%map_lookup_filter_Some); [|by exists i, x].
  intros E. unfold count_map in Hc. rewrite E, map_size_empty in Hc. lia.
Qed.

Lemma count_none m : (forall i x, m !! i = Some x -> ~ P (i, x)) -> count_map m = 0.
Proof.
  intros Hn. unfold count_map. rewrite map_empty_filter_2; [by rewrite map_size_empty|]. intros i x Hi. by apply Hn.
Qed.

End Counting.

Section Admission.
  Context {sapio : SapioProgram} {prim : KeyPrimitives} {upstream : Upstream} {ark : ArkLib}.
  Context {requests : ArkRequests} {applib : AppLib} {driver : NsmDriver}.
  Context {runtime : WasmRuntime} {outpoint_codec : OutPointCodec} {auth : NativeAuth}.
  Context {codec : PolicyCodec VtxoPolicy} {tower : Tower} {tower_laws : TowerLaws} {axum : Axum}.

(* ------------------------------------------------------------------ *)
(** ** The application's side of a step *)

Definition busy (sys : System) : N := match setup_task sys with Some _ => 1 | None => 0 end.

Lemma setup_step_core sys action sys' reply :
  setup_action action = true -> app_step sys action = Some (sys', reply) ->
  busy sys = 1 /\ evaluating sys' = evaluating sys /\
  busy sys' = match reply with SetupReply _ => 0 | NoReply => 1 end.
Proof.
  intros Ha Hs. unfold busy.
  destruct action; try discriminate Ha; cbn in Hs; destruct (setup_task sys) as [[settings|j signer id]|]; try discriminate Hs.
  - injection Hs as Hs. unfold setup_derived in Hs. repeat case_match; by simplify_eq.
  - destruct (ready sys !! j) as [result|]; [|done]. injection Hs as Hs. unfold setup_ready in Hs.
    destruct result; [|by simplify_eq..]. destruct (install_finish (app sys) signer id) as [r st]. by destruct r; simplify_eq.
  - case_bool_decide; [|done]. by simplify_eq.
Qed.

Lemma signer_step_core sys action sys' reply :
  signer_action action = true -> app_step sys action = Some (sys', reply) ->
  evaluating sys' = evaluating sys /\ busy sys' = busy sys.
Proof.
  intros Ha Hs. destruct action; try discriminate Ha; cbn in Hs; repeat case_match; by simplify_eq.
Qed.

Lemma begin_handler_core sys env input sys' progress spawned :
  setup_gate (app sys) = bool_decide (is_Some (setup_task sys)) ->
  begin_handler sys env input = (sys', progress, spawned) ->
  evaluating sys' = evaluating sys + len spawned /\
  busy sys' = busy sys + (match progress with Suspended OnSetup => 1 | _ => 0 end) /\
  match progress with
  | Suspended OnPrepare => exists request, spawned = [request]
  | Suspended OnSetup => spawned = [] /\ busy sys = 0
  | Suspended Extracting => False
  | Done _ => spawned = []
  end.
Proof.
  intros Hg.
  destruct input as [| |settings|nonce|request|request|request]; cbn [begin_handler];
    [by intros [= <- <- <-]; rewrite len_nil, !N.add_0_r..| |by intros [= <- <- <-]; rewrite len_nil, !N.add_0_r| | |].
  - unfold setup_start. destruct (validate settings); [|by intros [= <- <- <-]; rewrite len_nil, !N.add_0_r..].
    destruct (setup_gate (app sys)) eqn:Eg; [by intros [= <- <- <-]; rewrite len_nil, !N.add_0_r|].
    destruct (bool_decide (is_Some (identity (app sys)))); [by intros [= <- <- <-]; rewrite len_nil, !N.add_0_r|].
    destruct (bool_decide (nsm (app sys) = None)); [by intros [= <- <- <-]; rewrite len_nil, !N.add_0_r|].
    intros [= <- <- <-]. symmetry in Hg. apply bool_decide_eq_false, eq_None_not_Some in Hg. unfold busy. cbn.
    rewrite Hg. split; [unfold len; cbn; lia|]. done.
  - destruct (ark_prepare_admit (app sys)) as [st|e|w]; intros [= <- <- <-]; [|by rewrite len_nil, !N.add_0_r..].
    cbn. unfold busy. cbn. rewrite N.add_0_r. split; [done|]. split; [done|]. by exists request.
  - destruct (ark_finish (app sys) env request) as [r st]. intros [= <- <- <-]. by rewrite len_nil, !N.add_0_r.
  - destruct (ark_cancel (app sys) request) as [r st]. intros [= <- <- <-]. by rewrite len_nil, !N.add_0_r.
Qed.

Lemma drop_handler_core sys p :
  evaluating (drop_handler sys p) = evaluating sys /\
  busy (drop_handler sys p) = match p with OnSetup => 0 | _ => busy sys end.
Proof. unfold drop_handler, busy. destruct p; [done| |done]. destruct (setup_task sys) eqn:E; cbn; by rewrite ?E. Qed.

(* ------------------------------------------------------------------ *)
(** ** The invariant *)

Definition on_route (h : Handler) (x : N * Exchange) : Prop := route_handler (route (snd x)) = h.

#[export] Instance on_route_dec h x : Decision (on_route h x).
Proof. unfold on_route. apply _. Defined.

Definition in_flight (h : Handler) (srv : Server) : N := count_map (on_route h) (exchanges srv).

#[export] Instance phase_eq_dec : EqDecision Phase.
Proof. solve_decision. Defined.

Definition waits_setup (x : N * Exchange) : Prop := phase (snd x) = OnSetup.

#[export] Instance waits_setup_dec x : Decision (waits_setup x).
Proof. unfold waits_setup. apply _. Defined.

Record server_ok (srv : Server) : Prop := {
  ok_slots h : permits (limits srv h) + in_flight h srv = CONCURRENCY_LIMIT;
  ok_ids id ex : exchanges srv !! id = Some ex -> id < next_exchange srv;
  ok_started id ex : exchanges srv !! id = Some ex -> started ex <= clock srv;
  ok_core : reachable (core srv);
  ok_evaluating : evaluating (core srv) = len (tasks srv);
  ok_task_ids : NoDup (fst <$> tasks srv);
  ok_task id : id ∈ fst <$> tasks srv -> id < next_exchange srv;
  ok_waiting id ex : exchanges srv !! id = Some ex -> (phase ex = OnPrepare <-> id ∈ fst <$> tasks srv);
  ok_setup : count_map waits_setup (exchanges srv) = busy (core srv);
}.

Lemma ok_gate srv : server_ok srv ->
  setup_gate (app (core srv)) = bool_decide (is_Some (setup_task (core srv))).
Proof. intros H. apply inv_gate, reachable_invariant, H. Qed.

Lemma serving_ok nsm_ t : server_ok (serving (initial nsm_) t).
Proof.
  split; cbn; try done.
  - intros h. unfold in_flight. cbn. by rewrite permits_new, count_empty.
  - by exists nsm_; constructor.
  - constructor.
  - intros id H. by apply not_elem_of_nil in H.
Qed.

Lemma set_limit_eq l h x : set_limit l h x h = x.
Proof. unfold set_limit. by rewrite decide_True. Qed.

Lemma set_limit_ne l h x h' : h' <> h -> set_limit l h x h' = l h'.
Proof. intros. unfold set_limit. by rewrite decide_False. Qed.

(** A concluded exchange: its slot is free, its handler gone from the core. *)
Lemma conclude_ok srv id ex sys ts :
  server_ok srv -> exchanges srv !! id = Some ex -> reachable sys ->
  evaluating sys = len ts -> NoDup (fst <$> ts) ->
  (forall i, i <> id -> (i ∈ fst <$> ts <-> i ∈ fst <$> tasks srv)) ->
  (id ∈ fst <$> ts -> id ∈ fst <$> tasks srv) ->
  busy sys + (if decide (waits_setup (id, ex)) then 1 else 0) = busy (core srv) ->
  server_ok (conclude (with_tasks (with_core srv sys) ts) id).
Proof.
  intros H Hex Hr He Hd Ht Hid Hb. unfold conclude. cbn [exchanges with_tasks with_core]. rewrite Hex.
  split; cbn [core limits exchanges next_exchange tasks clock with_tasks with_core].
  - intros h. pose proof (ok_slots _ H h) as Hs. unfold in_flight in *. cbn [exchanges].
    rewrite (count_delete _ _ _ _ Hex) in Hs. destruct (decide (on_route h (id, ex))) as [Hh|Hne].
    + unfold on_route in Hh. cbn in Hh. subst h. rewrite set_limit_eq, permits_drop. lia.
    + rewrite set_limit_ne by (intros ->; by apply Hne). lia.
  - intros i x [_ Hx]%lookup_delete_Some. by eapply (ok_ids _ H).
  - intros i x [_ Hx]%lookup_delete_Some. by eapply (ok_started _ H).
  - done.
  - done.
  - done.
  - intros i Hi. apply (ok_task _ H). destruct (decide (i = id)) as [->|Hne]; [by apply Hid|by apply Ht].
  - intros i x [Hne Hx]%lookup_delete_Some. rewrite (ok_waiting _ H _ _ Hx). symmetry. apply Ht. done.
  - pose proof (ok_setup _ H) as Hs. rewrite (count_delete _ _ _ _ Hex) in Hs. lia.
Qed.

(** A step of the core that leaves the exchanges. *)
Lemma core_ok srv sys :
  server_ok srv -> reachable sys -> evaluating sys = evaluating (core srv) -> busy sys = busy (core srv) ->
  server_ok (with_core srv sys).
Proof.
  intros [H1 H2 H3 H4 H5 H6 H7 H8 H9] Hr He Hb. split; cbn; try done; by rewrite ?He, ?Hb.
Qed.

Lemma arrive_ok srv r : server_ok srv -> server_ok (fst (arrive srv r)).
Proof.
  intros H. unfold arrive. destruct (poll_ready (limits srv (route_handler r))) as [l|] eqn:Hl; cbn [fst].
  - assert (exchanges srv !! next_exchange srv = None) as Hf.
    { destruct (exchanges srv !! next_exchange srv) as [x|] eqn:Hx; [|done]. apply (ok_ids _ H) in Hx. lia. }
    apply ready_some in Hl. split; cbn [core limits exchanges next_exchange tasks clock]; try apply H.
    + intros h. pose proof (ok_slots _ H h) as Hs. unfold in_flight in *. cbn [exchanges].
      rewrite count_insert by done.
      destruct (decide (on_route h (next_exchange srv, {| route := r; started := clock srv; phase := Extracting |}))) as [Hh|Hne].
      * unfold on_route in Hh. cbn in Hh. subst h. rewrite set_limit_eq. lia.
      * rewrite set_limit_ne by (intros ->; by apply Hne). lia.
    + intros i x [[<- <-]|[_ Hx]]%lookup_insert_Some; [lia|]. apply (ok_ids _ H) in Hx. lia.
    + intros i x [[<- <-]|[_ Hx]]%lookup_insert_Some; [done|]. by eapply (ok_started _ H).
    + intros i Hi. apply (ok_task _ H) in Hi. lia.
    + intros i x [[<- <-]|[_ Hx]]%lookup_insert_Some; [|by apply (ok_waiting _ H)].
      split; [done|]. intros Hi. apply (ok_task _ H) in Hi. lia.
    + rewrite count_insert by done. rewrite decide_False by done. apply H.
  - split; cbn [core limits exchanges next_exchange tasks clock]; try apply H.
    + intros i x Hx. apply (ok_ids _ H) in Hx. lia.
    + intros i Hi. apply (ok_task _ H) in Hi. lia.
Qed.

(** A handler that suspends keeps its exchange, which now waits for it. *)
Lemma suspend_ok srv id ex sys p ts :
  server_ok srv -> exchanges srv !! id = Some ex -> phase ex = Extracting -> reachable sys ->
  evaluating sys = len (tasks srv ++ ts) -> busy sys = busy (core srv) + (if decide (p = OnSetup) then 1 else 0) ->
  (fst <$> ts) = (if decide (p = OnPrepare) then [id] else []) -> p <> Extracting ->
  server_ok (with_exchange (with_tasks (with_core srv sys) (tasks srv ++ ts)) id
    {| route := route ex; started := started ex; phase := p |}).
Proof.
  intros H Hex Hp Hr He Hb Hts Hne.
  assert (id ∉ fst <$> tasks srv) as Hnew by (rewrite <- (ok_waiting _ H _ _ Hex); by rewrite Hp).
  split; cbn [core limits exchanges next_exchange tasks clock with_exchange with_tasks with_core].
  - intros h. pose proof (ok_slots _ H h) as Hs. unfold in_flight in *. cbn [exchanges with_exchange with_tasks with_core].
    pose proof (count_update (on_route h) _ _ _ {| route := route ex; started := started ex; phase := p |} Hex) as Hc.
    assert (on_route h (id, {| route := route ex; started := started ex; phase := p |}) <-> on_route h (id, ex)) as He' by done.
    repeat case_decide; tauto || lia.
  - intros i x [[<- <-]|[_ Hx]]%lookup_insert_Some; [by eapply (ok_ids _ H)|]. by eapply (ok_ids _ H).
  - intros i x [[<- <-]|[_ Hx]]%lookup_insert_Some; [by eapply (ok_started _ H _ ex)|]. by eapply (ok_started _ H).
  - done.
  - done.
  - rewrite fmap_app, Hts. destruct (decide (p = OnPrepare)); [|rewrite app_nil_r; apply H].
    apply list.NoDup_app. split; [apply H|]. split; [|apply list.NoDup_singleton].
    intros i Hi ->%list_elem_of_singleton. done.
  - intros i. rewrite fmap_app, elem_of_app, Hts. intros [Hi|Hi]; [by apply (ok_task _ H)|].
    destruct (decide (p = OnPrepare)); [|by apply not_elem_of_nil in Hi].
    apply list_elem_of_singleton in Hi as ->. by eapply (ok_ids _ H).
  - intros i x Hx. rewrite fmap_app, elem_of_app, Hts.
    apply lookup_insert_Some in Hx as [[<- <-]|[Hi Hx]]; cbn.
    + destruct (decide (p = OnPrepare)) as [->|Hn]; [split; [right; by apply list_elem_of_singleton|done]|].
      split; [done|]. intros [Hi|Hi]; [done|by apply not_elem_of_nil in Hi].
    + rewrite (ok_waiting _ H _ _ Hx). split; [by left|]. intros [?|Hi']; [done|].
      destruct (decide (p = OnPrepare)); [|by apply not_elem_of_nil in Hi'].
      by apply list_elem_of_singleton in Hi' as ->.
  - pose proof (ok_setup _ H) as Hs.
    pose proof (count_update waits_setup _ _ _ {| route := route ex; started := started ex; phase := p |} Hex) as Hc.
    assert (~ waits_setup (id, ex)) as Hn by (unfold waits_setup; cbn; by rewrite Hp).
    assert (waits_setup (id, {| route := route ex; started := started ex; phase := p |}) <-> p = OnSetup) as Hw by done.
    rewrite Hb. repeat case_decide; tauto || lia.
Qed.

Lemma run_reachable sys actions sys' replies :
  reachable sys -> app_run sys actions = Some (sys', replies) -> reachable sys'.
Proof. intros [n H] Hr. exists n. eapply reaches_trans; [exact H|]. by eapply app_run_reaches. Qed.

(** Ending an exchange that no task answers and with the tasks unchanged. *)
Lemma end_exchange_ok srv id ex sys :
  server_ok srv -> exchanges srv !! id = Some ex -> reachable sys -> evaluating sys = evaluating (core srv) ->
  busy sys + (if decide (phase ex = OnSetup) then 1 else 0) = busy (core srv) ->
  server_ok (conclude (with_core srv sys) id).
Proof.
  intros H Hex Hr He Hb. change (with_core srv sys) with (with_tasks (with_core srv sys) (tasks srv)).
  apply (conclude_ok srv id ex); try done; [by rewrite He; apply H|apply H].
Qed.

Lemma body_complete_ok srv id ex body env sys' :
  server_ok srv -> exchanges srv !! id = Some ex -> phase ex = Extracting ->
  reachable (core (fst (body_complete srv id ex body env))) -> sys' = fst (body_complete srv id ex body env) ->
  server_ok sys'.
Proof.
  intros H Hex Hp Hr ->. unfold body_complete in *.
  assert (forall sys, reachable sys -> evaluating sys = evaluating (core srv) -> busy sys = busy (core srv) ->
    server_ok (conclude (with_core srv sys) id)) as Hend.
  { intros sys Hrs He Hb. apply (end_exchange_ok srv id ex); try done. rewrite Hb, decide_False by (by rewrite Hp). lia. }
  destruct (extract (route ex) body) as [input|e|w].
  2,3: cbn [fst]; replace srv with (with_core srv (core srv)) at 1 by (by destruct srv); by apply Hend; [apply H|..].
  destruct (begin_handler (core srv) env input) as [[sys progress] spawned] eqn:Hb.
  pose proof (begin_handler_core _ _ _ _ _ _ (ok_gate _ H) Hb) as (He & Hbusy & Hsp). rewrite (ok_evaluating _ H) in He.
  destruct progress as [outcome|p]; cbn [fst] in *.
  - subst spawned. rewrite core_conclude in Hr. cbn [core with_tasks with_core] in Hr. rewrite fmap_nil, app_nil_r.
    apply (Hend sys); [done| |lia]. rewrite He, len_nil, (ok_evaluating _ H). lia.
  - apply suspend_ok; try done.
    + rewrite len_app, He. unfold len. by rewrite length_fmap.
    + rewrite Hbusy. by destruct p.
    + destruct p; [done|destruct Hsp as [-> _]; done|]. by destruct Hsp as [request ->].
    + by intros ->.
Qed.

Lemma busy_waiting srv id ex :
  server_ok srv -> exchanges srv !! id = Some ex -> phase ex = OnSetup -> busy (core srv) = 1.
Proof.
  intros H Hex Hp. rewrite <- (ok_setup _ H). pose proof (ok_setup _ H) as Hs.
  pose proof (count_nonzero waits_setup _ _ _ Hex Hp). unfold busy in Hs. destruct (setup_task (core srv)); lia.
Qed.

Lemma drop_exchange_ok srv id ex :
  server_ok srv -> exchanges srv !! id = Some ex -> reachable (core (drop_exchange srv id ex)) ->
  server_ok (drop_exchange srv id ex).
Proof.
  intros H Hex Hr. unfold drop_exchange in *. rewrite core_conclude in Hr.
  destruct (drop_handler_core (core srv) (phase ex)) as [He Hb].
  apply (end_exchange_ok srv id ex); try done. rewrite Hb. destruct (decide (phase ex = OnSetup)) as [Hp|Hp].
  - rewrite Hp, (busy_waiting _ _ _ H Hex Hp). done.
  - destruct (phase ex); [lia|done|lia].
Qed.

Lemma setup_advances_ok srv id ex action srv' out :
  server_ok srv -> exchanges srv !! id = Some ex -> phase ex = OnSetup -> setup_action action = true ->
  reachable (core srv') -> setup_advances srv id action = Some (srv', out) -> server_ok srv'.
Proof.
  intros H Hex Hp Ha Hr Hs. unfold setup_advances in Hs.
  destruct (app_step (core srv) action) as [[sys reply]|] eqn:Hstep; [|done]. cbn in Hs.
  destruct (setup_step_core _ _ _ _ Ha Hstep) as (Hb & He & Hb'). destruct reply as [r|]; injection Hs as <- _.
  - rewrite core_conclude in Hr. apply (end_exchange_ok srv id ex); try done.
    rewrite decide_True by done. lia.
  - apply core_ok; try done. by rewrite Hb, Hb'.
Qed.

Lemma prepare_run_busy sys env request r st n :
  ark_prepare_run (app sys) env request = (r, st) -> busy (with_evaluating (with_app sys st) n) = busy sys.
Proof. done. Qed.

(** The position of a task is its only place. *)
Lemma task_elsewhere (ts : list (N * PrepareRequest)) k id request i :
  NoDup (fst <$> ts) -> ts !! k = Some (id, request) ->
  (i ∈ fst <$> delete k ts <-> i ∈ fst <$> ts /\ i <> id) /\ NoDup (fst <$> delete k ts).
Proof.
  intros Hd Hk. assert (k < length ts)%nat as Hlt by by eapply lookup_lt_Some.
  pose proof (take_drop_middle ts k _ Hk) as E. rewrite <- E in Hd |- * at 2. rewrite delete_take_drop.
  rewrite !fmap_app, fmap_cons in *. cbn [fst] in *. apply list.NoDup_app in Hd as (H1 & H2 & H3).
  apply list.NoDup_cons in H3 as [H3 H4]. split.
  - rewrite !elem_of_app, elem_of_cons. split.
    + intros [Hi|Hi]; (split; [by eauto|intros ->]); [|done]. apply (H2 _ Hi), elem_of_cons. by left.
    + intros [[Hi|[Hi|Hi]] Hne]; [by left|done|by right].
  - apply list.NoDup_app. split; [done|]. split; [|done]. intros x Hx Hy. apply (H2 _ Hx), elem_of_cons. by right.
Qed.

Lemma task_ends_ok srv k id request env :
  server_ok srv -> tasks srv !! k = Some (id, request) ->
  reachable (core (fst (task_ends srv k id request env))) -> server_ok (fst (task_ends srv k id request env)).
Proof.
  intros H Hk Hr. unfold task_ends in *. destruct (ark_prepare_run (app (core srv)) env request) as [r st] eqn:Hrun.
  set (sys := with_evaluating (with_app (core srv) st) (evaluating (core srv) - 1)) in *. cbn [exchanges with_tasks with_core] in *.
  assert (evaluating sys = len (delete k (tasks srv))) as He.
  { cbn. rewrite (ok_evaluating _ H). unfold len. rewrite length_delete by by eexists. apply lookup_lt_Some in Hk. lia. }
  pose proof (fun i => task_elsewhere (tasks srv) k id request i (ok_task_ids _ H) Hk) as Hel.
  destruct (exchanges srv !! id) as [ex|] eqn:Hex; cbn [fst] in *.
  - rewrite core_conclude in Hr. apply (conclude_ok srv id ex); try done.
    + apply (Hel 0).
    + intros i Hi. rewrite (proj1 (Hel i)). tauto.
    + rewrite (proj1 (Hel id)). tauto.
    + rewrite decide_False; [by rewrite N.add_0_r|]. unfold waits_setup. cbn.
      assert (phase ex = OnPrepare) as ->; [|done]. apply (ok_waiting _ H _ _ Hex), list_elem_of_fmap.
      exists (id, request). split; [done|]. by eapply list_elem_of_lookup_2.
  - destruct H as [H1 H2 H3 H4 H5 H6 H7 H8 H9].
    split; cbn [core limits exchanges next_exchange tasks clock with_tasks with_core]; try done.
    + apply (Hel 0).
    + intros i. rewrite (proj1 (Hel i)). intros [Hi _]. by apply H7.
    + intros i x Hx. rewrite (H8 _ _ Hx), (proj1 (Hel i)). split; [|tauto]. intros Hi. split; [done|].
      intros ->. by rewrite Hex in Hx.
Qed.

Lemma server_step_ok d srv stimulus srv' out :
  server_ok srv -> server_step d srv stimulus = Some (srv', out) -> server_ok srv'.
Proof.
  intros H Hs. assert (reachable (core srv')) as Hr.
  { destruct (server_step_simulates _ _ _ _ _ (ok_evaluating _ H) Hs) as [rs Hrun]. eapply run_reachable; [apply H|done]. }
  destruct stimulus as [m p|id body env|id action|action|k env|id|id|t]; cbn [server_step] in Hs.
  - destruct (dispatch m p) as [r|]; [|done]. injection Hs as E. apply (f_equal fst) in E. cbn in E. subst srv'. by apply arrive_ok.
  - destruct (exchanges srv !! id) as [ex|] eqn:Hex; [|done]. cbn [mbind option_bind] in Hs.
    destruct (phase ex) eqn:Hp; [|done..]. destruct (now env =? clock srv); [|done]. injection Hs as E.
    apply (f_equal fst) in E. cbn in E. subst srv'. by eapply body_complete_ok.
  - destruct (exchanges srv !! id) as [ex|] eqn:Hex; [|done]. cbn [mbind option_bind] in Hs.
    destruct (phase ex) eqn:Hp; [done| |done]. destruct (setup_action action) eqn:Ha; [|done].
    by apply (setup_advances_ok _ _ _ _ _ _ H Hex Hp Ha Hr) in Hs.
  - destruct (signer_action action) eqn:Ha; [|done].
    destruct (app_step (core srv) action) as [[sys reply]|] eqn:Hstep; [|done]. injection Hs as <- _.
    destruct (signer_step_core _ _ _ _ Ha Hstep). by apply core_ok.
  - destruct (tasks srv !! k) as [[id request]|] eqn:Hk; [|done]. cbn [mbind option_bind] in Hs.
    destruct (now env =? clock srv); [|done]. injection Hs as E. apply (f_equal fst) in E. cbn in E. subst srv'.
    by eapply task_ends_ok.
  - destruct (exchanges srv !! id) as [ex|] eqn:Hex; [|done]. cbn [mbind option_bind] in Hs.
    destruct (timer_fired _ _ _); [|done]. injection Hs as <- _. by apply drop_exchange_ok.
  - destruct (exchanges srv !! id) as [ex|] eqn:Hex; [|done]. injection Hs as <- _. by apply drop_exchange_ok.
  - destruct (N.leb_spec (clock srv) t) as [Hle|]; [|done]. injection Hs as <- _.
    destruct H as [H1 H2 H3 H4 H5 H6 H7 H8 H9]. split; cbn; try done. intros i x Hx. apply H3 in Hx. lia.
Qed.

Lemma serves_ok d srv outs srv' : serves d srv outs srv' -> server_ok srv -> server_ok srv'.
Proof. induction 1; eauto using server_step_ok. Qed.

(* ------------------------------------------------------------------ *)
(** ** Turns *)

(** What a step does to the exchanges: one enters, one is shed, one ends with
    its outcome, or none of these. *)
Inductive turn (srv : Server) (stimulus : Stimulus) (srv' : Server) : list (N * Outcome) -> Prop :=
| turn_enter ex method path :
    stimulus = Arrive method path -> dispatch method path = Some (route ex) ->
    exchanges srv' = <[next_exchange srv := ex]> (exchanges srv) -> next_exchange srv' = next_exchange srv + 1 ->
    started ex = clock srv' -> turn srv stimulus srv' []
| turn_shed outcome :
    exchanges srv' = exchanges srv -> next_exchange srv' = next_exchange srv + 1 ->
    turn srv stimulus srv' [(next_exchange srv, outcome)]
| turn_suspend id ex ex' :
    exchanges srv !! id = Some ex -> exchanges srv' = <[id := ex']> (exchanges srv) -> route ex' = route ex -> started ex' = started ex ->
    next_exchange srv' = next_exchange srv -> turn srv stimulus srv' []
| turn_end id ex outcome :
    exchanges srv !! id = Some ex -> exchanges srv' = delete id (exchanges srv) ->
    next_exchange srv' = next_exchange srv -> turn srv stimulus srv' [(id, outcome)]
| turn_idle :
    exchanges srv' = exchanges srv -> next_exchange srv' = next_exchange srv -> turn srv stimulus srv' [].

Lemma turn_conclude srv stimulus srv1 id ex outcome :
  exchanges srv !! id = Some ex -> exchanges srv1 = exchanges srv -> next_exchange srv1 = next_exchange srv ->
  turn srv stimulus (conclude srv1 id) [(id, outcome)].
Proof.
  intros Hex E1 E2. apply (turn_end _ _ _ id ex); [done|..]; unfold conclude; rewrite E1, Hex; cbn; by rewrite ?E1, ?E2.
Qed.

Lemma step_turn d srv stimulus srv' out : server_step d srv stimulus = Some (srv', out) -> turn srv stimulus srv' out.
Proof.
  destruct stimulus as [m p|id body env|id action|action|k env|id|id|t]; cbn [server_step].
  - destruct (dispatch m p) as [r|] eqn:Hr; [|done]. cbn. unfold arrive. destruct (poll_ready _); intros [= <- <-].
    + by apply (turn_enter _ _ _ {| route := r; started := clock srv; phase := Extracting |} m p).
    + by apply turn_shed.
  - destruct (exchanges srv !! id) as [ex|] eqn:Hex; [|done]. cbn [mbind option_bind]. destruct (phase ex); [|done..].
    destruct (now env =? clock srv); [|done]. intros [= H]. unfold body_complete in H.
    destruct (extract (route ex) body) as [input|e|w]; [|injection H as <- <-; by apply (turn_conclude _ _ _ _ ex)..].
    destruct (begin_handler (core srv) env input) as [[sys progress] spawned].
    destruct progress; injection H as <- <-; [by apply (turn_conclude _ _ _ _ ex)|by eapply turn_suspend].
  - destruct (exchanges srv !! id) as [ex|] eqn:Hex; [|done]. cbn [mbind option_bind]. destruct (phase ex); [done| |done].
    destruct (setup_action action); [|done]. unfold setup_advances.
    destruct (app_step (core srv) action) as [[sys reply]|]; [|done]. cbn.
    destruct reply; intros [= <- <-]; [by apply (turn_conclude _ _ _ _ ex)|by apply turn_idle].
  - destruct (signer_action action); [|done]. destruct (app_step (core srv) action) as [[sys reply]|]; [|done].
    intros [= <- <-]. by apply turn_idle.
  - destruct (tasks srv !! k) as [[id request]|]; [|done]. cbn [mbind option_bind].
    destruct (now env =? clock srv); [|done]. intros [= H]. unfold task_ends in H.
    destruct (ark_prepare_run (app (core srv)) env request) as [r st]. cbn [exchanges with_tasks with_core] in H.
    destruct (exchanges srv !! id) as [ex|] eqn:Hex; injection H as <- <-; [by apply (turn_conclude _ _ _ _ ex)|by apply turn_idle].
  - destruct (exchanges srv !! id) as [ex|] eqn:Hex; [|done]. cbn [mbind option_bind]. destruct (timer_fired _ _ _); [|done].
    intros [= <- <-]. by apply (turn_conclude _ _ _ _ ex).
  - destruct (exchanges srv !! id) as [ex|] eqn:Hex; [|done]. intros [= <- <-]. by apply (turn_conclude _ _ _ _ ex).
  - destruct (clock srv <=? t); [|done]. intros [= <- <-]. by apply turn_idle.
Qed.

(* ------------------------------------------------------------------ *)
(** ** Endless executions *)

Section Endless.
  Context (d : N).

(** An execution that goes on, with what each step emits. *)
Record execution := {
  at_step : nat -> Server;
  stimulus_at : nat -> Stimulus;
  emitted : nat -> list (N * Outcome);
  execution_step n : server_step d (at_step n) (stimulus_at n) = Some (at_step (S n), emitted n);
}.

(** Time goes on, and the runtime does not forget a timer for ever: the deadline
    of a request fires unless it is infinitely often not due. *)
Record fair (x : execution) : Prop := {
  time_diverges n T : exists m, (n <= m)%nat /\ T <= clock (at_step x m);
  deadline_fires n id : exists m, (n <= m)%nat /\
    (stimulus_at x m = Deadline id \/ server_step d (at_step x m) (Deadline id) = None);
}.

Context (x : execution) (Hstart : server_ok (at_step x 0)).

Lemma at_step_ok n : server_ok (at_step x n).
Proof. induction n as [|n IH]; [done|]. eapply server_step_ok; [exact IH|apply execution_step]. Qed.

Lemma clock_step srv stimulus srv' out : server_step d srv stimulus = Some (srv', out) -> clock srv <= clock srv'.
Proof.
  assert (forall srv id, clock (conclude srv id) = clock srv) as Hc
    by (intros s i; unfold conclude; by destruct (exchanges s !! i)).
  destruct stimulus as [m p|id body env|id action|action|k env|id|id|t]; cbn [server_step].
  - destruct (dispatch m p) as [r|]; [|done]. cbn. unfold arrive. by destruct (poll_ready _); intros [= <- _].
  - destruct (exchanges srv !! id) as [ex|]; [|done]. cbn [mbind option_bind]. destruct (phase ex); [|done..].
    destruct (now env =? clock srv); [|done]. intros [= H]. unfold body_complete in H.
    destruct (extract (route ex) body) as [input|e|w]; [|injection H as <- _; by rewrite Hc..].
    destruct (begin_handler (core srv) env input) as [[sys progress] spawned].
    destruct progress; injection H as <- _; by rewrite ?Hc.
  - destruct (exchanges srv !! id) as [ex|]; [|done]. cbn [mbind option_bind]. destruct (phase ex); [done| |done].
    destruct (setup_action action); [|done]. unfold setup_advances.
    destruct (app_step (core srv) action) as [[sys reply]|]; [|done]. cbn. destruct reply; intros [= <- _]; by rewrite ?Hc.
  - destruct (signer_action action); [|done]. by destruct (app_step (core srv) action) as [[sys reply]|]; intros [= <- _].
  - destruct (tasks srv !! k) as [[id request]|]; [|done]. cbn [mbind option_bind].
    destruct (now env =? clock srv); [|done]. intros [= H]. unfold task_ends in H.
    destruct (ark_prepare_run (app (core srv)) env request) as [r st]. cbn [exchanges with_tasks with_core] in H.
    destruct (exchanges srv !! id) as [ex|]; injection H as <- _; by rewrite ?Hc.
  - destruct (exchanges srv !! id) as [ex|]; [|done]. cbn [mbind option_bind]. destruct (timer_fired _ _ _); [|done].
    intros [= <- _]. unfold drop_exchange. by rewrite Hc.
  - destruct (exchanges srv !! id) as [ex|]; [|done]. intros [= <- _]. unfold drop_exchange. by rewrite Hc.
  - destruct (N.leb_spec (clock srv) t); [|done]. by intros [= <- _].
Qed.

Lemma clock_mono n m : (n <= m)%nat -> clock (at_step x n) <= clock (at_step x m).
Proof. induction 1 as [|m _ IH]; [done|]. pose proof (clock_step _ _ _ _ (execution_step x m)). lia. Qed.

(** In a step a request stays in flight since the same moment, or ends. *)
Lemma step_keeps n id ex :
  exchanges (at_step x n) !! id = Some ex ->
  (exists ex', exchanges (at_step x (S n)) !! id = Some ex' /\ started ex' = started ex /\ route ex' = route ex) \/
  (exists outcome, (id, outcome) ∈ emitted x n) /\ exchanges (at_step x (S n)) !! id = None.
Proof.
  intros Hex. pose proof (ok_ids _ (at_step_ok n) _ _ Hex) as Hid.
  destruct (step_turn _ _ _ _ _ (execution_step x n)) as [e m p _ _ E _ _|o E _|i e e' He E Hr Hs _|i e o He E _|E _]; rewrite E.
  - left. exists ex. split; [|done]. rewrite lookup_insert_ne; [done|lia].
  - left. by exists ex.
  - left. destruct (decide (i = id)) as [->|Hne]; [|exists ex; by rewrite lookup_insert_ne].
    rewrite Hex in He. injection He as <-. exists e'. by rewrite lookup_insert_eq.
  - destruct (decide (i = id)) as [->|Hne]; [right|left; exists ex; by rewrite lookup_delete_ne].
    split; [exists o; by left|apply lookup_delete_eq].
  - left. by exists ex.
Qed.

(** Later it is still in flight, or has its outcome. *)
Lemma keeps n m id ex :
  (n <= m)%nat -> exchanges (at_step x n) !! id = Some ex ->
  (exists ex', exchanges (at_step x m) !! id = Some ex' /\ started ex' = started ex) \/
  (exists k outcome, (n <= k < m)%nat /\ (id, outcome) ∈ emitted x k).
Proof.
  intros Hle Hex. induction Hle as [|m Hle [(ex' & Hex' & Hs)|(k & o & Hk & Ho)]].
  - left. by exists ex.
  - destruct (step_keeps _ _ _ Hex') as [(ex'' & Hex'' & Hs' & _)|[[o Ho] _]].
    + left. exists ex''. split; [done|congruence].
    + right. exists m, o. split; [lia|done].
  - right. exists k, o. split; [lia|done].
Qed.

(** A number is used once. *)
Lemma gone n m id :
  (n <= m)%nat -> id < next_exchange (at_step x n) -> exchanges (at_step x n) !! id = None ->
  exchanges (at_step x m) !! id = None.
Proof.
  intros Hle Hid Hn. assert (id < next_exchange (at_step x m) /\ exchanges (at_step x m) !! id = None) as [_ H]; [|exact H].
  induction Hle as [|m _ [IH1 IH2]]; [done|].
  destruct (step_turn _ _ _ _ _ (execution_step x m)) as [e me p _ _ E E' _|o E E'|i e e' He E _ _ E'|i e o He E E'|E E']; rewrite E, E';
    (split; [lia|]).
  - rewrite lookup_insert_ne; [done|lia].
  - done.
  - rewrite lookup_insert_ne; [done|]. intros ->. by rewrite IH2 in He.
  - by apply lookup_delete_None; right.
  - done.
Qed.

Context (Hfair : fair x).

(** Every request in flight gets its outcome, *)
Lemma request_ends n id ex :
  exchanges (at_step x n) !! id = Some ex ->
  exists m, (n <= m)%nat /\ (exists outcome, (id, outcome) ∈ emitted x m) /\
    forall k, (m < k)%nat -> exchanges (at_step x k) !! id = None.
Proof.
  intros Hex. assert (exists m outcome, (n <= m)%nat /\ (id, outcome) ∈ emitted x m) as (m & o & Hm & Ho).
  { destruct (time_diverges x Hfair n (started ex + d)) as (m & Hnm & HT).
    destruct (deadline_fires x Hfair m id) as (k & Hmk & Hk).
    destruct (keeps n k id ex) as [(ex' & Hex' & Hs)|(j & o & Hj & Ho)]; [lia|done| |exists j, o; split; [lia|done]].
    pose proof (clock_mono m k Hmk). destruct Hk as [Hk|Hk]; cbn [server_step] in Hk.
    - pose proof (execution_step x k) as Hs'. rewrite Hk in Hs'. cbn [server_step] in Hs'. rewrite Hex' in Hs'. cbn in Hs'.
      destruct (timer_fired d (started ex') (clock (at_step x k))); [|done]. injection Hs' as _ He.
      exists k. rewrite <- He. eexists. split; [lia|by left].
    - rewrite Hex' in Hk. cbn in Hk. rewrite (proj2 (fired d (started ex') (clock (at_step x k)))) in Hk; [done|]. lia. }
  exists m. split; [done|]. split; [by exists o|]. intros k Hk.
  destruct (step_turn _ _ _ _ _ (execution_step x m)) as [| o' E E'| |i e o' He E E'|]; try (by apply not_elem_of_nil in Ho);
    apply list_elem_of_singleton in Ho as [= -> <-].
  - pose proof (ok_ids _ (at_step_ok n) _ _ Hex) as Hid. exfalso.
    assert (next_exchange (at_step x n) <= next_exchange (at_step x m)); [|lia]. clear -Hm Hstart.
    induction Hm as [|m _ IH]; [done|].
    destruct (step_turn _ _ _ _ _ (execution_step x m)); lia.
  - apply (gone (S m)); [lia| |by rewrite E, lookup_delete_eq]. rewrite E'. by eapply ok_ids; [apply at_step_ok|].
Qed.

(** and there is a moment when all that are in flight now have it. *)
Lemma requests_end n :
  exists m, (n <= m)%nat /\ forall id, is_Some (exchanges (at_step x n) !! id) ->
    forall k, (m <= k)%nat -> exchanges (at_step x k) !! id = None.
Proof.
  assert (forall l : list (N * Exchange), (forall id ex, (id, ex) ∈ l -> exchanges (at_step x n) !! id = Some ex) ->
    exists m, (n <= m)%nat /\ forall id ex, (id, ex) ∈ l -> forall k, (m <= k)%nat -> exchanges (at_step x k) !! id = None) as H.
  { induction l as [|[i e] l IH]; intros Hl; [exists n; split; [done|]; intros id ex Hi; by apply not_elem_of_nil in Hi|].
    destruct IH as (m & Hm & Hm'); [intros id ex Hi; apply Hl, elem_of_cons; by right|].
    destruct (request_ends n i e) as (j & Hj & _ & Hj'); [apply Hl, elem_of_cons; by left|].
    exists (m `max` S j)%nat. split; [lia|]. intros id ex [[= -> ->]|Hi]%elem_of_cons k Hk; [apply Hj'; lia|].
    eapply Hm'; [done|lia]. }
  destruct (H (map_to_list (exchanges (at_step x n)))) as (m & Hm & Hm'); [by intros id ex Hi; apply elem_of_map_to_list|].
  exists m. split; [done|]. intros id [ex Hex]. eapply Hm'. by apply elem_of_map_to_list.
Qed.

(** A route that admits nothing from [n] on. *)
Definition quiet (h : Handler) (n : nat) : Prop :=
  forall k method path r, (n <= k)%nat -> stimulus_at x k = Arrive method path -> dispatch method path = Some r ->
    route_handler r <> h.

(** Its requests were in flight then. *)
Lemma quiet_old h n m id ex :
  quiet h n -> (n <= m)%nat -> exchanges (at_step x m) !! id = Some ex -> route_handler (route ex) = h ->
  is_Some (exchanges (at_step x n) !! id).
Proof.
  intros Hq Hle. revert id ex. induction Hle as [|m Hle IH]; intros id ex Hex Hh; [by exists ex|].
  destruct (step_turn _ _ _ _ _ (execution_step x m)) as [e me p Hst Hd E _ _|o E _|i e e' He E Hr _ _|i e o He E _|E _];
    rewrite E in Hex.
  - apply lookup_insert_Some in Hex as [[<- <-]|[_ Hex]]; [|by eapply IH]. by destruct (Hq m me p _ Hle Hst Hd).
  - by eapply IH.
  - apply lookup_insert_Some in Hex as [[<- <-]|[_ Hex]]; [|by eapply IH]. eapply IH; [exact He|congruence].
  - apply lookup_delete_Some in Hex as [_ Hex]. by eapply IH.
  - by eapply IH.
Qed.

End Endless.

(** A request is admitted where a permit of its route is free. *)
Lemma route_admitted d srv method path r :
  dispatch method path = Some r -> permits (limits srv (route_handler r)) <> 0 ->
  exists l, poll_ready (limits srv (route_handler r)) = Some l /\
    server_step d srv (Arrive method path) = Some
      ({| core := core srv; limits := set_limit (limits srv) (route_handler r) l;
          exchanges := <[next_exchange srv := {| route := r; started := clock srv; phase := Extracting |}]> (exchanges srv);
          next_exchange := next_exchange srv + 1; tasks := tasks srv; clock := clock srv |}, []).
Proof.
  intros Hd Hp. destruct (poll_ready (limits srv (route_handler r))) as [l|] eqn:Hl; [|by apply ready_none in Hl].
  exists l. split; [done|]. cbn [server_step]. rewrite Hd. cbn [mbind option_bind]. unfold arrive. by rewrite Hl.
Qed.

End Admission.

(* ------------------------------------------------------------------ *)
(** ** Properties *)

Section Theorems.
  Context {sapio : SapioProgram} {prim : KeyPrimitives} {upstream : Upstream} {ark : ArkLib}.
  Context {requests : ArkRequests} {applib : AppLib} {driver : NsmDriver}.
  Context {runtime : WasmRuntime} {outpoint_codec : OutPointCodec} {auth : NativeAuth}.
  Context {codec : PolicyCodec VtxoPolicy} {tower : Tower} {tower_laws : TowerLaws} {axum : Axum}.

(** C25: admission control: in every execution of the server at most sixteen
    requests are in flight on a route, the rest of its permits are free however
    the earlier requests ended, and a request is shed with 503 exactly when
    sixteen are in flight. *)
Theorem sheds_iff_full d nsm_ t outs srv r :
  serves d (serving (initial nsm_) t) outs srv ->
  let h := route_handler r in
  in_flight h srv <= 16 /\ permits (limits srv h) + in_flight h srv = 16 /\
  (in_flight h srv = 16 <->
     snd (arrive srv r) = [(next_exchange srv, Responded 503 (lit "API capacity exceeded"))]) /\
  (in_flight h srv < 16 <->
     exchanges (fst (arrive srv r)) !! next_exchange srv =
       Some {| route := r; started := clock srv; phase := Extracting |}).
Proof.
  intros Hs h. pose proof (serves_ok _ _ _ _ Hs (serving_ok nsm_ t)) as H.
  pose proof (ok_slots _ H h) as Hp. unfold CONCURRENCY_LIMIT in Hp.
  assert (exchanges srv !! next_exchange srv = None) as Hf.
  { destruct (exchanges srv !! next_exchange srv) as [x|] eqn:Hx; [|done]. apply (ok_ids _ H) in Hx. lia. }
  split; [lia|]. split; [done|]. unfold arrive. pose proof (ready_none (limits srv h)) as Hn. unfold h in *.
  destruct (poll_ready (limits srv (route_handler r))) as [l|] eqn:Hl; cbn [fst snd exchanges].
  - apply ready_some in Hl. rewrite lookup_insert_eq. split; [split; [lia|done]|split; [done|lia]].
  - rewrite (proj1 Hn eq_refl) in Hp. rewrite Hf. split; [split; [done|lia]|split; [lia|done]].
Qed.

(** C23: the request layers refine the application: whatever requests arrive,
    time out or disconnect, the core is reached by actions of the application's
    own transition system, so that what holds of its executions holds of the
    service; a setup in progress belongs to exactly one request, and the
    evaluations that hold a permit are the blocking tasks. *)
Theorem service_refines_app d nsm_ t outs srv :
  serves d (serving (initial nsm_) t) outs srv ->
  (exists actions replies, app_run (initial nsm_) actions = Some (core srv, replies)) /\
  (is_Some (setup_task (core srv)) <-> exists id ex, exchanges srv !! id = Some ex /\ phase ex = OnSetup) /\
  (forall i j ei ej, exchanges srv !! i = Some ei -> exchanges srv !! j = Some ej ->
     phase ei = OnSetup -> phase ej = OnSetup -> i = j) /\
  evaluating (core srv) = len (tasks srv).
Proof.
  intros Hs. pose proof (serves_ok _ _ _ _ Hs (serving_ok nsm_ t)) as H. pose proof (ok_setup _ H) as Hw.
  split; [|split; [|split; [|apply H]]].
  - clear H Hw. induction Hs as [|outs srv1 stimulus out srv2 Hs (acts & rs & IH) Hstep]; [by exists [], []|].
    pose proof (serves_ok _ _ _ _ Hs (serving_ok nsm_ t)) as H.
    destruct (server_step_simulates _ _ _ _ _ (ok_evaluating _ H) Hstep) as [rs' Hr].
    exists (acts ++ core_actions srv1 stimulus), (rs ++ rs'). by apply (app_run_app _ _ (core srv1)).
  - unfold busy in Hw. split.
    + intros [task E]. rewrite E in Hw. apply (count_some waits_setup). lia.
    + intros (id & ex & Hex & Hp). pose proof (count_nonzero waits_setup _ _ _ Hex Hp).
      destruct (setup_task (core srv)); [done|lia].
  - intros i j ei ej Hi Hj Hpi Hpj. destruct (decide (i = j)) as [|Hne]; [done|]. exfalso.
    rewrite (count_delete waits_setup _ _ _ Hi), decide_True in Hw by done.
    assert (delete i (exchanges srv) !! j = Some ej) as Hj' by by rewrite lookup_delete_ne.
    pose proof (count_nonzero waits_setup _ _ _ Hj' Hpj). unfold busy in Hw. destruct (setup_task (core srv)); lia.
Qed.

(** C24: no client can pin a route: in every endless execution of the server in
    which time goes on and the runtime keeps firing due timers, each request in
    flight gets its outcome, and once a route admits no new request there is a
    moment from which all of its sixteen permits are free. *)
Theorem no_client_pins_a_route d nsm_ t (x : execution d) h n :
  at_step d x 0 = serving (initial nsm_) t -> fair d x ->
  (forall id ex, exchanges (at_step d x n) !! id = Some ex ->
     exists m, (n <= m)%nat /\ (exists outcome, (id, outcome) ∈ emitted d x m) /\
       forall k, (m < k)%nat -> exchanges (at_step d x k) !! id = None) /\
  (quiet d x h n -> exists m, (n <= m)%nat /\
     forall k, (m <= k)%nat -> permits (limits (at_step d x k) h) = 16).
Proof.
  intros H0 Hf. assert (server_ok (at_step d x 0)) as Hok by (rewrite H0; apply serving_ok). split.
  - intros id ex. by apply request_ends.
  - intros Hq. destruct (requests_end d x Hok Hf n) as (m & Hm & Hend). exists m. split; [done|]. intros k Hk.
    pose proof (ok_slots _ (at_step_ok d x Hok k) h) as Hs. unfold CONCURRENCY_LIMIT in Hs.
    enough (in_flight h (at_step d x k) = 0) by lia. apply count_none. intros i e He Hr.
    assert (is_Some (exchanges (at_step d x n) !! i)) as Hi by (eapply quiet_old; [exact Hq| |exact He|exact Hr]; lia).
    by rewrite (Hend _ Hi k Hk) in He.
Qed.

(** C26: the deadline races an evaluation without cancelling it: when the
    deadline of a request that waits for its evaluation fires, the client is
    answered 408 and the route's permit is free, the evaluation and its permit
    stay, and when it ends it leaves the signer as [prepare] does, with the
    session reserved until its own expiry and nobody answered. *)
Theorem timed_out_prepare_retained d nsm_ t outs srv id ex srv' out :
  serves d (serving (initial nsm_) t) outs srv ->
  exchanges srv !! id = Some ex -> phase ex = OnPrepare ->
  server_step d srv (Deadline id) = Some (srv', out) ->
  out = [(id, Responded 408 (lit "request deadline exceeded"))] /\
  permits (limits srv' (route_handler (route ex))) = permits (limits srv (route_handler (route ex))) + 1 /\
  core srv' = core srv /\
  exists k request signer, tasks srv' !! k = Some (id, request) /\ ark_signer (app (core srv')) = Some signer /\
    forall env, now env = clock srv' -> exists srv2,
      server_step d srv' (TaskRuns k env) = Some (srv2, []) /\
      ark_signer (app (core srv2)) = Some (snd (prepare signer env request)) /\
      ark_admission (app (core srv2)) = ark_admission (app (core srv')) + 1.
Proof.
  intros Hserve Hex Hp Hs. pose proof (serves_ok _ _ _ _ Hserve (serving_ok nsm_ t)) as H.
  assert (exists k request, tasks srv !! k = Some (id, request)) as (k & request & Hk).
  { apply (ok_waiting _ H _ _ Hex), list_elem_of_fmap in Hp as ([i request] & -> & Hi).
    apply list_elem_of_lookup in Hi as [k Hk]. by exists k, request. }
  assert (is_Some (ark_signer (app (core srv)))) as [signer Hsig].
  { apply (inv_evaluating _ (reachable_invariant _ (ok_core _ H))). rewrite (ok_evaluating _ H).
    apply lookup_lt_Some in Hk. unfold len. lia. }
  cbn [server_step] in Hs. rewrite Hex in Hs. cbn [mbind option_bind] in Hs.
  destruct (timer_fired _ _ _); [|done]. injection Hs as <- <-. split; [done|].
  unfold drop_exchange, conclude. rewrite Hp. cbn [drop_handler exchanges with_core]. rewrite Hex.
  cbn [limits core tasks clock with_core exchanges]. split; [by rewrite set_limit_eq, permits_drop|]. split; [done|].
  exists k, request, signer. do 2 (split; [done|]).
  intros env Hnow. cbn [server_step tasks clock]. rewrite Hk. cbn [mbind option_bind]. rewrite Hnow, N.eqb_refl.
  unfold task_ends. cbn [core]. unfold ark_prepare_run. rewrite Hsig.
  destruct (prepare signer env request) as [r s']. cbn [exchanges with_tasks with_core]. rewrite lookup_delete_eq.
  eexists. by split.
Qed.

End Theorems.
