(* ===== verification/ServiceContract.v ===== *)
(** * ServiceContract: the signing contract over HTTP (src/app.rs, src/ark_signer.rs)

    Composition of [Service], [App], [ArkSigner] and [Contract]: the Ark
    operations that the requests of an execution cause are a trace of the
    signer of the published root, so a partial signature that leaves the service
    redeems a grant that an earlier evaluation of the same service made. *)

From S2P Require Import Prelude Bytes NativePolicy Bitcoin Program SignedView Evaluator Keys Deployment ArkSigner Contract.
From S2P Require Import SignerContract Nsm App Service Admission.

Open Scope N_scope.

Section Trace.
  Context {sapio : SapioProgram} {prim : KeyPrimitives} {upstream : Upstream} {ark : ArkLib}.
  Context {requests : ArkRequests} {applib : AppLib} {driver : NsmDriver}.
  Context {runtime : WasmRuntime} {outpoint_codec : OutPointCodec} {auth : NativeAuth}.
  Context {codec : PolicyCodec VtxoPolicy} {tower : Tower} {tower_laws : TowerLaws} {axum : Axum}.

(** [cancel] reads no clock and draws nothing. *)
Definition no_env : Env := {| now := 0; nonce_randomness := []; session_ids := [] |}.

(** The Ark operation an action performs on the signer. *)
Definition ark_call (action : Action) : option (Env * Call) :=
  match action with
  | PrepareRuns env request => Some (env, Prepare request)
  | FinishCall env request => Some (env, Finish request)
  | CancelCall request => Some (no_env, Cancel request)
  | _ => None
  end.

Definition ark_events (sys : System) (action : Action) : list Event :=
  match ark_call action, ark_signer (app sys) with
  | Some (env, call), Some signer =>
      [{| event_before := signer; event_env := env; event_call := call; event_reply := fst (step signer env call) |}]
  | _, _ => []
  end.

Fixpoint ark_trace (sys : System) (actions : list Action) : list Event :=
  match actions with
  | [] => []
  | action :: actions =>
      match app_step sys action with
      | Some (sys', _) => ark_events sys action ++ ark_trace sys' actions
      | None => []
      end
  end.

(** Executions of the server with the Ark operations they perform. *)
Inductive signs (d : N) (srv : Server) : list Event -> Server -> Prop :=
| signs_start : signs d srv [] srv
| signs_next events srv1 stimulus srv2 out :
    signs d srv events srv1 -> server_step d srv1 stimulus = Some (srv2, out) ->
    signs d srv (events ++ ark_trace (core srv1) (core_actions srv1 stimulus)) srv2.

(** The trace so far is the execution of the published signer. *)
Definition published_trace (sys : System) (events : list Event) : Prop :=
  match ark_signer (app sys) with
  | None => events = []
  | Some signer => exists b calls, consistent b /\ identity (app sys) = Some (b_identity b) /\
      run (b_signer b) calls = (events, signer)
  end.

Lemma run_snoc self calls events s1 env call reply s2 :
  run self calls = (events, s1) -> step s1 env call = (reply, s2) ->
  run self (calls ++ [(env, call)]) =
    (events ++ [{| event_before := s1; event_env := env; event_call := call; event_reply := reply |}], s2).
Proof.
  revert self events; induction calls as [|[env' call'] calls IH]; intros self events Hr Hs; cbn [run Datatypes.app] in *.
  - injection Hr as <- <-. by rewrite Hs.
  - destruct (step self env' call') as [reply' self']. destruct (run self' calls) as [es f] eqn:Hrun.
    injection Hr as <- <-. by rewrite (IH self' es Hrun Hs).
Qed.

(** The signer after an action that performs an operation. *)
Lemma ark_call_signer sys action sys' reply env call signer :
  app_step sys action = Some (sys', reply) -> ark_call action = Some (env, call) ->
  reachable sys -> ark_signer (app sys) = Some signer ->
  ark_signer (app sys') = Some (snd (step signer env call)) /\ identity (app sys') = identity (app sys).
Proof.
  intros Hs Hc Hr Hsig.
  assert (get_ark_signer (app sys) = Ok signer) as Hget.
  { apply get_ark_signer_ok. split; [|done]. pose proof (inv_both _ (reachable_invariant _ Hr)) as Hb.
    apply not_eq_None_Some. intros Hn. rewrite (Hb Hn) in Hsig. done. }
  destruct action; try discriminate Hc; injection Hc as <- <-; cbn in Hs.
  - destruct (evaluating sys =? 0); [done|]. injection Hs as <- _. unfold ark_prepare_run. rewrite Hsig. cbn.
    by destruct (prepare signer env0 request).
  - injection Hs as <- _. unfold ark_finish. rewrite Hget. cbn. by destruct (finish signer env0 request).
  - injection Hs as <- _. unfold ark_cancel. rewrite Hget. cbn. by destruct (cancel signer request).
Qed.

(** Other actions leave the signer, or publish it. *)
Lemma other_action_signer sys action sys' reply :
  app_step sys action = Some (sys', reply) -> ark_call action = None -> reachable sys ->
  (ark_signer (app sys') = ark_signer (app sys) /\ identity (app sys') = identity (app sys)) \/
  (ark_signer (app sys) = None /\ exists b, consistent b /\ identity (app sys') = Some (b_identity b) /\
     ark_signer (app sys') = Some (b_signer b)).
Proof.
  intros Hs Hc Hr. pose proof (reachable_invariant _ Hr) as H.
  destruct action as [settings|send| | | | |result| | |env request|env request|request]; try discriminate Hc; cbn in Hs.
  - left. injection Hs as Hs. unfold setup_start in Hs. repeat case_match; by simplify_eq.
  - left. unfold setup_derived in Hs. repeat case_match; by simplify_eq.
  - destruct (setup_task sys) as [[|j signer i]|] eqn:Ht; try done. destruct (ready sys !! j) as [result|] eqn:Hj; [|done].
    injection Hs as Hs. unfold setup_ready in Hs. destruct result as [u|e|w]; [|left; by simplify_eq..]. right.
    pose proof (inv_idle _ H (ltac:(rewrite Ht; by eexists))) as Hid. pose proof (inv_both _ H Hid) as Hark.
    destruct (inv_task _ H _ _ _ Ht) as (_ & b & Hb & Hsig & Hident & _).
    unfold install_finish in Hs. rewrite Hark in Hs. cbn [once_set identity] in Hs. rewrite Hid in Hs. cbn [once_set] in Hs.
    injection Hs as <- _. split; [done|]. exists b. by subst.
  - left. repeat case_match; by simplify_eq.
  - left. repeat case_match; by simplify_eq.
  - left. repeat case_match; by simplify_eq.
  - left. repeat case_match; by simplify_eq.
  - left. repeat case_match; by simplify_eq.
  - left. unfold ark_prepare_admit in Hs. destruct (get_ark_signer (app sys)) as [signer|e|w] eqn:Hg; try done.
    apply get_ark_signer_ok in Hg as [_ Hg]. cbn in Hs. destruct (ark_admission (app sys) =? 0); [done|].
    injection Hs as <- _. cbn. by rewrite Hg.
Qed.

Lemma action_trace sys action sys' reply events :
  reachable sys -> app_step sys action = Some (sys', reply) -> published_trace sys events ->
  published_trace sys' (events ++ ark_events sys action).
Proof.
  intros Hr Hs Ht. unfold ark_events. destruct (ark_call action) as [[env call]|] eqn:Hc.
  - destruct (ark_signer (app sys)) as [signer|] eqn:Hsig; unfold published_trace in *; rewrite Hsig in Ht.
    + destruct (ark_call_signer _ _ _ _ _ _ _ Hs Hc Hr Hsig) as [-> ->]. destruct Ht as (b & calls & Hb & Hid & Hrun).
      exists b, (calls ++ [(env, call)]). do 2 (split; [done|]).
      destruct (step signer env call) as [rep s2] eqn:Hst. by apply (run_snoc _ _ _ _ _ _ _ _ Hrun Hst).
    + subst events. assert (ark_signer (app sys') = None) as ->; [|done].
      pose proof (reachable_invariant _ Hr) as H.
      destruct action; try discriminate Hc; cbn in Hs.
      * destruct (N.eqb_spec (evaluating sys) 0); [done|]. destruct (inv_evaluating _ H) as [s E]; [lia|]. congruence.
      * injection Hs as <- _. unfold ark_finish, get_ark_signer. rewrite Hsig. by destruct (identity (app sys)).
      * injection Hs as <- _. unfold ark_cancel, get_ark_signer. rewrite Hsig. by destruct (identity (app sys)).
  - rewrite app_nil_r. unfold published_trace in *.
    destruct (other_action_signer _ _ _ _ Hs Hc Hr) as [[-> ->]|[Hn (b & Hb & Hid & Hsig)]]; [done|].
    rewrite Hsig. rewrite Hn in Ht. subst events. by exists b, [].
Qed.

Lemma actions_trace actions sys sys' replies events :
  reachable sys -> app_run sys actions = Some (sys', replies) -> published_trace sys events ->
  published_trace sys' (events ++ ark_trace sys actions).
Proof.
  revert sys replies events; induction actions as [|a actions IH]; intros sys replies events Hr Hs Ht; cbn in *.
  - injection Hs as <- _. by rewrite app_nil_r.
  - destruct (app_step sys a) as [[sys1 reply]|] eqn:Hstep; [|done]. cbn in Hs.
    destruct (app_run sys1 actions) as [[sys2 rs]|] eqn:Hrun; [|done]. injection Hs as <- _.
    rewrite app_assoc. eapply IH; [|done|by eapply action_trace].
    eapply run_reachable; [exact Hr|by apply (app_run_one sys a sys1 reply)].
Qed.

Lemma signs_ok d srv events srv' :
  signs d srv events srv' -> server_ok srv -> published_trace (core srv) [] ->
  server_ok srv' /\ published_trace (core srv') events.
Proof.
  intros Hs Hok Ht. induction Hs as [|events srv1 stimulus srv2 out _ [IH1 IH2] Hstep]; [done|].
  split; [by eapply server_step_ok|].
  destruct (server_step_simulates _ _ _ _ _ (ok_evaluating _ IH1) Hstep) as [rs Hr].
  eapply actions_trace; [apply IH1|exact Hr|done].
Qed.

(** A successful answer of the finish handler is the signer's. *)
Lemma finish_answer sys env request st code share_body :
  into_outcome (fun a => (OK, finish_json a)) (fst (ark_finish (app sys) env request)) = Responded code share_body ->
  code = OK -> st = app sys ->
  exists signer response, ark_signer st = Some signer /\
    fst (finish signer env request) = Ok response /\ share_body = finish_json response.
Proof.
  intros H -> ->. unfold ark_finish in H.
  destruct (get_ark_signer (app sys)) as [signer|e|w] eqn:Hg; cbn in H.
  - apply get_ark_signer_ok in Hg as [_ Hg]. destruct (finish signer env request) as [[response|e|w] s'] eqn:Hf; cbn in H;
      try discriminate H. injection H as <-. exists signer, response. by rewrite Hf.
  - unfold get_ark_signer in Hg. destruct (identity (app sys)); [destruct (ark_signer (app sys))|]; cbn in Hg; simplify_eq; discriminate H.
  - done.
Qed.

(** A finish the service answers with 200 is one that the published signer
    accepts after the operations of the trace. *)
Lemma http_finish d nsm_ t events srv id ex body env request srv' share_body :
  signs d (serving (initial nsm_) t) events srv ->
  exchanges srv !! id = Some ex -> extract (route ex) body = Ok (FinishInput request) ->
  server_step d srv (Body id body env) = Some (srv', [(id, Responded OK share_body)]) ->
  exists b calls signer response, consistent b /\ identity (app (core srv)) = Some (b_identity b) /\
    run (b_signer b) calls = (events, signer) /\ fst (finish signer env request) = Ok response /\
    share_body = finish_json response /\ now env = clock srv.
Proof.
  intros Hs Hex Hin Hstep. destruct (signs_ok _ _ _ _ Hs (serving_ok nsm_ t) eq_refl) as [Hok Ht].
  cbn [server_step] in Hstep. rewrite Hex in Hstep. cbn [mbind option_bind] in Hstep. destruct (phase ex); [|done..].
  destruct (N.eqb_spec (now env) (clock srv)) as [Hnow|]; [|done]. injection Hstep as Hb.
  unfold body_complete in Hb. rewrite Hin in Hb. cbn [begin_handler] in Hb.
  destruct (ark_finish (app (core srv)) env request) as [r st] eqn:Hf. injection Hb as _ Hout.
  replace r with (fst (ark_finish (app (core srv)) env request)) in Hout by by rewrite Hf.
  destruct (finish_answer _ _ _ _ _ _ Hout eq_refl eq_refl) as (signer & response & Hsig & Hfin & ->).
  unfold published_trace in Ht. rewrite Hsig in Ht. destruct Ht as (b & calls & Hb & Hid & Hrun).
  by exists b, calls, signer, response.
Qed.

(** A session redeemed by the last operation of an execution of a fresh signer. *)
Lemma finish_redeems root_ self calls events signer env request response :
  ArkSigner_new root_ = Ok self -> run self calls = (events, signer) ->
  fst (finish signer env request) = Ok response ->
  exists pre e0 mid request0 response0 program randomness x,
    events = pre ++ e0 :: mid /\ event_call e0 = Prepare request0 /\ event_reply e0 = Prepared (Ok response0) /\
    response_session response0 = finish_session request /\
    response_program_nonce response0 = hex_encode (member_nonce_serialize (nonce_public (terms_nonce x))) /\
    check_request self request0 = Ok (program, terms_intent x, terms_user_nonce x) /\
    terms_program_id x = program_id program /\
    nonce_new (terms_intent x) (snd (members (terms_intent x))) randomness = Ok (terms_nonce x) /\
    Forall (fun e => consumes (event_call e) <> Some (finish_session request)) mid /\
    now env < now (event_env e0) + SESSION_LIFETIME /\ share_fulfils root_ x request response.
Proof.
  intros Hn Hr Hf. destruct (step signer env (Finish request)) as [reply s2] eqn:Hstep.
  pose proof (run_snoc _ _ _ _ _ _ _ _ Hr Hstep) as Hrun. cbn in Hstep.
  destruct (finish signer env request) as [result s']. cbn in Hf. subst result. injection Hstep as <- _.
  destruct (run_simulates self self _ _ _ (origin_refl self) Hrun) as [Hl _]. rewrite (new_ledger _ _ Hn) in Hl.
  rewrite fmap_app in Hl.
  destruct (lawful_share (contract := signer_contract self) _ _ [] (finish_session request) request response
    (ex_intro _ _ Hl) eq_refl eq_refl) as (tr & e0' & mid' & g & Htr & (r0 & Ha & Hans & He & Hd) & Hsp & Ht & Hful).
  apply (fmap_app_inv (entry_of self)) in Htr as (pre & rest & -> & Hrest & ->).
  destruct rest as [|e0 mid]; [discriminate Hrest|]. injection Hrest as E1 E2. subst e0' mid'.
  destruct He as (_ & program & randomness & Hc & Hid & Hnew).
  destruct e0 as [before env0 call0 reply0]. cbn in Ha, Hans, Hd, Ht. destruct call0 as [r0'| |]; try discriminate Ha.
  injection Ha as ->. destruct reply0 as [[response0|e|w]|[|e|w]|[|e|w]]; try discriminate Hans. injection Hans as Hs Hp.
  exists pre, {| event_before := before; event_env := env0; event_call := Prepare r0; event_reply := Prepared (Ok response0) |},
    mid, r0, response0, program, randomness, (terms g).
  repeat (split; [done|]). split; [|split; [rewrite Hd in Ht; exact Ht|]].
  - apply (Forall_fmap (entry_of self)) in Hsp. eapply list.Forall_impl; [exact Hsp|]. intros e [Hne _]. cbn in Hne.
    by destruct (event_call e).
  - apply new_empty in Hn as (_ & _ & <- & _). exact Hful.
Qed.

End Trace.

(* ------------------------------------------------------------------ *)
(** ** Properties *)

Section Theorems.
  Context {sapio : SapioProgram} {prim : KeyPrimitives} {upstream : Upstream} {ark : ArkLib}.
  Context {requests : ArkRequests} {applib : AppLib} {driver : NsmDriver}.
  Context {runtime : WasmRuntime} {outpoint_codec : OutPointCodec} {auth : NativeAuth}.
  Context {codec : PolicyCodec VtxoPolicy} {tower : Tower} {tower_laws : TowerLaws} {axum : Axum}.

(** C4: a share over HTTP: whenever the service answers a finish with 200, in
    any execution of its clients, deadlines and scheduler, the answer is a
    partial signature under the root of the published identity that redeems a
    session which an earlier evaluation of the same process reserved, for a
    request that passed every check of that signer, within its lifetime by the
    server's clock, and which no finish or cancel had named since. *)
Theorem http_share_authorized d nsm_ t events srv id ex body env request srv' share_body :
  signs d (serving (initial nsm_) t) events srv ->
  exchanges srv !! id = Some ex -> extract (route ex) body = Ok (FinishInput request) ->
  server_step d srv (Body id body env) = Some (srv', [(id, Responded OK share_body)]) ->
  exists b response pre e0 mid request0 response0 program randomness x,
    consistent b /\ identity (app (core srv)) = Some (b_identity b) /\ share_body = finish_json response /\
    events = pre ++ e0 :: mid /\ event_call e0 = Prepare request0 /\ event_reply e0 = Prepared (Ok response0) /\
    response_session response0 = finish_session request /\
    response_program_nonce response0 = hex_encode (member_nonce_serialize (nonce_public (terms_nonce x))) /\
    check_request (b_signer b) request0 = Ok (program, terms_intent x, terms_user_nonce x) /\
    terms_program_id x = program_id program /\
    nonce_new (terms_intent x) (snd (members (terms_intent x))) randomness = Ok (terms_nonce x) /\
    Forall (fun e => consumes (event_call e) <> Some (finish_session request)) mid /\
    clock srv < now (event_env e0) + SESSION_LIFETIME /\ share_fulfils (b_root b) x request response.
Proof.
  intros Hs Hex Hin Hstep.
  destruct (http_finish _ _ _ _ _ _ _ _ _ _ _ _ Hs Hex Hin Hstep) as (b & calls & signer & response & Hb & Hid & Hrun & Hfin & -> & Hnow).
  pose proof Hb as (_ & _ & Hnew & _).
  destruct (finish_redeems _ _ _ _ _ _ _ _ Hnew Hrun Hfin) as (pre & e0 & mid & request0 & response0 & program & rnd & x & H).
  exists b, response, pre, e0, mid, request0, response0, program, rnd, x. rewrite <- Hnow. tauto.
Qed.

End Theorems.
