(* ===== verification/VaultService.v ===== *)
(** * VaultService: what the vault guarantees to a client of the service

    The composition of the whole stack, from the router of src/app.rs through
    the signer, the evaluator and the guest adapter to the rule of
    examples/vault/predicate.rs: a share that leaves the service for a vault
    spend signs a transaction that keeps the vault's promise. *)

From S2P Require Import Prelude Bytes NativePolicy Bitcoin Program SignedView Guest Vault Evaluator GuestRuntime EndToEnd.
From S2P Require Import Keys Deployment ArkSigner Contract SignerContract Nsm App Service Admission ServiceContract.

Open Scope N_scope.

Section Lemmas.
  Context {outpoint_codec : OutPointCodec} {codec_laws : OutPointCodecLaws} {auth : NativeAuth}.
  Context {sapio : SapioProgram} {sapio_laws : SapioProgramLaws}.
  Context {prim : KeyPrimitives} {upstream : Upstream} {ark : ArkLib} {requests : ArkRequests}.
  Context {codec : PolicyCodec VtxoPolicy}.

(** The rule of the vault, spelled out. *)
Lemma vault_allows_rule max_fee destination input :
  vault_allows max_fee destination input = true -> exists spent paid,
    prevout_list input = [spent] /\ tx_output (unsigned_tx (psbt input)) = [paid] /\
    script_pubkey paid = destination /\ 330 <= value paid <= value spent /\ value spent - value paid <= max_fee.
Proof.
  unfold vault_allows. destruct (prevout_list input) as [|spent [|]]; try discriminate.
  destruct (tx_output (unsigned_tx (psbt input))) as [|paid [|]]; try discriminate.
  rewrite !andb_true_iff, bool_decide_eq_true, !N.leb_le. intros (((Hd & H1) & H2) & H3).
  by exists spent, paid.
Qed.

(** A spend request under a vault program that passed the checks of the signer. *)
Lemma vault_request_sound arena_base sections module self request program intent user_nonce max_fee destination spend :
  linked arena_base sections (fun _ => vault_evaluate) module ->
  max_fee < 2 ^ 64 -> 12 + len destination <= MAX_PARAMETER_BYTES ->
  vault_instance module max_fee destination = Ok program ->
  check_request (runtime := guest_runtime arena_base sections (fun _ => vault_evaluate)) self request
    = Ok (program, intent, user_nonce) ->
  prepare_action request = Spend spend ->
  exists input, spend_signing_input spend (prepare_key request) = Ok input /\
    (native_context input -> sighash input = Ok (intent_message intent) /\ vault_allows max_fee destination input = true).
Proof.
  intros Hlink Hfee Hdest Hinst Hc Hact. apply check_request_inv in Hc as (_ & [_ (policy & _ & _ & Ha)] & _).
  rewrite Hact in Ha. apply authorize_action_ok in Ha as (input & Hin & Ha). exists input. split; [done|]. intros Hn.
  unfold vault_instance in Hinst. apply bind_ok in Hinst as (ps & Hps & Hinst).
  apply program_instance_wasm_ok in Hinst as ->. eapply vault_authorized; [exact Hlink| |exact Hn|exact Ha].
  unfold MAX_PARAMETER_BYTES in Hdest. apply read_parameters_encoded; (done || lia).
Qed.

End Lemmas.

(* ------------------------------------------------------------------ *)
(** ** Properties *)

Section Theorems.
  Context {outpoint_codec : OutPointCodec} {codec_laws : OutPointCodecLaws} {auth : NativeAuth}.
  Context {sapio : SapioProgram} {sapio_laws : SapioProgramLaws}.
  Context {prim : KeyPrimitives} {upstream : Upstream} {ark : ArkLib} {requests : ArkRequests}.
  Context {codec : PolicyCodec VtxoPolicy} {applib : AppLib} {driver : NsmDriver}.
  Context {tower : Tower} {tower_laws : TowerLaws} {axum : Axum}.

(** C5: the vault over HTTP: on an enclave that runs the vault module, a finish
    that the service answers with 200 for a spend of a vault program carries
    the program's share of a session whose message is the signature hash of a
    transaction with one input and one output, which pays the committed
    destination at least the dust limit and at most the input, for a fee
    within the committed cap, whatever the clients, the scheduler and the
    witness did. *)
Theorem vault_share_over_http arena_base sections module d nsm_ t events srv id ex body env request srv' share_body :
  let runtime := guest_runtime arena_base sections (fun _ => vault_evaluate) in
  linked arena_base sections (fun _ => vault_evaluate) module ->
  signs (runtime := runtime) d (serving (initial nsm_) t) events srv ->
  exchanges srv !! id = Some ex -> extract (route ex) body = Ok (FinishInput request) ->
  server_step (runtime := runtime) d srv (Body id body env) = Some (srv', [(id, Responded OK share_body)]) ->
  exists b response e0 request0 response0 program x,
    consistent b /\ identity (app (core srv)) = Some (b_identity b) /\ share_body = finish_json response /\
    e0 ∈ events /\ event_call e0 = Prepare request0 /\ event_reply e0 = Prepared (Ok response0) /\
    response_session response0 = finish_session request /\
    check_request (runtime := runtime) (b_signer b) request0 = Ok (program, terms_intent x, terms_user_nonce x) /\
    terms_program_id x = program_id program /\ share_fulfils (b_root b) x request response /\
    forall max_fee destination spend,
      max_fee < 2 ^ 64 -> 12 + len destination <= MAX_PARAMETER_BYTES ->
      vault_instance module max_fee destination = Ok program -> prepare_action request0 = Spend spend ->
      exists input, spend_signing_input spend (prepare_key request0) = Ok input /\
        (native_context input -> sighash input = Ok (intent_message (terms_intent x)) /\
         exists spent paid, prevout_list input = [spent] /\ tx_output (unsigned_tx (psbt input)) = [paid] /\
           script_pubkey paid = destination /\ 330 <= value paid <= value spent /\ value spent - value paid <= max_fee).
Proof.
  intros runtime Hlink Hs Hex Hin Hstep.
  destruct (http_finish _ _ _ _ _ _ _ _ _ _ _ _ Hs Hex Hin Hstep) as (b & calls & signer & response & Hb & Hid & Hrun & Hfin & -> & _).
  pose proof Hb as (_ & _ & Hnew & _).
  destruct (finish_redeems _ _ _ _ _ _ _ _ Hnew Hrun Hfin)
    as (pre & e0 & mid & request0 & response0 & program & rnd & x & Hev & Hcall & Hrep & Hses & _ & Hc & Hpid & _ & _ & _ & Hful).
  exists b, response, e0, request0, response0, program, x. do 3 (split; [done|]).
  split; [rewrite Hev; apply elem_of_app; right; apply elem_of_cons; by left|]. do 6 (split; [done|]).
  intros max_fee destination spend Hfee Hdest Hinst Hact.
  destruct (vault_request_sound _ _ _ _ _ _ _ _ _ _ _ Hlink Hfee Hdest Hinst Hc Hact) as (input & Hinput & Hrule).
  exists input. split; [done|]. intros Hn. destruct (Hrule Hn) as [Hsig Hallow]. split; [done|]. by apply vault_allows_rule.
Qed.

End Theorems.
