(* ===== verification/HttpSigning.v ===== *)
(** * HttpSigning: an honest wallet over HTTP (src/app.rs, src/ark_signer.rs)

    The composition of [Service] with [SigningProtocol]: on a published service
    with room, the two requests of an honest wallet are answered with 200, and
    what it makes of the answers is a Schnorr signature of its spend. *)

From S2P Require Import Prelude Bytes NativePolicy Bitcoin Program SignedView Evaluator Keys Deployment ArkSigner.
From S2P Require Import Scenario SigningProtocol Nsm App Service Admission.

Open Scope N_scope.

Section Requests.
  Context {sapio : SapioProgram} {prim : KeyPrimitives} {upstream : Upstream} {ark : ArkLib}.
  Context {requests : ArkRequests} {applib : AppLib} {driver : NsmDriver}.
  Context {runtime : WasmRuntime} {outpoint_codec : OutPointCodec} {auth : NativeAuth}.
  Context {codec : PolicyCodec VtxoPolicy} {tower : Tower} {tower_laws : TowerLaws} {axum : Axum}.

(** A published service whose signer is [signer] and whose two signing routes
    and evaluation pool have a permit left. *)
Record open_for_signing (srv : Server) (signer : ArkSigner) : Prop := {
  open_identity : is_Some (identity (app (core srv)));
  open_signer : ark_signer (app (core srv)) = Some signer;
  open_prepare : permits (limits srv ArkPrepare) <> 0;
  open_finish : permits (limits srv ArkFinish) <> 0;
  open_admission : ark_admission (app (core srv)) <> 0;
}.

Definition prepare_route : Route := {|
  route_method := POST; route_path := lit "/ark/prepare"; route_handler := ArkPrepare;
  route_body_limit := MAX_REQUEST_BYTES; route_cors := true |}.

Definition finish_route : Route := {|
  route_method := POST; route_path := lit "/ark/finish"; route_handler := ArkFinish;
  route_body_limit := 4096; route_cors := true |}.

Lemma dispatch_prepare : dispatch POST (lit "/ark/prepare") = Some prepare_route.
Proof. reflexivity. Qed.

Lemma dispatch_finish : dispatch POST (lit "/ark/finish") = Some finish_route.
Proof. reflexivity. Qed.

(** The stimuli of a wallet's prepare: its request, its body, and the turn of
    the evaluation it spawned. *)
Definition prepare_stimuli (srv : Server) (body : bytes) (env0 env : Env) : list Stimulus := [
  Arrive POST (lit "/ark/prepare"); Body (next_exchange srv) body env0; TaskRuns (length (tasks srv)) env].

(** And of its finish, at a later time. *)
Definition finish_stimuli (srv : Server) (body : bytes) (env : Env) : list Stimulus := [
  Tick (now env); Arrive POST (lit "/ark/finish"); Body (next_exchange srv) body env].

(** A prepare that the signer answers is served. *)
Lemma prepare_served d srv signer request body env0 env response signer' :
  open_for_signing srv signer -> prepare_of_body MAX_REQUEST_BYTES body = Ok request ->
  now env0 = clock srv -> now env = clock srv -> prepare signer env request = (Ok response, signer') ->
  exists srv', server_run d srv (prepare_stimuli srv body env0 env) =
      Some (srv', [(next_exchange srv, Responded OK (prepare_json response))]) /\
    open_for_signing srv' signer' /\ next_exchange srv' = next_exchange srv + 1 /\ clock srv' = clock srv.
Proof.
  intros [[text Hid] Hsig Hp Hf Ha] Hbody H0 H1 Hprep.
  destruct (route_admitted d srv _ _ _ dispatch_prepare Hp) as (l & Hl & Harrive). unfold prepare_stimuli. cbn [server_run].
  rewrite Harrive. cbn [mbind option_bind server_step exchanges clock]. rewrite lookup_insert_eq.
  cbn [mbind option_bind phase]. rewrite H0, N.eqb_refl. unfold body_complete, extract.
  cbn [route prepare_route route_handler route_body_limit]. rewrite Hbody. cbn [fmap Result_fmap begin_handler core].
  unfold ark_prepare_admit, get_ark_signer. rewrite Hid, Hsig. cbn [ok_or mbind Result_bind].
  rewrite (proj2 (N.eqb_neq _ _) Ha). cbn [mbind option_bind fmap list_fmap with_exchange with_tasks with_core tasks clock].
  rewrite list_lookup_middle by done. cbn [mbind option_bind]. rewrite H1, N.eqb_refl. unfold task_ends.
  cbn [core app with_exchange with_tasks with_core with_app with_evaluating with_signer ark_prepare_run ark_signer].
  rewrite Hprep. cbn [exchanges with_exchange with_tasks with_core]. rewrite lookup_insert_eq.
  cbn [into_outcome error_response fst snd Datatypes.app mbind option_bind]. eexists. split; [reflexivity|].
  unfold conclude. cbn [exchanges with_exchange with_tasks with_core]. rewrite lookup_insert_eq.
  cbn [route prepare_route route_handler].
  split; [|done]. split; cbn [limits core app with_exchange with_tasks with_core with_app with_evaluating with_signer identity ark_signer ark_admission]; [by exists text|done| | |lia].
  - rewrite set_limit_eq, permits_drop. lia.
  - rewrite !set_limit_ne by done. done.
Qed.

(** And so is a finish. *)
Lemma finish_served d srv signer request body env response :
  open_for_signing srv signer -> finish_of_body 4096 body = Ok request ->
  clock srv <= now env -> fst (finish signer env request) = Ok response ->
  exists srv', server_run d srv (finish_stimuli srv body env) =
      Some (srv', [(next_exchange srv, Responded OK (finish_json response))]).
Proof.
  intros [[text Hid] Hsig Hp Hf Ha] Hbody Ht Hfin. unfold finish_stimuli. cbn [server_run server_step].
  rewrite (proj2 (N.leb_le _ _) Ht). cbn [mbind option_bind].
  set (srv1 := {| core := core srv; limits := limits srv; exchanges := exchanges srv;
                  next_exchange := next_exchange srv; tasks := tasks srv; clock := now env |}).
  destruct (route_admitted d srv1 _ _ _ dispatch_finish Hf) as (l & Hl & Harrive). cbn [server_step] in Harrive.
  rewrite Harrive. cbn [mbind option_bind exchanges clock srv1 next_exchange]. rewrite lookup_insert_eq.
  cbn [mbind option_bind phase]. rewrite N.eqb_refl. unfold body_complete, extract.
  cbn [route finish_route route_handler route_body_limit]. rewrite Hbody. cbn [fmap Result_fmap begin_handler core].
  unfold ark_finish, get_ark_signer. cbn [srv1 core]. rewrite Hid, Hsig. cbn [ok_or].
  destruct (finish signer env request) as [r signer']. cbn [fst] in Hfin. subst r.
  cbn [map_err into_outcome error_response fst snd Datatypes.app mbind option_bind]. by eexists.
Qed.

End Requests.

(* ------------------------------------------------------------------ *)
(** ** The wallet's side *)

Section Wallet.
  Context {runtime : WasmRuntime} {outpoint_codec : OutPointCodec} {auth : NativeAuth}.
  Context {sapio : SapioProgram} {prim : KeyPrimitives} {upstream : Upstream} {ark : ArkLib} {requests : ArkRequests}.
  Context {codec : PolicyCodec VtxoPolicy} {musig : NestedMusig} {musig_laws : NestedMusigLaws}.

(** A program that leaves the signer alone. *)
Definition keeps {A} (m : Test A) : Prop :=
  forall st a st', m st = (Ok a, st') -> test_signer st' = test_signer st.

Lemma bind_inv {A B} (m : Test A) (k : A -> Test B) st b st' :
  (m ≫= k) st = (Ok b, st') -> exists a st1, m st = (Ok a, st1) /\ k a st1 = (Ok b, st').
Proof. unfold mbind, Test_bind. destruct (m st) as [[a|e|w] st1]; [|done..]. by exists a, st1. Qed.

Lemma keeps_lift {A} (r : Result Error A) : keeps (lift r).
Proof. intros st a st' H. by injection H as _ <-. Qed.

Lemma keeps_ret {A} (a : A) : keeps (mret a).
Proof. intros st b st' H. by injection H as _ <-. Qed.

Lemma keeps_draw world : keeps (draw world).
Proof. intros st a st' H. by injection H as _ <-. Qed.

Lemma keeps_bind {A B} (m : Test A) (k : A -> Test B) : keeps m -> (forall a, keeps (k a)) -> keeps (m ≫= k).
Proof.
  intros Hm Hk st b st' (a & st1 & H1 & H2)%bind_inv. rewrite (Hk _ _ _ _ H2). by eapply Hm.
Qed.

Create HintDb keeps.
#[local] Hint Resolve keeps_lift keeps_ret keeps_draw keeps_bind : keeps.

Lemma own_pending (self : ArkSigner) t : {| test_signer := self; tick := t |} = at_ self (pending self) t.
Proof. by destruct self. Qed.

(** After its one call the wallet's prepare touches the signer no more. *)
Lemma fixture_prepare_signer world f st request n st1 r self' prepared st' :
  Fixture_request world f st = (Ok (request, n), st1) ->
  prepare (test_signer st1) (signer_env (world (tick st1))) request = (r, self') ->
  Fixture_prepare world f st = (Ok prepared, st') -> test_signer st' = self'.
Proof.
  intros Hreq Hprep H. unfold Fixture_prepare in H. apply bind_inv in H as ([request' n'] & st2 & H1 & H).
  rewrite Hreq in H1. injection H1 as <- <- <-. apply bind_inv in H as (intent & st2 & H1 & H).
  injection H1 as _ <-. apply bind_inv in H as (result & st2 & H1 & H). unfold signer_prepare in H1.
  apply bind_inv in H1 as (m & st3 & H1 & H2). injection H1 as <- <-. unfold call in H2. cbn [test_signer tick] in H2.
  rewrite Hprep in H2. injection H2 as _ <-.
  refine (_ : test_signer st' = test_signer {| test_signer := self'; tick := S (tick st1) |}).
  revert H. match goal with |- ?m _ = _ -> _ => assert (keeps m) as Hk; [|by apply Hk] end.
  unfold unwrap, assert_that. eauto 30 with keeps.
Qed.

(** The wallet's prepare is one call of the signer, which reserves the session
    that the wallet will finish. *)
Lemma fixture_prepare_call world f action program intent self t :
  healthy world -> available self -> authentic f action intent ->
  admissible self (fixture_key f) action program intent ->
  room (fst (members intent)) (live (SigningProtocol.clock world (S t)) (pending self)) ->
  exists n response prepared e,
    nonce_new intent (fst (members intent)) (wallet_randomness (world t)) = Ok n /\
    prepare self (signer_env (world (S t))) (honest_request f action n) =
      (Ok response, with_pending self (<[response_session response := e]> (live (SigningProtocol.clock world (S t)) (pending self)))) /\
    fst (Fixture_prepare world f {| test_signer := self; tick := t |}) = Ok prepared /\
    finish_session (prepared_finish prepared) = response_session response /\
    honest world intent program t prepared e.
Proof.
  intros Hw Hav Hf Ha Hr. set (unexpired := live (SigningProtocol.clock world (S t)) (pending self)) in *.
  destruct (wallet_entropy world Hw t intent) as [n Hn].
  assert (wp (Fixture_request world f) (fun x st => x = (honest_request f action n, n) /\ st = at_ self (pending self) (S t))
            (at_ self (pending self) t)) as Hreq.
  { eapply wp_request; [done..|]. intros n' Hn'. split; [|done]. congruence. }
  unfold wp in Hreq. destruct (Fixture_request world f _) as [[x|e|w] st1] eqn:Hrun; try done. destruct Hreq as [-> ->].
  assert (exists session nonce, unexpired !! session = None /\
    prepare self (signer_env (world (S t))) (honest_request f action n) =
      (Ok {| response_protocol := SIGNING_PROTOCOL; response_session := session;
             response_program_nonce := hex_encode (member_nonce_serialize (nonce_public nonce)) |},
       with_pending self (<[session := {| pending_program_id := program_id program; pending_intent := intent;
         pending_user_nonce := nonce_public n; pending_nonce := nonce;
         expires := SigningProtocol.clock world (S t) + SESSION_LIFETIME |}]> unexpired))) as (session & nonce & Hfree & Hprep).
  { destruct (member_nonce_wire intent _ _ n Hn) as (public & Hpub & Hfrom).
    destruct (signer_entropy world Hw (S t) intent) as [nonce Hnonce]. destruct (ids_enough world Hw (S t)) as [Hd Hl].
    destruct (prepare_admitted self (signer_env (world (S t))) (honest_request f action n) program intent (nonce_public n) nonce)
      as (session & Hprep & Hfree & _); [apply Hav| |apply Hr|apply Hr|done..|by exists session, nonce].
    apply (check_request_intro _ _ _ _ public); [done|done|done|]. cbn. by rewrite (authentic_user _ _ _ Hf). }
  assert (wp (Fixture_prepare world f) (fun prepared st => exists e, honest world intent program t prepared e /\
    unexpired !! finish_session (prepared_finish prepared) = None /\
    pending (test_signer st) = <[finish_session (prepared_finish prepared) := e]> unexpired) (at_ self (pending self) t)) as H.
  { eapply wp_prepare; [done|done|apply Hav|done|done|]. intros prepared e He Hnone. by exists e. }
  unfold wp in H. destruct (Fixture_prepare world f _) as [[prepared|e|w] st'] eqn:Hfix; try done.
  destruct H as (e & He & Hnone & Hpending).
  assert (test_signer st' = snd (prepare self (signer_env (world (S t))) (honest_request f action n))) as Hself.
  { eapply fixture_prepare_signer; [exact Hrun| |exact Hfix]. rewrite <- own_pending. cbn [test_signer tick].
    apply surjective_pairing. }
  rewrite Hself, Hprep in Hpending. cbn [snd pending with_pending] in Hpending.
  assert (finish_session (prepared_finish prepared) = session) as Hid.
  { destruct (decide (finish_session (prepared_finish prepared) = session)) as [|Hne]; [done|].
    apply (f_equal (lookup session)) in Hpending. rewrite lookup_insert_eq, lookup_insert_ne in Hpending by done. congruence. }
  rewrite Hid in Hpending. rewrite Hpending in Hprep. exists n. eexists. exists prepared, e. split; [done|].
  split; [exact Hprep|]. rewrite own_pending, Hfix. done.
Qed.

End Wallet.

(* ------------------------------------------------------------------ *)
(** ** Properties *)

Section Theorems.
  Context {sapio : SapioProgram} {prim : KeyPrimitives} {upstream : Upstream} {ark : ArkLib}.
  Context {requests : ArkRequests} {applib : AppLib} {driver : NsmDriver}.
  Context {runtime : WasmRuntime} {outpoint_codec : OutPointCodec} {auth : NativeAuth}.
  Context {codec : PolicyCodec VtxoPolicy} {tower : Tower} {tower_laws : TowerLaws} {axum : Axum}.
  Context {musig : NestedMusig} {musig_laws : NestedMusigLaws}.

(** C6: an honest wallet over HTTP: on a published service with a permit for
    each of its two requests and one for the evaluation, and room in the pool
    for its key, a wallet whose spend the checks admit is answered 200 with a
    session by its prepare, the finish it makes of that answer is answered
    200 within the session's lifetime, and the share in it completes to a
    Schnorr signature of the spend. *)
Theorem http_signing_completes d srv signer world tk f action intent program body env0 :
  open_for_signing srv signer -> available signer -> healthy world -> authentic f action intent ->
  admissible signer (fixture_key f) action program intent ->
  room (fst (members intent)) (live (clock srv) (pending signer)) ->
  now env0 = clock srv -> now (signer_env (world (S tk))) = clock srv ->
  (forall n, nonce_new intent (fst (members intent)) (wallet_randomness (world tk)) = Ok n ->
     prepare_of_body MAX_REQUEST_BYTES body = Ok (honest_request f action n)) ->
  exists prepared response srv1,
    fst (Fixture_prepare world f {| test_signer := signer; tick := tk |}) = Ok prepared /\
    response_session response = finish_session (prepared_finish prepared) /\
    server_run d srv (prepare_stimuli srv body env0 (signer_env (world (S tk)))) =
      Some (srv1, [(next_exchange srv, Responded OK (prepare_json response))]) /\
    forall finish_body env, finish_of_body 4096 finish_body = Ok (prepared_finish prepared) ->
      clock srv <= now env < clock srv + SESSION_LIFETIME ->
      exists share signature srv2,
        server_run d srv1 (finish_stimuli srv1 finish_body env) =
          Some (srv2, [(next_exchange srv + 1, Responded OK (finish_json share))]) /\
        complete prepared f share = Ok signature /\
        verify_schnorr signature (intent_message intent) (signing_key intent) = Ok tt.
Proof.
  intros Hopen Hav Hw Hf Ha Hr H0 Hnow Hbody.
  destruct (fixture_prepare_call world f action program intent signer tk Hw Hav Hf Ha)
    as (n & response & prepared & e & Hn & Hprep & Hfix & Hid & He); [by unfold SigningProtocol.clock; rewrite Hnow|].
  destruct (prepare_served d srv signer _ body env0 _ response _ Hopen (Hbody n Hn) H0 Hnow Hprep)
    as (srv1 & Hrun & Hopen1 & Hnext & Hclock).
  exists prepared, response, srv1. do 3 (split; [done|]). intros finish_body env Hfin [Hle Hlt].
  assert (expires e = clock srv + SESSION_LIFETIME) as Hexp
    by (rewrite (honest_expires _ _ _ _ _ _ He); unfold SigningProtocol.clock; by rewrite Hnow).
  set (signer1 := with_pending signer (<[response_session response := e]> (live (SigningProtocol.clock world (S tk)) (pending signer)))) in *.
  destruct (finish_session_honest world intent program (with_pending signer1 (delete (response_session response) (pending signer1)))
    tk prepared e env (prepared_finish prepared)) as (share & Hshare & Hanswer);
    [done|done|by eapply (admissible_derives signer)|by left|lia|].
  destruct (finish_served d srv1 signer1 (prepared_finish prepared) finish_body env share) as [srv2 Hrun2]; [done|done|lia| |].
  - unfold finish. cbn [signer1 poisoned with_pending pending]. destruct Hav as [-> _].
    rewrite Hid, lookup_insert_eq. exact Hshare.
  - destruct (complete_honest world f action intent program tk prepared e share Hf He Hanswer) as (signature & Hc & Hs).
    exists share, signature, srv2. rewrite <- Hnext. done.
Qed.

End Theorems.
