(* ===== verification/ServiceTest.v ===== *)
(** * ServiceTest: the deadline over a socket (src/app.rs, mod tests)

    The test of the request deadline: a client that declares a body and stalls
    is answered 408 at the deadline, and the same route then answers a complete
    request.  The server is [Service]'s, with the schedule that the client's own
    order forces: it opens the second connection after it has read the first
    response.  hyper's serialization is the interface [HttpWire], and what the
    sockets deliver is a parameter of the test. *)

From S2P Require Import Prelude Bytes NativePolicy Bitcoin Program SignedView Evaluator Keys Deployment ArkSigner Nsm App.
From S2P Require Import Service Admission.

Open Scope N_scope.

Definition CRLF : bytes := [Byte.x0d; Byte.x0a].

(** The three digits of a status code. *)
Definition status_digits (code : N) : bytes :=
  (fun d => byte_of_N (48 + d)) <$> [code / 100; (code / 10) mod 10; code mod 10].

Class HttpWire := { http_response : N -> bytes -> bytes }.

(** Documented: a response is its status line, headers, a blank line, the body. *)
Class HttpWireLaws {wire : HttpWire} : Prop := {
  http_shape code body : exists headers,
    http_response code body = lit "HTTP/1.1 " ++ status_digits code ++ headers ++ CRLF ++ CRLF ++ body;
}.

(** [text.contains(pattern)]; the patterns are ASCII, which
    [from_utf8_lossy] neither makes nor breaks. *)
Fixpoint contains (pattern s : bytes) : bool :=
  starts_with pattern s || match s with [] => false | _ :: s => contains pattern s end.

(** What one read of a socket gives under its deadline; an empty chunk is the
    end of the stream. *)
Inductive Read :=
| Chunk (bs : bytes)
| ReadError (e : string)
| TimedOut.

Section Test.
  Context {sapio : SapioProgram} {prim : KeyPrimitives} {upstream : Upstream} {ark : ArkLib}.
  Context {requests : ArkRequests} {applib : AppLib} {driver : NsmDriver}.
  Context {runtime : WasmRuntime} {outpoint_codec : OutPointCodec} {auth : NativeAuth}.
  Context {codec : PolicyCodec VtxoPolicy} {tower : Tower} {axum : Axum} {wire : HttpWire}.

(** Both needles of the loop are there. *)
Definition complete_408 (response : bytes) : bool :=
  contains (CRLF ++ CRLF) response && contains (lit "request deadline exceeded") response.

(** The client's read loop. *)
Fixpoint read_loop (reads : list Read) (response : bytes) : Result Error bytes :=
  match reads with
  | Chunk [] :: _ => Ok response
  | Chunk bs :: reads =>
      let response := response ++ bs in
      if complete_408 response then Ok response else read_loop reads response
  | ReadError e :: _ => Err (Foreign e)
  | TimedOut :: _ | [] => Err (Message "no response to a stalled body within 5s")
  end.

(** The one read of the second connection. *)
Definition read_once (reads : list Read) : Result Error bytes :=
  match reads with
  | Chunk bs :: _ => Ok bs
  | ReadError e :: _ => Err (Foreign e)
  | TimedOut :: _ | [] => Err (Context "no response to a complete request" (Foreign "deadline has elapsed"))
  end.

Definition assert_ok (b : bool) : Result Error unit := if b then Ok tt else Panic "assertion failed".

(** The bytes hyper writes for an outcome of connection [id]. *)
Definition wire_of (outs : list (N * Outcome)) (id : N) : Result Error bytes :=
  match list_find (fun o => fst o = id) outs with
  | Some (_, (_, Responded code body)) => Ok (http_response code body)
  | _ => Err (Foreign "connection closed")
  end.

(** The state of the test. *)
Definition test_server (started_at : N) : Server := serving (initial None) started_at.

(** [stalled_body_is_rejected_at_the_request_deadline]: [network] delivers the
    server's bytes, [fires] is when the runtime wakes the timer. *)
Definition stalled_body_is_rejected_at_the_request_deadline (request_deadline started_at fires : N) (env : Env)
    (network : bytes -> list Read) : Result Error unit :=
  '(srv, outs) ← expect (server_run request_deadline (test_server started_at)
                           [Arrive POST (lit "/setup"); Tick fires; Deadline 0]) "server";
  stalled ← wire_of outs 0;
  head ← read_loop (network stalled) [];
  _ ← assert_ok (starts_with (lit "HTTP/1.1 408") head);
  _ ← assert_ok (contains (lit "request deadline exceeded") head);
  '(_, outs) ← expect (server_run request_deadline srv
                         [Arrive POST (lit "/setup"); Body 1 (lit "{}") env]) "server";
  live ← wire_of outs 1;
  head ← read_once (network live);
  _ ← assert_ok (0 <? len head);
  _ ← assert_ok (starts_with (lit "HTTP/1.1 ") head);
  _ ← assert_ok (negb (starts_with (lit "HTTP/1.1 408") head));
  assert_ok (negb (starts_with (lit "HTTP/1.1 503") head)).

(** The sockets deliver what was written, in nonempty pieces of which the first
    holds the status line. *)
Definition delivers (network : bytes -> list Read) : Prop :=
  forall bs, exists chunks rest, network bs = (Chunk <$> chunks) ++ rest /\ concat chunks = bs /\
    Forall (fun c => c <> []) chunks /\ forall c cs, chunks = c :: cs -> 12 <= len bs -> 12 <= len c.

(* ------------------------------------------------------------------ *)
(** ** Lemmas *)

Context {tower_laws : TowerLaws} {wire_laws : HttpWireLaws}.

Lemma contains_app p a b : contains p (a ++ p ++ b) = true.
Proof.
  induction a as [|x a IH]; cbn.
  - destruct (p ++ b) eqn:E; cbn.
    + apply app_eq_nil in E as [-> _]. done.
    + rewrite <- E. rewrite (proj2 (starts_with_spec p (p ++ b))); [done|by exists b].
  - by rewrite IH, orb_true_r.
Qed.

Lemma contains_length p s : contains p s = true -> len p <= len s.
Proof.
  induction s as [|x s IH]; cbn [contains]; intros [H|H]%orb_true_iff; try done.
  - apply starts_with_spec in H as [r Hr]. rewrite Hr, len_app. lia.
  - apply starts_with_spec in H as [r Hr]. rewrite Hr, len_app. lia.
  - rewrite len_cons. specialize (IH H). lia.
Qed.

(** A long enough prefix starts as the whole does. *)
Lemma starts_with_prefix p a b : starts_with p (a ++ b) = true -> len p <= len a -> starts_with p a = true.
Proof.
  intros [r Hr]%starts_with_spec Hl. apply starts_with_spec.
  exists (drop (length p) a). unfold len in Hl.
  rewrite <- (firstn_skipn (length p) a) at 1. f_equal.
  assert (firstn (length p) (a ++ b) = firstn (length p) (p ++ r)) as E by by rewrite Hr.
  rewrite firstn_app, firstn_app, Nat.sub_diag, firstn_O, app_nil_r, firstn_all in E.
  replace (length p - length a)%nat with 0%nat in E by lia. by rewrite firstn_O, app_nil_r in E.
Qed.

(** The loop ends on a prefix of the response with both needles. *)
Lemma read_loop_ok chunks rest response :
  Forall (fun c => c <> []) chunks -> complete_408 (response ++ concat chunks) = true -> complete_408 response = false ->
  exists got more, read_loop ((Chunk <$> chunks) ++ rest) response = Ok got /\
    response ++ concat chunks = got ++ more /\ complete_408 got = true.
Proof.
  intros Hf. revert response; induction Hf as [|c chunks Hc _ IH]; intros response Hw Hn.
  { cbn in Hw. rewrite app_nil_r in Hw. congruence. }
  cbn [fmap list_fmap concat Datatypes.app read_loop] in *. destruct c as [|x c]; [done|].
  rewrite app_assoc in Hw. destruct (complete_408 (response ++ x :: c)) eqn:Hd.
  - eexists _, (concat chunks). split; [reflexivity|]. by rewrite <- app_assoc.
  - destruct (IH _ Hw Hd) as (got & more & Hr & He & Hg). exists got, more. split; [done|]. split; [|done].
    by rewrite <- He, <- app_assoc.
Qed.

Definition setup_route : Route := {|
  route_method := POST; route_path := lit "/setup"; route_handler := Setup;
  route_body_limit := 4096; route_cors := false |}.

Lemma dispatch_setup : dispatch POST (lit "/setup") = Some setup_route.
Proof. reflexivity. Qed.

(** What the network makes of a response that starts as expected. *)
Lemma delivered_first network bs : delivers network -> 12 <= len bs ->
  exists c more, read_once (network bs) = Ok c /\ bs = c ++ more /\ 12 <= len c.
Proof.
  intros H Hl. destruct (H bs) as (chunks & rest & -> & Hc & Hf & Hh). destruct chunks as [|c cs].
  { rewrite <- Hc in Hl. cbn in Hl. unfold len in Hl. cbn in Hl. lia. }
  exists c, (concat cs). split; [done|]. split; [by rewrite <- Hc|]. by eapply Hh.
Qed.

Lemma response_length code body : 12 <= len (http_response code body).
Proof.
  destruct (http_shape code body) as [headers ->]. rewrite !len_app. change (len (lit "HTTP/1.1 ")) with 9.
  change (len (status_digits code)) with 3. lia.
Qed.

(** The status line decides the prefix tests. *)
Lemma response_status code body p more : http_response code body = p ++ more -> 12 <= len p ->
  firstn 12 p = lit "HTTP/1.1 " ++ status_digits code.
Proof.
  intros H Hl. destruct (http_shape code body) as [headers Hs]. rewrite Hs, app_assoc in H.
  set (status := lit "HTTP/1.1 " ++ status_digits code) in *. assert (length status = 12%nat) as Hlen by done.
  apply (f_equal (firstn 12)) in H. rewrite (firstn_app 12 status), (firstn_app 12 p), Hlen in H.
  unfold len in Hl. replace (12 - length p)%nat with 0%nat in H by lia.
  rewrite Nat.sub_diag, !firstn_O, !app_nil_r, <- Hlen, firstn_all, Hlen in H. by symmetry.
Qed.

Lemma starts_with_firstn p s : len p <= 12 -> starts_with p s = starts_with p (firstn 12 s).
Proof.
  intros Hl. destruct (starts_with p (firstn 12 s)) eqn:E.
  - apply starts_with_spec in E as [r Hr]. apply starts_with_spec. exists (r ++ skipn 12 s).
    by rewrite app_assoc, <- Hr, firstn_skipn.
  - apply not_true_iff_false. apply not_true_iff_false in E. intros [r Hr]%starts_with_spec. apply E, starts_with_spec.
    unfold len in Hl. exists (firstn (12 - length p) r). rewrite Hr, firstn_app. f_equal. by apply firstn_all2; lia.
Qed.

(** The stalled connection, *)
Lemma stalled_exchange d t0 fires : t0 + d <= fires ->
  exists srv, server_run d (test_server t0) [Arrive POST (lit "/setup"); Tick fires; Deadline 0] =
      Some (srv, [(0, Responded 408 (lit "request deadline exceeded"))]) /\
    permits (limits srv Setup) = 16 /\ exchanges srv = ∅ /\ next_exchange srv = 1 /\ clock srv = fires.
Proof.
  intros Ht. destruct (route_admitted d (test_server t0) _ _ _ dispatch_setup) as (l & Hl & Ha); [cbn; by rewrite permits_new|].
  cbn [server_run]. rewrite Ha. cbn [mbind option_bind server_step clock test_server serving next_exchange].
  rewrite (proj2 (N.leb_le t0 fires)) by lia. cbn [mbind option_bind exchanges clock].
  rewrite lookup_insert_eq. cbn [mbind option_bind started]. rewrite (proj2 (fired d t0 fires)) by lia.
  cbn [mbind option_bind Datatypes.app]. eexists. split; [reflexivity|].
  unfold drop_exchange, conclude. cbn [phase drop_handler exchanges with_core]. rewrite lookup_insert_eq.
  cbn [limits exchanges next_exchange clock with_core route setup_route route_handler]. rewrite set_limit_eq, permits_drop, set_limit_eq.
  apply ready_some in Hl. cbn in Hl. rewrite permits_new in Hl. unfold CONCURRENCY_LIMIT in Hl.
  split; [lia|]. split; [|done]. by rewrite delete_insert_id.
Qed.

(** and the live one. *)
Lemma live_exchange d srv env text :
  permits (limits srv Setup) = 16 -> exchanges srv = ∅ -> next_exchange srv = 1 -> clock srv = now env ->
  settings_of_body 4096 (lit "{}") = Err (UNPROCESSABLE_ENTITY, text) ->
  exists srv', server_run d srv [Arrive POST (lit "/setup"); Body 1 (lit "{}") env] = Some (srv', [(1, Responded 422 text)]).
Proof.
  intros Hp He Hn Hc Hbody. destruct (route_admitted d srv _ _ _ dispatch_setup) as (l & Hl & Ha); [cbn; by rewrite Hp|].
  cbn [server_run]. rewrite Ha. cbn [mbind option_bind server_step exchanges clock]. rewrite Hn, lookup_insert_eq.
  cbn [mbind option_bind phase]. rewrite Hc, N.eqb_refl. unfold body_complete, extract. cbn [route setup_route route_handler route_body_limit].
  rewrite Hbody. cbn [fmap Result_fmap mbind option_bind Datatypes.app]. by eexists.
Qed.

(** What the loop reads of the 408. *)
Lemma stalled_read network : delivers network ->
  exists head, read_loop (network (http_response 408 (lit "request deadline exceeded"))) [] = Ok head /\
    starts_with (lit "HTTP/1.1 408") head = true /\ contains (lit "request deadline exceeded") head = true.
Proof.
  intros Hnet. set (w := http_response 408 (lit "request deadline exceeded")).
  destruct (http_shape 408 (lit "request deadline exceeded")) as [headers Hw]. fold w in Hw.
  assert (complete_408 w = true) as Hc.
  { unfold complete_408. apply andb_true_iff. rewrite Hw. split.
    - rewrite !app_assoc, <- (app_assoc _ CRLF CRLF), <- app_assoc. apply contains_app.
    - rewrite !app_assoc. rewrite <- (app_nil_r (lit "request deadline exceeded")) at 2. apply contains_app. }
  destruct (Hnet w) as (chunks & rest & -> & Hcat & Hf & _).
  destruct (read_loop_ok chunks rest [] Hf) as (head & more & Hr & He & Hg); [by rewrite Hcat|done|].
  exists head. split; [done|]. apply andb_true_iff in Hg as [_ Hg]. split; [|done].
  apply (starts_with_prefix _ head more).
  - cbn [Datatypes.app] in He. rewrite <- He, Hcat. apply starts_with_spec.
    exists (headers ++ CRLF ++ CRLF ++ lit "request deadline exceeded"). by rewrite Hw.
  - apply contains_length in Hg. etransitivity; [|exact Hg]. vm_compute. discriminate.
Qed.

End Test.

(* ------------------------------------------------------------------ *)
(** ** Properties *)

Section Theorems.
  Context {sapio : SapioProgram} {prim : KeyPrimitives} {upstream : Upstream} {ark : ArkLib}.
  Context {requests : ArkRequests} {applib : AppLib} {driver : NsmDriver}.
  Context {runtime : WasmRuntime} {outpoint_codec : OutPointCodec} {auth : NativeAuth}.
  Context {codec : PolicyCodec VtxoPolicy} {tower : Tower} {tower_laws : TowerLaws} {axum : Axum}.
  Context {wire : HttpWire} {wire_laws : HttpWireLaws}.

(** C37: the socket test passes: for every deadline, wake-up after it and way
    the network cuts the responses into pieces, the stalled request is answered
    408 with the documented text, and the next complete request on the route is
    answered by its extractor, not by the deadline or the load shedder. *)
Theorem stalled_body_test_passes request_deadline started_at fires env network text :
  started_at + request_deadline <= fires -> now env = fires -> delivers network ->
  settings_of_body 4096 (lit "{}") = Err (UNPROCESSABLE_ENTITY, text) ->
  stalled_body_is_rejected_at_the_request_deadline request_deadline started_at fires env network = Ok tt.
Proof.
  intros Ht Hnow Hnet Hbody. unfold stalled_body_is_rejected_at_the_request_deadline.
  destruct (stalled_exchange _ _ _ Ht) as (srv & Hrun & Hp & He & Hn & Hc). rewrite Hrun. cbn [expect mbind Result_bind].
  change (wire_of [(0, Responded 408 (lit "request deadline exceeded"))] 0)
    with (@Ok Error _ (http_response 408 (lit "request deadline exceeded"))). cbn [mbind Result_bind].
  destruct (stalled_read _ Hnet) as (head & -> & H408 & Htext). cbn [mbind Result_bind]. rewrite H408, Htext.
  cbn [assert_ok mbind Result_bind].
  destruct (live_exchange request_deadline srv env text Hp He Hn) as [srv' Hlive]; [congruence|done|].
  rewrite Hlive. cbn [expect mbind Result_bind].
  change (wire_of [(1, Responded 422 text)] 1) with (@Ok Error _ (http_response 422 text)). cbn [mbind Result_bind].
  destruct (delivered_first _ _ Hnet (response_length 422 text)) as (c & more & -> & Hcat & Hl). cbn [mbind Result_bind].
  pose proof (response_status _ _ _ _ Hcat Hl) as Hs.
  rewrite (proj2 (N.ltb_lt 0 (len c))) by lia. cbn [assert_ok mbind Result_bind].
  by rewrite !(starts_with_firstn _ c), Hs by (vm_compute; discriminate).
Qed.

End Theorems.
