(* ===== verification/AppExamples.v ===== *)
(** * AppExamples: a concrete process

    The transparent signer of [ArkExamples] behind a device with nonzero
    measurements and a working proxy: setup publishes, is refused a second
    time, and is orphaned when dropped.  The hypotheses of the theorems of
    [App] are met on these executions. *)

From S2P Require Import Prelude Bytes NativePolicy Bitcoin Program SignedView Evaluator EndToEnd Keys.
From S2P Require Import Deployment ArkSigner ArkExamples Nsm App.

Open Scope N_scope.

Module SampleApp.

Export ArkExamples.SampleArk.

#[export] Instance driver : NsmDriver := {|
  nsm_init := 3%Z;
  nsm_process_request _ request :=
    match request with
    | DescribePCRRequest _ => DescribePCR true (replicate 48 Byte.x01)
    | AttestationRequest nonce user_data _ => Attestation (default [] nonce ++ default [] user_data)
    end;
|}.

#[export] Instance applib : AppLib := {|
  oracle_public_root o := fst o;
  identity_to_string i := Ok (mode i ++ snd (xpub i));
  base64_encode bs := Bytes.hex_encode bs;
  nonce_from_hex bs := ok_or (hex_decode bs) "odd length or invalid digit"%string;
  error_to_string _ := lit "error";
|}.

Definition start : System := initial (Some 3%Z).

(** The system after the actions, or the start when one is not enabled. *)
Definition after (actions : list Action) : System :=
  match app_run start actions with Some (sys, _) => sys | None => start end.

Definition derivation : Result Error Xpriv := derive_root SampleKeys.proxy SampleKeys.settings.

Definition published : System :=
  after (setup_actions SampleKeys.settings SampleKeys.proxy ++ [ReadyReceived]).

Lemma after_reachable actions : reachable (after actions).
Proof.
  exists (Some 3%Z). unfold after. destruct (app_run start actions) as [[sys rs]|] eqn:H; [|constructor].
  by eapply app_run_reaches.
Qed.

End SampleApp.

Import SampleApp.

Example published_once : is_Some (identity (app published)).
Proof. apply (bool_decide_unpack _). vm_compute. exact I. Qed.

Example device_opens : Nsm_open = Ok 3%Z.
Proof. vm_compute. reflexivity. Qed.

(* ------------------------------------------------------------------ *)
(** ** Witnesses *)

Lemma published_identity_consistent_witness :
  exists root_ fresh calls, ArkSigner_new root_ = Ok fresh /\
    ark_signer (app published) = Some (snd (run fresh calls)) /\
    (exists oracle, thread published = Serving oracle \/ thread published = Stopped).
Proof.
  destruct (identity (app published)) as [id|] eqn:Hid; [|by destruct published_once; congruence].
  destruct (published_identity_consistent published id (after_reachable _) Hid)
    as (_ & root_ & _ & oracle & fresh & calls & _ & _ & _ & Hf & Hs & Ht).
  exists root_, fresh, calls. split; [exact Hf|]. split; [exact Hs|]. exists oracle. exact Ht.
Defined.

Lemma identity_immutable_witness : exists id,
  identity (app published) = Some id /\ public_key (app published) = Ok id.
Proof.
  destruct (identity (app published)) as [id|] eqn:Hid; [|by destruct published_once; congruence].
  exists id. split; [reflexivity|]. exact (identity_immutable published published id (reaches_refl _) Hid).
Defined.

Lemma setup_exclusive_witness : exists text,
  app_step published (SetupRequest SampleKeys.settings)
  = Some (published, SetupReply (Err (CONFLICT, text))).
Proof.
  apply (setup_exclusive published SampleKeys.settings (after_reachable _)).
  - vm_compute. reflexivity.
  - right. exact published_once.
Defined.

Lemma ark_signer_iff_published_witness : is_ok (get_ark_signer (app published)) = true.
Proof. apply (proj1 (ark_signer_iff_published published (after_reachable _))), published_once. Defined.

Lemma evaluations_bounded_witness :
  evaluating (after (setup_actions SampleKeys.settings SampleKeys.proxy ++ [ReadyReceived; PrepareAdmitted]))
    <= max_connections program_profile.
Proof. exact (proj1 (evaluations_bounded _ (after_reachable _))). Defined.

Lemma setup_completes_witness : exists sys replies id,
  app_run start (setup_actions SampleKeys.settings SampleKeys.proxy ++ [ReadyReceived])
    = Some (sys, replies ++ [SetupReply (Ok id)]).
Proof.
  destruct derivation as [root_|e|w] eqn:Hd; [|vm_compute in Hd; discriminate Hd..].
  destruct (install_start (app start) root_ (Some SampleKeys.settings)) as [[[oracle signer] id]|e|w] eqn:Hi;
    [|discriminate Hi..].
  destruct (setup_completes SampleKeys.settings SampleKeys.proxy 3%Z root_ oracle signer id Hd Hi)
    as (sys & replies & Hrun & _).
  exists sys, replies, id. exact Hrun.
Defined.

Lemma orphaned_signer_witness : exists sys oracle,
  reachable sys /\ thread sys = Serving oracle /\ identity (app sys) = None.
Proof.
  destruct derivation as [root_|e|w] eqn:Hd; [|vm_compute in Hd; discriminate Hd..].
  destruct (install_start (app start) root_ (Some SampleKeys.settings)) as [[[oracle signer] id]|e|w] eqn:Hi;
    [|discriminate Hi..].
  destruct (orphaned_signer SampleKeys.settings SampleKeys.proxy 3%Z root_ oracle signer id Hd Hi)
    as (sys & Hr & Ht & _ & Hid & _).
  exists sys, oracle. split; [exact Hr|]. split; [exact Ht|exact Hid].
Defined.
