(* ===== verification/ServiceExamples.v ===== *)
(** * ServiceExamples: a concrete service

    The process of [AppExamples] behind its router, with counters for tower's
    semaphores and a one-word wire format: a setup, a signing session over
    HTTP, a prepare that times out, a full route, an endless idle execution,
    and the socket test.  The hypotheses of the theorems on the service are met
    on them. *)

From S2P Require Import Prelude Bytes NativePolicy Bitcoin Program SignedView Guest Vault Evaluator GuestRuntime EndToEnd.
From S2P Require Import Keys Deployment ArkSigner VaultService.
From S2P Require Import Contract SignerContract ArkExamples Nsm App Service Admission ServiceContract ServiceTest AppExamples.

Open Scope N_scope.

Module SampleService.

Export AppExamples.SampleApp.

#[export] Instance tower : Tower := {|
  Limit := N;
  limit_new n := n;
  poll_ready l := if l =? 0 then None else Some (l - 1);
  drop_permit l := l + 1;
  timer_fired d started now := started + d <=? now;
  permits l := l;
|}.

#[export] Instance tower_laws : TowerLaws.
Proof.
  split; cbn; try done.
  - intros l. by destruct (N.eqb_spec l 0).
  - intros l l'. destruct (N.eqb_spec l 0); [done|]. intros [= <-]. lia.
  - intros d s t. apply N.leb_le.
Qed.

Definition derived_root : Xpriv := match derivation with Ok root_ => root_ | _ => sample_root end.

(** The ownership request of [ArkExamples] under the derived root. *)
Definition status_request : PrepareRequest := {|
  prepare_protocol := SIGNING_PROTOCOL;
  prepare_key := {| key_root := derived_root; user_pubkey := lit "user"; key_evaluator := wasm_id;
                    key_program := SampleHost.module; key_parameters := [];
                    key_program_id := wasm_id ++ SampleHost.module |};
  prepare_user_nonce := lit "aabb"; prepare_action := Ownership Status |}.

(** The vault spend of [ArkExamples] under the derived root. *)
Definition spend_request : PrepareRequest := {|
  prepare_protocol := SIGNING_PROTOCOL;
  prepare_key := {| key_root := derived_root; user_pubkey := lit "user"; key_evaluator := wasm_id;
                    key_program := SampleHost.module; key_parameters := vault_parameters_bytes;
                    key_program_id := wasm_id ++ SampleHost.module ++ vault_parameters_bytes |};
  prepare_user_nonce := lit "aabb"; prepare_action := Spend (SampleContext.context, []) |}.

Definition word {A} (w : string) (a : A) (body : bytes) : Result (N * bytes) A :=
  if decide (body = lit w) then Ok a else Err (UNPROCESSABLE_ENTITY, lit "missing field").

#[export] Instance axum : Axum := {|
  MAX_REQUEST_BYTES := 65536;
  settings_of_body _ := word "settings" SampleKeys.settings;
  nonce_of_body _ body := Ok body;
  prepare_of_body _ body := if decide (body = lit "spend") then Ok spend_request else word "status" status_request body;
  finish_of_body _ := word "finish" finish_request;
  cancel_of_body _ := word "cancel" {| cancel_protocol := SIGNING_PROTOCOL; cancel_session := session |};
  attestation_json := document;
  prepare_json := response_session;
  finish_json := program_partial;
|}.

#[export] Instance wire : HttpWire := {|
  http_response code body := lit "HTTP/1.1 " ++ status_digits code ++ CRLF ++ CRLF ++ body;
|}.

#[export] Instance wire_laws : HttpWireLaws.
Proof. split. intros code body. by exists []. Qed.

Definition deadline_ns : N := REQUEST_TIMEOUT_SECS * 1000000000.

Definition service : Server := serving start 5.

Definition publication : list Stimulus := [
  Arrive POST (lit "/setup"); Body 0 (lit "settings") (env 5); SetupStep 0 (Derived SampleKeys.proxy);
  SignerStep SignerReceives; SignerStep (SignerBinds (Ok tt)); SetupStep 0 ReadyReceived].

Definition preparing : list Stimulus := [Arrive POST (lit "/ark/prepare"); Body 1 (lit "status") (env 5)].

Definition spending : list Stimulus := [Arrive POST (lit "/ark/prepare"); Body 1 (lit "spend") (env 5)].

Definition finishing : list Stimulus := [TaskRuns 0 (env 5); Arrive POST (lit "/ark/finish")].

(** The server after the stimuli, or the start when one is not enabled. *)
Definition server_after (stimuli : list Stimulus) : Server :=
  match server_run deadline_ns service stimuli with Some (srv, _) => srv | None => service end.

(** The statuses the clients saw. *)
Definition statuses (stimuli : list Stimulus) : list (N * N) :=
  match server_run deadline_ns service stimuli with
  | Some (_, outs) => omap (fun o => match snd o with Responded code _ => Some (fst o, code) | Reset => None end) outs
  | None => []
  end.

Lemma server_run_serves d srv outs0 srv0 stimuli srv1 outs :
  serves d srv outs0 srv0 -> server_run d srv0 stimuli = Some (srv1, outs) -> serves d srv (outs0 ++ outs) srv1.
Proof.
  revert outs0 srv0 outs; induction stimuli as [|s stimuli IH]; intros outs0 srv0 outs H Hr; cbn in Hr.
  - injection Hr as <- <-. by rewrite app_nil_r.
  - destruct (server_step d srv0 s) as [[srv2 out]|] eqn:Hs; [|done]. cbn in Hr.
    destruct (server_run d srv2 stimuli) as [[srv3 outs']|] eqn:Hrun; [|done]. injection Hr as <- <-.
    rewrite app_assoc. eapply IH; [by eapply serves_next|done].
Qed.

(** The Ark operations of a schedule. *)
Fixpoint events_of (d : N) (srv : Server) (stimuli : list Stimulus) : list Event :=
  match stimuli with
  | [] => []
  | s :: stimuli =>
      ark_trace (core srv) (core_actions srv s)
      ++ match server_step d srv s with Some (srv', _) => events_of d srv' stimuli | None => [] end
  end.

Lemma server_run_signs d srv events0 srv0 stimuli srv1 outs :
  signs d srv events0 srv0 -> server_run d srv0 stimuli = Some (srv1, outs) ->
  signs d srv (events0 ++ events_of d srv0 stimuli) srv1.
Proof.
  revert events0 srv0 outs; induction stimuli as [|s stimuli IH]; intros events0 srv0 outs H Hr; cbn in Hr.
  - injection Hr as <- _. cbn. by rewrite app_nil_r.
  - destruct (server_step d srv0 s) as [[srv2 out]|] eqn:Hs; [|done]. cbn in Hr.
    destruct (server_run d srv2 stimuli) as [[srv3 outs']|] eqn:Hrun; [|done]. injection Hr as <- _.
    cbn [events_of]. rewrite Hs, app_assoc. eapply IH; [by eapply signs_next|done].
Qed.

Lemma after_serves stimuli : exists outs, serves deadline_ns service outs (server_after stimuli).
Proof.
  unfold server_after. destruct (server_run deadline_ns service stimuli) as [[srv outs]|] eqn:H.
  - exists outs. by apply (server_run_serves _ _ [] service stimuli _ _ (serves_start _ _)).
  - exists []. constructor.
Qed.

Lemma after_signs stimuli : exists events, signs deadline_ns service events (server_after stimuli).
Proof.
  unfold server_after. destruct (server_run deadline_ns service stimuli) as [[srv outs]|] eqn:H.
  - eexists. exact (server_run_signs _ _ [] service stimuli _ _ (signs_start _ _) H).
  - exists []. constructor.
Qed.

End SampleService.

Import SampleService.

Example http_session :
  statuses (publication ++ preparing ++ finishing ++ [Body 2 (lit "finish") (env 5)]) = [(0, 200); (1, 200); (2, 200)].
Proof. vm_compute. reflexivity. Qed.

(* ------------------------------------------------------------------ *)
(** ** Witnesses *)

Lemma signer_refines_contract_witness : exists events final,
  run signer calls = (events, final) /\
  ledger_run (contract := signer_contract signer) (empty_ledger (contract := signer_contract signer))
    (entry_of signer <$> events) (ledger_of signer final).
Proof.
  destruct (run signer calls) as [events final] eqn:H. exists events, final. split; [reflexivity|].
  exact (signer_refines_contract sample_root signer calls events final new_signer H).
Defined.

(** Sixteen stalled setups. *)
Definition stalled_setups : list Stimulus := replicate 16 (Arrive POST (lit "/setup")).

Lemma sheds_iff_full_witness :
  in_flight Setup (server_after stalled_setups) = 16 /\
  snd (arrive (server_after stalled_setups) setup_route) = [(16, Responded 503 (lit "API capacity exceeded"))].
Proof.
  assert (in_flight Setup (server_after stalled_setups) = 16) as Hfull by (vm_compute; reflexivity).
  split; [exact Hfull|]. destruct (after_serves stalled_setups) as [outs Hs].
  destruct (sheds_iff_full deadline_ns (Some 3%Z) 5 outs _ setup_route Hs) as (_ & _ & [H _] & _).
  rewrite (H Hfull). vm_compute. reflexivity.
Defined.

Lemma service_refines_app_witness :
  (exists actions replies, app_run start actions = Some (core (server_after (publication ++ preparing)), replies)) /\
  evaluating (core (server_after (publication ++ preparing))) = 1.
Proof.
  destruct (after_serves (publication ++ preparing)) as [outs Hs].
  destruct (service_refines_app deadline_ns (Some 3%Z) 5 outs _ Hs) as (Hr & _ & _ & He).
  split; [exact Hr|]. rewrite He. vm_compute. reflexivity.
Defined.

(** A stalled setup, whose deadline fires, and then time alone. *)
Definition at_idle (n : nat) : Server :=
  match n with
  | 0%nat => serving start 0
  | 1%nat => fst (arrive (serving start 0) setup_route)
  | S (S n) =>
      let srv := fst (arrive (serving start 0) setup_route) in
      let waiting := {| core := core srv; limits := limits srv; exchanges := exchanges srv;
                        next_exchange := next_exchange srv; tasks := tasks srv; clock := deadline_ns |} in
      match n with
      | 0%nat => waiting
      | S n =>
          let done_ := drop_exchange waiting 0 {| route := setup_route; started := 0; phase := Extracting |} in
          {| core := core done_; limits := limits done_; exchanges := exchanges done_;
             next_exchange := next_exchange done_; tasks := tasks done_; clock := deadline_ns + N.of_nat n |}
      end
  end.

Definition idle_stimulus (n : nat) : Stimulus :=
  match n with
  | 0%nat => Arrive POST (lit "/setup")
  | 1%nat => Tick deadline_ns
  | 2%nat => Deadline 0
  | S (S (S n)) => Tick (deadline_ns + N.of_nat (S n))
  end.

Definition idle_emits (n : nat) : list (N * Outcome) :=
  match n with 2%nat => [(0, Responded 408 (lit "request deadline exceeded"))] | _ => [] end.

Lemma idle_step n : server_step deadline_ns (at_idle n) (idle_stimulus n) = Some (at_idle (S n), idle_emits n).
Proof.
  destruct n as [|[|[|n]]]; [reflexivity|reflexivity|reflexivity|].
  cbn [server_step idle_stimulus at_idle clock idle_emits].
  rewrite (proj2 (N.leb_le _ _)) by lia. reflexivity.
Qed.

Definition idle : execution deadline_ns :=
  {| at_step := at_idle; stimulus_at := idle_stimulus; emitted := idle_emits; execution_step := idle_step |}.

Lemma idle_fair : fair deadline_ns idle.
Proof.
  split.
  - intros n T. exists (S (S (S (n + N.to_nat T)))). split; [lia|]. cbn -[deadline_ns drop_exchange arrive]. lia.
  - intros n id. exists (S (S (S n))). split; [lia|]. right.
    assert (exchanges (at_idle (S (S (S n)))) = ∅) as E by reflexivity.
    cbn [server_step at_step idle]. rewrite E, lookup_empty. reflexivity.
Qed.

Lemma no_client_pins_a_route_witness : exists m,
  forall k, (m <= k)%nat -> permits (limits (at_idle k) Setup) = 16.
Proof.
  destruct (proj2 (no_client_pins_a_route deadline_ns (Some 3%Z) 0 idle Setup 1 eq_refl idle_fair)) as (m & _ & Hm).
  - intros k method path r Hk Hst. destruct k as [|[|[|k]]]; [inversion Hk|discriminate Hst..].
  - exists m. exact Hm.
Defined.

Definition overdue : Server := server_after (publication ++ preparing ++ [Tick (5 + deadline_ns)]).

Lemma timed_out_prepare_retained_witness : exists srv' srv2 env_,
  server_step deadline_ns overdue (Deadline 1) = Some (srv', [(1, Responded 408 (lit "request deadline exceeded"))]) /\
  server_step deadline_ns srv' (TaskRuns 0 env_) = Some (srv2, []).
Proof.
  destruct (after_serves (publication ++ preparing ++ [Tick (5 + deadline_ns)])) as [outs Hs].
  assert (match exchanges overdue !! 1 with Some ex => bool_decide (phase ex = OnPrepare) | None => false end = true) as Hw
    by (vm_compute; reflexivity).
  destruct (exchanges overdue !! 1) as [ex|] eqn:Hex; [|discriminate Hw]. apply bool_decide_eq_true in Hw.
  assert (match server_step deadline_ns overdue (Deadline 1) with
          | Some (srv', _) => (length (tasks srv') =? 1)%nat | None => false end = true) as Hstep by (vm_compute; reflexivity).
  destruct (server_step deadline_ns overdue (Deadline 1)) as [[srv' out]|] eqn:Hd; [|discriminate Hstep].
  destruct (timed_out_prepare_retained deadline_ns (Some 3%Z) 5 outs overdue 1 ex srv' out Hs Hex Hw Hd)
    as (-> & _ & _ & k & request & signer & Hk & _ & Hrun).
  assert (k = 0%nat) as -> by (apply lookup_lt_Some in Hk; apply Nat.eqb_eq in Hstep; lia).
  destruct (Hrun {| now := clock srv'; nonce_randomness := lit "secret"; session_ids := ids |} eq_refl) as (srv2 & H2 & _).
  exists srv', srv2. eexists. split; [reflexivity|exact H2].
Defined.

Definition redeeming : Server := server_after (publication ++ preparing ++ finishing).

Lemma http_share_authorized_witness : exists srv' share_body b pre e0 mid,
  server_step deadline_ns redeeming (Body 2 (lit "finish") (env 5)) = Some (srv', [(2, Responded OK share_body)]) /\
  identity (app (core redeeming)) = Some (b_identity b) /\
  (exists events, signs deadline_ns service events redeeming /\ events = pre ++ e0 :: mid) /\
  clock redeeming < now (event_env e0) + SESSION_LIFETIME.
Proof.
  destruct (after_signs (publication ++ preparing ++ finishing)) as [events Hs].
  assert (match exchanges redeeming !! 2 with Some ex => bool_decide (route_handler (route ex) = ArkFinish) | None => false end = true)
    as Hw by (vm_compute; reflexivity).
  destruct (exchanges redeeming !! 2) as [ex|] eqn:Hex; [|discriminate Hw]. apply bool_decide_eq_true in Hw.
  assert (extract (route ex) (lit "finish") = Ok (FinishInput finish_request)) as Hin
    by (unfold extract; rewrite Hw; reflexivity).
  assert (match server_step deadline_ns redeeming (Body 2 (lit "finish") (env 5)) with
          | Some (_, [(2, Responded 200 _)]) => true | _ => false end = true) as Hstep by (vm_compute; reflexivity).
  destruct (server_step deadline_ns redeeming (Body 2 (lit "finish") (env 5))) as [[srv' out]|] eqn:Hd; [|discriminate Hstep].
  assert (exists share_body, out = [(2, Responded OK share_body)]) as [share_body ->].
  { repeat case_match; try discriminate Hstep; subst; by eexists. }
  destruct (http_share_authorized deadline_ns (Some 3%Z) 5 events redeeming 2 ex (lit "finish") (env 5) finish_request srv'
    share_body Hs Hex Hin Hd) as (b & response & pre & e0 & mid & _ & _ & _ & _ & _ & _ & Hid & _ & Hev & _ & _ & _ & _ & _ & _ & _ & _ & Ht & _).
  exists srv', share_body, b, pre, e0, mid. split; [reflexivity|]. split; [exact Hid|]. split; [|exact Ht].
  exists events. split; [exact Hs|exact Hev].
Defined.

Definition sweeping : Server := server_after (publication ++ spending ++ finishing).

(** A prepare of the vault spend. *)
Definition asks_spend (call : Call) : bool :=
  match call with
  | Prepare r =>
      bool_decide (key_evaluator (prepare_key r) = wasm_id) && bool_decide (key_program (prepare_key r) = SampleHost.module)
      && bool_decide (key_parameters (prepare_key r) = vault_parameters_bytes)
      && match prepare_action r with Spend (i, w) => bool_decide (i = SampleContext.context) | Ownership _ => false end
  | _ => true
  end.

Lemma sweeping_signs :
  signs deadline_ns service (events_of deadline_ns service (publication ++ spending ++ finishing)) sweeping.
Proof.
  assert (match server_run deadline_ns service (publication ++ spending ++ finishing) with Some _ => true | None => false end = true)
    as H by (vm_compute; reflexivity).
  unfold sweeping, server_after. destruct (server_run _ _ _) as [[srv outs]|] eqn:Hr; [|discriminate H].
  exact (server_run_signs _ _ [] service _ _ _ (signs_start _ _) Hr).
Qed.

Lemma sweeping_asks :
  forallb (fun e => asks_spend (event_call e)) (events_of deadline_ns service (publication ++ spending ++ finishing)) = true.
Proof. vm_compute. reflexivity. Qed.

Lemma vault_share_over_http_witness : exists srv' share_body spent paid,
  server_step deadline_ns sweeping (Body 2 (lit "finish") (env 5)) = Some (srv', [(2, Responded OK share_body)]) /\
  prevout_list SampleContext.context = [spent] /\ tx_output (unsigned_tx (psbt SampleContext.context)) = [paid] /\
  Bitcoin.script_pubkey paid = lit "destination" /\ value spent - value paid <= 1000.
Proof.
  assert (match exchanges sweeping !! 2 with Some ex => bool_decide (route_handler (route ex) = ArkFinish) | None => false end = true)
    as Hw by (vm_compute; reflexivity).
  destruct (exchanges sweeping !! 2) as [ex|] eqn:Hex; [|discriminate Hw]. apply bool_decide_eq_true in Hw.
  assert (extract (route ex) (lit "finish") = Ok (FinishInput finish_request)) as Hin
    by (unfold extract; rewrite Hw; reflexivity).
  assert (match server_step deadline_ns sweeping (Body 2 (lit "finish") (env 5)) with
          | Some (_, [(2, Responded 200 _)]) => true | _ => false end = true) as Hstep by (vm_compute; reflexivity).
  destruct (server_step deadline_ns sweeping (Body 2 (lit "finish") (env 5))) as [[srv' out]|] eqn:Hd; [|discriminate Hstep].
  assert (exists share_body, out = [(2, Responded OK share_body)]) as [share_body ->].
  { repeat case_match; try discriminate Hstep; subst; by eexists. }
  assert (linked 65536 SampleHost.sections (fun _ => vault_evaluate) SampleHost.module) as Hlink
    by (repeat split; vm_compute; congruence).
  destruct (vault_share_over_http 65536 SampleHost.sections SampleHost.module deadline_ns (Some 3%Z) 5 _ sweeping 2 ex
    (lit "finish") (env 5) finish_request srv' share_body Hlink sweeping_signs Hex Hin Hd)
    as (b & response & e0 & request0 & response0 & program & x & _ & _ & _ & He & Hcall & _ & _ & Hc & _ & _ & Hrule).
  pose proof sweeping_asks as Hasks. rewrite forallb_forall in Hasks. apply list_elem_of_In, Hasks in He. rewrite Hcall in He.
  cbn [asks_spend] in He. destruct (prepare_action request0) as [[i w]|] eqn:Hact;
    rewrite !andb_true_iff, !bool_decide_eq_true in He; destruct He as (((He & Hm) & Hp) & Hi); [|discriminate Hi].
  subst i. apply check_request_inv in Hc as (_ & [[_ _ Hprog _ _] _] & _).
  rewrite He, Hm, Hp in Hprog.
  destruct (Hrule 1000 (lit "destination") (SampleContext.context, w)) as (input & Hinput & Hsweep);
    [vm_compute; reflexivity|vm_compute; discriminate|exact Hprog|reflexivity|].
  apply Ok_inj in Hinput as <-. destruct (Hsweep SampleContext.native) as (_ & spent & paid & Hspent & Hpaid & Hd1 & _ & Hfee).
  exists srv', share_body, spent, paid. split; [reflexivity|]. by repeat (split; [done|]).
Defined.

(** A network that delivers a response in one piece. *)
Definition whole (bs : bytes) : list Read := [Chunk bs].

Lemma whole_delivers : delivers whole.
Proof.
  intros bs. destruct bs as [|b bs].
  - exists [], [Chunk []]. by repeat split.
  - exists [b :: bs], []. split; [done|]. split; [cbn; by rewrite app_nil_r|]. split; [by constructor|].
    by intros c cs [= <- <-].
Qed.

Lemma stalled_body_test_passes_witness :
  stalled_body_is_rejected_at_the_request_deadline 100000000 7 200000000 (env 200000000) whole = Ok tt.
Proof.
  apply (stalled_body_test_passes 100000000 7 200000000 (env 200000000) whole (lit "missing field"));
    [lia|reflexivity|exact whole_delivers|reflexivity].
Defined.
