(* ===== verification/HttpExamples.v ===== *)
(** * HttpExamples: an honest wallet on a concrete service

    The wallet of [ProtocolExamples] in front of a published service, with a
    wire format of two words. *)

From S2P Require Import Prelude Bytes NativePolicy Bitcoin Program SignedView Evaluator EndToEnd Keys Deployment ArkSigner.
From S2P Require Import Scenario SigningProtocol SignerTests ProtocolExamples Nsm App AppExamples Service Admission HttpSigning.
From S2P Require Import ServiceExamples.

Open Scope N_scope.

Import SampleMusig.

Module SampleHttp.

#[export] Existing Instances SampleApp.driver SampleService.tower SampleService.tower_laws.

#[export] Instance applib : AppLib := {|
  oracle_public_root o := fst o;
  identity_to_string i := Ok (mode i ++ snd (xpub i));
  base64_encode bs := Bytes.hex_encode bs;
  nonce_from_hex bs := ok_or (hex_decode bs) "odd length or invalid digit"%string;
  error_to_string _ := lit "error";
|}.

(** What the wallet sends. *)
Definition first_request : PrepareRequest :=
  honest_request (fixture false) (action false) (wallet_randomness (world 0%nat)).

Definition second_request : Result Error FinishRequest :=
  prepared_finish <$> fst (Fixture_prepare world (fixture false) {| test_signer := signer; tick := 0%nat |}).

Definition unprocessable {A} : Result (N * bytes) A := Err (UNPROCESSABLE_ENTITY, lit "missing field").

#[export] Instance axum : Axum := {|
  MAX_REQUEST_BYTES := 65536;
  settings_of_body _ _ := unprocessable;
  nonce_of_body _ _ := unprocessable;
  prepare_of_body _ body := if decide (body = lit "prepare") then Ok first_request else unprocessable;
  finish_of_body _ body :=
    match second_request with Ok r => if decide (body = lit "finish") then Ok r else unprocessable | _ => unprocessable end;
  cancel_of_body _ _ := unprocessable;
  attestation_json a := App.document a;
  prepare_json r := response_session r;
  finish_json r := program_partial r;
|}.

(** A service that has published this signer, at the wallet's time. *)
Definition published : Server :=
  serving (with_app (initial (Some 3%Z))
    {| identity := Some (lit "identity"); ark_signer := Some signer; ark_admission := MAX_CONNECTIONS;
       setup_gate := false; nsm := Some 3%Z |}) (now (signer_env (world 1%nat))).

End SampleHttp.

Import SampleHttp.

Lemma published_open : open_for_signing published signer.
Proof. split; [by eexists|reflexivity|vm_compute; discriminate..]. Qed.

Lemma second_built : is_ok second_request = true.
Proof. vm_compute. reflexivity. Qed.

Lemma http_signing_completes_witness : exists response share signature srv1 srv2,
  server_run 30 published (prepare_stimuli published (lit "prepare") (signer_env (world 1%nat)) (signer_env (world 1%nat))) =
    Some (srv1, [(0, Responded OK (prepare_json response))]) /\
  server_run 30 srv1 (finish_stimuli srv1 (lit "finish") (signer_env (world 2%nat))) =
    Some (srv2, [(1, Responded OK (finish_json share))]) /\
  verify_schnorr signature (lit "message") (lit "key") = Ok tt.
Proof.
  destruct (http_signing_completes 30 published signer world 0%nat (fixture false) (action false) (intent false)
    (program false) (lit "prepare") (signer_env (world 1%nat)))
    as (prepared & response & srv1 & Hfix & _ & Hrun & Hfinish);
    [exact published_open|by split|exact world_healthy|exact (fixtures_authentic false)|exact (fixtures_admissible false)| |
     reflexivity|reflexivity| |].
  - split; vm_compute; reflexivity.
  - intros n Hn. cbn in Hn. apply Ok_inj in Hn as <-. reflexivity.
  - destruct (Hfinish (lit "finish") (signer_env (world 2%nat))) as (share & signature & srv2 & Hrun2 & _ & Hs).
    + cbn [finish_of_body axum]. unfold second_request. by rewrite Hfix.
    + split; vm_compute; [discriminate|reflexivity].
    + exists response, share, signature, srv1, srv2. split; [exact Hrun|]. split; [exact Hrun2|]. exact Hs.
Defined.
