(* ===== verification/Client.v ===== *)
(** * Client: command lines and the verified identity
    (src/main.rs, examples/support/mod.rs)

    [main] is the binary's dispatch on its arguments; [options] and
    [load_identity] are what every signing example runs before it trusts an
    oracle.  The file system, serde_json and the address parser are the
    interface [ClientLib]; an argument is its bytes, with [to_str] its UTF-8
    reading. *)

From S2P Require Import Prelude Bytes Bitcoin Program SignedView Evaluator Keys Deployment Nsm.

Open Scope N_scope.

(* ------------------------------------------------------------------ *)
(** ** main.rs *)

Inductive MainAction :=
| PrintHelp
| PrintProfile
| Run (nsm : option Z).

(** [local_dev] is the cargo feature, off in enclave builds. *)
Definition main `{!NsmDriver} (local_dev : bool) (args : list bytes) : Result Error MainAction :=
  let command := head args in
  _ ← ensure (bool_decide (tail args = [])) (Message "unexpected arguments; use --help");
  match command with
  | Some argument =>
      if decide (argument = lit "--help") then Ok PrintHelp
      else if decide (argument = lit "--program-profile") then Ok PrintProfile
      else if local_dev && bool_decide (argument = lit "--local-dev") then Ok (Run None)
      else Err (Message "unexpected arguments; use --help")
  | None =>
      nsm ← Nsm_open;
      Ok (Run (Some nsm))
  end.

(* ------------------------------------------------------------------ *)
(** ** support/mod.rs *)

Definition MAX_IDENTITY_BYTES : N := 64 * 1024.

#[export] Instance ark_profile_eq_dec : EqDecision ArkSigningProfile.
Proof. solve_decision. Defined.
#[export] Instance inline_evaluator_eq_dec : EqDecision InlineEvaluator.
Proof. solve_decision. Defined.
#[export] Instance registered_evaluator_eq_dec : EqDecision RegisteredEvaluator.
Proof. solve_decision. Defined.
#[export] Instance program_profile_eq_dec : EqDecision ProgramProfile.
Proof. solve_decision. Defined.

Class ClientLib := {
  SocketAddr : Type;
  NetworkKind : Type;
  network_kind_eq_dec :: EqDecision NetworkKind;
  network_kind : Network -> NetworkKind;
  ClientXpub : Type;
  xpub_network : ClientXpub -> NetworkKind;
  Value : Type;
  is_object : Value -> bool;
  is_null : Value -> bool;
  settings_network : Value -> Result Error Network;
  to_str : bytes -> option bytes;
  debug_argument : bytes -> string;
  parse_address : bytes -> Result string SocketAddr;
  read_file : bytes -> Result Error bytes;
}.

Section Client.
  Context {clientlib : ClientLib}.

Record ClientIdentity := {
  client_protocol : bytes;
  client_mode : bytes;
  client_xpub : ClientXpub;
  client_settings : Value;
  client_signing : ProgramProfile;
}.

Record Options := {
  address : SocketAddr;
  identity_path : bytes;
  allow_local_dev : bool;
}.

(** The loop over the remaining arguments; [None] is a request for help. *)
Fixpoint options_loop (args : list bytes) (address_ : option SocketAddr) (identity : option bytes)
    (allow : bool) : Result Error (option Options) :=
  match args with
  | [] =>
      address_ ← ok_or address_ (Message "--address is required; use --help");
      identity ← ok_or identity (Message "--identity is required; use --help");
      Ok (Some {| address := address_; identity_path := identity; allow_local_dev := allow |})
  | argument :: args =>
      let named name := bool_decide (to_str argument = Some (lit name)) in
      if named "--help"%string then Ok None
      else if named "--address"%string && bool_decide (~ is_Some address_) then
        match args with
        | [] => Err (Message "--address needs IP:PORT")
        | value :: args =>
            value ← ok_or (to_str value) (Message "address must be UTF-8");
            parsed ← context "address must be an explicit numeric SocketAddr"
                       (map_err Foreign (parse_address value));
            options_loop args (Some parsed) identity allow
        end
      else if named "--identity"%string && bool_decide (identity = None) then
        match args with
        | [] => Err (Message "--identity needs FILE")
        | value :: args => options_loop args address_ (Some value) allow
        end
      else if named "--allow-local-dev"%string && negb allow then options_loop args address_ identity true
      else Err (Message ("unknown or repeated argument: " +:+ debug_argument argument +:+ "; use --help"))
  end.

Definition options (args : list bytes) : Result Error (option Options) :=
  options_loop args None None false.

Context {sapio : SapioProgram} {prim : KeyPrimitives} {upstream : Upstream}.
Context (identity_from_slice : bytes -> Result Error ClientIdentity).

Definition load_identity (o : Options) : Result Error ClientIdentity :=
  content ← context "opening identity file" (read_file (identity_path o));
  let bytes := firstn (N.to_nat (MAX_IDENTITY_BYTES + 1)) content in
  _ ← ensure (len bytes <=? MAX_IDENTITY_BYTES) (Message "identity exceeds 64 KiB");
  identity ← context "parsing identity JSON" (identity_from_slice bytes);
  _ ← ensure (bool_decide (client_protocol identity = IDENTITY_PROTOCOL))
        (Message "unsupported identity protocol");
  _ ← ensure (bool_decide (client_signing identity = program_profile))
        (Message "identity has an unexpected program profile");
  _ ← (if decide (client_mode identity = lit "nitro") then
         _ ← ensure (is_object (client_settings identity)) (Message "Nitro identity requires settings");
         network ← context "Nitro identity settings need a named network"
                     (settings_network (client_settings identity));
         ensure (bool_decide (xpub_network (client_xpub identity) = network_kind network))
           (Message "Nitro identity xpub does not match its settings network")
       else if bool_decide (client_mode identity = lit "local-dev") && allow_local_dev o then
         _ ← ensure (is_null (client_settings identity)) (Message "local-dev settings must be null");
         ensure (bool_decide (xpub_network (client_xpub identity) = network_kind Regtest))
           (Message "local-dev requires a test-network xpub")
       else Err (Message "expected nitro identity (local-dev requires --allow-local-dev)"));
  Ok identity.

(* ------------------------------------------------------------------ *)
(** ** The grammar of the options *)

Inductive Flag :=
| AddressFlag (value : bytes)
| IdentityFlag (value : bytes)
| AllowLocalDevFlag.

(** The command lines that spell a sequence of flags. *)
Inductive spells : list Flag -> list bytes -> Prop :=
| spells_nil : spells [] []
| spells_address name value flags args :
    to_str name = Some (lit "--address") -> spells flags args ->
    spells (AddressFlag value :: flags) (name :: value :: args)
| spells_identity name value flags args :
    to_str name = Some (lit "--identity") -> spells flags args ->
    spells (IdentityFlag value :: flags) (name :: value :: args)
| spells_allow name flags args :
    to_str name = Some (lit "--allow-local-dev") -> spells flags args ->
    spells (AllowLocalDevFlag :: flags) (name :: args).

Definition addresses (flags : list Flag) : list bytes :=
  omap (fun f => match f with AddressFlag v => Some v | _ => None end) flags.

Definition identities (flags : list Flag) : list bytes :=
  omap (fun f => match f with IdentityFlag v => Some v | _ => None end) flags.

Definition allowances (flags : list Flag) : list unit :=
  omap (fun f => match f with AllowLocalDevFlag => Some tt | _ => None end) flags.

Definition reads_address (value : bytes) (a : SocketAddr) : Prop :=
  exists text, to_str value = Some text /\ parse_address text = Ok a.

(** What the remaining flags give to [o] once the loop holds these values: each
    option comes from exactly one place. *)
Definition completes (flags : list Flag) (address_ : option SocketAddr) (identity : option bytes)
    (allow : bool) (o : Options) : Prop :=
  match address_ with
  | Some a => address o = a /\ addresses flags = []
  | None => exists value, addresses flags = [value] /\ reads_address value (address o)
  end /\
  match identity with
  | Some p => identity_path o = p /\ identities flags = []
  | None => identities flags = [identity_path o]
  end /\
  (if allow then allow_local_dev o = true /\ allowances flags = []
   else allowances flags = if allow_local_dev o then [tt] else []).

Lemma loop_nil address_ identity allow o :
  options_loop [] address_ identity allow = Ok (Some o) <-> completes [] address_ identity allow o.
Proof.
  unfold completes. cbn. split.
  - intros H. apply bind_ok in H as (a & Ha & H). apply bind_ok in H as (p & Hp & H).
    apply ok_or_ok in Ha as ->. apply ok_or_ok in Hp as ->. apply Ok_inj in H as [= <-]. cbn. by destruct allow.
  - destruct o as [a p al]. cbn. intros (Ha & Hp & Hal).
    destruct address_; [|by destruct Ha as (? & ? & _)]. destruct identity; [|done].
    destruct Ha as [-> _], Hp as [-> _]. destruct allow; [by destruct Hal as [-> _]|]. by destruct al.
Qed.

(** Which flag an argument names, by the arms of the match. *)
Ltac named_as E :=
  cbn [options_loop]; rewrite E;
  repeat match goal with
  | |- context [bool_decide (Some (lit ?a) = Some (lit ?b))] =>
      let v := eval vm_compute in (bool_decide (Some (lit a) = Some (lit b))) in
      change (bool_decide (Some (lit a) = Some (lit b))) with v
  end; cbn [andb].

Lemma loop_address name value args address_ identity allow o :
  to_str name = Some (lit "--address") ->
  options_loop (name :: value :: args) address_ identity allow = Ok (Some o) <->
  address_ = None /\ exists a, reads_address value a /\
    options_loop args (Some a) identity allow = Ok (Some o).
Proof.
  intros E. named_as E. destruct address_ as [a|]; cbn.
  { split; [discriminate|by intros [? _]]. }
  unfold reads_address. split.
  - intros H. split; [done|]. apply bind_ok in H as (t & Ht & H). apply ok_or_ok in Ht.
    apply bind_ok in H as (a & Ha & H). apply context_ok, map_err_ok in Ha. eauto.
  - intros (_ & a & (t & -> & Hp) & H). cbn. by rewrite Hp.
Qed.

Lemma loop_identity name value args address_ identity allow o :
  to_str name = Some (lit "--identity") ->
  options_loop (name :: value :: args) address_ identity allow = Ok (Some o) <->
  identity = None /\ options_loop args address_ (Some value) allow = Ok (Some o).
Proof.
  intros E. named_as E. destruct identity; cbn; [split; [discriminate|by intros [? _]]|by split; [|intros [_ ?]]].
Qed.

Lemma loop_allow name args address_ identity allow o :
  to_str name = Some (lit "--allow-local-dev") ->
  options_loop (name :: args) address_ identity allow = Ok (Some o) <->
  allow = false /\ options_loop args address_ identity true = Ok (Some o).
Proof.
  intros E. named_as E. destruct allow; cbn; [split; [discriminate|by intros [? _]]|by split; [|intros [_ ?]]].
Qed.

(** An accepted command line starts with one of the three flags. *)
Lemma loop_named name args address_ identity allow o :
  options_loop (name :: args) address_ identity allow = Ok (Some o) ->
  (exists value args', args = value :: args' /\
     (to_str name = Some (lit "--address") \/ to_str name = Some (lit "--identity"))) \/
  to_str name = Some (lit "--allow-local-dev").
Proof.
  cbn [options_loop]. repeat case_bool_decide; cbn [andb]; intros Hloop;
    repeat match type of Hloop with
    | match ?args with [] => _ | _ => _ end = _ => destruct args; [discriminate Hloop|]
    | (if ?b then _ else _) = _ => destruct b
    end; try discriminate Hloop; eauto 10.
Qed.

Lemma options_loop_iff args : forall address_ identity allow o,
  options_loop args address_ identity allow = Ok (Some o) <->
  exists flags, spells flags args /\ completes flags address_ identity allow o.
Proof.
  induction args as [args IH] using (induction_ltof1 _ (@length bytes)). unfold ltof in IH.
  intros address_ identity allow o. split.
  - intros H. destruct args as [|name args].
    { apply loop_nil in H. exists []. split; [constructor|done]. }
    destruct (loop_named _ _ _ _ _ _ H) as [(value & args' & -> & [E|E])|E].
    + apply loop_address in H as (-> & a & Ha & H); [|done].
      apply IH in H as (flags & Hs & (<- & Hz) & Hc); [|cbn; lia].
      exists (AddressFlag value :: flags). split; [by constructor|]. split; [|done].
      exists value. split; [|done]. unfold addresses in *. cbn. by rewrite Hz.
    + apply loop_identity in H as (-> & H); [|done].
      apply IH in H as (flags & Hs & Ha & (<- & Hz) & Hc); [|cbn; lia].
      exists (IdentityFlag (identity_path o) :: flags). split; [by constructor|]. split; [done|]. split; [|done].
      unfold identities in *. cbn. by rewrite Hz.
    + apply loop_allow in H as (-> & H); [|done].
      apply IH in H as (flags & Hs & Ha & Hi & (Hl & Hz)); [|cbn; lia].
      exists (AllowLocalDevFlag :: flags). split; [by constructor|]. do 2 (split; [done|]).
      rewrite Hl. unfold allowances in *. cbn. by rewrite Hz.
  - intros (flags & Hs & Ha & Hi & Hc). destruct Hs as [|name value flags args E Hs|name value flags args E Hs|name flags args E Hs].
    + by apply loop_nil.
    + apply loop_address; [done|]. destruct address_ as [a|]; [by destruct Ha as [_ Ha]|].
      destruct Ha as (v & [= -> Hz] & Hr). split; [done|]. exists (address o). split; [done|].
      apply IH; [cbn; lia|]. by exists flags.
    + apply loop_identity; [done|]. destruct identity as [p|]; [by destruct Hi as [_ Hi]|].
      injection Hi as -> Hz. split; [done|]. apply IH; [cbn; lia|]. by exists flags.
    + apply loop_allow; [done|]. destruct allow; [by destruct Hc as [_ Hc]|].
      cbn in Hc. destruct (allow_local_dev o) eqn:El; [|discriminate Hc]. injection Hc as Hz.
      split; [done|]. apply IH; [cbn; lia|]. exists flags. unfold completes. by rewrite El.
Qed.

(** An identity file is accepted exactly when every check passes. *)
Lemma load_identity_ok o identity :
  load_identity o = Ok identity <->
  exists content,
    read_file (identity_path o) = Ok content /\ len content <= MAX_IDENTITY_BYTES /\
    identity_from_slice content = Ok identity /\
    client_protocol identity = IDENTITY_PROTOCOL /\ client_signing identity = program_profile /\
    ((client_mode identity = lit "nitro" /\ is_object (client_settings identity) = true /\
      exists network, settings_network (client_settings identity) = Ok network /\
        xpub_network (client_xpub identity) = network_kind network) \/
     (client_mode identity = lit "local-dev" /\ allow_local_dev o = true /\
      is_null (client_settings identity) = true /\
      xpub_network (client_xpub identity) = network_kind Regtest)).
Proof.
  unfold load_identity. split.
  - intros H. apply bind_ok in H as (content & Hr & H). apply context_ok in Hr.
    apply bind_ok in H as ([] & Hl & H). apply ensure_ok, N.leb_le in Hl.
    assert (len content <= MAX_IDENTITY_BYTES) as Hlen.
    { unfold len in *. rewrite length_firstn in Hl. unfold MAX_IDENTITY_BYTES in *. lia. }
    rewrite firstn_all2 in H by (unfold len, MAX_IDENTITY_BYTES in *; lia).
    apply bind_ok in H as (i & Hi & H). apply context_ok in Hi.
    apply bind_ok in H as ([] & Hp & H). apply ensure_ok, bool_decide_eq_true in Hp.
    apply bind_ok in H as ([] & Hs & H). apply ensure_ok, bool_decide_eq_true in Hs.
    apply bind_ok in H as ([] & Hm & H). apply Ok_inj in H as <-.
    exists content. repeat (split; [done|]). destruct (decide (client_mode i = lit "nitro")) as [Hn|Hn].
    + left. apply bind_ok in Hm as ([] & Ho & Hm). apply ensure_ok in Ho.
      apply bind_ok in Hm as (n & Hnet & Hm). apply context_ok in Hnet.
      apply ensure_ok, bool_decide_eq_true in Hm. eauto.
    + right. destruct (bool_decide_reflect (client_mode i = lit "local-dev")) as [Hd|Hd]; [|done].
      destruct (allow_local_dev o); [|done]. cbn [andb] in Hm. apply bind_ok in Hm as ([] & Ho & Hm).
      apply ensure_ok in Ho. by apply ensure_ok, bool_decide_eq_true in Hm.
  - intros (content & Hr & Hl & Hi & Hp & Hs & Hm). rewrite Hr. cbn [context map_err mbind Result_bind].
    rewrite firstn_all2 by (unfold len, MAX_IDENTITY_BYTES in *; lia).
    apply N.leb_le in Hl. rewrite Hl. cbn [ensure mbind Result_bind]. rewrite Hi. cbn [context map_err mbind Result_bind].
    rewrite (bool_decide_eq_true_2 _ Hp), (bool_decide_eq_true_2 _ Hs). cbn [ensure mbind Result_bind].
    destruct Hm as [(Hn & Ho & network & Hnet & Hx)|(Hn & Ho & Hnull & Hx)].
    + rewrite decide_True by done. rewrite Ho. cbn [ensure mbind Result_bind]. rewrite Hnet.
      cbn [context map_err mbind Result_bind]. by rewrite bool_decide_eq_true_2.
    + rewrite decide_False by (rewrite Hn; vm_compute; discriminate).
      rewrite (bool_decide_eq_true_2 _ Hn), Ho. cbn [andb]. rewrite Hnull. cbn [ensure mbind Result_bind].
      by rewrite bool_decide_eq_true_2.
Qed.

End Client.

(* ------------------------------------------------------------------ *)
(** ** Properties *)

Section Theorems.
  Context {driver : NsmDriver} {clientlib : ClientLib}.
  Context {sapio : SapioProgram} {prim : KeyPrimitives} {upstream : Upstream}.

(** An enclave build serves only as an enclave: without the local-dev
    feature the binary starts its API on exactly the empty command line, and
    only with a device whose measurements are those of a production enclave. *)
Theorem production_requires_device args nsm :
  main false args = Ok (Run nsm) <->
  args = [] /\ exists fd, nsm = Some fd /\ Nsm_open = Ok fd /\
    (0 <= fd)%Z /\ forall index, index <= 2 -> measured fd index.
Proof.
  unfold main. split.
  - intros H. apply bind_ok in H as ([] & Ht & H). apply ensure_ok, bool_decide_eq_true in Ht.
    destruct args as [|a args]; cbn in *; [|repeat case_decide; done].
    apply bind_ok in H as (fd & Ho & H). apply Ok_inj in H as [= <-].
    split; [done|]. exists fd. do 2 (split; [done|]). by apply open_ok in Ho as (_ & ? & ?).
  - intros (-> & fd & -> & Ho & _). cbn. by rewrite Ho.
Qed.

(** A client accepts an identity file only when it is within the size limit,
    names the protocol, carries exactly the profile of this build, and is
    either a nitro identity whose key matches its settings' network or, when
    explicitly allowed, a local-dev identity with null settings and a
    test-network key. *)
Theorem load_identity_iff identity_from_slice o identity :
  load_identity identity_from_slice o = Ok identity <->
  exists content,
    read_file (identity_path o) = Ok content /\ len content <= MAX_IDENTITY_BYTES /\
    identity_from_slice content = Ok identity /\
    client_protocol identity = IDENTITY_PROTOCOL /\ client_signing identity = program_profile /\
    ((client_mode identity = lit "nitro" /\ is_object (client_settings identity) = true /\
      exists network, settings_network (client_settings identity) = Ok network /\
        xpub_network (client_xpub identity) = network_kind network) \/
     (client_mode identity = lit "local-dev" /\ allow_local_dev o = true /\
      is_null (client_settings identity) = true /\
      xpub_network (client_xpub identity) = network_kind Regtest)).
Proof. apply load_identity_ok. Qed.

(** The option parser of the clients accepts exactly the command lines that
    name one address and one identity file, in any order, and at most once
    [--allow-local-dev], with nothing else; the address is the one the numeric
    parser reads. *)
Theorem options_iff args o :
  options args = Ok (Some o) <->
  exists flags value, spells flags args /\
    addresses flags = [value] /\ reads_address value (address o) /\
    identities flags = [identity_path o] /\
    allowances flags = (if allow_local_dev o then [tt] else []).
Proof.
  unfold options. rewrite options_loop_iff. unfold completes. split.
  - intros (flags & Hs & (value & Ha & Hr) & Hi & Hc). by exists flags, value.
  - intros (flags & value & Hs & Ha & Hr & Hi & Hc). exists flags. split; [done|]. split; [by exists value|done].
Qed.

End Theorems.
