(* ===== verification/Lifecycle.v ===== *)
(** * Lifecycle: the process around the system of [App]
    (src/app.rs [run], src/main.rs)

    Termination of a setup by a measure on its scheduling steps; the local-dev
    branch of [run], which installs an ephemeral root before it serves; the
    supervision of the API, the signer thread and the shutdown signal; and
    the published identity as the example clients of [Client] read it. *)

From S2P Require Import Prelude Bytes NativePolicy Bitcoin Program SignedView Evaluator Keys Deployment ArkSigner Nsm.
From S2P Require Import App Client.

Open Scope N_scope.

Section Lifecycle.
  Context {sapio : SapioProgram} {prim : KeyPrimitives} {upstream : Upstream} {ark : ArkLib}.
  Context {requests : ArkRequests} {applib : AppLib} {driver : NsmDriver}.
  Context {runtime : WasmRuntime} {outpoint_codec : OutPointCodec} {auth : NativeAuth}.
  Context {codec : PolicyCodec VtxoPolicy}.

(* ------------------------------------------------------------------ *)
(** ** The local-dev branch of [run] *)

(** [seed] is the operating system's randomness; [binds] what the signer thread
    reports of its listener within five seconds, if anything. *)
Definition local_dev_start (seed : bytes) (binds : option (Result string unit)) : Result Error System :=
  root ← map_err Foreign (new_master Regtest seed);
  '(oracle, signer, identity) ← install_start (app (initial None)) root None;
  match binds with
  | Some (Ok _) =>
      let '(installed, st) := install_finish (app (initial None)) signer identity in
      _ ← installed;
      Ok {| app := st; setup_task := None; work := None; thread := Serving oracle; ready := ∅;
            next_job := 1; evaluating := 0 |}
  | Some (Err error) => Err (Message ("signer listener failed: " +:+ error))
  | Some (Panic _) => Err (Message "signer task stopped before binding")
  | None => Err (Message "signer listener bind timed out")
  end.

(* ------------------------------------------------------------------ *)
(** ** Supervision *)

(** The body of the program-oracle thread, from what its awaits return: the
    runtime, the job, the listener, whether the readiness was received, and
    the server. *)
Definition signer_thread (runtime_ : Result string unit) (job : option SignerJob)
    (bind : Result string unit) (received : bool) (serve : Result string unit) : Result Error unit :=
  _ ← context "could not build signer runtime" (map_err Foreign runtime_);
  _ ← ok_or job (Message "signer initialization channel closed");
  _ ← map_err Foreign bind;
  _ ← ensure received (Message "signer readiness receiver dropped");
  _ ← map_err Foreign serve;
  Err (Message "signer exited unexpectedly").

(** [signer_done]: the message on the oneshot, or its sender dropped. *)
Definition signer_done (done_ : option (Result string unit)) : Result Error unit :=
  match done_ with
  | Some (Ok _) => Err (Message "signer exited unexpectedly")
  | Some (Err error) => Err (Message ("signer failed: " +:+ error))
  | _ => Err (Message "signer task ended without status")
  end.

(** What [select!] sees first. *)
Inductive Ended :=
| ServeEnded (result : Result Error unit)
| SignerEnded (done_ : option (Result string unit))
| ShutdownEnded (result : Result Error unit).

Definition supervise (e : Ended) : Result Error unit :=
  match e with
  | ServeEnded result => _ ← result; Err (Message "API exited unexpectedly")
  | SignerEnded done_ => signer_done done_
  | ShutdownEnded result => result
  end.

(** The process reports success only after a shutdown signal. *)
Lemma supervise_ok e : supervise e = Ok tt <-> e = ShutdownEnded (Ok tt).
Proof.
  destruct e as [[u|e|w]|[[u|e|w]|]|r]; cbn; split; try done; [|by intros [= ->]]. by intros ->.
Qed.

(** The signer thread never ends without an error. *)
Lemma signer_thread_fails runtime_ job bind received serve :
  signer_thread runtime_ job bind received serve <> Ok tt.
Proof.
  unfold signer_thread. intros H. do 5 (apply bind_ok in H as (? & _ & H)). done.
Qed.

(* ------------------------------------------------------------------ *)
(** ** Termination of a setup *)

(** The steps of the setup future, the channel and the signer thread. *)
Definition internal (action : Action) : bool :=
  match action with
  | Derived _ | ReadyReceived | ReadyTimeout | SetupDropped
  | SignerReceives | SignerBinds _ | SignerExits => true
  | _ => false
  end.

Definition starts_setup (action : Action) : bool :=
  match action with SetupRequest _ => true | _ => false end.

Definition count (p : Action -> bool) (actions : list Action) : nat := length (filter (fun a => p a = true) actions).

Definition measure (sys : System) : nat :=
  (match setup_task sys with Some (Deriving _) => 3 | Some (AwaitingReady _ _ _) => 1 | None => 0 end
   + (match work sys with Some _ => 1 | None => 0 end)
   + (match thread sys with WaitingForJob => 3 | Binding _ => 2 | Serving _ => 1 | Stopped => 0 end))%nat.

Lemma measure_app sys st : measure (with_app sys st) = measure sys.
Proof. done. Qed.

Lemma measure_end sys : is_Some (setup_task sys) -> (measure (end_setup sys) < measure sys)%nat.
Proof. intros [t H]. unfold measure. cbn. rewrite H. destruct t; lia. Qed.

Lemma setup_start_measure sys settings : setup_task sys = None \/ setup_gate (app sys) = true ->
  (measure (fst (setup_start sys settings)) <= measure sys + 3)%nat.
Proof.
  intros H. unfold setup_start. destruct (validate settings); [|cbn; lia..].
  destruct (setup_gate (app sys)); [cbn; lia|]. destruct H as [H|H]; [|done].
  repeat case_bool_decide; cbn; [lia..|]. unfold measure. cbn. rewrite H. lia.
Qed.

Lemma setup_derived_measure sys settings send : setup_task sys = Some (Deriving settings) ->
  (measure (fst (setup_derived sys settings send)) < measure sys)%nat.
Proof.
  intros H. assert (measure (end_setup sys) < measure sys)%nat by (apply measure_end; by rewrite H).
  unfold setup_derived. destruct (derive_root send settings); [|done..].
  destruct (install_start _ _ _) as [[[o s] i]|e|w]; [|done..].
  destruct (work sys) eqn:Hw; [done|].
  destruct (thread sys) eqn:Ht; try done; unfold measure; cbn; rewrite H, Hw, ?Ht; lia.
Qed.

Lemma setup_ready_measure sys signer id result : is_Some (setup_task sys) ->
  (measure (fst (setup_ready sys signer id result)) < measure sys)%nat.
Proof.
  intros H. pose proof (measure_end sys H) as Hend. unfold setup_ready. destruct result; [|done..].
  destruct (install_finish _ _ _) as [installed st].
  assert (measure (end_setup (with_app sys st)) = measure (end_setup sys)) as E by done.
  destruct installed; cbn [fst]; by rewrite E.
Qed.

(** Every internal step decreases the measure; the handlers keep it, and an
    accepted setup request adds three. *)
Lemma step_measure sys action sys' reply : invariant sys -> app_step sys action = Some (sys', reply) ->
  (measure sys' + (if internal action then 1 else 0) <= measure sys + (if starts_setup action then 3 else 0))%nat.
Proof.
  intros Hinv Hs. destruct action as [settings|send| | | | |result| | |env request|env request|request]; cbn in Hs |- *.
  - injection Hs as Hs. pose proof (setup_start_measure sys settings) as H. rewrite Hs in H. cbn in H.
    enough (setup_task sys = None \/ setup_gate (app sys) = true) as E by (apply H in E; lia).
    rewrite (inv_gate _ Hinv). destruct (setup_task sys); [right|by left]. by apply bool_decide_eq_true.
  - destruct (setup_task sys) as [[settings|]|] eqn:Ht; try done. injection Hs as Hs.
    pose proof (setup_derived_measure sys settings send Ht) as H. rewrite Hs in H. cbn in H. lia.
  - destruct (setup_task sys) as [[|j signer id]|] eqn:Ht; try done.
    destruct (ready sys !! j) as [result|]; [|done]. injection Hs as Hs.
    pose proof (setup_ready_measure sys signer id result ltac:(by rewrite Ht)) as H. rewrite Hs in H. cbn in H. lia.
  - destruct (setup_task sys) as [[|j signer id]|] eqn:Ht; try done. case_bool_decide; [|done]. injection Hs as <- <-.
    pose proof (measure_end sys ltac:(by rewrite Ht)). lia.
  - destruct (setup_task sys) eqn:Ht; [|done]. injection Hs as <- <-.
    pose proof (measure_end sys ltac:(by rewrite Ht)). lia.
  - destruct (thread sys) eqn:Hth; try done. destruct (work sys) eqn:Hw; [|done]. injection Hs as <- <-.
    unfold measure. cbn. rewrite Hth, Hw. lia.
  - destruct (thread sys) eqn:Hth; try done. injection Hs as <- <-. unfold measure, signer_binds. cbn. rewrite Hth.
    destruct result; [destruct (receiver_alive _ _)|..]; lia.
  - destruct (thread sys) eqn:Hth; try done; injection Hs as <- <-; unfold measure; cbn; rewrite Hth; lia.
  - destruct (ark_prepare_admit (app sys)); try done. injection Hs as <- <-. cbn. rewrite !Nat.add_0_r. done.
  - destruct (evaluating sys =? 0); [done|]. injection Hs as <- <-. cbn. rewrite !Nat.add_0_r. done.
  - injection Hs as <- <-. rewrite measure_app. lia.
  - injection Hs as <- <-. rewrite measure_app. lia.
Qed.

Lemma count_cons p a actions : count p (a :: actions) = ((if p a then 1 else 0) + count p actions)%nat.
Proof. unfold count. rewrite filter_cons. by destruct (p a). Qed.

Lemma run_measure sys actions sys' replies : invariant sys -> app_run sys actions = Some (sys', replies) ->
  (count internal actions + measure sys' <= measure sys + 3 * count starts_setup actions)%nat.
Proof.
  revert sys replies; induction actions as [|a actions IH]; intros sys replies Hinv H; cbn [app_run] in H.
  { injection H as <- _. cbn. lia. }
  destruct (app_step sys a) as [[sys1 reply]|] eqn:Hs; [|done]. cbn [mbind option_bind] in H.
  destruct (app_run sys1 actions) as [[sys2 rs]|] eqn:Hr; [|done]. cbn [mbind option_bind] in H. injection H as <- _.
  pose proof (step_measure _ _ _ _ Hinv Hs). rewrite !count_cons.
  pose proof (IH sys1 rs (app_step_invariant _ _ _ _ Hinv Hs) Hr).
  destruct (internal a), (starts_setup a); lia.
Qed.

(** The setup future can always be driven to its reply by its own awaits. *)
Lemma setup_drives sys send : invariant sys -> is_Some (setup_task sys) ->
  exists actions sys' replies reply,
    Forall (fun a => a = Derived send \/ a = ReadyReceived \/ a = ReadyTimeout) actions /\
    app_run sys actions = Some (sys', replies ++ [SetupReply reply]) /\ setup_task sys' = None.
Proof.
  assert (forall sys j signer id, setup_task sys = Some (AwaitingReady j signer id) ->
    exists a sys' reply, (a = ReadyReceived \/ a = ReadyTimeout) /\
      app_step sys a = Some (sys', SetupReply reply) /\ setup_task sys' = None) as Hwait.
  { clear. intros sys j signer id Ht. destruct (ready sys !! j) as [result|] eqn:Hr.
    - exists ReadyReceived. cbn [app_step]. rewrite Ht, Hr. cbn [mbind option_bind]. unfold setup_ready.
      destruct result; [|by do 2 eexists; split; [left|]..].
      destruct (install_finish _ _ _) as [installed st].
      destruct installed; by do 2 eexists; split; [left|].
    - exists ReadyTimeout. cbn [app_step]. rewrite Ht, Hr. do 2 eexists. split; [by right|done]. }
  intros Hinv [[settings|j signer id] Ht].
  - assert (app_step sys (Derived send) = Some (setup_derived sys settings send)) as Hs by (cbn; by rewrite Ht).
    destruct (setup_derived sys settings send) as [sys1 reply] eqn:Hd. unfold setup_derived in Hd.
    assert ((exists r, reply = SetupReply r /\ setup_task sys1 = None) \/
            (exists j signer id, setup_task sys1 = Some (AwaitingReady j signer id))) as [(r & -> & Hn)|(j & signer & id & Hw)].
    { repeat case_match; simplify_eq; first [by left; eexists | right; by do 3 eexists]. }
    + exists [Derived send], sys1, [], r. split; [repeat constructor|]. cbn [app_run]. by rewrite Hs.
    + destruct (Hwait _ _ _ _ Hw) as (a & sys' & r & Ha & Hstep & Hn).
      exists [Derived send; a], sys', [reply], r.
      split; [constructor; [by left|constructor; [by right|constructor]]|]. cbn [app_run]. rewrite Hs. cbn [mbind option_bind].
      by rewrite Hstep.
  - destruct (Hwait _ _ _ _ Ht) as (a & sys' & r & Ha & Hstep & Hn).
    exists [a], sys', [], r. split; [constructor; [by right|constructor]|]. cbn [app_run]. by rewrite Hstep.
Qed.

(* ------------------------------------------------------------------ *)
(** ** The local-dev process *)

Definition reachable_dev (seed : bytes) (sys : System) : Prop :=
  exists binds sys0, local_dev_start seed binds = Ok sys0 /\ reaches sys0 sys.

(** The identity of an ephemeral root. *)
Definition dev_identity (oracle : ProgramOracle) : Identity := {|
  identity_protocol := IDENTITY_PROTOCOL; mode := lit "local-dev"; xpub := oracle_public_root oracle;
  identity_settings := None; signing := program_profile |}.

Record dev_invariant (oracle : ProgramOracle) (id : bytes) (sys : System) : Prop := {
  dev_identity_set : identity (app sys) = Some id;
  dev_signer_set : is_Some (ark_signer (app sys));
  dev_gate : setup_gate (app sys) = false;
  dev_task : setup_task sys = None;
  dev_nsm : nsm (app sys) = None;
  dev_work : work sys = None;
  dev_thread : thread sys = Serving oracle \/ thread sys = Stopped;
}.

Lemma local_dev_start_ok seed binds sys : local_dev_start seed binds = Ok sys ->
  exists root oracle id, new_master Regtest seed = Ok root /\ program_oracle root = Ok oracle /\
    identity_to_string (dev_identity oracle) = Ok id /\ dev_invariant oracle id sys.
Proof.
  intros H. apply bind_ok in H as (root & Hroot & H). apply map_err_ok in Hroot.
  apply bind_ok in H as ([[oracle signer] id] & Hi & H). apply install_start_ok in Hi as (Ho & Hs & Hid).
  destruct binds as [[u|e|w]|]; try done. cbn in H. apply Ok_inj in H as <-.
  exists root, oracle, id. do 3 (split; [done|]). split; cbn; try done. by left.
Qed.

Lemma same_service_dev oracle id sys st n : dev_invariant oracle id sys -> same_service (app sys) st ->
  dev_invariant oracle id (with_evaluating (with_app sys st) n).
Proof.
  intros [H1 [s H2] H3 H4 H5 H6 H7] (Ei & Eg & En & Er). split; cbn; rewrite ?Ei, ?Eg, ?En; try done.
  rewrite H2 in Er. by destruct (ark_signer st).
Qed.

Lemma dev_step oracle id sys action sys' reply :
  dev_invariant oracle id sys -> app_step sys action = Some (sys', reply) -> dev_invariant oracle id sys'.
Proof.
  intros H Hs. pose proof H as [H1 H2 H3 H4 H5 H6 H7].
  destruct action as [settings|send| | | | |result| | |env request|env request|request]; cbn in Hs.
  - injection Hs as Hs. unfold setup_start in Hs. rewrite H3, (bool_decide_eq_true_2 (is_Some (identity (app sys)))) in Hs
      by (by rewrite H1). by destruct (validate settings); simplify_eq.
  - by rewrite H4 in Hs.
  - by rewrite H4 in Hs.
  - by rewrite H4 in Hs.
  - by rewrite H4 in Hs.
  - rewrite H6 in Hs. by destruct (thread sys).
  - by destruct H7 as [E|E]; rewrite E in Hs.
  - destruct H7 as [E|E]; rewrite E in Hs; [|done]. injection Hs as <- <-. split; cbn; try done. by right.
  - destruct (ark_prepare_admit (app sys)) as [st|e|w] eqn:Ha; try done. injection Hs as <- <-.
    apply same_service_dev; [done|]. by apply admit_same in Ha as [? _].
  - destruct (evaluating sys =? 0); [done|]. injection Hs as <- <-.
    apply same_service_dev; [done|]. apply prepare_run_same.
  - injection Hs as <- <-. apply (same_service_dev oracle id sys _ (evaluating sys)); [done|]. apply finish_same.
  - injection Hs as <- <-. apply (same_service_dev oracle id sys _ (evaluating sys)); [done|]. apply cancel_same.
Qed.

Lemma reachable_dev_invariant seed sys : reachable_dev seed sys ->
  exists root oracle id, new_master Regtest seed = Ok root /\ program_oracle root = Ok oracle /\
    identity_to_string (dev_identity oracle) = Ok id /\ dev_invariant oracle id sys.
Proof.
  intros (binds & sys0 & (root & oracle & id & Hr & Ho & Hi & H)%local_dev_start_ok & Hreach).
  exists root, oracle, id. do 3 (split; [done|]).
  induction Hreach as [|sys action sys' reply sys'' Hs _ IH]; [done|]. apply IH. by eapply dev_step.
Qed.

End Lifecycle.

(* ------------------------------------------------------------------ *)
(** ** The identity on the wire *)

Section Wire.
  Context {sapio : SapioProgram} {prim : KeyPrimitives} {upstream : Upstream} {ark : ArkLib}.
  Context {applib : AppLib} {clientlib : ClientLib}.

(** serde_json: the values of the served fields, the client's types read from
    them, and an object as the list of its entries. *)
Class IdentityWire := {
  client_root : Xpub -> ClientXpub;
  string_value : bytes -> Value;
  xpub_value : Xpub -> Value;
  settings_value : option Settings -> Value;
  profile_value : ProgramProfile -> Value;
  object_from_slice : bytes -> Result Error (list (bytes * Value));
  string_from_value : Value -> Result Error bytes;
  xpub_from_value : Value -> Result Error ClientXpub;
  profile_from_value : Value -> Result Error ProgramProfile;
}.

(** The derived [Serialize] of the served struct: its fields under their names. *)
Definition Identity_serialize {wire : IdentityWire} (i : Identity) : list (bytes * Value) := [
  (lit "protocol", string_value (identity_protocol i));
  (lit "mode", string_value (mode i));
  (lit "xpub", xpub_value (xpub i));
  (lit "settings", settings_value (identity_settings i));
  (lit "signing", profile_value (signing i))].

(** The derived [Deserialize] of the client's struct: every field once, no
    other ([deny_unknown_fields]); [settings] stays a JSON value. *)
Definition IDENTITY_FIELDS : list bytes :=
  lit <$> ["protocol"; "mode"; "xpub"; "settings"; "signing"]%string.

Definition field {A} (entries : list (bytes * A)) (name : string) : Result Error A :=
  ok_or (snd <$> (snd <$> list_find (fun e => e.1 = lit name) entries)) (Message ("missing field " +:+ name)).

Definition Identity_deserialize {wire : IdentityWire} (entries : list (bytes * Value)) : Result Error ClientIdentity :=
  _ ← ensure (forallb (fun e => bool_decide (e.1 ∈ IDENTITY_FIELDS)) entries) (Message "unknown field");
  _ ← ensure (bool_decide (NoDup entries.*1)) (Message "duplicate field");
  protocol ← field entries "protocol";
  protocol ← string_from_value protocol;
  mode ← field entries "mode";
  mode ← string_from_value mode;
  xpub ← field entries "xpub";
  xpub ← xpub_from_value xpub;
  settings ← field entries "settings";
  signing ← field entries "signing";
  signing ← profile_from_value signing;
  Ok {| client_protocol := protocol; client_mode := mode; client_xpub := xpub;
        client_settings := settings; client_signing := signing |}.

(** [serde_json::from_slice] at the client's struct. *)
Definition identity_from_slice {wire : IdentityWire} (bs : bytes) : Result Error ClientIdentity :=
  entries ← object_from_slice bs;
  Identity_deserialize entries.

Definition client_view {wire : IdentityWire} (i : Identity) : ClientIdentity := {|
  client_protocol := identity_protocol i;
  client_mode := mode i;
  client_xpub := client_root (xpub i);
  client_settings := settings_value (identity_settings i);
  client_signing := signing i |}.

(** Documented: the written text is the object of the serialized fields, and
    strings, keys and profiles read back; settings are an object with a named
    network, and their absence is null; and an extended key keeps the network
    its root was made for. *)
Class IdentityWireLaws {wire : IdentityWire} : Prop := {
  object_written i bs : identity_to_string i = Ok bs -> object_from_slice bs = Ok (Identity_serialize i);
  string_read s : string_from_value (string_value s) = Ok s;
  xpub_read x : xpub_from_value (xpub_value x) = Ok (client_root x);
  profile_read p : profile_from_value (profile_value p) = Ok p;
  settings_object s : is_object (settings_value (Some s)) = true;
  settings_named s : settings_network (settings_value (Some s)) = Ok (network s);
  no_settings_null : is_null (settings_value None) = true;
  root_network n seed root oracle :
    new_master n seed = Ok root -> program_oracle root = Ok oracle ->
    xpub_network (client_root (oracle_public_root oracle)) = network_kind n;
}.

(** The client's struct names the fields the server's does: what one
    serializes the other reads. *)
Lemma from_slice_to_string {wire : IdentityWire} {laws : IdentityWireLaws} i bs :
  identity_to_string i = Ok bs -> identity_from_slice bs = Ok (client_view i).
Proof.
  intros H%object_written. unfold identity_from_slice. rewrite H. cbn [mbind Result_bind].
  unfold Identity_deserialize.
  change (forallb _ (Identity_serialize i)) with true. cbn [ensure mbind Result_bind].
  rewrite (bool_decide_eq_true_2 (NoDup _)) by (apply (bool_decide_unpack (NoDup IDENTITY_FIELDS)); by vm_compute).
  change (field (Identity_serialize i) "protocol") with (@Ok Error _ (string_value (identity_protocol i))).
  change (field (Identity_serialize i) "mode") with (@Ok Error _ (string_value (mode i))).
  change (field (Identity_serialize i) "xpub") with (@Ok Error _ (xpub_value (xpub i))).
  change (field (Identity_serialize i) "settings") with (@Ok Error _ (settings_value (identity_settings i))).
  change (field (Identity_serialize i) "signing") with (@Ok Error _ (profile_value (signing i))).
  cbn [mbind Result_bind]. rewrite !string_read. cbn [mbind Result_bind]. rewrite xpub_read.
  cbn [mbind Result_bind]. rewrite profile_read. reflexivity.
Qed.

Lemma derive_root_network send settings root : derive_root send settings = Ok root ->
  exists seed, new_master (network settings) seed = Ok root.
Proof.
  unfold derive_root, accept_response, root_from_secret. intros H.
  do 5 (apply bind_ok in H as (? & _ & H)). do 4 (apply bind_ok in H as (? & _ & H)).
  do 3 (apply bind_ok in H as (? & _ & H)). apply context_ok, map_err_ok in H. by eexists.
Qed.

End Wire.
Arguments IdentityWire {sapio prim upstream ark clientlib}.
Arguments IdentityWireLaws {sapio prim upstream ark applib clientlib wire}.

(* ------------------------------------------------------------------ *)
(** ** Properties *)

Section Theorems.
  Context {sapio : SapioProgram} {prim : KeyPrimitives} {upstream : Upstream} {ark : ArkLib}.
  Context {requests : ArkRequests} {applib : AppLib} {driver : NsmDriver}.
  Context {runtime : WasmRuntime} {outpoint_codec : OutPointCodec} {auth : NativeAuth}.
  Context {codec : PolicyCodec VtxoPolicy}.

(** C28: a setup terminates, however it is interleaved: in any execution from a
    reachable state the setup future, the channel and the signer thread take
    at most seven steps, plus three per further setup request, and a setup in
    progress always has a sequence of its own steps (the derivation's answer,
    the readiness or its timeout) after which it has answered, the gate is open
    and no setup is in progress. *)
Theorem setup_terminates sys send :
  reachable sys ->
  (forall actions sys' replies, app_run sys actions = Some (sys', replies) ->
     (count internal actions <= 7 + 3 * count starts_setup actions)%nat) /\
  (is_Some (setup_task sys) ->
     exists actions sys' replies reply,
       Forall (fun a => a = Derived send \/ a = ReadyReceived \/ a = ReadyTimeout) actions /\
       app_run sys actions = Some (sys', replies ++ [SetupReply reply]) /\
       setup_task sys' = None /\ setup_gate (app sys') = false).
Proof.
  intros Hr. pose proof (reachable_invariant sys Hr) as Hinv. split.
  - intros actions sys' replies H. pose proof (run_measure _ _ _ _ Hinv H).
    enough (measure sys <= 7)%nat by lia. unfold measure. repeat case_match; lia.
  - intros Ht. destruct (setup_drives sys send Hinv Ht) as (actions & sys' & replies & reply & Ha & H & Hn).
    exists actions, sys', replies, reply. do 3 (split; [done|]).
    rewrite (inv_gate sys'), Hn; [done|]. eapply reaches_invariant; [by eapply app_run_reaches|done].
Qed.

Context {clientlib : ClientLib} {wire : IdentityWire} {wire_laws : IdentityWireLaws}.

(** C29: round trip of the served identity: the text any reachable state publishes,
    saved within the size limit, loads in the example clients as a nitro
    identity of the oracle's own public root and of the settings it was
    derived from, whether or not local-dev identities are allowed. *)
Theorem published_identity_loads sys id o :
  reachable sys -> identity (app sys) = Some id -> read_file (identity_path o) = Ok id ->
  len id <= MAX_IDENTITY_BYTES ->
  exists settings root_ send oracle,
    derive_root send settings = Ok root_ /\ program_oracle root_ = Ok oracle /\
    (thread sys = Serving oracle \/ thread sys = Stopped) /\
    load_identity identity_from_slice o = Ok (client_view {|
      identity_protocol := IDENTITY_PROTOCOL; mode := lit "nitro"; xpub := oracle_public_root oracle;
      identity_settings := Some settings; signing := program_profile |}).
Proof.
  intros Hr Hid Hfile Hlen. pose proof (reachable_invariant sys Hr) as Hinv.
  destruct (inv_published _ Hinv _ Hid) as (b & signer & ([send Hd] & Ho & _ & Hi) & <- & _ & _ & Hth).
  exists (b_settings b), (b_root b), send, (b_oracle b). do 3 (split; [done|]).
  apply load_identity_ok. exists (b_identity b). do 2 (split; [done|]).
  split; [exact (from_slice_to_string _ _ Hi)|]. do 2 (split; [done|]). left.
  split; [done|]. split; [apply settings_object|]. exists (network (b_settings b)).
  split; [apply settings_named|]. destruct (derive_root_network _ _ _ Hd) as [seed Hseed].
  by apply (root_network _ seed (b_root b)).
Qed.

(** C30: a local-dev process is contained: in every state it reaches it serves one
    regtest root of its own seed under an identity that says so, has no
    settings and never changes; setup is always refused, nothing is ever
    attested, and a client loads the identity only when explicitly allowed. *)
Theorem local_dev_contained seed sys :
  reachable_dev seed sys ->
  exists root_ oracle id,
    new_master Regtest seed = Ok root_ /\ program_oracle root_ = Ok oracle /\
    identity_to_string (dev_identity oracle) = Ok id /\ identity (app sys) = Some id /\
    (thread sys = Serving oracle \/ thread sys = Stopped) /\
    (forall settings, validate settings = Ok tt ->
       app_step sys (SetupRequest settings)
       = Some (sys, SetupReply (Err (CONFLICT, lit "already initialized; restart to change identity")))) /\
    (forall nonce, is_ok (attestation (app sys) nonce) = false) /\
    (forall o, read_file (identity_path o) = Ok id -> len id <= MAX_IDENTITY_BYTES ->
       is_ok (load_identity identity_from_slice o) = allow_local_dev o).
Proof.
  intros (root_ & oracle & id & Hroot & Ho & Hid & H)%reachable_dev_invariant.
  exists root_, oracle, id. do 3 (split; [done|]). split; [apply (dev_identity_set _ _ _ H)|].
  split; [apply (dev_thread _ _ _ H)|]. split; [|split].
  - intros settings Hv. cbn. unfold setup_start. rewrite Hv, (dev_gate _ _ _ H).
    by rewrite (bool_decide_eq_true_2 (is_Some _)) by (by rewrite (dev_identity_set _ _ _ H)).
  - intros nonce. unfold attestation. rewrite (dev_identity_set _ _ _ H), (dev_nsm _ _ _ H).
    destruct (nonce_from_hex nonce); [|done..]. cbn. by destruct (_ && _).
  - intros o Hfile Hlen.
    pose proof (from_slice_to_string _ _ Hid) as Hparse.
    destruct (allow_local_dev o) eqn:Ha.
    + rewrite (proj2 (load_identity_ok identity_from_slice o (client_view (dev_identity oracle)))); [done|].
      exists id. do 5 (split; [done|]). right. do 2 (split; [done|]).
      split; [apply no_settings_null|]. by eapply root_network.
    + destruct (load_identity identity_from_slice o) as [i|e|w] eqn:E; [|done..].
      apply load_identity_ok in E as (content & Hc & _ & Hi & _ & _ & Hm).
      assert (content = id) as -> by congruence. rewrite Hparse in Hi. apply Ok_inj in Hi as <-.
      destruct Hm as [(Hm & _)|(_ & Hm & _)]; [discriminate Hm|congruence].
Qed.

End Theorems.
