(* ===== verification/Driver.v ===== *)
(** * Driver: the example clients as interaction trees

    An example is a program that builds requests and sends them to an oracle.
    [Io] is the free monad of that interaction: a node sends one signing
    request and continues with the client's answer.  It is inductive, so every
    driver ends after finitely many requests.  [run_io] executes a driver
    against an oracle that may remember every earlier request.  A driver that
    checks answers is specified by its table of [Expectation]s. *)

From S2P Require Import Prelude Bytes Bitcoin Program.

Open Scope N_scope.

(* ------------------------------------------------------------------ *)
(** ** Requests and answers *)

Inductive ProgramSpendPath :=
| KeyPath
| ScriptPath (leaf : bytes).

#[export] Instance spend_path_eq_dec : EqDecision ProgramSpendPath.
Proof. solve_decision. Defined.

Record ProgramSigningRequest := {
  request_instance : ProgramInstance;
  request_input_index : N;
  request_witness : bytes;
  request_path : ProgramSpendPath;
  request_psbt : Psbt;
}.

(** [ProgramClientError]: the typed rejection, or a transport or validation
    failure with its display text. *)
Inductive ProgramClientError :=
| RejectedBy (text : string)
| Failed (text : string).

Abbreviation Answer := (Result ProgramClientError Psbt).

(* ------------------------------------------------------------------ *)
(** ** The interaction monad *)

Inductive Io (A : Type) : Type :=
| Done (r : Result Error A)
| Sign (request : ProgramSigningRequest) (k : Answer -> Io A).
Arguments Done {A} r.
Arguments Sign {A} request k.

#[export] Instance Io_ret : MRet Io := fun A a => Done (Ok a).

#[export] Instance Io_bind : MBind Io :=
  fun A B f => fix bind m :=
    match m with
    | Done (Ok a) => f a
    | Done (Err e) => Done (Err e)
    | Done (Panic w) => Done (Panic w)
    | Sign r k => Sign r (fun answer => bind (k answer))
    end.

(** [client.sign(request).await]. *)
Definition sign (request : ProgramSigningRequest) : Io Answer :=
  Sign request (fun answer => Done (Ok answer)).

(** An oracle, given every earlier request of the connection. *)
Definition Oracle := list ProgramSigningRequest -> ProgramSigningRequest -> Answer.

(** The outcome and the requests sent, in order. *)
Fixpoint run_io {A} (oracle : Oracle) (sent : list ProgramSigningRequest) (m : Io A)
    : Result Error A * list ProgramSigningRequest :=
  match m with
  | Done r => (r, sent)
  | Sign request k => run_io oracle (sent ++ [request]) (k (oracle sent request))
  end.

(* ------------------------------------------------------------------ *)
(** ** Expectations *)

Inductive Expectation :=
| Accepts (request : ProgramSigningRequest)
| Rejects (request : ProgramSigningRequest).

Definition expected_request (e : Expectation) : ProgramSigningRequest :=
  match e with Accepts r => r | Rejects r => r end.

(** The answer meets the expectation; [accept] is what the driver checks of a
    signed PSBT. *)
Definition answered (accept : ProgramSigningRequest -> Psbt -> Prop) (e : Expectation) (answer : Answer) : Prop :=
  match e with
  | Accepts r => exists signed, answer = Ok signed /\ accept r signed
  | Rejects _ => exists text, answer = Err (RejectedBy text)
  end.

Fixpoint meets (accept : ProgramSigningRequest -> Psbt -> Prop) (oracle : Oracle)
    (sent : list ProgramSigningRequest) (table : list Expectation) : Prop :=
  match table with
  | [] => True
  | e :: table =>
      answered accept e (oracle sent (expected_request e))
      /\ meets accept oracle (sent ++ [expected_request e]) table
  end.

(** The driver succeeds with [a] exactly when the oracle meets the table, and
    then has sent the table's requests. *)
Definition follows {A} (accept : ProgramSigningRequest -> Psbt -> Prop) (m : Io A) (a : A)
    (table : list Expectation) : Prop :=
  forall oracle sent b sent',
    run_io oracle sent m = (Ok b, sent') <->
    b = a /\ sent' = sent ++ (expected_request <$> table) /\ meets accept oracle sent table.

(* ------------------------------------------------------------------ *)
(** ** Lemmas *)

Section Follows.
  Context (accept : ProgramSigningRequest -> Psbt -> Prop).

Lemma run_io_bind {A B} oracle (f : A -> Io B) m sent :
  run_io oracle sent (m ≫= f) =
    match run_io oracle sent m with
    | (Ok a, sent) => run_io oracle sent (f a)
    | (Err e, sent) => (Err e, sent)
    | (Panic w, sent) => (Panic w, sent)
    end.
Proof. revert sent; induction m as [[a|e|w]|r k IH]; intros sent; cbn; [done..|]. apply IH. Qed.

Lemma meets_app oracle sent t1 t2 :
  meets accept oracle sent (t1 ++ t2) <->
  meets accept oracle sent t1 /\ meets accept oracle (sent ++ (expected_request <$> t1)) t2.
Proof.
  revert sent; induction t1 as [|e t1 IH]; intros sent; cbn; [rewrite app_nil_r; tauto|].
  rewrite IH, <- app_assoc. tauto.
Qed.

Lemma follows_done {A} (a : A) : follows accept (Done (Ok a)) a [].
Proof.
  intros oracle sent b sent'. cbn. rewrite app_nil_r. split; [by intros [= -> ->]|by intros (-> & -> & _)].
Qed.

(** Sequencing concatenates the tables. *)
Lemma follows_bind {A B} (m : Io A) (f : A -> Io B) a b t1 t2 :
  follows accept m a t1 -> follows accept (f a) b t2 -> follows accept (m ≫= f) b (t1 ++ t2).
Proof.
  intros H1 H2 oracle sent c sent'. rewrite run_io_bind, meets_app, fmap_app, app_assoc. split.
  - destruct (run_io oracle sent m) as [[x|e|w] s] eqn:E; [|done..]. apply H1 in E as (-> & -> & E).
    intros (-> & -> & E2)%H2. done.
  - intros (-> & -> & E1 & E2). assert (run_io oracle sent m = (Ok a, sent ++ (expected_request <$> t1))) as ->.
    { by apply H1. }
    by apply H2.
Qed.

(** A local computation that succeeds sends nothing. *)
Lemma follows_lift {A B} (r : Result Error A) (f : A -> Io B) a b t :
  r = Ok a -> follows accept (f a) b t -> follows accept (Done r ≫= f) b t.
Proof. intros ->. done. Qed.

(** One check, then the rest of the table. *)
Lemma follows_then {A B} (m : Io A) a e (f : A -> Io B) b t :
  follows accept m a [e] -> follows accept (f a) b t -> follows accept (m ≫= f) b (e :: t).
Proof. apply (follows_bind m f a b [e] t). Qed.

End Follows.

(** An expectation only depends on the answers to its own requests. *)
Lemma meets_all accept oracle sent table :
  (forall e sent, e ∈ table -> answered accept e (oracle sent (expected_request e))) ->
  meets accept oracle sent table.
Proof.
  revert sent; induction table as [|e table IH]; intros sent H; cbn; [done|]. split.
  - apply H, elem_of_cons. by left.
  - apply IH. intros e' s He. apply H, elem_of_cons. by right.
Qed.
