(* ===== verification/Wallet.v ===== *)
(** * Wallet: what the example clients build requests with

    The constructors of the bitcoin crate, miniscript and emulator_connect that
    the examples call are the interface [WalletLib], with their documented
    behaviour in [WalletLaws].  The mutations the examples make on transactions
    and PSBTs are the [edit_] functions, which panic as indexing does, and
    [sign_accepted] and [sign_rejected] are the two checks of an answer. *)

From S2P Require Import Prelude Bytes Bitcoin Program SignedView Client Driver.

Open Scope N_scope.

(* ------------------------------------------------------------------ *)
(** ** Interface *)

(** The script items the examples push. *)
Inductive ScriptItem :=
| PushSlice (bs : bytes)
| OpCheckSig.

(** [LeafVersion::TapScript]. *)
Definition TAPSCRIPT : N := 192.

Class WalletLib {clientlib : ClientLib} {sapio : SapioProgram} := {
  instance_key : ProgramInstance -> ClientXpub -> Result Error bytes;
  instance_new_v2 : bytes -> bytes -> Result Error ProgramInstance;
  for_wasm : bytes -> EvaluatorId;
  new_p2wpkh : bytes -> bytes;
  new_p2tr : bytes -> option bytes -> bytes;
  new_p2tr_tweaked : bytes -> bytes;
  build_script : list ScriptItem -> bytes;
  TaprootBuilder : Type;
  SpendInfo : Type;
  builder_new : TaprootBuilder;
  add_leaf : TaprootBuilder -> N -> bytes -> Result Error TaprootBuilder;
  finalize : TaprootBuilder -> bytes -> option SpendInfo;
  output_key : SpendInfo -> bytes;
  merkle_root : SpendInfo -> option bytes;
  control_block : SpendInfo -> bytes * N -> option bytes;
  leaf_hash : bytes -> N -> bytes;
  compute_txid : Transaction -> bytes;
  from_unsigned_tx : Transaction -> Result Error Psbt;
  client_new : SocketAddr -> ClientXpub -> Result Error unit;
}.

(** Documented: a key or txid is 32 bytes, the standard scripts are short, the
    constructors store their arguments within the byte limits, a transaction
    without signature data becomes a PSBT with empty maps, a Taproot tree of no
    leaf or of one leaf at depth zero is complete and its Merkle root is absent
    or that leaf's hash, and the output key of a tree is the internal key
    tweaked by its Merkle root. *)
Class WalletLaws {clientlib : ClientLib} {sapio : SapioProgram} {wallet : WalletLib} : Prop := {
  instance_key_len i root k : instance_key i root = Ok k -> len k = 32;
  compute_txid_len tx : len (compute_txid tx) = 32;
  p2wpkh_len h : len h = 20 -> len (new_p2wpkh h) = 22;
  p2wpkh_inj h h' : new_p2wpkh h = new_p2wpkh h' -> h = h';
  p2tr_len k root : len (new_p2tr k root) = 34;
  p2tr_tweaked_len k : len (new_p2tr_tweaked k) = 34;
  instance_new_within e p a :
    len p <= MAX_PROGRAM_BYTES -> len a <= MAX_PARAMETER_BYTES ->
    program_instance_new e p a = Ok {| evaluator := e; program := p; parameters := a |};
  instance_wasm_within p a :
    len p <= MAX_PROGRAM_BYTES -> len a <= MAX_PARAMETER_BYTES ->
    program_instance_wasm p a = Ok {| evaluator := wasm_id; program := p; parameters := a |};
  instance_v2_within p a :
    len p <= MAX_PROGRAM_BYTES -> len a <= MAX_PARAMETER_BYTES ->
    instance_new_v2 p a = Ok {| evaluator := wasm_v2_id; program := p; parameters := a |};
  from_unsigned_tx_ok tx :
    Forall unsigned_txin (tx_input tx) ->
    from_unsigned_tx tx = Ok {|
      unsigned_tx := tx;
      psbt_inputs := replicate (length (tx_input tx)) PsbtInput_default;
      psbt_outputs := replicate (length (tx_output tx)) PsbtOutput_default |};
  finalize_keyonly k : exists s, finalize builder_new k = Some s /\ merkle_root s = None;
  finalize_leaf script k : exists b s control,
    add_leaf builder_new 0 script = Ok b /\ finalize b k = Some s /\
    merkle_root s = Some (leaf_hash script TAPSCRIPT) /\
    control_block s (script, TAPSCRIPT) = Some control;
  output_key_tweaked b k s :
    finalize b k = Some s -> new_p2tr_tweaked (output_key s) = new_p2tr k (merkle_root s);
}.

(* ------------------------------------------------------------------ *)
(** ** Edits *)

(** [l[i]], as a value and as a place. *)
Definition index {A} (l : list A) (i : nat) : Result Error A := expect (l !! i) "index out of bounds".

Definition index_mut {A} (l : list A) (i : nat) (f : A -> Result Error A) : Result Error (list A) :=
  x ← index l i;
  y ← f x;
  Ok (<[i := y]> l).

(** [Amount]'s [+=] and [-=], which panic out of range. *)
Definition amount_add (a b : N) : Result Error N := expect (checked_add 64 a b) "Amount addition error".

Definition amount_sub (a b : N) : Result Error N :=
  if b <=? a then Ok (a - b) else Panic "Amount subtraction error".

Definition edit_txin (tx : Transaction) (i : nat) (f : TxIn -> TxIn) : Result Error Transaction :=
  ins ← index_mut (tx_input tx) i (fun x => Ok (f x));
  Ok (set_inputs tx ins).

Definition edit_txout (tx : Transaction) (i : nat) (f : TxOut -> Result Error TxOut) : Result Error Transaction :=
  outs ← index_mut (tx_output tx) i f;
  Ok (set_outputs tx outs).

Definition edit_map (psbt : Psbt) (i : nat) (f : PsbtInput -> Result Error PsbtInput) : Result Error Psbt :=
  maps ← index_mut (psbt_inputs psbt) i f;
  Ok (set_psbt_inputs psbt maps).

Definition with_psbt (r : ProgramSigningRequest) (p : Psbt) : ProgramSigningRequest :=
  {| request_instance := request_instance r; request_input_index := request_input_index r;
     request_witness := request_witness r; request_path := request_path r; request_psbt := p |}.

Definition with_request_witness (r : ProgramSigningRequest) (w : bytes) : ProgramSigningRequest :=
  {| request_instance := request_instance r; request_input_index := request_input_index r;
     request_witness := w; request_path := request_path r; request_psbt := request_psbt r |}.

Definition with_instance (r : ProgramSigningRequest) (i : ProgramInstance) : ProgramSigningRequest :=
  {| request_instance := i; request_input_index := request_input_index r;
     request_witness := request_witness r; request_path := request_path r; request_psbt := request_psbt r |}.

(** An edit of the request's unsigned transaction. *)
Definition edit_tx (r : ProgramSigningRequest) (f : Transaction -> Result Error Transaction)
    : Result Error ProgramSigningRequest :=
  tx ← f (unsigned_tx (request_psbt r));
  Ok (with_psbt r (set_psbt_tx (request_psbt r) tx)).

Definition edit_request_map (r : ProgramSigningRequest) (i : nat) (f : PsbtInput -> Result Error PsbtInput)
    : Result Error ProgramSigningRequest :=
  p ← edit_map (request_psbt r) i f;
  Ok (with_psbt r p).

(* ------------------------------------------------------------------ *)
(** ** Checks of an answer *)

Definition display (e : ProgramClientError) : string :=
  match e with RejectedBy text => text | Failed text => text end.

Definition sign_accepted (expected : string) (request : ProgramSigningRequest) (label : string) : Io unit :=
  answer ← sign request;
  Done (_ ← context (label +:+ expected) (map_err (fun e => Foreign (display e)) answer); Ok tt).

Definition sign_rejected (expected : string) (request : ProgramSigningRequest) (label : string) : Io unit :=
  answer ← sign request;
  match answer with
  | Err (RejectedBy _) => Done (Ok tt)
  | Err error => Done (Err (Message (label +:+ expected +:+ display error)))
  | Ok _ => Done (Err (Message (label +:+ ": unexpectedly received a signature")))
  | Panic w => Done (Panic w)
  end.

(** The signing context a request asks for. *)
Definition request_context (r : ProgramSigningRequest) : SigningInput := {|
  psbt := request_psbt r;
  input_index := request_input_index r;
  script_leaf := match request_path r with KeyPath => None | ScriptPath leaf => Some leaf end;
  participants := [];
  tweak := None |}.

(* ------------------------------------------------------------------ *)
(** ** Lemmas *)

(** Any signed PSBT will do. *)
Definition any_signed (_ : ProgramSigningRequest) (_ : Psbt) : Prop := True.

Lemma sign_accepted_follows expected request label :
  follows any_signed (sign_accepted expected request label) tt [Accepts request].
Proof.
  intros oracle sent [] sent'. cbn. unfold any_signed.
  destruct (oracle sent request) as [signed|e|w]; cbn; split.
  - intros [= <-]. split; [done|]. split; [done|]. split; [by exists signed|done].
  - by intros (_ & -> & _).
  - done.
  - intros (_ & _ & (? & ? & _) & _). done.
  - done.
  - intros (_ & _ & (? & ? & _) & _). done.
Qed.

Lemma sign_rejected_follows accept expected request label :
  follows accept (sign_rejected expected request label) tt [Rejects request].
Proof.
  intros oracle sent [] sent'. cbn. destruct (oracle sent request) as [signed|[t|t]|w]; cbn; split; try done.
  all: try (by intros (_ & _ & (? & ?) & _)).
  - intros [= <-]. split; [done|]. split; [done|]. split; [by exists t|done].
  - by intros (_ & -> & _).
Qed.
