(* ===== verification/OracleDemo.v ===== *)
(** * OracleDemo: the remote oracle demonstration (examples/program_oracle.rs)

    [payments], [ctv] and [inline_v2] build fixtures under one commitment, send
    them to an oracle and check its answers.  Each is specified by the table of
    requests it expects accepted or rejected.  The pay-at-least module, the CTV
    instance and the WAT assembler are the interface [OracleDemoLib]. *)

From S2P Require Import Prelude Bytes Bitcoin Program SignedView Evaluator Keys Deployment Client Driver Wallet.

Open Scope N_scope.

Definition MINIMUM : N := 9000.
Definition FUNDING : N := 20000.

Class OracleDemoLib {sapio : SapioProgram} {prim : KeyPrimitives} {upstream : Upstream} := {
  get_ctv_hash : Transaction -> N -> bytes;
  ctv_wasm_instance : bytes -> ProgramInstance;
  wat_parse_str : bytes -> Result Error bytes;
}.

Section Demo.
  Context {sapio : SapioProgram} {prim : KeyPrimitives} {upstream : Upstream} {clientlib : ClientLib}.
  Context {wallet : WalletLib} {demo : OracleDemoLib}.

(* ------------------------------------------------------------------ *)
(** ** Fixtures *)

Definition recipient (tag : N) : bytes := new_p2wpkh (replicate 20 (byte_of_N tag)).

Definition payment_parameters : bytes :=
  le_bytes 8 MINIMUM ++ le_bytes 4 (len (recipient 1) mod 2 ^ 32) ++ recipient 1.

Definition payment_instance : Result Error ProgramInstance :=
  program_instance_new (for_wasm PAY_AT_LEAST_WASM) PAY_AT_LEAST_SELECTOR payment_parameters.

Definition transaction : Transaction := {|
  tx_version := 2;
  lock_time := 500;
  tx_input := [
    {| previous_output := {| txid := replicate 32 Byte.x01; vout := 0 |};
       txin_script_sig := []; sequence := 100; txin_witness := [] |};
    {| previous_output := {| txid := replicate 32 Byte.x02; vout := 0 |};
       txin_script_sig := []; sequence := 200; txin_witness := [] |}];
  tx_output := [
    {| value := MINIMUM; script_pubkey := recipient 1 |};
    {| value := 10000; script_pubkey := recipient 2 |}] |}.

(** The leaf of a script path: [Builder::new().push_slice(key).push_opcode(OP_CHECKSIG)]. *)
Definition key_script (key : bytes) : bytes := build_script [PushSlice key; OpCheckSig].

(** The spend path: the leaf's script path, recorded in the PSBT, or the key path. *)
Definition spend_path (spend : SpendInfo) (leaf : option bytes) (p : Psbt)
    : Result Error (ProgramSpendPath * Psbt) :=
  match leaf with
  | Some script =>
      control ← ok_or (control_block spend (script, TAPSCRIPT)) (Message "missing generated control block");
      p ← edit_map p 1 (fun m => Ok (set_tap_scripts m (<[control := (script, TAPSCRIPT)]> (tap_scripts m))));
      Ok (ScriptPath (leaf_hash script TAPSCRIPT), p)
  | None => Ok (KeyPath, p)
  end.

Definition request (root : ClientXpub) (instance : ProgramInstance) (transaction : Transaction)
    (script_path : bool) : Result Error ProgramSigningRequest :=
  key ← instance_key instance root;
  let leaf := if script_path then Some (key_script key) else None in
  builder ← match leaf with
            | Some script => add_leaf builder_new 0 script
            | None => Ok builder_new
            end;
  spend ← ok_or (finalize builder key) (Message "incomplete Taproot tree");
  let funding_output := {| value := FUNDING; script_pubkey := new_p2tr_tweaked (output_key spend) |} in
  let funding := {| tx_version := 2; lock_time := 0; tx_input := [TxIn_default];
                    tx_output := [funding_output] |} in
  transaction ← edit_txin transaction 1
    (fun i => set_outpoint i {| txid := compute_txid funding; vout := 0 |});
  psbt ← from_unsigned_tx transaction;
  psbt ← edit_map psbt 0 (fun m => Ok (set_witness_utxo m
    (Some {| value := 1000; script_pubkey := recipient 3 |})));
  psbt ← edit_map psbt 1 (fun m => Ok (set_witness_utxo m (Some funding_output)));
  psbt ← edit_map psbt 1 (fun m => Ok (set_internal_key m (Some key)));
  psbt ← edit_map psbt 1 (fun m => Ok (set_merkle_root m (merkle_root spend)));
  '(path, psbt) ← spend_path spend leaf psbt;
  Ok {| request_instance := instance; request_input_index := 1; request_witness := [];
        request_path := path; request_psbt := psbt |}.

Definition same_commitment_and_funding (a b : ProgramSigningRequest) : Result Error unit :=
  _ ← ensure (bool_decide (request_instance a = request_instance b)
              && bool_decide (request_path a = request_path b))
        (Message "fixture changed program commitment/path");
  _ ← ensure (request_input_index a =? request_input_index b) (Message "fixture changed selected input");
  _ ← ensure (bool_decide (tx_input (unsigned_tx (request_psbt a)) = tx_input (unsigned_tx (request_psbt b))))
        (Message "fixture changed funding inputs");
  try_fold (fun _ '(a, b) =>
      ensure (bool_decide (witness_utxo a = witness_utxo b)) (Message "fixture changed funding output"))
    tt (zip (psbt_inputs (request_psbt a)) (psbt_inputs (request_psbt b))).

(* ------------------------------------------------------------------ *)
(** ** Scenarios *)

Definition accepted (request : ProgramSigningRequest) (label : string) : Io unit :=
  sign_accepted ": expected valid signature" request label.

Definition rejected (request : ProgramSigningRequest) (label : string) : Io unit :=
  sign_rejected ": expected Rejected, not transport/validation failure: " request label.

(** [v.swap(i, j)]. *)
Definition swap {A} (l : list A) (i j : nat) : Result Error (list A) :=
  x ← index l i;
  y ← index l j;
  Ok (<[j := x]> (<[i := y]> l)).

(** The edits of [payments]. *)
Definition alternative_tx (tx : Transaction) : Result Error Transaction :=
  tx ← edit_txout tx 0 (fun o => Ok (set_value o 11000));
  tx ← edit_txout tx 1 (fun o => Ok (set_value o 8000));
  outs ← swap (tx_output tx) 0 1;
  Ok (set_outputs tx outs).

Definition underpaid_tx (tx : Transaction) : Result Error Transaction :=
  edit_txout tx 0 (fun o => Ok (set_value o (MINIMUM - 1))).

Definition redirected_tx (tx : Transaction) : Result Error Transaction :=
  edit_txout tx 0 (fun o => Ok (set_script o (recipient 4))).

(** [parameters[..8].copy_from_slice(&1_u64.to_le_bytes())]. *)
Definition cheap_parameters (parameters : bytes) : Result Error bytes :=
  if 8 <=? len parameters then Ok (le_bytes 8 1 ++ drop 8 parameters)
  else Panic "range end index out of range".

Definition payments (root : ClientXpub) : Io ProgramSigningRequest :=
  instance ← Done payment_instance;
  original ← Done (request root instance transaction false);
  let original := with_request_witness original (le_bytes 4 0) in
  _ ← accepted original "registered payment: minimum to output 0, key path/input 1";

  alternative ← Done (edit_tx original alternative_tx);
  let alternative := with_request_witness alternative (le_bytes 4 1) in
  _ ← Done (same_commitment_and_funding original alternative);
  _ ← accepted alternative "same payment commitment/funding: larger payment to output 1";

  underpaid ← Done (edit_tx original underpaid_tx);
  _ ← Done (same_commitment_and_funding original underpaid);
  _ ← rejected underpaid "underpayment";
  redirected ← Done (edit_tx original redirected_tx);
  _ ← Done (same_commitment_and_funding original redirected);
  _ ← rejected redirected "redirected recipient";
  let malformed := with_request_witness original (removelast (request_witness original)) in
  _ ← Done (same_commitment_and_funding original malformed);
  _ ← rejected malformed "malformed output-index evidence";

  script ← Done (request root instance transaction true);
  let script := with_request_witness script (le_bytes 4 0) in
  _ ← accepted script "authenticated payment script path/input 1";
  unauthenticated ← Done (edit_request_map script 1 (fun m => Ok (set_tap_scripts m ∅)));
  _ ← rejected unauthenticated "missing script-path authentication";

  parameters ← Done (cheap_parameters (parameters (request_instance original)));
  substituted ← Done (program_instance_new (evaluator (request_instance original))
                        PAY_AT_LEAST_SELECTOR parameters);
  _ ← rejected (with_instance original substituted)
        "different instance cannot authorize original funding";

  unknown ← Done (program_instance_new (for_wasm (lit "unregistered demonstration interpreter")) [] []);
  unknown ← Done (request root unknown transaction false);
  _ ← rejected unknown "unknown evaluator";
  Done (Ok original).

Definition changed_ctv_tx (tx : Transaction) : Result Error Transaction :=
  edit_txout tx 0 (fun o => v ← amount_add (value o) 1; Ok (set_value o v)).

Definition ctv (root : ClientXpub) : Io unit :=
  let tx := transaction in
  let instance := ctv_wasm_instance (get_ctv_hash tx 1) in
  original ← Done (request root instance tx false);
  _ ← accepted original "inline v1 CTV with native-witness prevouts/input 1";
  changed ← Done (edit_tx original changed_ctv_tx);
  _ ← Done (same_commitment_and_funding original changed);
  rejected changed "changed CTV template under original commitment/funding".

(* ------------------------------------------------------------------ *)
(** ** The inline v2 module *)

(** A line of a text literal: its indentation and its contents. *)
Definition text_line (indent : nat) (contents : bytes) : bytes :=
  Byte.x0a :: replicate indent " "%byte ++ contents.

Definition quoted (s : string) : bytes := Byte.x22 :: lit s ++ [Byte.x22].

Definition v2_source (body : bytes) : bytes :=
  lit "(module"
  ++ text_line 12 (lit "(memory (export " ++ quoted "memory" ++ lit ") 1)")
  ++ text_line 12 (lit "(global $heap (mut i32) (i32.const 1024))")
  ++ text_line 12 (lit "(func (export " ++ quoted "sapio_alloc_v2" ++ lit ") (param $len i32) (result i32)")
  ++ text_line 16 (lit "(local $ptr i32)")
  ++ text_line 16 (lit "global.get $heap local.tee $ptr")
  ++ text_line 16 (lit "local.get $len i32.add global.set $heap local.get $ptr)")
  ++ text_line 12 (lit "(func (export " ++ quoted "sapio_evaluate_v2" ++ lit ")")
  ++ text_line 16 (lit "(param $program i32) (param $program_len i32)")
  ++ text_line 16 (lit "(param $params i32) (param $params_len i32)")
  ++ text_line 16 (lit "(param $view i32) (param $view_len i32)")
  ++ text_line 16 (lit "(param $witness i32) (param $witness_len i32) (result i32)")
  ++ text_line 16 (body ++ lit "))").

Definition v2_module (body : bytes) : Result Error bytes := wat_parse_str (v2_source body).

Definition lock_time_body : bytes :=
  lit "local.get $program_len i32.eqz"
  ++ text_line 9 (lit "local.get $params_len i32.const 4 i32.eq i32.and")
  ++ text_line 9 (lit "local.get $witness_len i32.eqz i32.and")
  ++ text_line 9 (lit "local.get $view_len i32.const 52 i32.ge_u i32.and")
  ++ text_line 9 (lit "if (result i32)")
  ++ text_line 13 (lit "local.get $view i32.load offset=4")
  ++ text_line 13 (lit "local.get $params i32.load i32.eq")
  ++ text_line 9 (lit "else i32.const 0 end").

Definition late_tx (tx : Transaction) : Result Error Transaction :=
  Ok {| tx_version := tx_version tx; lock_time := 501; tx_input := tx_input tx; tx_output := tx_output tx |}.

Definition inline_v2 (root : ClientXpub) : Io unit :=
  module ← Done (v2_module lock_time_body);
  instance ← Done (instance_new_v2 module (le_bytes 4 500));
  original ← Done (request root instance transaction false);
  _ ← accepted original "inline v2 signed lock-time predicate/input 1";
  changed ← Done (edit_tx original late_tx);
  _ ← Done (same_commitment_and_funding original changed);
  _ ← rejected changed "v2 rejects changed signed lock time";

  module ← Done (v2_module (lit "unreachable"));
  trap ← Done (instance_new_v2 module []);
  trap ← Done (request root trap transaction false);
  _ ← rejected trap "v2 trap fails closed";

  module ← Done (v2_module (lit "(loop br 0) i32.const 1"));
  exhausted ← Done (instance_new_v2 module []);
  exhausted ← Done (request root exhausted transaction false);
  rejected exhausted "v2 infinite loop exhausts fuel and fails closed".

Context (identity_from_slice : bytes -> Result Error ClientIdentity).

Definition main (args : list bytes) : Io unit :=
  chosen ← Done (Client.options args);
  match chosen with
  | None => Done (Ok tt)
  | Some options =>
      identity ← Done (load_identity identity_from_slice options);
      _ ← Done (client_new (address options) (client_xpub identity));
      payment ← payments (client_xpub identity);
      _ ← ctv (client_xpub identity);
      _ ← inline_v2 (client_xpub identity);
      accepted payment "server remains live after rejected predicates, trap and fuel exhaustion"
  end.

(* ------------------------------------------------------------------ *)
(** ** Tables *)

Definition with_outputs (r : ProgramSigningRequest) (outs : list TxOut) : ProgramSigningRequest :=
  with_psbt r (set_psbt_tx (request_psbt r) (set_outputs (unsigned_tx (request_psbt r)) outs)).

Definition paid (amount tag : N) : TxOut := {| value := amount; script_pubkey := recipient tag |}.

(** The payment scenario: [original] spends by key path, [script] by script
    path, [substituted] is a cheaper instance and [unknown] an unregistered one. *)
Definition payment_table (original script unknown : ProgramSigningRequest)
    (substituted : ProgramInstance) : list Expectation := [
  Accepts original;
  Accepts (with_request_witness (with_outputs original [paid 8000 2; paid 11000 1]) (le_bytes 4 1));
  Rejects (with_outputs original [paid 8999 1; paid 10000 2]);
  Rejects (with_outputs original [paid 9000 4; paid 10000 2]);
  Rejects (with_request_witness original (le_bytes 3 0));
  Accepts script;
  Rejects (with_psbt script (set_psbt_inputs (request_psbt script)
    (alter (fun m => set_tap_scripts m ∅) 1%nat (psbt_inputs (request_psbt script)))));
  Rejects (with_instance original substituted);
  Rejects unknown].

Definition ctv_table (original : ProgramSigningRequest) : list Expectation := [
  Accepts original;
  Rejects (with_outputs original [paid 9001 1; paid 10000 2])].

Definition v2_table (original trap exhausted : ProgramSigningRequest) : list Expectation := [
  Accepts original;
  Rejects (with_psbt original (set_psbt_tx (request_psbt original)
    {| tx_version := 2; lock_time := 501;
       tx_input := tx_input (unsigned_tx (request_psbt original));
       tx_output := [paid 9000 1; paid 10000 2] |}));
  Rejects trap;
  Rejects exhausted].

(** The fixtures of one run: what [request] builds for each program. *)
Record Fixtures (root : ClientXpub) := {
  f_payment : ProgramSigningRequest;
  f_script : ProgramSigningRequest;
  f_unknown : ProgramSigningRequest;
  f_ctv : ProgramSigningRequest;
  f_v2 : ProgramSigningRequest;
  f_trap : ProgramSigningRequest;
  f_exhausted : ProgramSigningRequest;
}.

Definition inline_program (m : bytes) (parameters_ : bytes) : ProgramInstance :=
  {| evaluator := wasm_v2_id; program := m; parameters := parameters_ |}.

Definition pay_at_least (parameters_ : bytes) : ProgramInstance :=
  {| evaluator := for_wasm PAY_AT_LEAST_WASM; program := PAY_AT_LEAST_SELECTOR; parameters := parameters_ |}.

(** Each fixture is the request for its program, with its evidence. *)
Definition built (root : ClientXpub) (f : Fixtures root) : Prop :=
  (exists r, request root (pay_at_least payment_parameters) transaction false = Ok r /\
     f_payment root f = with_request_witness r (le_bytes 4 0)) /\
  (exists r, request root (pay_at_least payment_parameters) transaction true = Ok r /\
     f_script root f = with_request_witness r (le_bytes 4 0)) /\
  request root {| evaluator := for_wasm (lit "unregistered demonstration interpreter");
                  program := []; parameters := [] |} transaction false = Ok (f_unknown root f) /\
  request root (ctv_wasm_instance (get_ctv_hash transaction 1)) transaction false = Ok (f_ctv root f) /\
  (exists m, v2_module lock_time_body = Ok m /\
     request root (inline_program m (le_bytes 4 500)) transaction false = Ok (f_v2 root f)) /\
  (exists m, v2_module (lit "unreachable") = Ok m /\
     request root (inline_program m []) transaction false = Ok (f_trap root f)) /\
  (exists m, v2_module (lit "(loop br 0) i32.const 1") = Ok m /\
     request root (inline_program m []) transaction false = Ok (f_exhausted root f)).

Definition demo_table (root : ClientXpub) (f : Fixtures root) : list Expectation :=
  payment_table (f_payment root f) (f_script root f) (f_unknown root f)
    (pay_at_least (le_bytes 8 1 ++ drop 8 payment_parameters))
  ++ ctv_table (f_ctv root f) ++ v2_table (f_v2 root f) (f_trap root f) (f_exhausted root f)
  ++ [Accepts (f_payment root f)].

(* ------------------------------------------------------------------ *)
(** ** Lemmas *)

Lemma same_commitment_ok a b :
  same_commitment_and_funding a b = Ok tt <->
  request_instance a = request_instance b /\ request_path a = request_path b /\
  request_input_index a = request_input_index b /\
  tx_input (unsigned_tx (request_psbt a)) = tx_input (unsigned_tx (request_psbt b)) /\
  forall i ma mb, psbt_inputs (request_psbt a) !! i = Some ma -> psbt_inputs (request_psbt b) !! i = Some mb ->
    witness_utxo ma = witness_utxo mb.
Proof.
  assert (forall l, try_fold (E := Error) (fun (_ : unit) '(a, b) =>
      ensure (bool_decide (witness_utxo a = witness_utxo b)) (Message "fixture changed funding output")) tt l = Ok tt <->
    Forall (fun '(a, b) => witness_utxo a = witness_utxo b) l) as Hfold.
  { induction l as [|[x y] l IH]; cbn [try_fold]; [done|]. rewrite Forall_cons_iff, <- IH.
    split; [intros ([] & H%ensure_ok%bool_decide_eq_true & H2)%bind_ok; done|].
    intros [H H2]. by rewrite bool_decide_eq_true_2. }
  unfold same_commitment_and_funding. split.
  - intros ([] & H1 & ([] & H2 & ([] & H3 & H4)%bind_ok)%bind_ok)%bind_ok.
    apply ensure_ok, andb_prop in H1 as [H1 H1']. apply ensure_ok, N.eqb_eq in H2. apply ensure_ok in H3.
    rewrite bool_decide_eq_true in H1, H1', H3. do 4 (split; [done|]). intros i ma mb Ha Hb.
    apply Hfold in H4. rewrite Forall_lookup in H4. apply (H4 i (ma, mb)).
    by rewrite lookup_zip_with, Ha; cbn; rewrite Hb.
  - intros (H1 & H2 & H3 & H4 & H5). rewrite (bool_decide_eq_true_2 _ H1), (bool_decide_eq_true_2 _ H2).
    rewrite H3, N.eqb_refl, (bool_decide_eq_true_2 _ H4). cbn [andb ensure mbind Result_bind].
    apply Hfold, Forall_lookup. intros i [ma mb] (x & y & [= <- <-] & Ha & Hb)%lookup_zip_with_Some. eauto.
Qed.

(** The same PSBT inputs, transaction inputs and commitment. *)
Lemma same_commitment_kept a b :
  request_instance a = request_instance b -> request_path a = request_path b ->
  request_input_index a = request_input_index b ->
  tx_input (unsigned_tx (request_psbt a)) = tx_input (unsigned_tx (request_psbt b)) ->
  psbt_inputs (request_psbt a) = psbt_inputs (request_psbt b) ->
  same_commitment_and_funding a b = Ok tt.
Proof.
  intros H1 H2 H3 H4 H5. apply same_commitment_ok. do 4 (split; [done|]). intros i ma mb. rewrite H5. congruence.
Qed.

Section Follow.
  Context {laws : WalletLaws}.

(** The tree a request's funding commits to. *)
Definition funding_tree (key : bytes) (script_path : bool) (spend : SpendInfo) : Prop :=
  if script_path
  then exists b, add_leaf builder_new 0 (key_script key) = Ok b /\ finalize b key = Some spend
  else finalize builder_new key = Some spend.

(** The Merkle root of that tree: the leaf of the script path, or none. *)
Definition commitment (key : bytes) (script_path : bool) : option bytes :=
  if script_path then Some (leaf_hash (key_script key) TAPSCRIPT) else None.

(** The funding of a request and the PSBT input that spends it: the output is
    the Taproot output of the key and the root that the input records, and a
    script path comes with its leaf under the tree's control block. *)
Definition funded (key : bytes) (script_path : bool) : TxOut :=
  {| value := 20000; script_pubkey := new_p2tr key (commitment key script_path) |}.

Record authentic (key : bytes) (script_path : bool) (path : ProgramSpendPath) (m : PsbtInput) : Prop := {
  authentic_funding : witness_utxo m = Some (funded key script_path);
  authentic_key : tap_internal_key m = Some key;
  authentic_root : tap_merkle_root m = commitment key script_path;
  authentic_unsigned : final_script_sig m = None /\ final_script_witness m = None;
  authentic_path :
    if script_path then
      path = ScriptPath (leaf_hash (key_script key) TAPSCRIPT) /\
      exists spend control, funding_tree key true spend /\
        control_block spend (key_script key, TAPSCRIPT) = Some control /\
        tap_scripts m = {[control := (key_script key, TAPSCRIPT)]}
    else path = KeyPath /\ tap_scripts m = ∅;
}.

Definition funding_transaction (key : bytes) (script_path : bool) : Transaction :=
  {| tx_version := 2; lock_time := 0; tx_input := [TxIn_default]; tx_output := [funded key script_path] |}.

(** What [request] builds for a two-input transaction: the second input spends
    its funding, the first another output, and nothing else of the transaction
    changes. *)
Lemma request_ok root instance key tx script i0 i1 :
  instance_key instance root = Ok key -> tx_input tx = [i0; i1] ->
  unsigned_txin i0 -> unsigned_txin i1 ->
  exists r m1,
    request root instance tx script = Ok r /\
    request_instance r = instance /\ request_input_index r = 1 /\ request_witness r = [] /\
    authentic key script (request_path r) m1 /\
    request_psbt r = {|
      unsigned_tx := set_inputs tx [i0; set_outpoint i1 {| txid := compute_txid (funding_transaction key script); vout := 0 |}];
      psbt_inputs := [set_witness_utxo PsbtInput_default (Some {| value := 1000; script_pubkey := recipient 3 |}); m1];
      psbt_outputs := replicate (length (tx_output tx)) PsbtOutput_default |}.
Proof.
  intros Hkey Hins Hu0 Hu1. unfold request. rewrite Hkey. cbn [mbind Result_bind]. fold (key_script key).
  assert (forall funding, Forall unsigned_txin (tx_input
    (set_inputs tx [i0; set_outpoint i1 {| txid := compute_txid funding; vout := 0 |}]))) as Hun
    by (intros; constructor; [done|constructor; [done|constructor]]).
  assert (exists b sp, (match (if script then Some (key_script key) else None) with
      | Some leaf => add_leaf builder_new 0 leaf | None => Ok builder_new end) = Ok b /\
    finalize b key = Some sp /\ funding_tree key script sp /\ merkle_root sp = commitment key script /\
    (script = true -> exists control, control_block sp (key_script key, TAPSCRIPT) = Some control))
    as (b & sp & Hb & Hs & Htree & Hroot & Hc).
  { destruct script.
    - destruct (finalize_leaf (key_script key) key) as (b & sp & control & Hb & Hs & Hm & Hc).
      exists b, sp. split; [done|]. split; [done|]. split; [by exists b|]. split; [done|]. by exists control.
    - destruct (finalize_keyonly key) as (sp & Hs & Hm). by exists builder_new, sp. }
  rewrite Hb. cbn [mbind Result_bind]. rewrite Hs. cbn [ok_or mbind Result_bind].
  rewrite (output_key_tweaked _ _ _ Hs), Hroot. change FUNDING with 20000. fold (funded key script).
  fold (funding_transaction key script).
  unfold edit_txin. rewrite Hins. cbn [index_mut index expect lookup list_lookup insert list_insert mbind Result_bind].
  rewrite from_unsigned_tx_ok by done. cbn -[set_outpoint funded recipient key_script compute_txid].
  destruct script; cbn [spend_path].
  - destruct (Hc eq_refl) as [control Hcontrol]. rewrite Hcontrol. cbn -[set_outpoint funded recipient key_script compute_txid].
    do 2 eexists. split; [reflexivity|]. do 3 (split; [done|]). split; [|reflexivity].
    split; try done. split; [done|]. by exists sp, control.
  - do 2 eexists. split; [reflexivity|]. do 3 (split; [done|]). split; [|reflexivity]. by split.
Qed.

Lemma demo_accepted_follows r label : follows any_signed (accepted r label) tt [Accepts r].
Proof. apply sign_accepted_follows. Qed.

Lemma demo_rejected_follows r label : follows any_signed (rejected r label) tt [Rejects r].
Proof. apply sign_rejected_follows. Qed.

(** A fixture of the module's own transaction. *)
Lemma fixture_ok root instance key script : instance_key instance root = Ok key ->
  exists r, request root instance transaction script = Ok r /\
    request_instance r = instance /\ request_witness r = [] /\
    tx_version (unsigned_tx (request_psbt r)) = 2%Z /\
    tx_output (unsigned_tx (request_psbt r)) = [paid 9000 1; paid 10000 2] /\
    length (psbt_inputs (request_psbt r)) = 2%nat.
Proof.
  intros Hkey. destruct (request_ok root instance key transaction script _ _ Hkey eq_refl)
    as (r & m1 & Hr & Hi & _ & Hw & _ & Hp); [done..|].
  exists r. rewrite Hp. done.
Qed.

(** An edit that only replaces the outputs keeps the commitment. *)
Lemma outputs_kept r outs : same_commitment_and_funding r (with_outputs r outs) = Ok tt.
Proof. by apply same_commitment_kept. Qed.

Lemma edit_outputs r f outs :
  f (unsigned_tx (request_psbt r)) = Ok (set_outputs (unsigned_tx (request_psbt r)) outs) ->
  edit_tx r f = Ok (with_outputs r outs).
Proof. intros H. unfold edit_tx. by rewrite H. Qed.

(** An edit of one output among two. *)
Lemma edit_first tx o0 o1 f o :
  tx_output tx = [o0; o1] -> f o0 = Ok o -> edit_txout tx 0 f = Ok (set_outputs tx [o; o1]).
Proof. intros Ho Hf. unfold edit_txout. rewrite Ho. cbn. by rewrite Hf. Qed.

Lemma alternative_ok tx : tx_output tx = [paid 9000 1; paid 10000 2] ->
  alternative_tx tx = Ok (set_outputs tx [paid 8000 2; paid 11000 1]).
Proof. intros H. unfold alternative_tx, edit_txout. rewrite H. done. Qed.

Lemma edit_second_map r f m0 m1 m : psbt_inputs (request_psbt r) = [m0; m1] -> f m1 = Ok m ->
  edit_request_map r 1 f = Ok (with_psbt r (set_psbt_inputs (request_psbt r) [m0; m])).
Proof. intros Hm Hf. unfold edit_request_map, edit_map. rewrite Hm. cbn. by rewrite Hf. Qed.

Lemma cheap_ok : cheap_parameters payment_parameters = Ok (le_bytes 8 1 ++ drop 8 payment_parameters).
Proof.
  unfold cheap_parameters. assert (8 <=? len payment_parameters = true) as ->; [|done].
  apply N.leb_le. unfold payment_parameters. rewrite len_app, len_le_bytes. lia.
Qed.

Ltac follow_check := eapply follows_then; [apply demo_accepted_follows || apply demo_rejected_follows|].
Ltac follow_lift H := eapply follows_lift; [apply H; try eassumption; try reflexivity|].

Lemma payments_follows root original script unknown substituted :
  payment_instance = Ok (request_instance original) ->
  request root (request_instance original) transaction false = Ok original ->
  request root (request_instance original) transaction true = Ok script ->
  program_instance_new (evaluator (request_instance original)) PAY_AT_LEAST_SELECTOR
    (le_bytes 8 1 ++ drop 8 payment_parameters) = Ok substituted ->
  parameters (request_instance original) = payment_parameters ->
  program_instance_new (for_wasm (lit "unregistered demonstration interpreter")) [] [] = Ok (request_instance unknown) ->
  request root (request_instance unknown) transaction false = Ok unknown ->
  tx_output (unsigned_tx (request_psbt original)) = [paid 9000 1; paid 10000 2] ->
  length (psbt_inputs (request_psbt script)) = 2%nat ->
  follows any_signed (payments root) (with_request_witness original (le_bytes 4 0))
    (payment_table (with_request_witness original (le_bytes 4 0)) (with_request_witness script (le_bytes 4 0))
       unknown substituted).
Proof.
  intros Hi Ho Hs Hsub Hpar Hu Hur Hout Hlen. unfold payments.
  follow_lift Hi. follow_lift Ho. cbn zeta. set (o := with_request_witness original (le_bytes 4 0)).
  assert (tx_output (unsigned_tx (request_psbt o)) = [paid 9000 1; paid 10000 2]) as Houto by done.
  follow_check.
  eapply follows_lift; [apply edit_outputs, alternative_ok, Houto|]. cbn zeta.
  eapply follows_lift; [by apply same_commitment_kept|]. follow_check.
  eapply follows_lift; [eapply edit_outputs, edit_first; [exact Houto|reflexivity]|].
  follow_lift outputs_kept. follow_check.
  eapply follows_lift; [eapply edit_outputs, edit_first; [exact Houto|reflexivity]|].
  follow_lift outputs_kept. follow_check. cbn zeta.
  eapply follows_lift; [by apply same_commitment_kept|]. follow_check.
  follow_lift Hs. cbn zeta. follow_check.
  destruct (psbt_inputs (request_psbt script)) as [|m0 [|m1 [|? ?]]] eqn:Em; try discriminate Hlen.
  eapply follows_lift; [eapply edit_second_map; [exact Em|reflexivity]|].
  unfold payment_table. cbn [request_psbt with_request_witness]. rewrite Em. cbn [alter list_alter]. follow_check.
  eapply follows_lift; [cbn [request_instance o with_request_witness]; rewrite Hpar; exact cheap_ok|].
  eapply follows_lift; [exact Hsub|]. follow_check.
  follow_lift Hu. follow_lift Hur. follow_check. apply follows_done.
Qed.

Lemma ctv_follows root original :
  request root (ctv_wasm_instance (get_ctv_hash transaction 1)) transaction false = Ok original ->
  tx_output (unsigned_tx (request_psbt original)) = [paid 9000 1; paid 10000 2] ->
  follows any_signed (ctv root) tt (ctv_table original).
Proof.
  intros Ho Hout. unfold ctv. cbn zeta. follow_lift Ho. follow_check.
  eapply follows_lift; [eapply edit_outputs, edit_first; [exact Hout|reflexivity]|].
  follow_lift outputs_kept. apply demo_rejected_follows.
Qed.

Lemma inline_v2_follows root m1 m2 m3 original trap exhausted :
  v2_module lock_time_body = Ok m1 -> v2_module (lit "unreachable") = Ok m2 ->
  v2_module (lit "(loop br 0) i32.const 1") = Ok m3 ->
  Forall (fun m => len m <= MAX_PROGRAM_BYTES) [m1; m2; m3] ->
  request root (inline_program m1 (le_bytes 4 500)) transaction false = Ok original ->
  request root (inline_program m2 []) transaction false = Ok trap ->
  request root (inline_program m3 []) transaction false = Ok exhausted ->
  tx_version (unsigned_tx (request_psbt original)) = 2%Z ->
  tx_output (unsigned_tx (request_psbt original)) = [paid 9000 1; paid 10000 2] ->
  follows any_signed (inline_v2 root) tt (v2_table original trap exhausted).
Proof.
  intros E1 E2 E3 (L1 & (L2 & (L3 & _)%Forall_cons_iff)%Forall_cons_iff)%Forall_cons_iff Ho Ht He Hv Hout. unfold inline_v2.
  follow_lift E1. eapply follows_lift; [by apply instance_v2_within|]. follow_lift Ho. follow_check.
  eapply follows_lift; [unfold edit_tx, late_tx; rewrite Hv, Hout; reflexivity|].
  eapply follows_lift; [by apply same_commitment_kept|]. follow_check.
  follow_lift E2. eapply follows_lift; [by apply instance_v2_within|]. follow_lift Ht. follow_check.
  follow_lift E3. eapply follows_lift; [by apply instance_v2_within|]. follow_lift He. apply demo_rejected_follows.
Qed.

Lemma payment_parameters_len : len payment_parameters <= MAX_PARAMETER_BYTES.
Proof.
  unfold payment_parameters, recipient, MAX_PARAMETER_BYTES.
  rewrite !len_app, !len_le_bytes, p2wpkh_len by done. lia.
Qed.

Lemma main_follows root f args o identity :
  Client.options args = Ok (Some o) -> load_identity identity_from_slice o = Ok identity ->
  client_new (address o) (client_xpub identity) = Ok tt ->
  root = client_xpub identity -> built root f ->
  (forall body m, body ∈ [lock_time_body; lit "unreachable"; lit "(loop br 0) i32.const 1"] ->
     v2_module body = Ok m -> len m <= MAX_PROGRAM_BYTES) ->
  (forall i, exists key, instance_key i root = Ok key) ->
  follows any_signed (main args) tt (demo_table root f).
Proof.
  intros Hopt Hid Hnew -> Hf Hsize Hkey.
  destruct Hf as ((p & Hp & Ep) & (s & Hs & Es) & Hu & Hc & (m1 & M1 & H1) & (m2 & M2 & H2) & (m3 & M3 & H3)).
  assert (forall i script r, request (client_xpub identity) i transaction script = Ok r ->
    request_instance r = i /\ tx_version (unsigned_tx (request_psbt r)) = 2%Z /\
    tx_output (unsigned_tx (request_psbt r)) = [paid 9000 1; paid 10000 2] /\
    length (psbt_inputs (request_psbt r)) = 2%nat) as Hfix.
  { intros i script r Hr. destruct (Hkey i) as [key Hk].
    destruct (fixture_ok _ _ _ script Hk) as (r' & Hr' & Hrest). assert (r' = r) as -> by congruence. tauto. }
  unfold main. follow_lift Hopt. follow_lift Hid. follow_lift Hnew.
  destruct (Hfix _ _ _ Hp) as (Ip & _ & Op & _). destruct (Hfix _ _ _ Hs) as (_ & _ & _ & Ls).
  destruct (Hfix _ _ _ Hu) as (Iu & _). destruct (Hfix _ _ _ Hc) as (_ & _ & Oc & _).
  destruct (Hfix _ _ _ H1) as (_ & V1 & O1 & _).
  pose proof payment_parameters_len as Hlen. unfold demo_table. rewrite Ep, Es.
  eapply follows_bind; [apply payments_follows; rewrite ?Ip, ?Iu; try done|].
  - by apply instance_new_within.
  - apply instance_new_within; [done|]. rewrite len_app, len_le_bytes.
    unfold payment_parameters in *. rewrite len_app, len_le_bytes in Hlen. rewrite drop_app_length'; [|done]. lia.
  - by apply instance_new_within.
  - cbn beta. eapply follows_bind; [by apply ctv_follows|].
    eapply follows_bind; [|apply demo_accepted_follows].
    apply (inline_v2_follows _ m1 m2 m3); [done..| |done|done|done|done|done].
    repeat constructor; eapply Hsize; try eassumption; rewrite !elem_of_cons; tauto.
Qed.

End Follow.

End Demo.

(* ------------------------------------------------------------------ *)
(** ** Properties *)

Section Theorems.
  Context {sapio : SapioProgram} {prim : KeyPrimitives} {upstream : Upstream} {clientlib : ClientLib}.
  Context {wallet : WalletLib} {laws : WalletLaws} {demo : OracleDemoLib}.

(** C40: the fixtures of the demonstration are bound to what they claim to spend:
    for a well-formed unsigned two-input transaction [request] succeeds, keeps
    the version, lock time, sequences, outputs and first input, and selects a
    second input that spends the Taproot output of the instance's key and the
    recorded Merkle root, 20000 satoshis; the script path carries the only leaf,
    its hash and its control block, the key path none of them; and the result is
    a complete native context. *)
Theorem request_bound root instance key tx script i0 i1 :
  instance_key instance root = Ok key -> wf_transaction tx ->
  tx_input tx = [i0; i1] -> Forall unsigned_txin (tx_input tx) ->
  exists r m1, request root instance tx script = Ok r /\
    native_context (request_context r) /\
    request_instance r = instance /\ request_input_index r = 1 /\ request_witness r = [] /\
    unsigned_tx (request_psbt r) = set_inputs tx
      [i0; set_outpoint i1 {| txid := compute_txid (funding_transaction key script); vout := 0 |}] /\
    psbt_inputs (request_psbt r) !! 1%nat = Some m1 /\
    authentic key script (request_path r) m1 /\
    prevout_list (request_context r) = [{| value := 1000; script_pubkey := recipient 3 |}; funded key script].
Proof.
  intros Hkey Hwf Hins Hun. rewrite Hins in Hun. apply Forall_cons_iff in Hun as [Hu0 [Hu1 _]%Forall_cons_iff].
  destruct (request_ok root instance key tx script i0 i1) as (r & m1 & Hr & Hi & Hx & Hw & Ha & Hp); [done..|].
  exists r, m1. split; [exact Hr|]. pose proof (authentic_funding _ _ _ _ Ha) as H1.
  assert (prevout_list (request_context r) = [{| value := 1000; script_pubkey := recipient 3 |}; funded key script])
    as Hprev by (unfold prevout_list; cbn [request_context psbt]; rewrite Hp; cbn; by rewrite H1).
  assert (len (script_pubkey (funded key script)) = 34) as Hlen by apply p2tr_len.
  split; [|by rewrite Hp].
  destruct Hwf as [Wv Wl Wi Wo]. rewrite Hins in Wi. apply Forall_cons_iff in Wi as [Wi0 [[Wi1 Ws1] _]%Forall_cons_iff].
  split; rewrite ?Hprev; cbn [request_context psbt input_index]; rewrite ?Hp, ?Hx; cbn -[prevout_list funded]; [done| |done| | | |].
  - constructor; [by eexists|]. constructor; [by eexists|constructor].
  - split; [done|done| |done]. cbn. constructor; [done|]. constructor; [|constructor].
    split; [split; [apply compute_txid_len|done]|done].
  - constructor; [done|]. constructor; [done|constructor].
  - constructor; [split; [done|]|constructor; [split; [done|by rewrite Hlen]|constructor]]. cbn.
    unfold recipient. by rewrite p2wpkh_len.
  - intros m [= <-]. exists key. split; [apply Ha|]. by eapply instance_key_len.
Qed.

(** C39: the demonstration is a test of its table: given an accepted identity and
    an assembler that accepts the three modules, its fixtures are built, none
    of its own checks fails, and against any oracle, even one that remembers
    earlier requests, it passes exactly when the oracle signs each request the
    table accepts and rejects each other one, having sent exactly those. *)
Theorem oracle_demo_table identity_from_slice args o identity :
  Client.options args = Ok (Some o) -> load_identity identity_from_slice o = Ok identity ->
  client_new (address o) (client_xpub identity) = Ok tt ->
  (forall i, exists key, instance_key i (client_xpub identity) = Ok key) ->
  (forall body, body ∈ [lock_time_body; lit "unreachable"; lit "(loop br 0) i32.const 1"] ->
     exists m, v2_module body = Ok m /\ len m <= MAX_PROGRAM_BYTES) ->
  exists f, built (client_xpub identity) f /\
    forall oracle sent,
      run_io oracle [] (main identity_from_slice args) = (Ok tt, sent) <->
      sent = expected_request <$> demo_table (client_xpub identity) f /\
      meets any_signed oracle [] (demo_table (client_xpub identity) f).
Proof.
  intros Hopt Hid Hnew Hkey Hwat. set (root := client_xpub identity) in *.
  destruct (Hwat lock_time_body) as (m1 & M1 & L1); [rewrite !elem_of_cons; tauto|].
  destruct (Hwat (lit "unreachable")) as (m2 & M2 & L2); [rewrite !elem_of_cons; tauto|].
  destruct (Hwat (lit "(loop br 0) i32.const 1")) as (m3 & M3 & L3); [rewrite !elem_of_cons; tauto|].
  assert (forall i script, exists r, request root i transaction script = Ok r) as Hreq.
  { intros i script. destruct (Hkey i) as [key Hk]. destruct (fixture_ok root i key script Hk) as (r & Hr & _). eauto. }
  destruct (Hreq (pay_at_least payment_parameters) false) as [p Hp].
  destruct (Hreq (pay_at_least payment_parameters) true) as [s Hs].
  destruct (Hreq {| evaluator := for_wasm (lit "unregistered demonstration interpreter");
                    program := []; parameters := [] |} false) as [u Hu].
  destruct (Hreq (ctv_wasm_instance (get_ctv_hash transaction 1)) false) as [c Hc].
  destruct (Hreq (inline_program m1 (le_bytes 4 500)) false) as [v Hv].
  destruct (Hreq (inline_program m2 []) false) as [t Ht]. destruct (Hreq (inline_program m3 []) false) as [e He].
  set (f := {| f_payment := with_request_witness p (le_bytes 4 0); f_script := with_request_witness s (le_bytes 4 0);
    f_unknown := u; f_ctv := c; f_v2 := v; f_trap := t; f_exhausted := e |} : Fixtures root).
  assert (built root f) as Hb by (repeat split; eauto). exists f. split; [done|]. intros oracle sent.
  assert (follows any_signed (main identity_from_slice args) tt (demo_table root f)) as Hfol.
  { apply (main_follows identity_from_slice root f args o identity Hopt Hid Hnew eq_refl Hb); [|done].
    intros body m Hin Hm. destruct (Hwat body Hin) as (m' & Hm' & Hl). by replace m with m' by congruence. }
  specialize (Hfol oracle [] tt sent). cbn [app] in Hfol. tauto.
Qed.

End Theorems.
