(* ===== verification/DemoHost.v ===== *)
(** * DemoHost: an oracle that runs a guest program

    What the demonstrations expect of a remote oracle: it signs a request
    exactly when the selected input is locked to the key of the request's own
    instance and the instance's program accepts the spend.  The program is run
    by the host of [Evaluator] on a guest of [GuestRuntime], from the view of
    the request's PSBT. *)

From S2P Require Import Prelude Bytes Bitcoin Program SignedView Guest Evaluator GuestRuntime EndToEnd Client Driver Wallet.

Open Scope N_scope.

Section Host.
  Context {codec : OutPointCodec} {sapio : SapioProgram} {clientlib : ClientLib} {wallet : WalletLib}.
  Context (arena_base : N) (sections : list Payload) (predicate : Arena -> Arguments -> option bool).
  Context (root : ClientXpub).

(** The funding is locked to the key of this instance. *)
Definition bound (r : ProgramSigningRequest) : bool :=
  match instance_key (request_instance r) root with
  | Ok key => bool_decide (selected_key (request_context r) = key)
  | _ => false
  end.

Definition host_accepts (r : ProgramSigningRequest) : bool :=
  match Evaluator.evaluate (runtime := guest_runtime arena_base sections predicate) V1
          (program (request_instance r)) [] (parameters (request_instance r))
          (request_context r) (request_witness r) with
  | Ok verdict => verdict
  | _ => false
  end.

(** The oracle's answers to well-formed requests for inline programs of
    [module], whatever it was asked before. *)
Definition oracle_runs (module : bytes) (accept : ProgramSigningRequest -> Psbt -> Prop) (oracle : Oracle) : Prop :=
  forall sent r,
    evaluator (request_instance r) = wasm_id -> program (request_instance r) = module ->
    native_context (request_context r) ->
    if bound r && host_accepts r
    then exists signed, oracle sent r = Ok signed /\ accept r signed
    else exists text, oracle sent r = Err (RejectedBy text).

(** The host's verdict is the predicate's answer. *)
Lemma host_accepts_spec {laws : OutPointCodecLaws} module r answer :
  linked arena_base sections predicate module ->
  program (request_instance r) = module ->
  native_context (request_context r) ->
  view_size V1 (request_context r) <= MAX_SIGNED_VIEW_BYTES ->
  len (parameters (request_instance r)) <= MAX_PARAMETER_BYTES -> len (request_witness r) <= MAX_WITNESS_BYTES ->
  (forall a, base a = arena_base ->
     used a = len (parameters (request_instance r)) + view_size V1 (request_context r) + len (request_witness r) ->
     predicate a {| arg_program := []; arg_parameters := parameters (request_instance r);
                    arg_view := view_layout V1 (request_context r); arg_witness := request_witness r |} = answer) ->
  host_accepts r = bool_decide (answer = Some true).
Proof.
  intros (H0 & Hfits & Hmod & Hbudget) <- Hnat Hsize Hps Hw Hpred. unfold host_accepts.
  pose proof (len_view_layout V1 (request_context r) Hnat) as Hlen.
  destruct (guest_run arena_base sections predicate H0 Hfits (program (request_instance r)) []
    (parameters (request_instance r)) (view_layout V1 (request_context r)) (request_witness r) (request_context r))
    as (a & Hb & Hu & ->); [done|done|done|done|done|by rewrite Hlen| |].
  - rewrite encode_view_fits by done. apply N.leb_le in Hsize. by rewrite Hsize.
  - rewrite Hpred; [by destruct answer as [[]|]|done|]. rewrite Hu, Hlen, len_nil. lia.
Qed.

(** An oracle that runs the program answers as the table expects where the
    table agrees with the program. *)
Lemma oracle_answers module accept oracle e sent :
  oracle_runs module accept oracle ->
  evaluator (request_instance (expected_request e)) = wasm_id ->
  program (request_instance (expected_request e)) = module ->
  native_context (request_context (expected_request e)) ->
  bound (expected_request e) && host_accepts (expected_request e) =
    (match e with Accepts _ => true | Rejects _ => false end) ->
  answered accept e (oracle sent (expected_request e)).
Proof.
  intros Ho He Hp Hn Hv. specialize (Ho sent _ He Hp Hn). rewrite Hv in Ho.
  destruct e as [r|r]; exact Ho.
Qed.

End Host.
