(* ===== verification/VaultDemo.v ===== *)
(** * VaultDemo: the safe-withdrawal demonstration
    (examples/vault/main.rs, examples/vault/contract.rs)

    [main] compiles the contract, funds its key path and sends twelve requests
    around the boundaries of the sweep rule.  Its table says which it expects
    signed; against an oracle that runs the vault predicate of [Vault] on the
    signed view, the demonstration passes.  The Sapio compiler and the
    miniscript finalizer are the interface [VaultLib]. *)

From S2P Require Import Prelude Bytes Bitcoin Program SignedView Guest Vault Evaluator GuestRuntime EndToEnd.
From S2P Require Import Keys Deployment Client Driver Wallet DemoHost.

Open Scope N_scope.

Definition FUNDING_SATS : N := 1000000.
Definition MAX_FEE_SATS : N := 1000.

(** [LoweringPlan] as the example uses it, and the compilation context. *)
Inductive LoweringPlan := Native.

Record CompileContext := {
  compile_network : Network;
  compile_amount : N;
  compile_plan : LoweringPlan;
  compile_path : bytes;
}.

Record Requirement {EmulatedProgram : Type} := {
  requirement_program : EmulatedProgram;
  requirement_path : ProgramSpendPath;
}.
Arguments Requirement : clear implicits.

Class VaultLib {clientlib : ClientLib} {sapio : SapioProgram} := {
  EmulatedProgram : Type;
  emulated_eq_dec :: EqDecision EmulatedProgram;
  emulated_new : ProgramInstance -> ClientXpub -> Result Error EmulatedProgram;
  emulated_instance : EmulatedProgram -> ProgramInstance;
  effect_path : bytes -> Result string bytes;
  Compiled : Type;
  compile : EmulatedProgram -> CompileContext -> Result string Compiled;
  compiled_script : Compiled -> bytes;
  program_requirements : Compiled -> Result Error (list (Requirement EmulatedProgram));
  prepare_program_request :
    Compiled -> Requirement EmulatedProgram -> Psbt -> N -> bytes -> Result Error ProgramSigningRequest;
  finalize_mut : Psbt -> Result string Psbt;
  extract_tx : Psbt -> Result Error Transaction;
}.

(** Documented: an emulated program keeps its instance; the compiled address
    is a Taproot output; and a prepared request names the requirement's program
    and path, keeps the transaction and the witness output and records the
    derived key. *)
Class VaultLaws {clientlib : ClientLib} {sapio : SapioProgram} {wallet : WalletLib} {vault : VaultLib} : Prop := {
  emulated_new_ok i root e : emulated_new i root = Ok e -> emulated_instance e = i;
  compiled_script_len c : len (compiled_script c) = 34;
  prepare_ok root i e c ctx rs requirement p o :
    emulated_new i root = Ok e -> compile e ctx = Ok c ->
    program_requirements c = Ok rs -> requirement ∈ rs -> requirement_program requirement = e ->
    psbt_inputs p = [set_witness_utxo PsbtInput_default (Some o)] ->
    script_pubkey o = compiled_script c ->
    exists m key, instance_key i root = Ok key /\ tap_internal_key m = Some key /\
      witness_utxo m = Some o /\
      prepare_program_request c requirement p 0 [] = Ok {|
        request_instance := i; request_input_index := 0; request_witness := [];
        request_path := requirement_path requirement;
        request_psbt := {| unsigned_tx := unsigned_tx p; psbt_inputs := [m]; psbt_outputs := psbt_outputs p |} |};
}.

Section Demo.
  Context {sapio : SapioProgram} {clientlib : ClientLib} {wallet : WalletLib} {vault : VaultLib}.
  Context (VAULT_WASM : bytes).

Definition recipient (tag : N) : bytes := new_p2wpkh (replicate 20 (byte_of_N tag)).

(** contract.rs: [SafeWithdrawal] holds the emulated program. *)
Record SafeWithdrawal := { emulation : EmulatedProgram }.

Definition SafeWithdrawal_new (max_fee_satoshis : N) (destination : bytes) (root : ClientXpub)
    : Result Error SafeWithdrawal :=
  instance ← vault_instance VAULT_WASM max_fee_satoshis destination;
  e ← emulated_new instance root;
  Ok {| emulation := e |}.

(* ------------------------------------------------------------------ *)
(** ** Checks *)

Definition accepted (request : ProgramSigningRequest) (label : string) : Io unit :=
  answer ← sign request;
  Done (signed ← context (label +:+ ": expected a verified signature")
                   (map_err (fun e => Foreign (display e)) answer);
        signed ← map_err (fun errors => Message (label +:+ ": Miniscript finalization failed: " +:+ errors))
                   (finalize_mut signed);
        transaction ← context "extract finalized sweep" (extract_tx signed);
        ensure (bool_decide (compute_txid transaction = compute_txid (unsigned_tx (request_psbt request))))
          (Message (label +:+ ": finalization changed the unsigned transaction"))).

Definition rejected (request : ProgramSigningRequest) (label : string) : Io unit :=
  sign_rejected ": expected Rejected, not transport/validation failure: " request label.

(** What [accepted] requires of a signed PSBT. *)
Definition finalizes (request : ProgramSigningRequest) (signed : Psbt) : Prop :=
  exists final tx, finalize_mut signed = Ok final /\ extract_tx final = Ok tx /\
    compute_txid tx = compute_txid (unsigned_tx (request_psbt request)).

(* ------------------------------------------------------------------ *)
(** ** main *)

(** The single key path among the requirements. *)
Definition key_path_requirement (e : EmulatedProgram) (requirements : list (Requirement EmulatedProgram))
    : Result Error (Requirement EmulatedProgram) :=
  _ ← ensure (forallb (fun r => bool_decide (requirement_program r = e)) requirements)
        (Message "compiled artifact contains an unexpected program or oracle root");
  match filter (fun r => requirement_path r = KeyPath) requirements with
  | [] => Err (Message "vault has no program key path")
  | [requirement] => Ok requirement
  | _ => Err (Message "vault has multiple program key-path requirements")
  end.

Definition funding_tx (script : bytes) : Transaction := {|
  tx_version := 2; lock_time := 0; tx_input := [TxIn_default];
  tx_output := [{| value := FUNDING_SATS; script_pubkey := script |}] |}.

Definition sweep (script destination : bytes) : Transaction := {|
  tx_version := 2; lock_time := 0;
  tx_input := [set_outpoint TxIn_default {| txid := compute_txid (funding_tx script); vout := 0 |}];
  tx_output := [{| value := FUNDING_SATS - 500; script_pubkey := destination |}] |}.

(** [compiled] to the first request. *)
Definition original_request (v : SafeWithdrawal) (destination : bytes) : Result Error ProgramSigningRequest :=
  path ← map_err (fun error => Message ("vault path: " +:+ error)) (effect_path (lit "vault"));
  compiled ← map_err (fun error => Message ("compile safe-withdrawal contract: " +:+ error))
    (compile (emulation v) {| compile_network := Regtest; compile_amount := FUNDING_SATS;
                              compile_plan := Native; compile_path := path |});
  requirements ← program_requirements compiled;
  requirement ← key_path_requirement (emulation v) requirements;
  psbt ← from_unsigned_tx (sweep (compiled_script compiled) destination);
  psbt ← edit_map psbt 0 (fun m => Ok (set_witness_utxo m
    (Some {| value := FUNDING_SATS; script_pubkey := compiled_script compiled |})));
  prepare_program_request compiled requirement psbt 0 [].

(** [outputs[0].value = ...] *)
Definition pay (amount : N) (r : ProgramSigningRequest) : Result Error ProgramSigningRequest :=
  edit_tx r (fun tx => edit_txout tx 0 (fun o => Ok (set_value o amount))).

(** [inputs[0].witness_utxo.as_mut().context(..)?.value = ...] *)
Definition fund (amount : N) (r : ProgramSigningRequest) : Result Error ProgramSigningRequest :=
  edit_request_map r 0 (fun m =>
    o ← ok_or (witness_utxo m) (Message "missing funding witness");
    Ok (set_witness_utxo m (Some (set_value o amount)))).

Definition redirect (destination : bytes) (r : ProgramSigningRequest) : Result Error ProgramSigningRequest :=
  edit_tx r (fun tx => edit_txout tx 0 (fun o => Ok (set_script o destination))).

Definition split_output (destination : bytes) (r : ProgramSigningRequest) : Result Error ProgramSigningRequest :=
  r ← edit_tx r (fun tx => edit_txout tx 0 (fun o => v ← amount_sub (value o) 1; Ok (set_value o v)));
  r ← edit_tx r (fun tx => Ok (set_outputs tx (tx_output tx ++ [{| value := 1; script_pubkey := destination |}])));
  Ok (with_psbt r {| unsigned_tx := unsigned_tx (request_psbt r); psbt_inputs := psbt_inputs (request_psbt r);
                     psbt_outputs := psbt_outputs (request_psbt r) ++ [PsbtOutput_default] |}).

Definition add_input (r : ProgramSigningRequest) : Result Error ProgramSigningRequest :=
  r ← edit_tx r (fun tx => Ok (set_inputs tx (tx_input tx ++
        [set_outpoint TxIn_default {| txid := replicate 32 Byte.x07; vout := 0 |}])));
  let r := with_psbt r (set_psbt_inputs (request_psbt r) (psbt_inputs (request_psbt r) ++
        [set_witness_utxo PsbtInput_default (Some {| value := 1000; script_pubkey := recipient 44 |})])) in
  edit_tx r (fun tx => edit_txout tx 0 (fun o => v ← amount_add (value o) 1000; Ok (set_value o v))).

Definition scenario (original : ProgramSigningRequest) (destination : bytes) : Io unit :=
  _ ← accepted original "500-sat fee to committed recipient";
  maximum ← Done (pay (FUNDING_SATS - MAX_FEE_SATS) original);
  _ ← accepted maximum "exact 1000-sat maximum fee under same instance/funding";
  excessive_fee ← Done (pay (FUNDING_SATS - 1001) original);
  _ ← rejected excessive_fee "1001-sat fee exceeds committed cap";
  redirected ← Done (redirect (recipient 43) original);
  _ ← rejected redirected "different recipient at allowed 500-sat fee";
  negative_fee ← Done (pay (FUNDING_SATS + 1) original);
  _ ← rejected negative_fee "outputs exceed input by 1 sat";
  dust ← Done (fund (MAX_FEE_SATS + 200) original);
  dust ← Done (pay 200 dust);
  _ ← rejected dust "200-sat sweep output below the 330-sat dust floor, in-cap fee";
  dust_boundary ← Done (fund (MAX_FEE_SATS + 330) original);
  dust_boundary ← Done (pay 330 dust_boundary);
  _ ← accepted dust_boundary "330-sat dust-floor boundary output with in-cap fee";
  extra_output ← Done (split_output destination original);
  _ ← rejected extra_output "extra output, same recipient and total 500-sat fee";
  extra_input ← Done (add_input original);
  _ ← rejected extra_input "extra input, same recipient and total 500-sat fee";
  let unexpected_witness := with_request_witness original (request_witness original ++ [Byte.x01]) in
  _ ← rejected unexpected_witness "unexpected predicate witness";
  instance ← Done (vault_instance VAULT_WASM (MAX_FEE_SATS + 1) destination);
  _ ← rejected (with_instance original instance) "relaxed fee policy substituted against original funding";
  accepted original "valid 500-sat sweep still signs after all rejections".

Context (identity_from_slice : bytes -> Result Error ClientIdentity).
Context {prim : KeyPrimitives} {upstream : Upstream}.

Definition main (args : list bytes) : Io unit :=
  chosen ← Done (Client.options args);
  match chosen with
  | None => Done (Ok tt)
  | Some options =>
      identity ← Done (load_identity identity_from_slice options);
      _ ← Done (client_new (address options) (client_xpub identity));
      let destination := recipient 42 in
      v ← Done (SafeWithdrawal_new MAX_FEE_SATS destination (client_xpub identity));
      original ← Done (original_request v destination);
      scenario original destination
  end.

(* ------------------------------------------------------------------ *)
(** ** The table *)

(** A request to spend [spent] satoshis locked to [script] into [outs], with
    further inputs [extra]. *)
Definition offer (i : ProgramInstance) (m : PsbtInput) (script destination : bytes) (spent : N)
    (outs : list TxOut) (extra : list (TxIn * PsbtInput)) : ProgramSigningRequest := {|
  request_instance := i; request_input_index := 0; request_witness := []; request_path := KeyPath;
  request_psbt := {|
    unsigned_tx := {| tx_version := 2; lock_time := 0;
                      tx_input := tx_input (sweep script destination) ++ (fst <$> extra);
                      tx_output := outs |};
    psbt_inputs := set_witness_utxo m (Some {| value := spent; script_pubkey := script |}) :: (snd <$> extra);
    psbt_outputs := replicate (length outs) PsbtOutput_default |} |}.

Definition to (amount : N) (script : bytes) : TxOut := {| value := amount; script_pubkey := script |}.

Definition vault_table (i cheap : ProgramInstance) (m : PsbtInput) (script destination : bytes)
    : list Expectation :=
  let offer := offer i m script destination in
  let original := offer 1000000 [to 999500 destination] [] in [
  Accepts original;
  Accepts (offer 1000000 [to 999000 destination] []);
  Rejects (offer 1000000 [to 998999 destination] []);
  Rejects (offer 1000000 [to 999500 (recipient 43)] []);
  Rejects (offer 1000000 [to 1000001 destination] []);
  Rejects (offer 1200 [to 200 destination] []);
  Accepts (offer 1330 [to 330 destination] []);
  Rejects (offer 1000000 [to 999499 destination; to 1 destination] []);
  Rejects (offer 1000000 [to 1000500 destination] [
    (set_outpoint TxIn_default {| txid := replicate 32 Byte.x07; vout := 0 |},
     set_witness_utxo PsbtInput_default (Some (to 1000 (recipient 44))))]);
  Rejects (with_request_witness original [Byte.x01]);
  Rejects (with_instance original cheap);
  Accepts original].

(* ------------------------------------------------------------------ *)
(** ** Lemmas *)

Section Follow.
  Context {wallet_laws : WalletLaws} {vault_laws : VaultLaws}.

Lemma vault_accepted_follows r label : follows finalizes (accepted r label) tt [Accepts r].
Proof.
  intros oracle sent [] sent'. cbn. unfold finalizes. destruct (oracle sent r) as [signed|e|w]; cbn; split.
  - destruct (finalize_mut signed) as [final|e|w] eqn:F; cbn; [|done..].
    destruct (extract_tx final) as [tx|e|w] eqn:E; cbn; [|done..].
    case_bool_decide as Hid; cbn; [|done]. intros [= <-]. split; [done|]. split; [done|].
    split; [|done]. exists signed. split; [done|]. by exists final, tx.
  - intros (_ & -> & (s & [= <-] & final & tx & -> & E & Hid) & _). cbn. rewrite E. cbn.
    by rewrite (bool_decide_eq_true_2 _ Hid).
  - done.
  - intros (_ & _ & (? & ? & _) & _). done.
  - done.
  - intros (_ & _ & (? & ? & _) & _). done.
Qed.

Lemma vault_rejected_follows r label : follows finalizes (rejected r label) tt [Rejects r].
Proof. apply sign_rejected_follows. Qed.

Ltac follow_check := eapply follows_then; [apply vault_accepted_follows || apply vault_rejected_follows|].
Ltac follow_edit := eapply follows_lift; [reflexivity|].

(** The scenario sends the table of its first request. *)
Lemma vault_scenario_follows i cheap m script destination :
  vault_instance VAULT_WASM (MAX_FEE_SATS + 1) destination = Ok cheap ->
  follows finalizes (scenario (offer i m script destination 1000000 [to 999500 destination] []) destination) tt
    (vault_table i cheap m script destination).
Proof.
  intros Hc. unfold scenario, vault_table. cbn zeta. follow_check.
  follow_edit. follow_check. follow_edit. follow_check. follow_edit. follow_check. follow_edit. follow_check.
  follow_edit. follow_edit. follow_check. follow_edit. follow_edit. follow_check. follow_edit. follow_check.
  follow_edit. follow_check. follow_check. eapply follows_lift; [exact Hc|]. follow_check. apply vault_accepted_follows.
Qed.

(* ------------------------------------------------------------------ *)
(** ** The first request *)

(** The contract compiles with one key path of its own program. *)
Definition compiled_vault (root : ClientXpub) (i : ProgramInstance) (c : Compiled) : Prop :=
  exists e path rs requirement,
    emulated_new i root = Ok e /\ effect_path (lit "vault") = Ok path /\
    compile e {| compile_network := Regtest; compile_amount := FUNDING_SATS;
                 compile_plan := Native; compile_path := path |} = Ok c /\
    program_requirements c = Ok rs /\ Forall (fun r => requirement_program r = e) rs /\
    filter (fun r => requirement_path r = KeyPath) rs = [requirement].

Lemma original_request_ok root destination i c :
  vault_instance VAULT_WASM MAX_FEE_SATS destination = Ok i -> compiled_vault root i c ->
  exists v m key, SafeWithdrawal_new MAX_FEE_SATS destination root = Ok v /\
    instance_key i root = Ok key /\ tap_internal_key m = Some key /\
    original_request v destination
    = Ok (offer i m (compiled_script c) destination 1000000 [to 999500 destination] []).
Proof.
  intros Hi (e & path & rs & q & He & Hpath & Hc & Hrs & Hall & Hq).
  assert (q ∈ filter (fun r => requirement_path r = KeyPath) rs) as [Hkey Hin]%list_elem_of_filter
    by (rewrite Hq; by apply list_elem_of_singleton).
  set (o := {| value := FUNDING_SATS; script_pubkey := compiled_script c |}).
  destruct (prepare_ok root i e c _ rs q {|
      unsigned_tx := sweep (compiled_script c) destination;
      psbt_inputs := [set_witness_utxo PsbtInput_default (Some o)];
      psbt_outputs := [PsbtOutput_default] |} o He Hc Hrs Hin) as (m & key & Hk & Hm & Ho & Hprep); [|done|done|].
  { rewrite list.Forall_forall in Hall. by apply Hall. }
  exists {| emulation := e |}, m, key. split; [|split; [done|split; [done|]]].
  - unfold SafeWithdrawal_new. rewrite Hi. cbn [mbind Result_bind]. by rewrite He.
  - unfold original_request. cbn [emulation]. rewrite Hpath. cbn [map_err mbind Result_bind].
    rewrite Hc. cbn [map_err mbind Result_bind]. rewrite Hrs. cbn [mbind Result_bind].
    unfold key_path_requirement.
    assert (forallb (fun r => bool_decide (requirement_program r = e)) rs = true) as ->.
    { apply forallb_forall. intros r Hr. apply bool_decide_eq_true. rewrite list.Forall_forall in Hall.
      by apply Hall, list_elem_of_In. }
    cbn [ensure mbind Result_bind]. rewrite Hq. cbn [mbind Result_bind].
    rewrite from_unsigned_tx_ok by (constructor; [done|constructor]). cbn -[prepare_program_request sweep].
    etransitivity; [exact Hprep|]. rewrite Hkey. unfold offer. destruct m. cbn in Ho. by subst.
Qed.

End Follow.

End Demo.

(* ------------------------------------------------------------------ *)
(** ** Against the vault predicate *)

Lemma vault_parameters_len fee destination ps :
  vault_parameters fee destination = Ok ps -> len destination = 22 -> len ps <= MAX_PARAMETER_BYTES.
Proof.
  intros (l & _ & <-%Ok_inj)%bind_ok Hd. rewrite !len_app, !len_le_bytes, Hd. unfold MAX_PARAMETER_BYTES. lia.
Qed.

Section Host.
  Context {codec : OutPointCodec} {codec_laws : OutPointCodecLaws}.
  Context {sapio : SapioProgram} {clientlib : ClientLib} {wallet : WalletLib} {vault : VaultLib}.
  Context {wallet_laws : WalletLaws}.
  Context (arena_base : N) (sections : list Payload) (module : bytes) (root : ClientXpub).
  Context (i : ProgramInstance) (m : PsbtInput) (key script destination ps : bytes).

  Abbreviation predicate := (fun _ : Arena => vault_evaluate).
  Abbreviation offer := (offer i m script destination).

  Context (Hlinked : linked arena_base sections predicate module).
  Context (Hps : vault_parameters MAX_FEE_SATS destination = Ok ps).
  Context (Hi : i = {| evaluator := wasm_id; program := module; parameters := ps |}).
  Context (Hkey : instance_key i root = Ok key) (Hm : tap_internal_key m = Some key).
  Context (Hscript : len script = 34) (Hdestination : len destination = 22).

(** An offer of small outputs and prevouts is a complete context. *)
Lemma offer_native spent outs extra :
  spent < 2 ^ 64 -> Forall (fun o => value o < 2 ^ 64 /\ len (script_pubkey o) = 22) outs ->
  Forall (fun '(t, x) => wf_txin t /\ unsigned_txin t /\
    exists o, witness_utxo x = Some o /\ value o < 2 ^ 64 /\ len (script_pubkey o) = 22) extra ->
  native_context (request_context (offer spent outs extra)).
Proof.
  intros Hs Ho He.
  assert (Forall wf_txout outs) as Wo.
  { eapply list.Forall_impl; [exact Ho|]. intros o [H1 H2]. split; [done|lia]. }
  split; cbn.
  - by rewrite !length_fmap.
  - constructor; [by eexists|]. apply Forall_fmap. eapply list.Forall_impl; [exact He|].
    intros [t x] (_ & _ & o & Hx & _). by eexists.
  - rewrite len_cons. lia.
  - split; cbn; [done|done| |done]. constructor; [|].
    + split; [split; [apply compute_txid_len|done]|done].
    + apply Forall_fmap. eapply list.Forall_impl; [exact He|]. by intros [t x] (H & _).
  - constructor; [done|]. apply Forall_fmap. eapply list.Forall_impl; [exact He|]. by intros [t x] (_ & H & _).
  - unfold prevout_list. cbn. constructor; [split; cbn; [done|lia]|].
    clear Ho. induction He as [|[t x] extra (_ & _ & o & Hx & Hv & Hl) _ IH]; cbn; [constructor|].
    rewrite Hx. constructor; [split; [done|lia]|done].
  - intros n [= <-]. exists key. split; [done|]. by eapply instance_key_len.
Qed.

Lemma bound_offer spent outs extra : bound root (offer spent outs extra) = true.
Proof.
  unfold bound. cbn [request_instance VaultDemo.offer]. rewrite Hkey. apply bool_decide_eq_true.
  change (default [] (tap_internal_key m) = key). by rewrite Hm.
Qed.

(** The program's answer to an offer is the vault rule. *)
Lemma offer_accepted spent outs extra :
  native_context (request_context (offer spent outs extra)) ->
  view_size V1 (request_context (offer spent outs extra)) <= MAX_SIGNED_VIEW_BYTES ->
  host_accepts arena_base sections predicate (offer spent outs extra)
  = vault_allows MAX_FEE_SATS destination (request_context (offer spent outs extra)).
Proof.
  intros Hn Hs.
  erewrite (host_accepts_spec arena_base sections predicate module); [|exact Hlinked|by rewrite Hi|exact Hn|exact Hs|..].
  - instantiate (1 := Some (vault_allows MAX_FEE_SATS destination (request_context (offer spent outs extra)))).
    by destruct vault_allows.
  - cbn [request_instance VaultDemo.offer]. rewrite Hi. by eapply vault_parameters_len.
  - done.
  - intros a _ _. cbn [request_instance VaultDemo.offer request_witness].
    etransitivity; [|apply (vault_layout _ MAX_FEE_SATS destination ps Hn Hs)].
    + by rewrite Hi.
    + apply read_parameters_encoded; [done|lia|exact Hps].
Qed.

Lemma offer_size spent outs extra :
  Forall (fun o => value o < 2 ^ 64 /\ len (script_pubkey o) = 22) outs ->
  Forall (fun '(t, x) => wf_txin t /\ unsigned_txin t /\
    exists o, witness_utxo x = Some o /\ value o < 2 ^ 64 /\ len (script_pubkey o) = 22) extra ->
  view_size V1 (request_context (offer spent outs extra)) = 106 + 74 * len extra + 34 * len outs.
Proof.
  intros Ho He.
  change (20 + (52 + (len script + sum (input_sizes (omap witness_utxo extra.*2)))) + sum (output_sizes outs) + 0
          = 106 + 74 * len extra + 34 * len outs). rewrite Hscript.
  assert (sum (output_sizes outs) = 34 * len outs) as ->.
  { clear He. induction Ho as [|o outs [_ H] _ IH]; [done|]. rewrite len_cons.
    change (12 + (len (script_pubkey o) + sum (output_sizes outs)) = 34 * (1 + len outs)). lia. }
  assert (sum (input_sizes (omap witness_utxo extra.*2)) = 74 * len extra) as E.
  { clear Ho. induction He as [|[t x] extra (_ & _ & o & Hx & _ & H) _ IH]; [done|]. rewrite len_cons, fmap_cons.
    cbn [omap list_omap snd]. rewrite Hx.
    change (52 + (len (script_pubkey o) + sum (input_sizes (omap witness_utxo extra.*2))) = 74 * (1 + len extra)). lia. }
  lia.
Qed.

Context (oracle : Oracle).
Context (Horacle : oracle_runs arena_base sections predicate root module finalizes oracle).

(** The oracle's answer to an offer of the demonstration's shape. *)
Lemma offer_answered e spent outs extra sent :
  expected_request e = offer spent outs extra ->
  spent < 2 ^ 64 -> Forall (fun o => value o < 2 ^ 64 /\ len (script_pubkey o) = 22) outs ->
  Forall (fun '(t, x) => wf_txin t /\ unsigned_txin t /\
    exists o, witness_utxo x = Some o /\ value o < 2 ^ 64 /\ len (script_pubkey o) = 22) extra ->
  len extra + len outs <= 8 ->
  vault_allows MAX_FEE_SATS destination (request_context (offer spent outs extra)) =
    (match e with Accepts _ => true | Rejects _ => false end) ->
  answered finalizes e (oracle sent (expected_request e)).
Proof.
  intros He Hs Ho Hx Hlen Hv. pose proof (offer_native spent outs extra Hs Ho Hx) as Hn.
  eapply oracle_answers; [exact Horacle|rewrite He; cbn; by rewrite Hi|rewrite He; cbn; by rewrite Hi|by rewrite He|].
  rewrite He, bound_offer, offer_accepted; [exact Hv|done|].
  rewrite offer_size by done. unfold MAX_SIGNED_VIEW_BYTES. lia.
Qed.

(** Every answer to the table is the one expected. *)
Lemma vault_table_met cheap ps' sent :
  destination = recipient 42 ->
  cheap = {| evaluator := wasm_id; program := module; parameters := ps' |} ->
  (exists key', instance_key cheap root = Ok key' /\ key' <> key) ->
  meets finalizes oracle sent (vault_table i cheap m script destination).
Proof.
  intros Hd Hcheap (key' & Hkey' & Hne).
  assert (forall t, len (recipient t) = 22) as Hrec by (intros t; by apply p2wpkh_len).
  assert (Hpaid : forall v, v < 2 ^ 64 -> Forall (fun o => value o < 2 ^ 64 /\ len (script_pubkey o) = 22)
    [to v destination]) by (intros v Hv; constructor; [done|constructor]).
  apply meets_all. intros e s He. unfold vault_table in He. cbn zeta in He.
  assert (He' := He). revert He'. rewrite !elem_of_cons, elem_of_nil. clear He.
  set (x := offer 1000000 [to 999500 destination] []).
  assert (native_context (request_context x)) as Hx by (apply offer_native; [done|by apply Hpaid|constructor]).
  assert (forall v spent, v < 2 ^ 64 -> spent < 2 ^ 64 ->
    forall e, expected_request e = offer spent [to v destination] [] ->
    ((330 <=? v) && (v <=? spent) && (spent - v <=? MAX_FEE_SATS)) =
      (match e with Accepts _ => true | Rejects _ => false end) ->
    answered finalizes e (oracle s (expected_request e))) as Hone.
  { intros v spent Hv Hs e' He' Hb. eapply offer_answered; [exact He'|done|by apply Hpaid|constructor|done|].
    rewrite <- Hb. unfold vault_allows. cbn. by rewrite bool_decide_eq_true_2. }
  intros H. repeat (destruct H as [->|H]); [..|done].
  all: try (by eapply Hone; [..|reflexivity|reflexivity]; done).
  - eapply offer_answered; [reflexivity|done|constructor; [split; [done|apply Hrec]|constructor]|constructor|done|].
    unfold vault_allows. cbn. rewrite bool_decide_eq_false_2; [done|]. rewrite Hd. intros E%p2wpkh_inj. discriminate E.
  - by eapply offer_answered; [reflexivity|done|repeat constructor; done|constructor|done|].
  - eapply offer_answered; [reflexivity|done|by apply Hpaid| |done|done].
    constructor; [|constructor]. split; [done|split; [done|]]. eexists. split; [reflexivity|]. split; [done|apply Hrec].
  - eapply (oracle_answers arena_base sections predicate root module); [exact Horacle|by cbn; rewrite Hi..|exact Hx|].
    apply andb_false_intro2.
    rewrite (host_accepts_spec arena_base sections predicate module _ None);
      [done|exact Hlinked|by cbn; rewrite Hi|exact Hx| | |done|done].
    + change (view_size V1 (request_context x) <= MAX_SIGNED_VIEW_BYTES).
      unfold x. rewrite offer_size; [done|by apply Hpaid|constructor].
    + cbn. rewrite Hi. by eapply vault_parameters_len.
  - eapply (oracle_answers arena_base sections predicate root module); [exact Horacle|by cbn; rewrite Hcheap..|exact Hx|].
    apply andb_false_intro1. unfold bound. cbn [expected_request with_instance request_instance]. rewrite Hkey'.
    apply bool_decide_eq_false. change (default [] (tap_internal_key m) <> key'). rewrite Hm. cbn. congruence.
Qed.

End Host.

(* ------------------------------------------------------------------ *)
(** ** Properties *)

Section Theorems.
  Context {codec : OutPointCodec} {codec_laws : OutPointCodecLaws}.
  Context {sapio : SapioProgram} {clientlib : ClientLib} {wallet : WalletLib} {vault : VaultLib}.
  Context {wallet_laws : WalletLaws} {vault_laws : VaultLaws}.
  Context (identity_from_slice : bytes -> Result Error ClientIdentity).
  Context {prim : KeyPrimitives} {upstream : Upstream}.

(** C21: the demonstration passes against an honest oracle: given an accepted
    identity, a contract that compiles with one key path and a relaxed instance
    with another key, [main] succeeds against every oracle that signs exactly
    the bound spends the vault predicate accepts on the signed view, and has
    sent its twelve requests in order; so each of them, at the boundaries of
    cap, dust floor, destination and shape, has the verdict the driver expects. *)
Theorem vault_demo_passes arena_base sections VAULT_WASM args o identity i cheap c oracle :
  let root := client_xpub identity in
  Client.options args = Ok (Some o) -> load_identity identity_from_slice o = Ok identity ->
  client_new (address o) root = Ok tt ->
  linked arena_base sections (fun _ => vault_evaluate) VAULT_WASM -> len VAULT_WASM <= MAX_PROGRAM_BYTES ->
  vault_instance VAULT_WASM MAX_FEE_SATS (recipient 42) = Ok i ->
  vault_instance VAULT_WASM (MAX_FEE_SATS + 1) (recipient 42) = Ok cheap ->
  (exists key, instance_key cheap root = Ok key /\ instance_key i root <> Ok key) ->
  compiled_vault root i c ->
  oracle_runs arena_base sections (fun _ => vault_evaluate) root VAULT_WASM finalizes oracle ->
  exists m, tap_internal_key m <> None /\
    run_io oracle [] (main VAULT_WASM identity_from_slice args)
    = (Ok tt, expected_request <$> vault_table i cheap m (compiled_script c) (recipient 42)).
Proof.
  intros root Hopt Hid Hnew Hlinked Hsize Hi Hcheap (key' & Hkey' & Hne) Hc Horacle.
  destruct (original_request_ok VAULT_WASM root (recipient 42) i c Hi Hc) as (v & m & key & Hv & Hkey & Hm & Hr).
  exists m. split; [by rewrite Hm|].
  assert (len (recipient 42) = 22) as Hlen by (by apply p2wpkh_len).
  assert (forall fee j, vault_instance VAULT_WASM fee (recipient 42) = Ok j -> exists ps,
    vault_parameters fee (recipient 42) = Ok ps /\
    j = {| evaluator := wasm_id; program := VAULT_WASM; parameters := ps |}) as Hinst.
  { intros fee j (ps & Hps & Hj)%bind_ok. exists ps. split; [done|].
    rewrite instance_wasm_within in Hj; [congruence|done|].
    by eapply vault_parameters_len. }
  destruct (Hinst _ _ Hi) as (ps & Hps & Ei). destruct (Hinst _ _ Hcheap) as (ps' & Hps' & Echeap).
  assert (follows finalizes (main VAULT_WASM identity_from_slice args) tt
    (vault_table i cheap m (compiled_script c) (recipient 42))) as Hfol.
  { unfold main. eapply follows_lift; [exact Hopt|]. eapply follows_lift; [exact Hid|].
    eapply follows_lift; [exact Hnew|]. cbn zeta. eapply follows_lift; [exact Hv|].
    eapply follows_lift; [exact Hr|]. by apply vault_scenario_follows. }
  apply (Hfol oracle [] tt). split; [done|]. split; [done|].
  eapply (vault_table_met arena_base sections VAULT_WASM root i m key); try done.
  - apply compiled_script_len.
  - exists key'. split; [done|]. congruence.
Qed.

End Theorems.
