(* ===== verification/TemplateDemo.v ===== *)
(** * TemplateDemo: the template-hash demonstration
    (examples/templatehash/main.rs)

    [main] commits a transaction by its BIP-446 hash, cross-checks its own hash
    components with the bitcoin crate's BIP 341 signature hash, and sends nine
    requests: the template itself, a test vector of Bitcoin Core, changed
    templates and a rebound input.  The digests and the predicate are those of
    [TemplateHash]; the sha2, hex and bitcoin crates are the interface
    [TemplateDemoLib]. *)

From S2P Require Import Prelude Bytes Bitcoin Program SignedView Guest TemplateHash Evaluator GuestRuntime EndToEnd.
From S2P Require Import Keys Deployment Client Driver Wallet DemoHost.

Open Scope N_scope.

Definition VECTOR_TX : string :=
  "02000000000102c997a5e56e104102fa209c6a852dd90660a20b2d9c352423edce25857fcd37041500000000ffffffff169e1e83e930853391bc6f35f605c6754cfead57cf8387639d3b4096c54f18f40c00000000ffffffff01327906000000000016001482074bdf6ce32b071dd120a17cf99cbc01ad3080022320d1f1955b1327167cb7ae3dc39d52c277be39d75737b9cb80514ce6e825fd8eeace8721c050929b74c1a04954b78b4b6035e97a5e078a5a0f28ec96d547bfee9ace803ac00000000000".

Definition VECTOR_SPENT : list string := [
  "33790600000000002251205331c80448b5eb2daad3567c98bc99664d14e0ea12bdf3be755429055d67756a";
  "22921000000000001976a914079ded3e3befdab0757fe0e8842aeffc0ff2160288ac"].

Class TemplateDemoLib := {
  sha256 : bytes -> bytes;
  taproot_signature_hash : Transaction -> N -> list TxOut -> Result string bytes;
  hex_crate_decode : string -> Result Error bytes;
  transaction_consensus_decode : bytes -> Result Error Transaction;
  txout_consensus_decode : bytes -> Result Error TxOut;
}.

(* ------------------------------------------------------------------ *)
(** ** Fixtures *)

Section Demo.
  Context {sapio : SapioProgram} {clientlib : ClientLib} {wallet : WalletLib} {demo : TemplateDemoLib}.
  Context (TEMPLATEHASH_WASM : bytes).

(** The three buffers of the loop over inputs and prevouts. *)
Definition push_prevout (buffers : bytes * bytes * bytes) '((input, prevout) : TxIn * TxOut)
    : bytes * bytes * bytes :=
  let '(sha_prevouts, sha_amounts, sha_scriptpubkeys) := buffers in
  (sha_prevouts ++ txid (previous_output input) ++ le_bytes 4 (vout (previous_output input)),
   sha_amounts ++ le_bytes 8 (value prevout),
   client_push_compact_size sha_scriptpubkeys (len (script_pubkey prevout)) ++ script_pubkey prevout).

Definition crosscheck_sighash (transaction : Transaction) (input_index : N) (prevouts : list TxOut)
    : Result Error unit :=
  theirs ← context "rust-bitcoin sighash failed"
    (map_err Foreign (taproot_signature_hash transaction input_index prevouts));
  let '(sha_prevouts, sha_amounts, sha_scriptpubkeys) :=
    foldl push_prevout ([], [], []) (zip (tx_input transaction) prevouts) in
  let message := [Byte.x00; Byte.x01]
    ++ i32_le_bytes (tx_version transaction) ++ le_bytes 4 (lock_time transaction)
    ++ sha256 sha_prevouts ++ sha256 sha_amounts ++ sha256 sha_scriptpubkeys
    ++ sha_sequences sha256 transaction ++ sha_outputs sha256 transaction
    ++ [Byte.x00] ++ le_bytes 4 (input_index mod 2 ^ 32) in
  let mine := tagged_hash sha256 (lit "TapSighash") message in
  ensure (bool_decide (mine = theirs))
    (Message "sha_outputs/sha_sequences diverge from rust-bitcoin's sighash").

(** The body of the loop over the PSBT inputs: [index as u8 + 1] is checked
    arithmetic in the examples' build. *)
Definition supply (key : bytes) (input_index index : N) (input : PsbtInput) : Result Error PsbtInput :=
  if index =? input_index then
    Ok (set_internal_key (set_witness_utxo input
          (Some {| value := 100000; script_pubkey := new_p2tr key None |})) (Some key))
  else match witness_utxo input with
  | None =>
      tag ← expect (checked_add 8 (index mod 2 ^ 8) 1) "attempt to add with overflow";
      Ok (set_witness_utxo input
            (Some {| value := 50000; script_pubkey := new_p2wpkh (replicate 20 (byte_of_N tag)) |}))
  | Some _ => Ok input
  end.

Fixpoint supply_all (key : bytes) (input_index index : N) (inputs : list PsbtInput)
    : Result Error (list PsbtInput) :=
  match inputs with
  | [] => Ok []
  | input :: inputs =>
      input ← supply key input_index index input;
      inputs ← supply_all key input_index (index + 1) inputs;
      Ok (input :: inputs)
  end.

Definition request (root : ClientXpub) (instance : ProgramInstance) (tx : Transaction) (input_index : N)
    : Result Error ProgramSigningRequest :=
  key ← instance_key instance root;
  psbt ← from_unsigned_tx tx;
  inputs ← supply_all key input_index 0 (psbt_inputs psbt);
  Ok {| request_instance := instance; request_input_index := input_index mod 2 ^ 32;
        request_witness := []; request_path := KeyPath; request_psbt := set_psbt_inputs psbt inputs |}.

Definition instance_for (transaction : Transaction) (input_index : N) : Result Error ProgramInstance :=
  template_instance TEMPLATEHASH_WASM sha256 transaction input_index.

Definition accepted (request : ProgramSigningRequest) (label : string) : Io unit :=
  sign_accepted ": expected a verified signature" request label.

Definition rejected (request : ProgramSigningRequest) (label : string) : Io unit :=
  sign_rejected ": expected Rejected, not transport failure: " request label.

Definition recipient (tag : N) : bytes := new_p2wpkh (replicate 20 (byte_of_N tag)).

Definition template_input (tag : byte) (index : N) : TxIn := {|
  previous_output := {| txid := replicate 32 tag; vout := index |};
  txin_script_sig := []; sequence := 4294967293; txin_witness := [] |}.

Definition template_transaction : Transaction := {|
  tx_version := 2;
  lock_time := 800000;
  tx_input := [template_input Byte.x07 0; template_input Byte.x08 1];
  tx_output := [{| value := 99000; script_pubkey := recipient 42 |};
                {| value := 500; script_pubkey := recipient 43 |}] |}.

(* ------------------------------------------------------------------ *)
(** ** main *)

Definition mutations : list (string * (Transaction -> Result Error Transaction)) := [
  ("one satoshi more in an output",
   fun t => edit_txout t 0 (fun o => v ← amount_add (value o) 1; Ok (set_value o v)));
  ("different output script",
   fun t => edit_txout t 1 (fun o => Ok (set_script o (recipient 44))));
  ("changed input sequence",
   fun t => edit_txin t 1 (fun i => set_sequence i 4294967292));
  ("changed locktime",
   fun t => Ok {| tx_version := tx_version t; lock_time := 800001;
                  tx_input := tx_input t; tx_output := tx_output t |});
  ("changed version",
   fun t => Ok {| tx_version := 1; lock_time := lock_time t;
                  tx_input := tx_input t; tx_output := tx_output t |})]%string.

Fixpoint reject_mutations (root : ClientXpub) (instance : ProgramInstance) (tx : Transaction)
    (mutations : list (string * (Transaction -> Result Error Transaction))) : Io unit :=
  match mutations with
  | [] => Done (Ok tt)
  | (label, mutate) :: mutations =>
      mutated_tx ← Done (mutate tx);
      mutated ← Done (request root instance mutated_tx 0);
      _ ← rejected mutated label;
      reject_mutations root instance tx mutations
  end.

(** The prevouts of a complete request. *)
Definition supplied_prevouts (original : ProgramSigningRequest) : Result Error (list TxOut) :=
  try_map (fun input => expect (witness_utxo input) "all prevouts supplied") (psbt_inputs (request_psbt original)).

(** The test vector and the outputs it spends; [expect] panics. *)
Definition vector : Result Error (Transaction * list TxOut) :=
  vector_bytes ← hex_crate_decode VECTOR_TX;
  vector_tx ← transaction_consensus_decode vector_bytes;
  vector_prevouts ← try_map (fun raw =>
      bs ← unwrap_ok (hex_crate_decode raw) "vector hex";
      unwrap_ok (txout_consensus_decode bs) "vector TxOut") VECTOR_SPENT;
  _ ← ensure (Nat.eqb (length (tx_input vector_tx)) (length vector_prevouts))
        (Message "vector prevout count mismatch");
  Ok (vector_tx, vector_prevouts).

(** The vector, its selected input re-pointed and its witnesses dropped. *)
Definition vector_spend (vector_tx : Transaction) : Result Error Transaction :=
  t ← edit_txin vector_tx 0 (fun i => set_outpoint i {| txid := replicate 32 Byte.x42; vout := 0 |});
  Ok (set_inputs t ((fun i => set_witness i []) <$> tx_input t)).

Definition rebind (tx : Transaction) : Result Error Transaction :=
  edit_txin tx 1 (fun i => set_outpoint i {| txid := replicate 32 Byte.x09; vout := 2 |}).

Definition scenario (root : ClientXpub) : Io unit :=
  let tx := template_transaction in
  instance ← Done (instance_for tx 0);
  original ← Done (request root instance tx 0);
  prevouts ← Done (supplied_prevouts original);
  _ ← Done (crosscheck_sighash tx 0 prevouts);
  _ ← accepted original "exact BIP-446 template match, input 0";
  '(vector_tx, vector_prevouts) ← Done vector;
  _ ← Done (crosscheck_sighash vector_tx 0 vector_prevouts);
  vector_spend ← Done (vector_spend vector_tx);
  vector_instance ← Done (instance_for vector_spend 0);
  vector_request ← Done (request root vector_instance vector_spend 0);
  _ ← accepted vector_request "Bitcoin Core test-vector transaction, input 0";
  wrong_instance ← Done (program_instance_wasm TEMPLATEHASH_WASM (replicate 32 Byte.xab));
  _ ← rejected (with_instance original wrong_instance) "wrong committed template hash";
  _ ← reject_mutations root (request_instance original) tx mutations;
  rebound_tx ← Done (rebind tx);
  rebound ← Done (request root (request_instance original) rebound_tx 0);
  accepted rebound "rebound other input, identical template".

Context (identity_from_slice : bytes -> Result Error ClientIdentity).
Context {prim : KeyPrimitives} {upstream : Upstream}.

Definition main (args : list bytes) : Io unit :=
  chosen ← Done (Client.options args);
  match chosen with
  | None => Done (Ok tt)
  | Some options =>
      identity ← Done (load_identity identity_from_slice options);
      _ ← Done (client_new (address options) (client_xpub identity));
      scenario (client_xpub identity)
  end.

End Demo.

(* ------------------------------------------------------------------ *)
(** ** The reference message of BIP 341 *)

(** [SIGHASH_ALL], no annex, key path; the amounts, scripts and outpoints are
    those of all inputs. *)
Definition bip341_message (hash : bytes -> bytes) (tx : Transaction) (index : N) (prevouts : list TxOut) : bytes :=
  [Byte.x00; Byte.x01]
  ++ i32_le_bytes (tx_version tx) ++ le_bytes 4 (lock_time tx)
  ++ hash (concat ((fun i => txid (previous_output i) ++ le_bytes 4 (vout (previous_output i))) <$> tx_input tx))
  ++ hash (concat ((fun o => le_bytes 8 (value o)) <$> prevouts))
  ++ hash (concat ((fun o => compact_size (len (script_pubkey o)) ++ script_pubkey o) <$> prevouts))
  ++ hash (concat ((fun i => le_bytes 4 (sequence i)) <$> tx_input tx))
  ++ hash (concat (serialize_output <$> tx_output tx))
  ++ [Byte.x00] ++ le_bytes 4 index.

(** Documented: SHA-256 digests have 32 bytes; the bitcoin crate computes the
    BIP 341 signature hash; and the vector decodes to these values. *)
Definition unhex (s : string) : bytes := default [] (Bytes.hex_decode (lit s)).

Definition vector_input (id : string) (index : N) (witness : list bytes) : TxIn := {|
  previous_output := {| txid := unhex id; vout := index |};
  txin_script_sig := []; sequence := 4294967295; txin_witness := witness |}.

Definition vector_transaction : Transaction := {|
  tx_version := 2; lock_time := 0;
  tx_input := [
    vector_input "c997a5e56e104102fa209c6a852dd90660a20b2d9c352423edce25857fcd3704" 21
      [unhex "20d1f1955b1327167cb7ae3dc39d52c277be39d75737b9cb80514ce6e825fd8eeace87";
       unhex "c050929b74c1a04954b78b4b6035e97a5e078a5a0f28ec96d547bfee9ace803ac0"];
    vector_input "169e1e83e930853391bc6f35f605c6754cfead57cf8387639d3b4096c54f18f4" 12 []];
  tx_output := [{| value := 424242; script_pubkey := unhex "001482074bdf6ce32b071dd120a17cf99cbc01ad3080" |}] |}.

Definition vector_prevouts : list TxOut := [
  {| value := 424243; script_pubkey := unhex "51205331c80448b5eb2daad3567c98bc99664d14e0ea12bdf3be755429055d67756a" |};
  {| value := 1085986; script_pubkey := unhex "76a914079ded3e3befdab0757fe0e8842aeffc0ff2160288ac" |}].

Class TemplateDemoLaws {demo : TemplateDemoLib} : Prop := {
  sha256_len bs : len (sha256 bs) = DIGEST;
  taproot_signature_hash_spec tx i prevouts :
    length prevouts = length (tx_input tx) -> i < len (tx_input tx) -> len (tx_input tx) < 2 ^ 32 ->
    taproot_signature_hash tx i prevouts
    = Ok (tagged_hash sha256 (lit "TapSighash") (bip341_message sha256 tx i prevouts));
  hex_decode_spec s bs : Bytes.hex_decode (lit s) = Some bs -> hex_crate_decode s = Ok bs;
  vector_decodes : transaction_consensus_decode (unhex VECTOR_TX) = Ok vector_transaction;
  prevouts_decode : Forall2 (fun s o => txout_consensus_decode (unhex s) = Ok o) VECTOR_SPENT vector_prevouts;
}.

Section Crosscheck.
  Context {demo : TemplateDemoLib}.

Lemma push_prevouts_concat p a s ins prevouts : length prevouts = length ins ->
  foldl push_prevout (p, a, s) (zip ins prevouts)
  = (p ++ concat ((fun i => txid (previous_output i) ++ le_bytes 4 (vout (previous_output i))) <$> ins),
     a ++ concat ((fun o => le_bytes 8 (value o)) <$> prevouts),
     s ++ concat ((fun o => compact_size (len (script_pubkey o)) ++ script_pubkey o) <$> prevouts)).
Proof.
  revert p a s prevouts; induction ins as [|i ins IH]; intros p a s [|o prevouts] H; try discriminate H.
  { cbn. by rewrite !app_nil_r. }
  cbn [zip zip_with foldl push_prevout]. rewrite IH by (injection H; done).
  rewrite !fmap_cons, client_push_compact_size_app. cbn [concat]. by rewrite <- !app_assoc.
Qed.

(** The check passes exactly when the library's signature hash is the hash of
    the reference message. *)
Lemma crosscheck_ok tx i prevouts :
  length prevouts = length (tx_input tx) -> i < 2 ^ 32 ->
  crosscheck_sighash tx i prevouts = Ok tt <->
  taproot_signature_hash tx i prevouts
  = Ok (tagged_hash sha256 (lit "TapSighash") (bip341_message sha256 tx i prevouts)).
Proof.
  intros Hl Hi. unfold crosscheck_sighash. rewrite push_prevouts_concat by done. cbv beta iota.
  rewrite N.mod_small by done.
  assert (forall p a s, [Byte.x00; Byte.x01] ++ i32_le_bytes (tx_version tx) ++ le_bytes 4 (lock_time tx)
    ++ sha256 p ++ sha256 a ++ sha256 s ++ sha_sequences sha256 tx ++ sha_outputs sha256 tx
    ++ [Byte.x00] ++ le_bytes 4 i
    = [Byte.x00; Byte.x01] ++ i32_le_bytes (tx_version tx) ++ le_bytes 4 (lock_time tx)
    ++ sha256 p ++ sha256 a ++ sha256 s
    ++ sha256 (concat ((fun i => le_bytes 4 (sequence i)) <$> tx_input tx))
    ++ sha256 (concat (serialize_output <$> tx_output tx)) ++ [Byte.x00] ++ le_bytes 4 i) as Hm.
  { intros. unfold sha_sequences, sha_outputs. by rewrite push_sequences_concat, push_outputs_concat. }
  rewrite Hm, !app_nil_l. clear Hm.
  destruct (taproot_signature_hash tx i prevouts) as [theirs|e|w]; cbn [map_err context mbind Result_bind]; [|done..].
  rewrite ensure_ok, bool_decide_eq_true. split; [by intros <-|by intros [= ->]].
Qed.

End Crosscheck.

(* ------------------------------------------------------------------ *)
(** ** The requests *)

(** The input maps of a request: the selected one carries the instance's key,
    the others a synthetic output each. *)
Definition supplied `{!ClientLib, !SapioProgram, !WalletLib} (key : bytes) (input_index index : N) : PsbtInput :=
  if index =? input_index then
    set_internal_key (set_witness_utxo PsbtInput_default
      (Some {| value := 100000; script_pubkey := new_p2tr key None |})) (Some key)
  else set_witness_utxo PsbtInput_default
    (Some {| value := 50000; script_pubkey := recipient (index + 1) |}).

Section Requests.
  Context {sapio : SapioProgram} {clientlib : ClientLib} {wallet : WalletLib} {laws : WalletLaws}.

Lemma supply_default key input_index index :
  supply key input_index index PsbtInput_default
  = if (index =? input_index) || negb (index mod 256 =? 255) then Ok (
      if index =? input_index then supplied key input_index index
      else set_witness_utxo PsbtInput_default
        (Some {| value := 50000; script_pubkey := recipient (index mod 256 + 1) |}))
    else Panic "attempt to add with overflow".
Proof.
  unfold supply, supplied. destruct (N.eqb_spec index input_index) as [E|E]; [done|]. cbn [orb].
  cbn [witness_utxo PsbtInput_default]. unfold checked_add. change (2 ^ 8) with 256.
  pose proof (N.mod_upper_bound index 256 ltac:(done)).
  destruct (N.eqb_spec (index mod 256) 255) as [->|E2]; [done|]. cbn [negb].
  by rewrite (proj2 (N.ltb_lt _ _)) by lia.
Qed.

(** Up to 255 inputs, every map is filled. *)
Lemma supply_all_ok key input_index n start : (start + n <= 255)%nat ->
  supply_all key input_index (N.of_nat start) (replicate n PsbtInput_default)
  = Ok ((fun j => supplied key input_index (N.of_nat j)) <$> seq start n).
Proof.
  revert start; induction n as [|n IH]; intros start H; [done|].
  cbn [replicate supply_all]. rewrite supply_default, N.mod_small by lia.
  rewrite (proj2 (N.eqb_neq (N.of_nat start) 255)), orb_true_r by lia. cbn [mbind Result_bind negb].
  replace (N.of_nat start + 1) with (N.of_nat (S start)) by lia.
  rewrite IH by lia. cbn [mbind Result_bind seq fmap list_fmap]. do 2 f_equal.
  unfold supplied. destruct (N.of_nat start =? input_index); [done|]. by rewrite Nat2N.inj_succ, N.add_1_r.
Qed.

(** An unselected input 255 panics. *)
Lemma supply_all_panics key input_index n start :
  (start <= 255 < start + n)%nat -> input_index <> 255 ->
  supply_all key input_index (N.of_nat start) (replicate n PsbtInput_default) = Panic "attempt to add with overflow".
Proof.
  intros H Hi. revert start H; induction n as [|n IH]; intros start H; [lia|].
  cbn [replicate supply_all]. rewrite supply_default.
  destruct (decide (start = 255%nat)) as [->|E].
  - change (N.of_nat 255) with 255. by rewrite (proj2 (N.eqb_neq 255 input_index)) by done.
  - rewrite N.mod_small by lia.
    rewrite (proj2 (N.eqb_neq (N.of_nat start) 255)), orb_true_r by lia. cbn [mbind Result_bind negb].
    replace (N.of_nat start + 1) with (N.of_nat (S start)) by lia. by rewrite IH by lia.
Qed.

Lemma request_supplied root instance key tx input_index :
  instance_key instance root = Ok key -> Forall unsigned_txin (tx_input tx) ->
  request root instance tx input_index
  = (inputs ← supply_all key input_index 0 (replicate (length (tx_input tx)) PsbtInput_default);
     Ok {| request_instance := instance; request_input_index := input_index mod 2 ^ 32;
           request_witness := []; request_path := KeyPath;
           request_psbt := {| unsigned_tx := tx; psbt_inputs := inputs;
                              psbt_outputs := replicate (length (tx_output tx)) PsbtOutput_default |} |}).
Proof.
  intros Hk Hu. unfold request. rewrite Hk. cbn [mbind Result_bind].
  by rewrite from_unsigned_tx_ok by done.
Qed.

Lemma prevouts_supplied key input_index (ns : list nat) :
  omap witness_utxo ((fun j => supplied key input_index (N.of_nat j)) <$> ns)
  = (fun j => if N.of_nat j =? input_index then {| value := 100000; script_pubkey := new_p2tr key None |}
              else {| value := 50000; script_pubkey := recipient (N.of_nat j + 1) |}) <$> ns.
Proof.
  induction ns as [|j ns IH]; [done|]. rewrite !fmap_cons. cbn [omap list_omap]. rewrite IH.
  unfold supplied. by destruct (N.of_nat j =? input_index).
Qed.

(** A request's context is complete. *)
Lemma supplied_native root instance key tx input_index :
  instance_key instance root = Ok key -> wf_transaction tx -> Forall unsigned_txin (tx_input tx) ->
  input_index < len (tx_input tx) -> len (tx_input tx) <= 255 ->
  native_context {|
    psbt := {| unsigned_tx := tx;
               psbt_inputs := (fun j => supplied key input_index (N.of_nat j)) <$> seq 0 (length (tx_input tx));
               psbt_outputs := replicate (length (tx_output tx)) PsbtOutput_default |};
    input_index := input_index; script_leaf := None; participants := []; tweak := None |}.
Proof.
  intros Hkey Hwf Hun Hi Hn.
  split; cbn [psbt unsigned_tx psbt_inputs Bitcoin.input_index]; try done.
  - by rewrite length_fmap, length_seq.
  - apply Forall_fmap, list.Forall_forall. intros j _. cbn [compose]. unfold supplied. destruct (N.of_nat j =? input_index); by eexists.
  - unfold prevout_list. cbn [psbt psbt_inputs]. rewrite prevouts_supplied.
    apply Forall_fmap, list.Forall_forall. intros j _. cbn [compose]. destruct (N.of_nat j =? input_index); (split; cbn; [done|]).
    + by rewrite p2tr_len.
    + unfold recipient. by rewrite p2wpkh_len.
  - intros m Hm. rewrite list_lookup_fmap, lookup_seq_lt in Hm by (unfold len in Hi; lia).
    injection Hm as <-. exists key. unfold supplied. cbn [Nat.add]. rewrite N2Nat.id, N.eqb_refl.
    split; [done|by eapply instance_key_len].
Qed.

End Requests.

(* ------------------------------------------------------------------ *)
(** ** The table *)

Section Table.
  Context {sapio : SapioProgram} {clientlib : ClientLib} {wallet : WalletLib} {demo : TemplateDemoLib}.
  Context (TEMPLATEHASH_WASM : bytes).

Definition spend (i : ProgramInstance) (key : bytes) (tx : Transaction) : ProgramSigningRequest := {|
  request_instance := i; request_input_index := 0; request_witness := []; request_path := KeyPath;
  request_psbt := {| unsigned_tx := tx; psbt_inputs := [supplied key 0 0; supplied key 0 1];
                     psbt_outputs := replicate (length (tx_output tx)) PsbtOutput_default |} |}.

(** The instance committed to a template. *)
Definition committed (hash : bytes) : ProgramInstance :=
  {| evaluator := wasm_id; program := TEMPLATEHASH_WASM; parameters := hash |}.

(** Version, lock time, second input and the outputs of a spend. *)
Definition shaped (version : Z) (locktime : N) (second : TxIn) (amount : N) (script : bytes) : Transaction := {|
  tx_version := version; lock_time := locktime;
  tx_input := [template_input Byte.x07 0; second];
  tx_output := [{| value := amount; script_pubkey := recipient 42 |}; {| value := 500; script_pubkey := script |}] |}.

Definition second : TxIn := template_input Byte.x08 1.

Definition mutated : list Transaction := [
  shaped 2 800000 second 99001 (recipient 43);
  shaped 2 800000 second 99000 (recipient 44);
  shaped 2 800000 (set_sequence second 4294967292) 99000 (recipient 43);
  shaped 2 800001 second 99000 (recipient 43);
  shaped 1 800000 second 99000 (recipient 43)].

Definition rebound : Transaction :=
  shaped 2 800000 (set_outpoint second {| txid := replicate 32 Byte.x09; vout := 2 |}) 99000 (recipient 43).

Definition repointed : Transaction := {|
  tx_version := 2; lock_time := 0;
  tx_input := [
    {| previous_output := {| txid := replicate 32 Byte.x42; vout := 0 |};
       txin_script_sig := []; sequence := 4294967295; txin_witness := [] |};
    vector_input "169e1e83e930853391bc6f35f605c6754cfead57cf8387639d3b4096c54f18f4" 12 []];
  tx_output := tx_output vector_transaction |}.

Definition template_table (key vector_key : bytes) : list Expectation :=
  let instance := committed (template_hash sha256 template_transaction 0) in
  let vector := committed (template_hash sha256 repointed 0) in
  [Accepts (spend instance key template_transaction);
   Accepts (spend vector vector_key repointed);
   Rejects (with_instance (spend instance key template_transaction) (committed (replicate 32 Byte.xab)))]
  ++ ((fun tx => Rejects (spend instance key tx)) <$> mutated)
  ++ [Accepts (spend instance key rebound)].

Section Follow.
  Context {laws : WalletLaws} {demo_laws : TemplateDemoLaws}.

Lemma template_accepted_follows r label : follows any_signed (accepted r label) tt [Accepts r].
Proof. apply sign_accepted_follows. Qed.

Lemma template_rejected_follows r label : follows any_signed (rejected r label) tt [Rejects r].
Proof. apply sign_rejected_follows. Qed.

Lemma request_spend root i key tx : instance_key i root = Ok key ->
  length (tx_input tx) = 2%nat -> Forall unsigned_txin (tx_input tx) ->
  request root i tx 0 = Ok (spend i key tx).
Proof.
  intros Hk Hl Hu. rewrite (request_supplied root i key) by done. rewrite Hl.
  by rewrite (supply_all_ok key 0 2 0) by lia.
Qed.

Lemma instance_for_ok tx : len TEMPLATEHASH_WASM <= MAX_PROGRAM_BYTES ->
  instance_for TEMPLATEHASH_WASM tx 0 = Ok (committed (template_hash sha256 tx 0)).
Proof.
  intros Hp. apply instance_wasm_within; [done|].
  unfold template_hash, tagged_hash. rewrite sha256_len. done.
Qed.

Lemma mutations_follow root i key :
  instance_key i root = Ok key ->
  follows any_signed (reject_mutations root i template_transaction mutations) tt
    ((fun tx => Rejects (spend i key tx)) <$> mutated).
Proof.
  intros Hk. unfold mutations, mutated. cbn [reject_mutations fmap list_fmap].
  repeat (eapply follows_lift; [reflexivity|];
          eapply follows_lift; [apply request_spend; [exact Hk|reflexivity|repeat constructor]|];
          eapply follows_then; [apply template_rejected_follows|]).
  apply follows_done.
Qed.

Lemma vector_ok : vector = Ok (vector_transaction, vector_prevouts).
Proof.
  unfold vector.
  assert (hex_crate_decode VECTOR_TX = Ok (unhex VECTOR_TX)) as ->
    by (apply hex_decode_spec; vm_compute; reflexivity).
  cbn [mbind Result_bind]. rewrite vector_decodes. cbn [mbind Result_bind].
  pose proof prevouts_decode as Hp. unfold VECTOR_SPENT, vector_prevouts in Hp.
  apply Forall2_cons_1 in Hp as [H1 [H2 _]%Forall2_cons_1].
  unfold VECTOR_SPENT. cbn [try_map].
  erewrite (hex_decode_spec "33790600000000002251205331c80448b5eb2daad3567c98bc99664d14e0ea12bdf3be755429055d67756a")
    by (vm_compute; reflexivity).
  erewrite (hex_decode_spec "22921000000000001976a914079ded3e3befdab0757fe0e8842aeffc0ff2160288ac")
    by (vm_compute; reflexivity).
  cbn [unwrap_ok mbind Result_bind].
  match type of H1 with txout_consensus_decode ?b = _ => assert (b = _) as E1 by (vm_compute; reflexivity) end.
  match type of H2 with txout_consensus_decode ?b = _ => assert (b = _) as E2 by (vm_compute; reflexivity) end.
  rewrite E1 in H1. rewrite E2 in H2. rewrite H1. cbn [unwrap_ok mbind Result_bind]. rewrite H2. done.
Qed.

Lemma crosscheck_two tx prevouts : length (tx_input tx) = 2%nat -> length prevouts = 2%nat ->
  crosscheck_sighash tx 0 prevouts = Ok tt.
Proof.
  intros Hi Hp. apply crosscheck_ok; [congruence|done|].
  apply taproot_signature_hash_spec; [congruence|unfold len; rewrite Hi; done..].
Qed.

(** The driver sends the table. *)
Lemma template_scenario_follows root key vector_key :
  len TEMPLATEHASH_WASM <= MAX_PROGRAM_BYTES ->
  instance_key (committed (template_hash sha256 template_transaction 0)) root = Ok key ->
  instance_key (committed (template_hash sha256 repointed 0)) root = Ok vector_key ->
  follows any_signed (scenario TEMPLATEHASH_WASM root) tt (template_table key vector_key).
Proof.
  intros Hw Hk Hv. unfold scenario. cbn zeta.
  eapply follows_lift; [by apply instance_for_ok|].
  eapply follows_lift; [by apply request_spend; [exact Hk|done|repeat constructor]|].
  eapply follows_lift; [reflexivity|].
  eapply follows_lift; [by apply crosscheck_two|].
  eapply follows_then; [apply template_accepted_follows|].
  eapply follows_lift; [exact vector_ok|]. cbv beta iota.
  eapply follows_lift; [by apply crosscheck_two|].
  eapply follows_lift; [reflexivity|].
  eapply follows_lift; [by apply instance_for_ok|].
  eapply follows_lift; [by apply request_spend; [exact Hv|done|repeat constructor]|].
  eapply follows_then; [apply template_accepted_follows|].
  eapply follows_lift; [by apply instance_wasm_within|].
  eapply follows_then; [apply template_rejected_follows|].
  eapply follows_bind; [by apply mutations_follow|].
  eapply follows_lift; [reflexivity|].
  eapply follows_lift; [by apply request_spend; [exact Hk|done|repeat constructor]|].
  apply template_accepted_follows.
Qed.

End Follow.
End Table.

(* ------------------------------------------------------------------ *)
(** ** Against the template predicate *)

Section Host.
  Context {codec : OutPointCodec} {codec_laws : OutPointCodecLaws}.
  Context {sapio : SapioProgram} {clientlib : ClientLib} {wallet : WalletLib} {demo : TemplateDemoLib}.
  Context {laws : WalletLaws} {demo_laws : TemplateDemoLaws}.
  Context (arena_base : N) (sections : list Payload) (module : bytes) (root : ClientXpub).

  Abbreviation predicate := (templatehash_evaluate (fun bs => Some (sha256 bs))).
  Abbreviation committed := (committed module).

  Context (Hlinked : linked arena_base sections predicate module).

(** A two-input template of small outputs. *)
Definition small (tx : Transaction) : Prop :=
  wf_transaction tx /\ Forall unsigned_txin (tx_input tx) /\ length (tx_input tx) = 2%nat /\
  sum (output_sizes (tx_output tx)) <= 1000.

Lemma spend_native i key key' tx : instance_key i root = Ok key' -> len key = 32 -> small tx ->
  native_context (request_context (spend i key tx)).
Proof.
  intros _ Hlen (Hwf & Hun & Hl & _).
  split; cbn [request_context spend request_psbt request_input_index psbt unsigned_tx psbt_inputs Bitcoin.input_index];
    rewrite ?Hl; try done.
  - constructor; [by eexists|]. constructor; [by eexists|constructor].
  - unfold len. by rewrite Hl.
  - unfold prevout_list. cbn. constructor; [split; cbn; [done|by rewrite p2tr_len]|].
    constructor; [split; cbn; [done|]|constructor]. unfold recipient. by rewrite p2wpkh_len.
  - intros m [= <-]. by exists key.
Qed.

Lemma spend_size i key tx :
  view_size V1 (request_context (spend i key tx)) = 180 + sum (output_sizes (tx_output tx)).
Proof.
  change (20 + (52 + (len (new_p2tr key None) + (52 + (len (recipient 2) + 0)))) + sum (output_sizes (tx_output tx)) + 0
          = 180 + sum (output_sizes (tx_output tx))).
  rewrite p2tr_len. unfold recipient. rewrite p2wpkh_len by done. lia.
Qed.

(** The program's answer to a spend is the comparison of template hashes. *)
Lemma spend_verdict hash key tx : native_context (request_context (spend (committed hash) key tx)) ->
  small tx -> len hash = DIGEST ->
  host_accepts arena_base sections predicate (spend (committed hash) key tx)
  = bool_decide (template_hash sha256 tx 0 = hash).
Proof.
  intros Hn (_ & _ & Hl & Ho) Hh.
  assert (view_size V1 (request_context (spend (committed hash) key tx)) <= MAX_SIGNED_VIEW_BYTES) as Hs.
  { rewrite spend_size. unfold MAX_SIGNED_VIEW_BYTES. lia. }
  erewrite (host_accepts_spec arena_base sections predicate module); [|exact Hlinked|done|exact Hn|exact Hs| |done|].
  - instantiate (1 := Some (bool_decide (template_hash sha256 tx 0 = hash))). by destruct (bool_decide (template_hash sha256 tx 0 = hash)).
  - change (len hash <= MAX_PARAMETER_BYTES). by rewrite Hh.
  - intros a Hb Hu. destruct Hlinked as (H0 & Hfits & _).
    change (request_witness (spend (committed hash) key tx)) with (@nil byte) in *.
    change (parameters (request_instance (spend (committed hash) key tx))) with hash in *.
    rewrite len_nil, spend_size, Hh in Hu. rewrite templatehash_layout; [|done|done| |done].
    + unfold scratch_size. rewrite spend_size, Hu.
      change (tx_input (unsigned_tx (psbt (request_context (spend (committed hash) key tx))))) with (tx_input tx).
      unfold len. rewrite Hl. rewrite (proj2 (N.leb_le _ _)); [done|]. unfold DIGEST, INPUT_CAPACITY, MAX_VIEW, MAX_ARGUMENT. lia.
    + unfold wf_arena. rewrite Hb, Hu. unfold LINEAR_MEMORY, DIGEST, INPUT_CAPACITY, MAX_VIEW, MAX_ARGUMENT in *. lia.
Qed.

Lemma bound_spend i key tx : instance_key i root = Ok key -> bound root (spend i key tx) = true.
Proof.
  intros Hk. unfold bound. cbn [spend request_instance]. rewrite Hk. by apply bool_decide_eq_true.
Qed.

Context (oracle : Oracle).
Context (Horacle : oracle_runs arena_base sections predicate root module any_signed oracle).

(** The oracle's answer to a spend of an instance's own funding. *)
Lemma spend_answered hash key tx e sent :
  expected_request e = spend (committed hash) key tx ->
  instance_key (committed hash) root = Ok key -> small tx -> len hash = DIGEST ->
  bool_decide (template_hash sha256 tx 0 = hash) = (match e with Accepts _ => true | Rejects _ => false end) ->
  answered any_signed e (oracle sent (expected_request e)).
Proof.
  intros He Hk Hs Hh Hv. pose proof (instance_key_len _ _ _ Hk) as Hl.
  pose proof (spend_native _ _ _ _ Hk Hl Hs) as Hn.
  eapply oracle_answers; [exact Horacle|by rewrite He|by rewrite He|by rewrite He|].
  by rewrite He, bound_spend, spend_verdict by done.
Qed.

End Host.

(* ------------------------------------------------------------------ *)
(** ** The templates differ *)

Section Templates.
  Context {sapio : SapioProgram} {clientlib : ClientLib} {wallet : WalletLib} {demo : TemplateDemoLib}.
  Context {laws : WalletLaws} {demo_laws : TemplateDemoLaws}.

Lemma recipient_len tag : len (recipient tag) = 22.
Proof. unfold recipient. by apply p2wpkh_len. Qed.

(** Any transaction of the demonstration's shape is small. *)
Lemma shaped_small version locktime second amount script :
  (- 2 ^ 31 <= version < 2 ^ 31)%Z -> locktime < 2 ^ 32 -> wf_txin second -> unsigned_txin second ->
  amount < 2 ^ 64 -> len script = 22 ->
  small (shaped version locktime second amount script).
Proof.
  intros Hv Hl Hw Hu Ha Hs. pose proof (recipient_len 42) as H42. split; [|split; [|split; [done|]]].
  - split; cbn; [done|done| |].
    + constructor; [split; [split|]; done|]. by constructor.
    + constructor; [split; cbn; [done|lia]|]. constructor; [split; cbn; [done|lia]|constructor].
  - constructor; [done|]. by constructor.
  - change (12 + (len (recipient 42) + (12 + (len script + 0))) <= 1000). lia.
Qed.

Lemma template_small : small template_transaction.
Proof. apply (shaped_small 2 800000 second 99000 (recipient 43)); [done..|split;[split|]; done|done|done|apply recipient_len]. Qed.

Lemma rebound_small : small rebound.
Proof. apply shaped_small; [done..|split; [split|]; done|done|done|apply recipient_len]. Qed.

Lemma mutated_small : Forall small mutated.
Proof.
  unfold mutated. repeat (constructor; [apply shaped_small; first [done | split; [split|]; done | apply recipient_len]|]).
  constructor.
Qed.

Lemma repointed_small : small repointed.
Proof.
  split; [|split; [|split; [done|]]].
  - split; [done|done| |].
    + constructor; [split; [split|]; done|]. constructor; [split; [split|]; vm_compute; done|constructor].
    + constructor; [split; vm_compute; done|constructor].
  - repeat constructor.
  - vm_compute. done.
Qed.

(** The strings the mutated templates and the committed one feed to SHA-256. *)
Definition mutated_preimages : list (bytes * bytes) :=
  mutated ≫= fun tx => template_preimages sha256 tx 0 template_transaction 0.

(** A changed field changes the template. *)
Lemma mutated_differ :
  Forall (fun tx => template_hash sha256 tx 0 <> template_hash sha256 template_transaction 0) mutated
  \/ collision_among sha256 mutated_preimages.
Proof.
  assert (forall tx, tx ∈ mutated -> ~ same_template tx template_transaction) as Hdiff.
  { assert (forall t t', recipient t = recipient t' ->
      replicate 20 (byte_of_N t) = replicate 20 (byte_of_N t')) as Hrec by (intros t t'; apply p2wpkh_inj).
    intros tx Hin (Hv & Hl & Hs & Ho). unfold mutated in Hin. rewrite !elem_of_cons, elem_of_nil in Hin.
    destruct Hin as [->|[->|[->|[->|[->|[]]]]]]; try discriminate.
    injection Ho as Ho. apply Hrec in Ho. discriminate Ho. }
  assert (forall l, (forall tx, tx ∈ l -> ~ same_template tx template_transaction) -> Forall small l ->
    Forall (fun tx => template_hash sha256 tx 0 <> template_hash sha256 template_transaction 0) l
    \/ collision_among sha256 (l ≫= fun tx => template_preimages sha256 tx 0 template_transaction 0)) as Hall.
  { induction l as [|tx l IH]; intros Hl Hs; [by left; constructor|].
    apply Forall_cons_iff in Hs as [H1 H2].
    rewrite bind_cons.
    destruct IH as [IH|?]; [intros t Ht; apply Hl; by right|done|
      |right; eapply collision_among_mono; [|done]; intros ? ?; apply elem_of_app; by right].
    destruct (decide (template_hash sha256 tx 0 = template_hash sha256 template_transaction 0)) as [E|E].
    - apply template_hash_same in E as [[E _]|?];
        [|right; eapply collision_among_mono; [|done]; intros ? ?; apply elem_of_app; by left|exact sha256_len|apply H1|apply template_small|done..].
      by destruct (Hl tx (list_elem_of_here _ _)).
    - left. by constructor. }
  apply Hall; [exact Hdiff|exact mutated_small].
Qed.

End Templates.

(* ------------------------------------------------------------------ *)
(** ** Properties *)

Section Theorems.
  Context {codec : OutPointCodec} {codec_laws : OutPointCodecLaws}.
  Context {sapio : SapioProgram} {clientlib : ClientLib} {wallet : WalletLib} {demo : TemplateDemoLib}.
  Context {wallet_laws : WalletLaws}.

(** The cross-check validates the template components: if the library's
    signature hash is the tagged hash of a message with some 32-byte
    components in the BIP 341 positions, and the check passes, then the
    driver's sequence and output digests are the library's, or the two messages
    are a SHA-256 collision. *)
Theorem crosscheck_components tx i prevouts p a s q o :
  (forall bs, len (sha256 bs) = DIGEST) ->
  length prevouts = length (tx_input tx) -> i < 2 ^ 32 ->
  len p = DIGEST -> len a = DIGEST -> len s = DIGEST -> len q = DIGEST -> len o = DIGEST ->
  let theirs := [Byte.x00; Byte.x01] ++ i32_le_bytes (tx_version tx) ++ le_bytes 4 (lock_time tx)
     ++ p ++ a ++ s ++ q ++ o ++ [Byte.x00] ++ le_bytes 4 i in
  taproot_signature_hash tx i prevouts = Ok (tagged_hash sha256 (lit "TapSighash") theirs) ->
  crosscheck_sighash tx i prevouts = Ok tt ->
  (sha_sequences sha256 tx = q /\ sha_outputs sha256 tx = o) \/
  collision_among sha256 [(tagged_preimage sha256 (lit "TapSighash") theirs,
    tagged_preimage sha256 (lit "TapSighash") (bip341_message sha256 tx i prevouts))].
Proof.
  intros Hsha Hl Hi Lp La Ls Lq Lo theirs Htheirs Hok. apply crosscheck_ok in Hok; [|done..].
  rewrite Htheirs in Hok. apply Ok_inj in Hok. unfold tagged_hash in Hok.
  eapply preimage in Hok as [Hok|?]; [|by right|apply list_elem_of_here]. left. subst theirs.
  do 2 apply app_inv_head in Hok. unfold bip341_message in Hok. do 3 apply app_inv_head in Hok.
  do 5 (apply app_eq_len in Hok as [?E Hok]; [|by rewrite Hsha]).
  unfold sha_sequences, sha_outputs. rewrite push_sequences_concat, push_outputs_concat. done.
Qed.

(** Every request of the demonstration is complete: for a well-formed unsigned
    transaction of at most 255 inputs, [request] succeeds with a native context
    of the given transaction, path, index and key; with more inputs the
    synthetic key byte of input 255 overflows and it panics, unless that is
    the selected input. *)
Theorem template_request_spec root instance key tx input_index :
  instance_key instance root = Ok key -> wf_transaction tx -> Forall unsigned_txin (tx_input tx) ->
  input_index < len (tx_input tx) -> input_index < 2 ^ 32 ->
  (len (tx_input tx) <= 255 ->
     exists r, request root instance tx input_index = Ok r /\
       native_context (request_context r) /\ request_instance r = instance /\
       request_input_index r = input_index /\ request_witness r = [] /\ request_path r = KeyPath /\
       unsigned_tx (request_psbt r) = tx /\ selected_key (request_context r) = key) /\
  (255 < len (tx_input tx) -> input_index <> 255 ->
     request root instance tx input_index = Panic "attempt to add with overflow").
Proof.
  intros Hk Hwf Hun Hi Hi32. rewrite (request_supplied root instance key) by done. split.
  - intros Hn. assert (length (tx_input tx) <= 255)%nat as Hn' by (unfold len in Hn; lia).
    rewrite (supply_all_ok key input_index (length (tx_input tx)) 0) by exact Hn'.
    rewrite N.mod_small by done. eexists. split; [reflexivity|].
    pose proof (supplied_native root instance key tx input_index Hk Hwf Hun Hi Hn) as Hnat.
    split; [exact Hnat|]. repeat split. unfold selected_key. cbn [request_context psbt request_psbt psbt_inputs Bitcoin.input_index request_input_index].
    rewrite list_lookup_fmap, lookup_seq_lt by (unfold len in Hi; lia).
    cbn [fmap option_fmap option_map mbind option_bind Nat.add request_input_index].
    by rewrite N2Nat.id; unfold supplied; rewrite N.eqb_refl.
  - intros Hn H255. change 0 with (N.of_nat 0). rewrite supply_all_panics; [done|unfold len in Hn; lia|done].
Qed.

(** C22: the demonstration passes against an honest oracle: given an accepted
    identity, derivable keys and a template other than the arbitrary digest of
    the wrong instance, [main] succeeds against every oracle that signs exactly
    the bound spends the template predicate accepts on the signed view, having
    sent its nine requests in order; or a mutated template collides with the
    committed one under SHA-256. *)
Theorem template_demo_passes {demo_laws : TemplateDemoLaws} {prim : KeyPrimitives} {upstream : Upstream}
    identity_from_slice arena_base sections TEMPLATEHASH_WASM args o identity key vector_key oracle :
  let root := client_xpub identity in
  let instance := committed TEMPLATEHASH_WASM in
  Client.options args = Ok (Some o) -> load_identity identity_from_slice o = Ok identity ->
  client_new (address o) root = Ok tt ->
  linked arena_base sections (templatehash_evaluate (fun bs => Some (sha256 bs))) TEMPLATEHASH_WASM ->
  len TEMPLATEHASH_WASM <= MAX_PROGRAM_BYTES ->
  instance_key (instance (template_hash sha256 template_transaction 0)) root = Ok key ->
  instance_key (instance (template_hash sha256 repointed 0)) root = Ok vector_key ->
  template_hash sha256 template_transaction 0 <> replicate 32 Byte.xab ->
  oracle_runs arena_base sections (templatehash_evaluate (fun bs => Some (sha256 bs))) root
    TEMPLATEHASH_WASM any_signed oracle ->
  run_io oracle [] (main TEMPLATEHASH_WASM identity_from_slice args)
  = (Ok tt, expected_request <$> template_table TEMPLATEHASH_WASM key vector_key)
  \/ collision_among sha256 mutated_preimages.
Proof.
  intros root instance Hopt Hid Hnew Hlinked Hsize Hk Hv Hab Horacle.
  destruct mutated_differ as [Hmut|?]; [left|by right].
  assert (follows any_signed (main TEMPLATEHASH_WASM identity_from_slice args) tt
    (template_table TEMPLATEHASH_WASM key vector_key)) as Hfol.
  { unfold main. eapply follows_lift; [exact Hopt|]. eapply follows_lift; [exact Hid|].
    eapply follows_lift; [exact Hnew|]. by apply template_scenario_follows. }
  apply (Hfol oracle [] tt). split; [done|]. split; [done|]. apply meets_all. intros e sent He.
  assert (forall tx, len (template_hash sha256 tx 0) = DIGEST) as Hlen by (intros; apply sha256_len).
  unfold template_table in He. cbn zeta in He. rewrite !elem_of_app, !elem_of_cons, !elem_of_nil in He.
  destruct He as [[->|[->|[->|[]]]]|[He|[->|[]]]].
  - by eapply spend_answered; [..|apply template_small|apply Hlen|apply bool_decide_eq_true].
  - by eapply spend_answered; [..|apply repointed_small|apply Hlen|apply bool_decide_eq_true].
  - pose proof (spend_native root _ key key _ Hk (instance_key_len _ _ _ Hk) template_small) as Hn.
    eapply oracle_answers; [exact Horacle|done|done|exact Hn|]. apply andb_false_intro2.
    change (host_accepts arena_base sections (templatehash_evaluate (fun bs => Some (sha256 bs)))
      (spend (committed TEMPLATEHASH_WASM (replicate 32 Byte.xab)) key template_transaction) = false).
    rewrite spend_verdict; [by apply bool_decide_eq_false|exact Hlinked|exact Hn|exact template_small|done].
  - apply list_elem_of_fmap in He as (tx & -> & Hin).
    rewrite list.Forall_forall in Hmut. pose proof mutated_small as Hs. rewrite list.Forall_forall in Hs.
    eapply spend_answered; [exact Hlinked|exact Horacle|reflexivity|exact Hk|by apply Hs|apply Hlen|].
    by apply bool_decide_eq_false, Hmut.
  - eapply spend_answered; [exact Hlinked|exact Horacle|reflexivity|exact Hk|exact rebound_small|apply Hlen|].
    by apply bool_decide_eq_true.
Qed.

End Theorems.
