(* ===== verification/DemoExamples.v ===== *)
(** * DemoExamples: the demonstrations on concrete instances

    A readable wallet, compiler and hash in place of the libraries, and every
    theorem on the demonstrations applied to them. *)

From S2P Require Import Prelude Bytes Bitcoin Program SignedView Guest Vault TemplateHash Evaluator GuestRuntime EndToEnd.
From S2P Require Import Keys Deployment Client Driver Wallet OracleDemo DemoHost VaultDemo TemplateDemo.

Open Scope N_scope.

Module SampleWallet.

#[export] Existing Instances StandardOutPoint.codec StandardOutPoint.codec_laws
  SampleProgram.sapio SampleProgram.sapio_laws SampleKeys.prim SampleUpstream.upstream.

(** The first 32 bytes, padded with zeros. *)
Definition first32 (bs : bytes) : bytes := firstn 32 (bs ++ replicate 32 Byte.x00).

Lemma first32_len bs : len (first32 bs) = 32.
Proof. unfold first32, len. rewrite length_firstn, length_app, length_replicate. lia. Qed.

#[export] Instance clientlib : ClientLib := {|
  SocketAddr := bytes;
  NetworkKind := bool;
  network_kind n := bool_decide (n = Keys.Bitcoin);
  ClientXpub := bytes;
  xpub_network _ := false;
  Value := option Network;
  is_object v := bool_decide (is_Some v);
  is_null v := bool_decide (v = None);
  settings_network v := ok_or v (Message "no network");
  to_str b := Some b;
  debug_argument _ := "argument";
  parse_address v := Ok v;
  read_file path := Ok path;
|}.

(** A key tweaked by a Merkle root. *)
Definition tweaked (key : bytes) (root : option bytes) : bytes := first32 (default [] root ++ key).

Definition p2tr (key : bytes) : bytes := Byte.x51 :: Byte.x20 :: first32 key.

#[export] Instance wallet : WalletLib := {|
  instance_key i _ := Ok (first32 (parameters i));
  instance_new_v2 p a := Ok {| evaluator := wasm_v2_id; program := p; parameters := a |};
  for_wasm m := for_wasm_version m V1;
  new_p2wpkh h := Byte.x00 :: Byte.x14 :: h;
  new_p2tr k root := p2tr (tweaked k root);
  new_p2tr_tweaked k := p2tr k;
  build_script items := concat ((fun i => match i with PushSlice bs => bs | OpCheckSig => [Byte.xac] end) <$> items);
  TaprootBuilder := option bytes;
  SpendInfo := bytes * option bytes;
  builder_new := None;
  add_leaf _ _ script := Ok (Some script);
  finalize b k := Some (k, b);
  output_key s := tweaked (fst s) (first32 <$> snd s);
  merkle_root s := first32 <$> snd s;
  control_block s leaf := if bool_decide (snd s = Some (fst leaf)) then Some (fst s) else None;
  leaf_hash script _ := first32 script;
  compute_txid tx := first32 (concat (script_pubkey <$> tx_output tx));
  from_unsigned_tx tx :=
    if forallb (fun i => bool_decide (txin_script_sig i = []) && bool_decide (txin_witness i = [])) (tx_input tx)
    then Ok {| unsigned_tx := tx;
               psbt_inputs := replicate (length (tx_input tx)) PsbtInput_default;
               psbt_outputs := replicate (length (tx_output tx)) PsbtOutput_default |}
    else Err (Message "unsigned transaction required");
  client_new _ _ := Ok tt;
|}.

#[export] Instance wallet_laws : WalletLaws.
Proof.
  split; cbn; try done.
  - intros i root k <-%Ok_inj. apply first32_len.
  - intros tx. apply first32_len.
  - intros h H. rewrite !len_cons, H. done.
  - by intros h h' [= ->].
  - intros k root. unfold p2tr. by rewrite !len_cons, first32_len.
  - intros k. unfold p2tr. by rewrite !len_cons, first32_len.
  - intros tx H. rewrite (proj2 (forallb_forall _ _)); [done|]. intros i Hi%list_elem_of_In.
    rewrite list.Forall_forall in H. destruct (H i Hi) as [-> ->]. done.
  - intros k. by eexists.
  - intros script k. exists (Some script), (k, Some script), k. cbn. by rewrite bool_decide_eq_true_2.
  - by intros b k s [= <-].
Qed.

Definition sample_root : ClientXpub (ClientLib := clientlib) := lit "root".

Definition identity : ClientIdentity := {|
  client_protocol := IDENTITY_PROTOCOL;
  client_mode := lit "nitro";
  client_xpub := sample_root;
  client_settings := Some Regtest;
  client_signing := program_profile |}.

Definition args : list bytes := lit <$> ["--address"; "127.0.0.1:8000"; "--identity"; "identity.json"]%string.

Definition chosen : Options := {|
  address := lit "127.0.0.1:8000"; identity_path := lit "identity.json"; allow_local_dev := false |}.

(** An oracle that answers by the rule. *)
Definition honest (root : ClientXpub) (predicate : Arena -> Arguments -> option bool) : Oracle :=
  fun _ r => if bound root r && host_accepts 65536 SampleHost.sections predicate r
             then Ok (request_psbt r) else Err (RejectedBy "refused").

Lemma honest_runs root predicate module accept :
  (forall r, accept r (request_psbt r)) ->
  oracle_runs 65536 SampleHost.sections predicate root module accept (honest root predicate).
Proof.
  intros Ha sent r _ _ _. unfold honest.
  destruct (bound root r && host_accepts 65536 SampleHost.sections predicate r); by eexists.
Qed.

End SampleWallet.

Import SampleWallet.

Lemma sample_options : Client.options args = Ok (Some chosen).
Proof. vm_compute. reflexivity. Qed.

Lemma sample_identity : load_identity (fun _ => Ok identity) chosen = Ok identity.
Proof. vm_compute. reflexivity. Qed.

(* ------------------------------------------------------------------ *)
(** ** The remote oracle demonstration *)

Module SampleOracleDemo.

#[export] Instance demo : OracleDemoLib := {|
  get_ctv_hash tx i := first32 (le_bytes 4 (lock_time tx) ++ le_bytes 4 i);
  ctv_wasm_instance hash := {| evaluator := wasm_id; program := lit "ctv"; parameters := hash |};
  wat_parse_str source := Ok source;
|}.

End SampleOracleDemo.

Import SampleOracleDemo.

Lemma request_bound_witness : exists r m1 control,
  OracleDemo.request sample_root {| evaluator := lit "e"; program := []; parameters := lit "p" |}
    OracleDemo.transaction true = Ok r /\
  native_context (request_context r) /\
  psbt_inputs (request_psbt r) !! 1%nat = Some m1 /\
  tap_scripts m1 = {[control := (key_script (first32 (lit "p")), TAPSCRIPT)]}.
Proof.
  destruct (request_bound sample_root {| evaluator := lit "e"; program := []; parameters := lit "p" |}
    (first32 (lit "p")) OracleDemo.transaction true
    {| previous_output := {| txid := replicate 32 Byte.x01; vout := 0 |};
       txin_script_sig := []; sequence := 100; txin_witness := [] |}
    {| previous_output := {| txid := replicate 32 Byte.x02; vout := 0 |};
       txin_script_sig := []; sequence := 200; txin_witness := [] |})
    as (r & m1 & Hr & Hn & _ & _ & _ & _ & Hm & Ha & _); [reflexivity| |reflexivity|repeat constructor|].
  - split; [done|reflexivity|repeat constructor|repeat constructor].
  - destruct (authentic_path _ _ _ _ Ha) as (_ & spend & control & _ & _ & Hs).
    exists r, m1, control. repeat (split; [assumption|]). exact Hs.
Defined.

(** An oracle that signs everything fails the demonstration. *)
Lemma oracle_demo_table_witness :
  ~ exists sent, run_io (fun _ r => Ok (request_psbt r)) [] (OracleDemo.main (fun _ => Ok identity) args) = (Ok tt, sent).
Proof.
  destruct (oracle_demo_table (fun _ => Ok identity) args chosen identity sample_options sample_identity)
    as (f & _ & Htable).
  - reflexivity.
  - intros i. eexists. reflexivity.
  - intros body Hin. rewrite !elem_of_cons, elem_of_nil in Hin.
    eexists. split; [reflexivity|]. destruct Hin as [->|[->|[->|[]]]]; vm_compute; discriminate.
  - intros [sent H%Htable]. destruct H as [_ (_ & _ & [text H] & _)]. discriminate H.
Defined.

(* ------------------------------------------------------------------ *)
(** ** The vault demonstration *)

Module SampleVault.

(** A compiler whose artifact is the emulated program and one key path. *)
#[export] Instance vault : VaultLib := {|
  EmulatedProgram := ProgramInstance * bytes;
  emulated_new i root := Ok (i, root);
  emulated_instance := fst;
  effect_path bs := Ok bs;
  Compiled := ProgramInstance * bytes;
  compile e _ := Ok e;
  compiled_script e := p2tr (parameters (fst e));
  program_requirements e := Ok [{| requirement_program := e; requirement_path := KeyPath |}];
  prepare_program_request e q p index witness :=
    match psbt_inputs p with
    | [m] => Ok {|
        request_instance := fst e; request_input_index := index; request_witness := witness;
        request_path := requirement_path q;
        request_psbt := {| unsigned_tx := unsigned_tx p;
                           psbt_inputs := [set_internal_key m (Some (first32 (parameters (fst e))))];
                           psbt_outputs := psbt_outputs p |} |}
    | _ => Err (Message "one input expected")
    end;
  finalize_mut p := Ok p;
  extract_tx p := Ok (unsigned_tx p);
|}.

#[export] Instance vault_laws : VaultLaws.
Proof.
  split; cbn.
  - by intros i root e <-%Ok_inj.
  - intros e. unfold p2tr. by rewrite !len_cons, first32_len.
  - intros root i e c ctx rs q p o <-%Ok_inj <-%Ok_inj <-%Ok_inj Hq _ -> _.
    eexists (set_internal_key (set_witness_utxo PsbtInput_default (Some o)) _), _.
    split; [reflexivity|]. by repeat split.
Qed.

End SampleVault.

Import SampleVault.

Lemma vault_demo_passes_witness : exists sent,
  run_io (honest sample_root (fun _ => vault_evaluate)) []
    (VaultDemo.main SampleHost.module (fun _ => Ok identity) args) = (Ok tt, sent) /\
  length sent = 12%nat.
Proof.
  destruct (vault_instance SampleHost.module MAX_FEE_SATS (VaultDemo.recipient 42)) as [i|e|w] eqn:Hi;
    [|vm_compute in Hi; discriminate Hi..].
  destruct (vault_instance SampleHost.module (MAX_FEE_SATS + 1) (VaultDemo.recipient 42)) as [cheap|e|w] eqn:Hc;
    [|vm_compute in Hc; discriminate Hc..].
  destruct (vault_demo_passes (wallet := wallet) (vault := SampleVault.vault) (fun _ => Ok identity) 65536 SampleHost.sections SampleHost.module args chosen
    identity i cheap (i, sample_root) (honest sample_root (fun _ => vault_evaluate)))
    as (m & _ & H); [exact sample_options|exact sample_identity|reflexivity| |vm_compute; discriminate
      |exact Hi|exact Hc| | | |].
  - repeat split; vm_compute; congruence.
  - eexists. split; [reflexivity|]. vm_compute in Hi. vm_compute in Hc. injection Hi as <-. injection Hc as <-.
    vm_compute. discriminate.
  - exists (i, sample_root), (lit "vault"), [{| requirement_program := (i, sample_root); requirement_path := KeyPath |}],
      {| requirement_program := (i, sample_root); requirement_path := KeyPath |}.
    repeat split. by repeat constructor.
  - apply honest_runs. intros r. exists (request_psbt r), (unsigned_tx (request_psbt r)). by repeat split.
  - eexists. split; [exact H|reflexivity].
Defined.

(* ------------------------------------------------------------------ *)
(** ** The template-hash demonstration *)

Module SampleTemplateDemo.

Abbreviation digest := SampleTemplate.digest.

#[export] Instance demo : TemplateDemoLib := {|
  TemplateDemo.sha256 := digest;
  taproot_signature_hash tx i prevouts :=
    Ok (tagged_hash digest (lit "TapSighash") (bip341_message digest tx i prevouts));
  hex_crate_decode s := ok_or (Bytes.hex_decode (lit s)) (Message "invalid hex");
  transaction_consensus_decode bs :=
    if bool_decide (bs = unhex VECTOR_TX) then Ok vector_transaction else Err (Message "not the vector");
  txout_consensus_decode bs :=
    match filter (fun '(s, _) => bs = unhex s) (zip VECTOR_SPENT vector_prevouts) with
    | (_, o) :: _ => Ok o
    | [] => Err (Message "not a vector output")
    end;
|}.

#[export] Instance demo_laws : TemplateDemoLaws.
Proof.
  split.
  - apply SampleTemplate.digest_len.
  - done.
  - intros s bs H. cbn. by rewrite H.
  - vm_compute. reflexivity.
  - repeat constructor; vm_compute; reflexivity.
Qed.

(** The segregated-witness serialization of a transaction (BIP 144). *)
Definition serialize_input (i : TxIn) : bytes :=
  txid (previous_output i) ++ le_bytes 4 (vout (previous_output i))
  ++ compact_size (len (txin_script_sig i)) ++ txin_script_sig i ++ le_bytes 4 (sequence i).

Definition serialize_witness (i : TxIn) : bytes :=
  compact_size (len (txin_witness i))
  ++ concat ((fun item => compact_size (len item) ++ item) <$> txin_witness i).

Definition serialize_transaction (tx : Transaction) : bytes :=
  i32_le_bytes (tx_version tx) ++ [Byte.x00; Byte.x01]
  ++ compact_size (len (tx_input tx)) ++ concat (serialize_input <$> tx_input tx)
  ++ compact_size (len (tx_output tx)) ++ concat (serialize_output <$> tx_output tx)
  ++ concat (serialize_witness <$> tx_input tx) ++ le_bytes 4 (lock_time tx).

(** The transcribed vector is the transaction the hexadecimal text encodes. *)
Example vector_transcribed : Bytes.hex_decode (lit VECTOR_TX) = Some (serialize_transaction vector_transaction).
Proof. vm_compute. reflexivity. Qed.

Example prevouts_transcribed :
  (fun s => Bytes.hex_decode (lit s)) <$> VECTOR_SPENT = Some <$> (serialize_output <$> vector_prevouts).
Proof. vm_compute. reflexivity. Qed.

End SampleTemplateDemo.

Import SampleTemplateDemo.

Lemma crosscheck_components_witness :
  crosscheck_sighash vector_transaction 0 vector_prevouts = Ok tt /\
  (sha_sequences digest vector_transaction =
     digest (concat ((fun i => le_bytes 4 (sequence i)) <$> tx_input vector_transaction)) /\
   sha_outputs digest vector_transaction =
     digest (concat (serialize_output <$> tx_output vector_transaction)) \/
   collision_among digest [
     (tagged_preimage digest (lit "TapSighash") (bip341_message digest vector_transaction 0 vector_prevouts),
      tagged_preimage digest (lit "TapSighash") (bip341_message digest vector_transaction 0 vector_prevouts))]).
Proof.
  split; [vm_compute; reflexivity|].
  apply (crosscheck_components (demo := SampleTemplateDemo.demo) vector_transaction 0 vector_prevouts
    (digest (concat ((fun i => txid (previous_output i) ++ le_bytes 4 (vout (previous_output i)))
                       <$> tx_input vector_transaction)))
    (digest (concat ((fun o => le_bytes 8 (value o)) <$> vector_prevouts)))
    (digest (concat ((fun o => compact_size (len (script_pubkey o)) ++ script_pubkey o) <$> vector_prevouts))));
    try apply SampleTemplate.digest_len; try reflexivity.
Defined.

Lemma template_request_spec_witness : exists r,
  TemplateDemo.request sample_root {| evaluator := lit "e"; program := []; parameters := lit "p" |}
    template_transaction 1 = Ok r /\
  native_context (request_context r) /\ selected_key (request_context r) = first32 (lit "p").
Proof.
  destruct (template_request_spec sample_root {| evaluator := lit "e"; program := []; parameters := lit "p" |}
    (first32 (lit "p")) template_transaction 1) as [H _]; [reflexivity| |repeat constructor|reflexivity|reflexivity|].
  - split; [done|reflexivity|repeat constructor|repeat constructor].
  - destruct H as (r & Hr & Hn & _ & _ & _ & _ & _ & Hk); [discriminate|].
    exists r. split; [exact Hr|]. split; [exact Hn|exact Hk].
Defined.

Lemma template_demo_passes_witness : exists sent,
  length sent = 9%nat /\
  (run_io (honest sample_root (templatehash_evaluate (fun bs => Some (digest bs)))) []
     (TemplateDemo.main SampleHost.module (fun _ => Ok identity) args) = (Ok tt, sent) \/
   collision_among digest mutated_preimages).
Proof.
  eexists. split; [|apply (template_demo_passes (demo := SampleTemplateDemo.demo) (fun _ => Ok identity) 65536 SampleHost.sections SampleHost.module
    args chosen identity (first32 (template_hash digest template_transaction 0)) (first32 (template_hash digest repointed 0)))];
    [reflexivity|exact sample_options|exact sample_identity|reflexivity| |vm_compute; discriminate
    |reflexivity|reflexivity|vm_compute; discriminate|].
  - repeat split; vm_compute; congruence.
  - apply honest_runs. done.
Defined.
