(* ===== verification/LifecycleExamples.v ===== *)
(** * LifecycleExamples: a process whose identity can be read back

    The device and signer of [AppExamples] with an identity text that the
    client parses, so that the theorems of [Lifecycle] apply. *)

From S2P Require Import Prelude Bytes NativePolicy Bitcoin Program SignedView Evaluator EndToEnd Keys.
From S2P Require Import Deployment ArkSigner ArkExamples Nsm App AppExamples Client Lifecycle.

Open Scope N_scope.

Module SampleLifecycle.

#[export] Existing Instances StandardOutPoint.codec StandardOutPoint.codec_laws
  SampleProgram.sapio SampleProgram.sapio_laws SampleHost.auth SampleHost.runtime SampleKeys.prim
  SampleUpstream.upstream SampleUpstream.upstream_laws NativePolicy.Sample.codec SampleArk.ark
  SampleArk.requests SampleApp.driver.

(** JSON values, one constructor per kind of served field. *)
Inductive Json :=
| JString (s : bytes)
| JXpub (x : Network * bytes)
| JProfile (p : ProgramProfile)
| JObject (s : Settings)
| JNull.

#[export] Instance clientlib : ClientLib := {|
  SocketAddr := bytes;
  NetworkKind := bool;
  network_kind n := bool_decide (n = Bitcoin);
  ClientXpub := Network * bytes;
  xpub_network x := bool_decide (fst x = Bitcoin);
  Value := Json;
  is_object v := match v with JObject _ => true | _ => false end;
  is_null v := match v with JNull => true | _ => false end;
  settings_network v := match v with JObject s => Ok (network s) | _ => Err (Message "no network") end;
  to_str b := Some b;
  debug_argument _ := "argument";
  parse_address v := Ok v;
  read_file path := Ok path;
|}.

Definition served (settings : option Settings) (root : Network * bytes) : Identity := {|
  identity_protocol := IDENTITY_PROTOCOL;
  mode := (match settings with Some _ => lit "nitro" | None => lit "local-dev" end);
  xpub := root; identity_settings := settings; signing := program_profile |}.

#[export] Instance xpub_eq_dec : EqDecision Xpub.
Proof. unfold Xpub. cbn. solve_decision. Defined.
#[export] Instance identity_eq_dec : EqDecision Identity.
Proof. solve_decision. Defined.

(** The writer knows the identities of the sample settings and of local-dev. *)
Definition write (i : Identity) : Result Error bytes :=
  let '(n, seed) := xpub i in
  if decide (i = served (Some SampleKeys.settings) (Bitcoin, seed)) then Ok ("n"%byte :: seed)
  else if decide (i = served None (Regtest, seed)) then Ok ("d"%byte :: seed)
  else Err (Message "unexpected identity").

#[export] Instance applib : AppLib := {|
  oracle_public_root o := fst o;
  identity_to_string := write;
  base64_encode bs := Bytes.hex_encode bs;
  nonce_from_hex bs := ok_or (hex_decode bs) "odd length or invalid digit"%string;
  error_to_string _ := lit "error";
|}.

(** The object of each text the writer knows. *)
Definition object_of (i : Identity) : list (bytes * Json) := [
  (lit "protocol", JString (identity_protocol i)); (lit "mode", JString (mode i)); (lit "xpub", JXpub (xpub i));
  (lit "settings", match identity_settings i with Some s => JObject s | None => JNull end);
  (lit "signing", JProfile (signing i))].

#[export] Instance wire : IdentityWire := {|
  client_root x := x;
  string_value := JString;
  xpub_value := JXpub;
  settings_value s := match s with Some s => JObject s | None => JNull end;
  profile_value := JProfile;
  object_from_slice bs :=
    match bs with
    | "n"%byte :: seed => Ok (object_of (served (Some SampleKeys.settings) (Bitcoin, seed)))
    | "d"%byte :: seed => Ok (object_of (served None (Regtest, seed)))
    | _ => Err (Message "invalid identity")
    end;
  string_from_value v := match v with JString s => Ok s | _ => Err (Message "expected a string") end;
  xpub_from_value v := match v with JXpub x => Ok x | _ => Err (Message "expected an extended key") end;
  profile_from_value v := match v with JProfile p => Ok p | _ => Err (Message "expected a profile") end;
|}.

#[export] Instance wire_laws : IdentityWireLaws.
Proof.
  split; try done.
  - intros i bs H. cbn in H. unfold write in H. destruct (xpub i) as [n seed].
    case_decide as E; [apply Ok_inj in H as <-; by rewrite E|].
    case_decide as E'; [apply Ok_inj in H as <-; by rewrite E'|done].
  - intros n seed root oracle [= <-] Ho. unfold program_oracle in Ho.
    apply bind_ok in Ho as (es & _ & [= <-]). done.
Qed.

Definition opts (path : bytes) : Options := {|
  address := lit "127.0.0.1:8000"; identity_path := path; allow_local_dev := false |}.

Definition start : System := initial (Some 3%Z).

Definition after (actions : list Action) : System :=
  match app_run start actions with Some (sys, _) => sys | None => start end.

Definition serving : list Action := setup_actions SampleKeys.settings SampleKeys.proxy.

Lemma after_reaches actions : reachable (after actions).
Proof.
  exists (Some 3%Z). unfold after. destruct (app_run start actions) as [[sys rs]|] eqn:H; [|constructor].
  by eapply app_run_reaches.
Qed.

End SampleLifecycle.

Import SampleLifecycle.

Lemma setup_terminates_witness : exists actions sys' replies reply,
  app_run (after [SetupRequest SampleKeys.settings]) actions = Some (sys', replies ++ [SetupReply reply]) /\
  setup_task sys' = None.
Proof.
  destruct (setup_terminates (after [SetupRequest SampleKeys.settings]) SampleKeys.proxy (after_reaches _))
    as [_ H].
  destruct H as (actions & sys' & replies & reply & _ & Hr & Hn & _).
  - apply (bool_decide_unpack _). vm_compute. exact I.
  - exists actions, sys', replies, reply. split; [exact Hr|exact Hn].
Defined.

Lemma published_identity_loads_witness : exists id,
  identity (app (after (serving ++ [ReadyReceived]))) = Some id /\
  is_ok (load_identity identity_from_slice
    (opts id)) = true.
Proof.
  destruct (identity (app (after (serving ++ [ReadyReceived])))) as [id|] eqn:Hid;
    [|vm_compute in Hid; discriminate Hid].
  assert (len id <= MAX_IDENTITY_BYTES) as Hlen.
  { vm_compute in Hid. injection Hid as <-. vm_compute. discriminate. }
  destruct (published_identity_loads (after (serving ++ [ReadyReceived])) id
    (opts id)
    (after_reaches _) Hid) as (settings & root_ & send & oracle & _ & _ & _ & E); [reflexivity|exact Hlen|].
  exists id. split; [reflexivity|]. exact (f_equal is_ok E).
Defined.

Lemma local_dev_contained_witness : exists sys id,
  local_dev_start [Byte.x07] (Some (Ok tt)) = Ok sys /\ identity (app sys) = Some id /\
  is_ok (load_identity identity_from_slice
    (opts id)) = false.
Proof.
  assert (is_ok (local_dev_start [Byte.x07] (Some (Ok tt))) = true) as H by (vm_compute; reflexivity).
  destruct (local_dev_start [Byte.x07] (Some (Ok tt))) as [sys|e|w] eqn:Hs; [clear H|discriminate H..].
  destruct (local_dev_contained [Byte.x07] sys) as (root_ & oracle & id & Hroot & Ho & Hid & Hpub & _ & _ & _ & Hload).
  - exists (Some (Ok tt)), sys. split; [exact Hs|apply reaches_refl].
  - exists sys, id. split; [reflexivity|]. split; [exact Hpub|].
    apply (Hload (opts id));
      [reflexivity|].
    injection Hroot as <-. destruct evaluators as [es|e|w] eqn:He; [|discriminate He..].
    unfold program_oracle in Ho. rewrite He in Ho. injection Ho as <-.
    vm_compute in Hid. injection Hid as <-. vm_compute. discriminate.
Defined.
