(* ===== verification/Fixtures.v ===== *)
(** * Fixtures: the spends the signer's tests sign (src/ark_signer.rs, mod tests)

    The test transaction, the tests' own computation of a template hash,
    [Fixture::new] with its funding transaction, and the edits the tests make.
    The Ark Taproot tree, the constructor of a signing input and transaction
    ids are the interface [FixtureLib]; indexing, [+=] on amounts and
    [resize_with] panic and extend as Rust's do. *)

From S2P Require Import Prelude Bytes NativePolicy Bitcoin Program SignedView TemplateHash Evaluator.
From S2P Require Import Keys Deployment ArkSigner Scenario SigningProtocol SignerTests OwnershipTests Client Driver Wallet.

Open Scope N_scope.

Class FixtureLib {sapio : SapioProgram} {prim : KeyPrimitives} {upstream : Upstream} {ark : ArkLib} := {
  VAULT : bytes;
  Tree : Type;
  taproot : ArkSigner.PublicKey -> ArkSigner.PublicKey -> N -> Tree;
  tree_output_key : Tree -> bytes;
  new_p2tr_tweaked : bytes -> bytes;
  transaction_id : Transaction -> bytes;
  key_spend : Transaction -> N -> list TxOut -> Tree -> list ArkSigner.PublicKey -> Result Error SigningInput;
  claim_tapscript : ArkSigner.PublicKey -> N -> bytes;
  tapleaf_hash : bytes -> bytes;
}.

(** Documented: a key spend is of the given transaction and previous outputs,
    with an empty map per output, and a Taproot script is 34 bytes. *)
Class FixtureLaws {sapio : SapioProgram} {prim : KeyPrimitives} {upstream : Upstream} {ark : ArkLib}
    {ownership : OwnershipLib} {fixtures : FixtureLib} : Prop := {
  p2tr_length k : len (OwnershipTests.new_p2tr k) = 34;
  key_spend_context tx i prevouts tree members input :
    key_spend tx i prevouts tree members = Ok input ->
    unsigned_tx (psbt input) = tx /\ input_index input = i /\
    witness_utxo <$> psbt_inputs (psbt input) = Some <$> prevouts /\
    length (psbt_outputs (psbt input)) = length (tx_output tx);
}.

(** [self[0] ^= 1]. *)
Definition flip_first (bs : bytes) : Result Error bytes :=
  index_mut bs 0 (fun b => Ok (byte_of_N (N.lxor (Byte.to_N b) 1))).

Definition set_input_psbt (i : SigningInput) (p : Psbt) : SigningInput :=
  {| psbt := p; input_index := input_index i; script_leaf := script_leaf i;
     participants := participants i; tweak := tweak i |}.

Section Fixtures.
  Context {auth : NativeAuth}.
  Context {sapio : SapioProgram} {prim : KeyPrimitives} {upstream : Upstream} {ark : ArkLib}.
  Context {musig : NestedMusig} {ownership : OwnershipLib} {fixtures : FixtureLib}.

Definition transaction : Result Error Transaction :=
  destination ← recipient Byte.x45;
  Ok {| tx_version := 2; lock_time := 500;
        tx_input := [set_sequence (set_outpoint TxIn_default {| txid := replicate 32 Byte.x44; vout := 0 |}) EXIT_DELAY];
        tx_output := [{| value := 9000; script_pubkey := destination |}] |}.

(** The tests' BIP-446 hash, written with streaming engines. *)
Definition template_hash (tx : Transaction) (input_index : N) : bytes :=
  let sequences := concat ((fun input => le_bytes 4 (sequence input)) <$> tx_input tx) in
  let outputs := concat (serialize_output <$> tx_output tx) in
  let tag := sha256 (lit "TemplateHash") in
  sha256 (tag ++ tag ++ i32_le_bytes (tx_version tx) ++ le_bytes 4 (lock_time tx)
    ++ sha256 sequences ++ sha256 outputs ++ [Byte.x00] ++ le_bytes 4 input_index).

Definition template_program (tx : Transaction) : Result Error TestProgram :=
  new_program wasm_id TEMPLATEHASH (template_hash tx 0).

(** The previous outputs of the other inputs. *)
Definition other_prevouts (n : nat) : Result Error (list TxOut) :=
  try_map (fun _ => script ← recipient Byte.x46; Ok {| value := 5000; script_pubkey := script |}) (seq 1 (n - 1)).

Definition funding_transaction (output : TxOut) : Transaction :=
  {| tx_version := 2; lock_time := 0; tx_input := [TxIn_default]; tx_output := [output] |}.

(** The claim of a key spend: the script leaf and its two signers. *)
Definition claim_input (input : SigningInput) (program_key : ProgramKey) (group : ArkSigner.PublicKey) (delta : N)
    : Result Error SigningInput :=
  program ← unwrap_ok (program_pubkey program_key) "program_pubkey";
  Ok {| psbt := psbt input; input_index := input_index input;
        script_leaf := Some (tapleaf_hash (claim_tapscript group delta));
        participants := [public_key_bytes (user_pubkey program_key); public_key_bytes program];
        tweak := None |}.

(** [Fixture::new]. *)
Definition Fixture_new (program_ : TestProgram) (tx : Transaction) (claim : bool) : Result Error Fixture :=
  server ← key Byte.x43;
  root_ ← test_root;
  user ← key Byte.x42;
  let program_key := {|
    key_root := xpub_from_priv root_; user_pubkey := keypair_public user;
    key_evaluator := program_evaluator program_; key_program := program_module program_;
    key_parameters := program_parameters program_; key_program_id := program_identity program_ |} in
  group ← unwrap_ok (group_pubkey program_key) "public_key";
  delta ← unwrap_ok (check_block_delta EXIT_DELAY) "check_block_delta";
  let tree := taproot group (keypair_public server) delta in
  let funding_output := {| value := FUNDING; script_pubkey := new_p2tr_tweaked (tree_output_key tree) |} in
  let funding := funding_transaction funding_output in
  tx ← edit_txin tx 0 (fun i => set_outpoint i {| txid := transaction_id funding; vout := 0 |});
  others ← other_prevouts (length (tx_input tx));
  input ← unwrap_ok (key_spend tx 0 (funding_output :: others) tree [group; keypair_public server]) "key_spend";
  p ← edit_map (psbt input) 0 (fun m => Ok (set_non_witness_utxo m (Some funding)));
  let input := set_input_psbt input p in
  input ← (if claim then claim_input input program_key group delta else Ok input);
  _ ← unwrap_ok (sighash input) "sighash";
  Ok {| fixture_key := program_key; fixture_input := input;
        fixture_server := if claim then None else Some server; fixture_witness := [] |}.

Definition Fixture_template (claim : bool) : Result Error Fixture :=
  tx ← transaction;
  program_ ← template_program tx;
  Fixture_new program_ tx claim.

(* ------------------------------------------------------------------ *)
(** ** Edits *)

Definition with_input (f : Fixture) (i : SigningInput) : Fixture :=
  {| fixture_key := fixture_key f; fixture_input := i; fixture_server := fixture_server f;
     fixture_witness := fixture_witness f |}.

Definition with_unsigned_tx (f : Fixture) (tx : Transaction) : Fixture :=
  with_input f (set_input_psbt (fixture_input f) (set_psbt_tx (psbt (fixture_input f)) tx)).

(** [mutate(&mut changed.input.psbt.unsigned_tx)]. *)
Definition edit_fixture (f : Fixture) (mutate : Transaction -> Result Error Transaction) : Result Error Fixture :=
  with_unsigned_tx f <$> mutate (unsigned_tx (psbt (fixture_input f))).

(** [changed.input.psbt.outputs.resize_with(.., Default::default)]. *)
Definition resize_outputs (f : Fixture) : Fixture :=
  let p := psbt (fixture_input f) in
  let n := length (tx_output (unsigned_tx p)) in
  with_input f (set_input_psbt (fixture_input f)
    {| unsigned_tx := unsigned_tx p; psbt_inputs := psbt_inputs p;
       psbt_outputs := firstn n (psbt_outputs p ++ replicate (n - length (psbt_outputs p)) PsbtOutput_default) |}).

End Fixtures.

(* ------------------------------------------------------------------ *)
(** ** Lemmas *)

Section Lemmas.
  Context {auth : NativeAuth}.
  Context {sapio : SapioProgram} {sapio_laws : SapioProgramLaws}.
  Context {prim : KeyPrimitives} {upstream : Upstream} {ark : ArkLib}.
  Context {musig : NestedMusig} {ownership : OwnershipLib} {fixtures : FixtureLib} {fixture_laws : FixtureLaws}.

(** What [Fixture::new] makes of a program and a transaction. *)
Record built (program_ : TestProgram) (tx : Transaction) (f : Fixture) (tx' : Transaction) (funding : TxOut)
    (others : list TxOut) : Prop := {
  built_evaluator : key_evaluator (fixture_key f) = program_evaluator program_;
  built_module : key_program (fixture_key f) = program_module program_;
  built_parameters : key_parameters (fixture_key f) = program_parameters program_;
  built_witness : fixture_witness f = [];
  built_tx : exists point, edit_txin tx 0 (fun i => set_outpoint i point) = Ok tx';
  built_unsigned : unsigned_tx (psbt (fixture_input f)) = tx';
  built_index : input_index (fixture_input f) = 0;
  built_value : value funding = FUNDING;
  built_others : other_prevouts (length (tx_input tx')) = Ok others;
  built_prevouts : prevout_list (fixture_input f) = funding :: others;
  built_maps : length (psbt_inputs (psbt (fixture_input f))) = S (length others);
  built_outputs : length (psbt_outputs (psbt (fixture_input f))) = length (tx_output tx');
  built_funding : exists m, psbt_inputs (psbt (fixture_input f)) !! 0%nat = Some m /\
    non_witness_utxo m = Some (funding_transaction funding);
}.

Lemma omap_witness (maps : list PsbtInput) prevouts :
  witness_utxo <$> maps = Some <$> prevouts -> omap witness_utxo maps = prevouts.
Proof.
  revert prevouts; induction maps as [|m maps IH]; intros [|o prevouts] H; try discriminate H; [done|].
  injection H as Hm H. cbn. rewrite Hm. f_equal. by apply IH.
Qed.

Lemma Fixture_new_built program_ tx claim f :
  Fixture_new program_ tx claim = Ok f -> exists tx' funding others, built program_ tx f tx' funding others.
Proof.
  unfold Fixture_new. intros H. apply bind_ok in H as (server & _ & H). apply bind_ok in H as (r & _ & H).
  apply bind_ok in H as (user & _ & H). apply bind_ok in H as (group & _ & H). apply bind_ok in H as (delta & _ & H).
  apply bind_ok in H as (tx' & Htx & H). apply bind_ok in H as (others & Ho & H).
  apply bind_ok in H as (input & Hin & H). apply bind_ok in H as (p & Hp & H).
  apply bind_ok in H as (input' & Hin' & H). apply bind_ok in H as (? & _ & H). apply Ok_inj in H as <-.
  apply unwrap_ok_ok in Hin. destruct (key_spend_context _ _ _ _ _ _ Hin) as (Hu & Hi & Hw & Hlen).
  unfold edit_map, index_mut in Hp. apply bind_ok in Hp as (maps & Hmaps & Hp). apply Ok_inj in Hp as <-.
  apply bind_ok in Hmaps as (m & Hm & Hmaps). unfold index in Hm. apply expect_ok in Hm. cbn [mbind Result_bind] in Hmaps. apply Ok_inj in Hmaps as <-.
  set (funding := {| value := FUNDING; script_pubkey := _ |}) in *.
  assert (psbt input' = set_psbt_inputs (psbt input)
    (<[0%nat := set_non_witness_utxo m (Some (funding_transaction funding))]> (psbt_inputs (psbt input))) /\
    input_index input' = input_index input) as [Hpsbt Hidx].
  { destruct claim; [|by apply Ok_inj in Hin' as <-]. unfold claim_input in Hin'.
    apply bind_ok in Hin' as (? & _ & Hin'). by apply Ok_inj in Hin' as <-. }
  exists tx', funding, others. split; cbn [fixture_key fixture_input fixture_witness]; rewrite ?Hpsbt, ?Hidx; try done.
  - by eexists.
  - unfold prevout_list. rewrite Hpsbt. cbn [psbt_inputs set_psbt_inputs]. apply omap_witness.
    rewrite list_fmap_insert. cbn. rewrite list_insert_id; [done|]. by rewrite list_lookup_fmap, Hm.
  - cbn [psbt_inputs set_psbt_inputs]. rewrite length_insert, <- (length_fmap witness_utxo), Hw. cbn. by rewrite length_fmap.
  - exists (set_non_witness_utxo m (Some (funding_transaction funding))). split; [|done]. cbn [psbt_inputs set_psbt_inputs].
    apply list_lookup_insert_eq, lookup_lt_is_Some_1. by exists m.
Qed.

(** Resizing does nothing where the maps already match. *)
Lemma resize_outputs_same f :
  length (psbt_outputs (psbt (fixture_input f))) = length (tx_output (unsigned_tx (psbt (fixture_input f)))) ->
  resize_outputs f = f.
Proof.
  intros H. unfold resize_outputs, with_input, set_input_psbt. rewrite H, Nat.sub_diag, app_nil_r, firstn_all2 by lia.
  by destruct f as [? [[] ? ? ? ?] ? ?].
Qed.

End Lemmas.
