(* ===== verification/PredicateTests.v ===== *)
(** * PredicateTests: what the example programs refuse (src/ark_signer.rs, mod tests)

    The tests that sign a spend under the vault and the template-hash program
    and have every edited spend refused before a nonce is drawn, run through
    the whole stack: the checks of [prepare], [authorize], the evaluator with the
    guest runtime, and the guest's own decision. *)

From S2P Require Import Prelude Bytes NativePolicy Bitcoin Program SignedView Guest Vault TemplateHash Evaluator.
From S2P Require Import GuestRuntime EndToEnd Keys Deployment ArkSigner Scenario SigningProtocol SignerTests OwnershipTests.
From S2P Require Import Client Driver Wallet Fixtures.

Open Scope N_scope.

Section Tests.
  Context {runtime : WasmRuntime} {outpoint_codec : OutPointCodec} {auth : NativeAuth}.
  Context {sapio : SapioProgram} {prim : KeyPrimitives} {upstream : Upstream} {ark : ArkLib} {requests : ArkRequests}.
  Context {codec : PolicyCodec VtxoPolicy} {musig : NestedMusig} {ownership : OwnershipLib} {fixtures : FixtureLib}.
  Variable world : World.

(** The edits of an output's amount and script. *)
Definition set_amount (i : nat) (amount : N) (tx : Transaction) : Result Error Transaction :=
  edit_txout tx i (fun o => Ok (set_value o amount)).

Definition pay_to (i : nat) (b : byte) (tx : Transaction) : Result Error Transaction :=
  script ← recipient b;
  edit_txout tx i (fun o => Ok (set_script o script)).

Definition sweep_program : Result Error TestProgram :=
  ps ← payment_parameters 1000;
  new_program wasm_id VAULT ps.

Definition sweep_fixture : Result Error Fixture :=
  program_ ← sweep_program;
  tx ← transaction;
  Fixture_new program_ tx true.

Definition sweep_mutations : list (Transaction -> Result Error Transaction) := [
  set_amount 0 8999;
  set_amount 0 (FUNDING + 1);
  pay_to 0 Byte.x49;
  fun tx => script ← recipient Byte.x49;
            Ok (set_outputs tx (tx_output tx ++ [{| value := 330; script_pubkey := script |}]))].

Definition generic_sweep_enforces_fee_and_single_complete_destination : Test unit :=
  new_test_signer;;
  original ← lift sweep_fixture;
  Fixture_sign world original;;
  lower_fee ← lift (edit_fixture original (set_amount 0 FUNDING));
  Fixture_sign world lower_fee;;
  mapM (fun mutate =>
    changed ← lift (edit_fixture original mutate);
    predicate_refused world (resize_outputs changed)) sweep_mutations;;
  mret tt.

(** The two-input transaction of the template test. *)
Definition wide_transaction : Result Error Transaction :=
  tx ← transaction;
  script ← recipient Byte.x48;
  Ok (set_outputs (set_inputs tx (tx_input tx ++
        [set_sequence (set_outpoint TxIn_default {| txid := replicate 32 Byte.x47; vout := 1 |}) 22]))
      (tx_output tx ++ [{| value := 500; script_pubkey := script |}])).

Definition template_mutations : list (Transaction -> Result Error Transaction) := [
  pay_to 0 Byte.x49;
  (fun tx => edit_txout tx 1 (fun o => amount ← amount_add (value o) 1; Ok (set_value o amount)));
  (fun tx => edit_txin tx 0 (fun i => set_sequence i 13));
  (fun tx => edit_txin tx 1 (fun i => set_sequence i 23));
  (fun tx => Ok {| tx_version := tx_version tx; lock_time := 501; tx_input := tx_input tx; tx_output := tx_output tx |});
  (fun tx => Ok {| tx_version := 1; lock_time := lock_time tx; tx_input := tx_input tx; tx_output := tx_output tx |})].

(** The same program authenticated at the second input, with its own funding. *)
Definition at_other_index (original : Fixture) : Result Error Fixture :=
  let p := psbt (fixture_input original) in
  first ← index (psbt_inputs p) 0;
  second_funding ← expect (non_witness_utxo first) "called `Option::unwrap()` on a `None` value";
  second_funding ← edit_txin second_funding 0 (fun i =>
    set_outpoint i {| txid := txid (previous_output i); vout := 1 |});
  p ← edit_map p 1 (fun _ => Ok first);
  tx ← edit_txin (unsigned_tx p) 1 (fun i => set_outpoint i {| txid := transaction_id second_funding; vout := 0 |});
  p ← edit_map (set_psbt_tx p tx) 1 (fun m => Ok (set_non_witness_utxo m (Some second_funding)));
  let i := fixture_input original in
  Ok (with_input original {| psbt := p; input_index := 1; script_leaf := script_leaf i;
                             participants := participants i; tweak := tweak i |}).

(** A program that commits to another hash. *)
Definition wrong_commitment (original : Fixture) : Result Error Fixture :=
  let tx := unsigned_tx (psbt (fixture_input original)) in
  commitment ← flip_first (Fixtures.template_hash tx 0);
  program_ ← new_program wasm_id TEMPLATEHASH commitment;
  Fixture_new program_ tx false.

Definition wide_fixture : Result Error Fixture :=
  tx ← wide_transaction;
  program_ ← template_program tx;
  Fixture_new program_ tx false.

Definition templatehash_rejects_every_committed_transaction_field_before_nonce : Test unit :=
  new_test_signer;;
  original ← lift wide_fixture;
  Fixture_sign world original;;
  mapM (fun mutate =>
    changed ← lift (edit_fixture original mutate);
    predicate_refused world changed) template_mutations;;
  other_index ← lift (at_other_index original);
  predicate_refused world other_index;;
  wrong ← lift (wrong_commitment original);
  predicate_refused world wrong.

End Tests.

(** The tests' hash is the client's and, by [templatehash_evaluate_spec], the
    guest's. *)
Lemma template_hash_client {prim : KeyPrimitives} tx i :
  Fixtures.template_hash tx i = TemplateHash.template_hash sha256 tx i.
Proof.
  unfold Fixtures.template_hash, TemplateHash.template_hash, tagged_hash, sha_sequences, sha_outputs.
  by rewrite push_sequences_concat, push_outputs_concat, !app_nil_l.
Qed.

(* ------------------------------------------------------------------ *)
(** ** Lemmas *)

Section Lemmas.
  Context {outpoint_codec : OutPointCodec} {codec_laws : OutPointCodecLaws} {auth : NativeAuth}.
  Context {sapio : SapioProgram} {sapio_laws : SapioProgramLaws}.
  Context {prim : KeyPrimitives} {upstream : Upstream} {ark : ArkLib} {requests : ArkRequests}.
  Context {codec : PolicyCodec VtxoPolicy} {musig : NestedMusig} {musig_laws : NestedMusigLaws}.
  Context {ownership : OwnershipLib} {fixtures : FixtureLib} {fixture_laws : FixtureLaws}.

(** A fixture that the Ark library authenticates as a spend of the signer's
    group key, with a view the host accepts. *)
Record presentable (self : ArkSigner) (f : Fixture) (action : SigningAction) (program : ProgramInstance)
    (intent : Intent) : Prop := {
  presented_authentic : authentic f action intent;
  presented_identity : identified self (fixture_key f) action program intent;
  presented_spend s : action = Spend s ->
    spend_signing_input s (fixture_key f) = Ok (fixture_input f) /\ spend_witness s = fixture_witness f;
  presented_input : authenticated (fixture_input f) (intent_message intent);
  presented_native : native_context (fixture_input f);
  presented_size : view_size V1 (fixture_input f) <= MAX_SIGNED_VIEW_BYTES;
}.

(** The program of a fixture's key. *)
Definition key_instance (f : Fixture) : ProgramInstance :=
  {| evaluator := key_evaluator (fixture_key f); program := key_program (fixture_key f);
     parameters := key_parameters (fixture_key f) |}.

Lemma presented_program self f action program intent :
  presentable self f action program intent -> program = key_instance f.
Proof. intros H. apply (program_instance_new_ok _ _ _ _ (identified_program _ _ _ _ _ (presented_identity _ _ _ _ _ H))). Qed.

Section Decision.
  Context {runtime : WasmRuntime}.

(** A presentable spend under a program without a policy envelope is decided by
    the evaluator. *)
Lemma presented_decision self f action program intent p n r :
  presentable self f action program intent ->
  NativePolicy.parse (parameters program) = Ok None ->
  nonce_new intent (fst (members intent)) r = Ok n ->
  check_request (with_pending self p) (honest_request f action n) =
    (_ ← authorize (signer_evaluators self) program (fixture_input f) (fixture_witness f) (intent_message intent);
     Ok (program, intent, nonce_public n)).
Proof.
  intros H Hp Hn. pose proof (presented_authentic _ _ _ _ _ H) as Hf.
  destruct (member_nonce_wire intent _ r n Hn) as (public & Hpub & Hfrom).
  assert (identified (with_pending self p) (fixture_key f) action program intent) as Hid
    by (destruct (presented_identity _ _ _ _ _ H); by split).
  assert (member_nonce_from_bytes intent (user_pubkey (fixture_key f)) (nonce_serialize public) = Ok (nonce_public n)) as Hfrom'
    by by rewrite (authentic_user _ _ _ Hf).
  rewrite (check_request_identified (with_pending self p) (honest_request f action n) _ _ _ _ eq_refl Hid Hpub Hfrom'), Hp.
  cbn [mbind Result_bind prepare_key prepare_action honest_request].
  rewrite bool_decide_eq_false_2 by (intros []; discriminate). cbn [andb].
  pose proof (authentic_action _ _ _ Hf) as Hact. unfold Fixture_action in Hact.
  apply bind_ok in Hact as (s & _ & Hact). apply Ok_inj in Hact as <-.
  destruct (presented_spend _ _ _ _ _ H s eq_refl) as [Hs Hws]. unfold authorize_action.
  rewrite Hs, Hws. done.
Qed.

(** The accepted ones may be prepared. *)
Lemma presented_admissible self f action program intent :
  presentable self f action program intent ->
  NativePolicy.parse (parameters program) = Ok None ->
  authorize (signer_evaluators self) program (fixture_input f) (fixture_witness f) (intent_message intent) = Ok tt ->
  admissible self (fixture_key f) action program intent.
Proof.
  intros H Hp Ha. split; [apply H|]. exists None. split; [done|]. split; [by intros []|].
  pose proof (authentic_action _ _ _ (presented_authentic _ _ _ _ _ H)) as Hact. unfold Fixture_action in Hact.
  apply bind_ok in Hact as (s & _ & Hact). apply Ok_inj in Hact as <-.
  destruct (presented_spend _ _ _ _ _ H s eq_refl) as [Hs Hws]. unfold authorize_action. by rewrite Hs, Hws.
Qed.

(** The evaluator's verdict on a fixture. *)
Definition verdict_of (self : ArkSigner) (f : Fixture) (verdict : Result Error unit) : Prop :=
  exists action program intent, presentable self f action program intent /\
    NativePolicy.parse (parameters program) = Ok None /\
    authorize (signer_evaluators self) program (fixture_input f) (fixture_witness f) (intent_message intent) = verdict.

Context (world : World) (self : ArkSigner) (Hworld : healthy world) (Hav : available self).

Lemma live_empty now : live now ∅ = ∅.
Proof. unfold live. apply map_filter_empty. Qed.

(** On an empty pool an accepted fixture signs, *)
Lemma wp_accepted f t (Q : Signature -> TestState -> Prop) :
  verdict_of self f (Ok tt) -> (forall signature, Q signature (at_ self ∅ (5 + t))) ->
  wp (Fixture_sign world f) Q (at_ self ∅ t).
Proof.
  intros (action & program & intent & H & Hp & Ha) HQ.
  eapply wp_sign; [done|done|apply H|by eapply presented_admissible| |].
  - rewrite live_empty. split; vm_compute; reflexivity.
  - intros s _. rewrite live_empty. apply HQ.
Qed.

(** and any other verdict refuses its request without taking a slot, *)
Lemma wp_verdict_refused {A} f e p t (then_ : Error -> Test A) (Q : A -> TestState -> Prop) :
  verdict_of self f (Err e) -> wp (then_ e) Q (at_ self p (2 + t)) ->
  wp ('(request, _) ← Fixture_request world f; error ← refused world request; then_ error) Q (at_ self p t).
Proof.
  intros (action & program & intent & H & Hp & Ha) HQ.
  apply wp_bind. eapply wp_request; [done|apply H|]. intros n Hn. apply wp_bind.
  eapply wp_refused; [apply Hav| |exact HQ]. by rewrite (presented_decision _ _ _ _ _ _ _ _ H Hp Hn), Ha.
Qed.

(** a rejection by name, *)
Lemma wp_predicate_refused f p t (Q : unit -> TestState -> Prop) :
  verdict_of self f (Err (Program Rejected)) -> Q tt (at_ self p (2 + t)) ->
  wp (predicate_refused world f) Q (at_ self p t).
Proof. intros Hv HQ. eapply wp_verdict_refused; [exact Hv|]. by apply wp_assert. Qed.

(** a failed evaluation too. *)
Lemma wp_invalid_evaluation f why p t (Q : unit -> TestState -> Prop) :
  verdict_of self f (Err (Program (Evaluation why))) -> Q tt (at_ self p (2 + t)) ->
  wp (invalid_evaluation world f) Q (at_ self p t).
Proof. intros Hv HQ. eapply wp_verdict_refused; [exact Hv|]. by apply wp_assert. Qed.

(** A list of edits, each refused. *)
Lemma wp_refusals {A} (edit : A -> Result Error Fixture) (finish_ : Fixture -> Fixture) (l : list A) p t
    (Q : list unit -> TestState -> Prop) :
  Forall (fun x => exists f, edit x = Ok f /\ verdict_of self (finish_ f) (Err (Program Rejected))) l ->
  (forall ys t', Q ys (at_ self p t')) ->
  wp (mapM (fun x => changed ← lift (edit x); predicate_refused world (finish_ changed)) l) Q (at_ self p t).
Proof.
  intros Hl. revert t Q; induction Hl as [|x l (f & Hf & Hv) _ IH]; intros t Q HQ; cbn [mapM].
  - apply wp_ret, HQ.
  - apply wp_bind, wp_bind. eapply wp_lift; [exact Hf|]. apply wp_predicate_refused; [done|].
    apply wp_bind, IH. intros ys t'. apply wp_ret, HQ.
Qed.

End Decision.

(** ** The vault *)

Section Sweep.
  Context (arena_base : N) (sections : list Payload).
  Hypothesis Hlinked : linked arena_base sections (fun _ => vault_evaluate) VAULT.

Definition sweep_variants : list (Transaction -> Result Error Transaction) :=
  (fun tx => Ok tx) :: set_amount 0 FUNDING :: sweep_mutations.

(** A world where the Ark library builds the sweep and authenticates each of the
    test's edits of it. *)
Record sweep_bench (world : World) (root_ : Xpriv) (self : ArkSigner) : Prop := {
  sweep_world : healthy world;
  sweep_root : new_master Regtest (replicate 32 Byte.x41) = Ok root_;
  sweep_signer : ArkSigner_new root_ = Ok self;
  sweep_builds : exists original, sweep_fixture = Ok original;
  sweep_presents original mutate f :
    sweep_fixture = Ok original -> mutate ∈ sweep_variants -> edit_fixture original mutate = Ok f ->
    exists action program intent, presentable self (resize_outputs f) action program intent;
  sweep_stranger : exists script, recipient Byte.x49 = Ok script /\ recipient Byte.x45 <> Ok script;
}.

Lemma recipient_length b script : recipient b = Ok script -> len script = 34.
Proof. unfold recipient. intros (kp & _ & <-)%fmap_ok. apply p2tr_length. Qed.

(** The sweep as the vault sees it. *)
Lemma sweep_shape original : sweep_fixture = Ok original ->
  exists destination spent i,
    recipient Byte.x45 = Ok destination /\
    key_instance original = {| evaluator := wasm_id; program := VAULT;
      parameters := le_bytes 8 1000 ++ le_bytes 4 34 ++ destination |} /\
    fixture_witness original = [] /\
    unsigned_tx (psbt (fixture_input original)) = {| tx_version := 2; lock_time := 500; tx_input := [i];
      tx_output := [{| value := 9000; script_pubkey := destination |}] |} /\
    prevout_list (fixture_input original) = [spent] /\ value spent = FUNDING /\
    length (psbt_outputs (psbt (fixture_input original))) = 1%nat.
Proof.
  unfold sweep_fixture, sweep_program, payment_parameters, transaction. intros H.
  apply bind_ok in H as (program_ & Hp & H). apply bind_ok in Hp as (ps & Hps & Hp).
  apply bind_ok in Hps as (destination & Hd & Hps). apply Ok_inj in Hps as <-.
  rewrite Hd in H. cbn [mbind Result_bind] in H. pose proof (recipient_length _ _ Hd) as Hlen.
  rewrite Hlen in Hp. apply Fixture_new_built in H as (tx' & funding & others & H).
  destruct (built_tx _ _ _ _ _ _ H) as [point Htx]. apply Ok_inj in Htx as <-.
  pose proof (built_others _ _ _ _ _ _ H) as Ho. cbn in Ho. apply Ok_inj in Ho as <-.
  unfold new_program in Hp. apply bind_ok in Hp as (id & _ & Hp). apply Ok_inj in Hp as <-.
  exists destination, funding. eexists. split; [exact Hd|]. split; [|split; [apply H|split; [apply H|]]].
  - unfold key_instance. by rewrite (built_evaluator _ _ _ _ _ _ H), (built_module _ _ _ _ _ _ H), (built_parameters _ _ _ _ _ _ H).
  - split; [apply H|]. split; [apply H|]. apply H.
Qed.

(** The host's verdict on an edit is the vault's rule. *)
Lemma sweep_verdict world root_ self original destination mutate f :
  sweep_bench world root_ self -> sweep_fixture = Ok original -> recipient Byte.x45 = Ok destination ->
  mutate ∈ sweep_variants -> edit_fixture original mutate = Ok f ->
  verdict_of (runtime := guest_runtime arena_base sections (fun _ => vault_evaluate)) self (resize_outputs f)
    (if vault_allows 1000 destination (fixture_input (resize_outputs f)) then Ok tt else Err (Program Rejected)).
Proof.
  intros Hb Ho Hd Hm Hf. destruct (sweep_presents _ _ _ Hb _ _ _ Ho Hm Hf) as (action & program & intent & H).
  destruct (sweep_shape _ Ho) as (d & spent & i & Hd' & Hkey & Hw & _). rewrite Hd in Hd'. apply Ok_inj in Hd' as <-.
  pose proof (presented_program _ _ _ _ _ H) as Hprog. unfold edit_fixture in Hf. apply fmap_ok in Hf as (tx & _ & <-).
  change (key_instance (resize_outputs (with_unsigned_tx original tx))) with (key_instance original) in Hprog.
  rewrite Hkey in Hprog. subst program. exists action. eexists. exists intent. split; [exact H|].
  split; [reflexivity|]. change (fixture_witness (resize_outputs (with_unsigned_tx original tx))) with (fixture_witness original).
  rewrite Hw. apply authorize_vault; [done| | |apply H..].
  - apply read_parameters_encoded; [done|by rewrite (recipient_length _ _ Hd)|].
    unfold vault_parameters. rewrite (recipient_length _ _ Hd). reflexivity.
  - rewrite !len_app, !len_le_bytes, (recipient_length _ _ Hd). by vm_compute.
Qed.

Lemma with_own_tx (f : Fixture) : with_unsigned_tx f (unsigned_tx (psbt (fixture_input f))) = f.
Proof. by destruct f as [? [[] ? ? ? ?] ? ?]. Qed.

(** The rule on an edit that gives the outputs [outs]. *)
Lemma sweep_allows original destination spent mutate f tx :
  edit_fixture original mutate = Ok f -> mutate (unsigned_tx (psbt (fixture_input original))) = Ok tx ->
  prevout_list (fixture_input original) = [spent] ->
  vault_allows 1000 destination (fixture_input (resize_outputs f)) =
    match tx_output tx with
    | [paid] => bool_decide (script_pubkey paid = destination) && (330 <=? value paid) && (value paid <=? value spent)
                && (value spent - value paid <=? 1000)
    | _ => false
    end.
Proof.
  intros Hf Htx Hp. unfold edit_fixture in Hf. rewrite Htx in Hf. apply Ok_inj in Hf as <-. unfold vault_allows.
  change (prevout_list (fixture_input (resize_outputs (with_unsigned_tx original tx)))) with (prevout_list (fixture_input original)).
  change (tx_output (unsigned_tx (psbt (fixture_input (resize_outputs (with_unsigned_tx original tx)))))) with (tx_output tx).
  by rewrite Hp.
Qed.

(** One edit of the sweep: it applies, and the vault allows it or not. *)
Lemma sweep_edit world root_ self original destination spent mutate tx b :
  sweep_bench world root_ self -> sweep_fixture = Ok original -> recipient Byte.x45 = Ok destination ->
  prevout_list (fixture_input original) = [spent] ->
  mutate ∈ sweep_variants -> mutate (unsigned_tx (psbt (fixture_input original))) = Ok tx ->
  match tx_output tx with
  | [paid] => bool_decide (script_pubkey paid = destination) && (330 <=? value paid) && (value paid <=? value spent)
              && (value spent - value paid <=? 1000)
  | _ => false
  end = b ->
  exists f, edit_fixture original mutate = Ok f /\ f = with_unsigned_tx original tx /\
    verdict_of (runtime := guest_runtime arena_base sections (fun _ => vault_evaluate)) self (resize_outputs f)
      (if b then Ok tt else Err (Program Rejected)).
Proof.
  intros Hb Ho Hd Hp Hm Htx <-. assert (edit_fixture original mutate = Ok (with_unsigned_tx original tx)) as Hf
    by (unfold edit_fixture; by rewrite Htx).
  eexists. split; [exact Hf|]. split; [done|]. pose proof (sweep_verdict _ _ _ _ _ _ _ Hb Ho Hd Hm Hf) as Hv.
  by rewrite (sweep_allows _ _ _ _ _ _ Hf Htx Hp) in Hv.
Qed.

(** The four mutations are refused. *)
Lemma sweep_mutations_refused world root_ self original : sweep_bench world root_ self -> sweep_fixture = Ok original ->
  Forall (fun mutate => exists f, edit_fixture original mutate = Ok f /\
    verdict_of (runtime := guest_runtime arena_base sections (fun _ => vault_evaluate))
      self (resize_outputs f) (Err (Program Rejected))) sweep_mutations.
Proof.
  intros Hb Ho. destruct (sweep_shape _ Ho) as (destination & spent & i & Hd & _ & _ & Hu & Hp & Hspent & _).
  destruct (sweep_stranger _ _ _ Hb) as (stranger & Hs & Hne). rewrite Hd in Hne.
  pose proof (fun mutate tx => sweep_edit _ _ _ _ _ _ mutate tx false Hb Ho Hd Hp) as Hedit. rewrite Hspent, Hu in Hedit.
  assert (forall mutate tx, mutate ∈ sweep_mutations -> mutate {| tx_version := 2; lock_time := 500; tx_input := [i];
      tx_output := [{| value := 9000; script_pubkey := destination |}] |} = Ok tx ->
    match tx_output tx with
    | [paid] => bool_decide (script_pubkey paid = destination) && (330 <=? value paid) && (value paid <=? FUNDING)
                && (FUNDING - value paid <=? 1000)
    | _ => false
    end = false ->
    exists f, edit_fixture original mutate = Ok f /\ verdict_of (runtime := guest_runtime arena_base sections (fun _ => vault_evaluate))
      self (resize_outputs f) (Err (Program Rejected))) as Hno.
  { intros mutate tx Hm Htx Hfalse. destruct (Hedit mutate tx) as (f & Hf & _ & Hvf); [by do 2 right|done|done|].
    by exists f. }
  assert (bool_decide (destination = destination) = true) as Hrefl by by apply bool_decide_eq_true_2.
  assert (bool_decide (stranger = destination) = false) as Hother by (apply bool_decide_eq_false_2; congruence).
  unfold sweep_mutations in *. repeat apply Forall_cons_2; [..|constructor].
  - eapply Hno; [by left|reflexivity|]. cbn. by rewrite Hrefl.
  - eapply Hno; [by right; left|reflexivity|]. cbn. by rewrite Hrefl.
  - eapply Hno; [by do 2 right; left|unfold pay_to; by rewrite Hs|]. cbn. by rewrite Hother.
  - eapply Hno; [by do 3 right; left|by rewrite Hs|done].
Qed.

Lemma sweep_passes world root_ self : sweep_bench world root_ self ->
  passes (generic_sweep_enforces_fee_and_single_complete_destination
    (runtime := guest_runtime arena_base sections (fun _ => vault_evaluate)) world).
Proof.
  intros Hb. destruct (sweep_builds _ _ _ Hb) as [original Ho].
  destruct (sweep_shape _ Ho) as (destination & spent & i & Hd & _ & _ & Hu & Hp & Hspent & Hout).
  apply wp_passes. intros st. pose proof (available_new _ _ (sweep_signer _ _ _ Hb)) as Hav.
  pose proof (fun mutate tx => sweep_edit _ _ _ _ _ _ mutate tx true Hb Ho Hd Hp) as Hedit. rewrite Hspent, Hu in Hedit.
  assert (bool_decide (destination = destination) = true) as Hrefl by by apply bool_decide_eq_true_2.
  eapply wp_bind, wp_new_test_signer; [apply Hb|apply Hb|]. apply wp_bind. eapply wp_lift; [exact Ho|].
  destruct (Hedit (fun tx => Ok tx) _ (list_elem_of_here _ _) eq_refl) as (f & _ & -> & Hv); [cbn; by rewrite Hrefl|].
  rewrite <- Hu, with_own_tx, resize_outputs_same in Hv by by rewrite Hout, Hu.
  eapply wp_bind, wp_accepted; [apply Hb|done|exact Hv|]. intros _.
  destruct (Hedit (set_amount 0 FUNDING) _ (list_elem_of_further _ _ _ (list_elem_of_here _ _)) eq_refl) as (f & Hf & -> & Hv');
    [cbn; by rewrite Hrefl|].
  rewrite resize_outputs_same in Hv' by exact Hout.
  apply wp_bind. eapply wp_lift; [exact Hf|]. eapply wp_bind, wp_accepted; [apply Hb|done|exact Hv'|]. intros _.
  eapply wp_bind, (wp_refusals world self (sweep_world _ _ _ Hb) Hav (edit_fixture original) resize_outputs);
    [by eapply sweep_mutations_refused|intros; by apply wp_ret].
Qed.

End Sweep.

(** ** The template program *)

Section Template.
  Context (arena_base : N) (sections : list Payload).
Let predicate := templatehash_evaluate (fun bs => Some (sha256 bs)).
Hypothesis Hlinked : linked arena_base sections predicate TEMPLATEHASH.
  Hypothesis Hsha : forall x, len (sha256 x) = DIGEST.

Definition wide_variants : list (Transaction -> Result Error Transaction) := (fun tx => Ok tx) :: template_mutations.

(** A variant of the template spend, with its program's own commitment. *)
Inductive wide_variant (original : Fixture) : Fixture -> Prop :=
| wide_edited mutate f : mutate ∈ wide_variants -> edit_fixture original mutate = Ok f -> wide_variant original f
| wide_other_index f : at_other_index original = Ok f -> wide_variant original f
| wide_wrong f : wrong_commitment original = Ok f -> wide_variant original f.

Definition hash_of (f : Fixture) : bytes :=
  TemplateHash.template_hash sha256 (unsigned_tx (psbt (fixture_input f))) (input_index (fixture_input f)).

Definition preimages_of (f g : Fixture) : list (bytes * bytes) :=
  template_preimages sha256 (unsigned_tx (psbt (fixture_input f))) (input_index (fixture_input f))
    (unsigned_tx (psbt (fixture_input g))) (input_index (fixture_input g)).

(** A world where the Ark library builds and authenticates the test's spends,
    their views leave the guest its scratch space, no commitment reads as a
    policy envelope, and the strings their hashes are made of do not collide. *)
Record wide_bench (world : World) (root_ : Xpriv) (self : ArkSigner) : Prop := {
  wide_world : healthy world;
  wide_root : new_master Regtest (replicate 32 Byte.x41) = Ok root_;
  wide_signer : ArkSigner_new root_ = Ok self;
  wide_builds : exists original, wide_fixture = Ok original;
  wide_wrong_builds original : wide_fixture = Ok original -> exists wrong, wrong_commitment original = Ok wrong;
  wide_presents original f : wide_fixture = Ok original -> wide_variant original f ->
    (exists action program intent, presentable self f action program intent) /\
    DIGEST + view_size V1 (fixture_input f) + scratch_size (fixture_input f) <= INPUT_CAPACITY /\
    strip_prefix MAGIC (key_parameters (fixture_key f)) = None;
  wide_no_collision original f : wide_fixture = Ok original -> wide_variant original f ->
    ~ collision_among sha256 (preimages_of f original);
  wide_stranger : exists script, recipient Byte.x49 = Ok script /\ recipient Byte.x45 <> Ok script;
}.

Lemma wide_shape original : wide_fixture = Ok original ->
  exists first other a b maps,
    recipient Byte.x45 = Ok first /\
    key_instance original = {| evaluator := wasm_id; program := TEMPLATEHASH; parameters := hash_of original |} /\
    fixture_witness original = [] /\ input_index (fixture_input original) = 0 /\
    unsigned_tx (psbt (fixture_input original)) = {| tx_version := 2; lock_time := 500;
      tx_input := [set_sequence (set_outpoint TxIn_default a) EXIT_DELAY; set_sequence (set_outpoint TxIn_default b) 22];
      tx_output := [{| value := 9000; script_pubkey := first |}; {| value := 500; script_pubkey := other |}] |} /\
    psbt_inputs (psbt (fixture_input original)) = maps /\ length maps = 2%nat /\
    exists m funding, maps !! 0%nat = Some m /\ non_witness_utxo m = Some (funding_transaction funding).
Proof.
  unfold wide_fixture, wide_transaction, transaction. intros H. apply bind_ok in H as (tx & Htx & H).
  apply bind_ok in Htx as (tx0 & Htx0 & Htx). apply bind_ok in Htx0 as (first & Hfirst & Htx0). apply Ok_inj in Htx0 as <-.
  apply bind_ok in Htx as (other & _ & Htx). apply Ok_inj in Htx as <-.
  apply bind_ok in H as (program_ & Hp & H). apply Fixture_new_built in H as (tx' & funding & others & H).
  destruct (built_tx _ _ _ _ _ _ H) as [point Htx]. apply Ok_inj in Htx as <-.
  unfold template_program, new_program in Hp. apply bind_ok in Hp as (id & _ & Hp). apply Ok_inj in Hp as <-.
  exists first, other, point, {| txid := replicate 32 Byte.x47; vout := 1 |}. eexists. split; [exact Hfirst|].
  split; [|split; [apply H|split; [apply H|split; [apply H|split; [reflexivity|split]]]]].
  - unfold key_instance. rewrite (built_evaluator _ _ _ _ _ _ H), (built_module _ _ _ _ _ _ H), (built_parameters _ _ _ _ _ _ H).
    cbn [program_evaluator program_module program_parameters]. f_equal. rewrite template_hash_client. unfold hash_of.
    by rewrite (built_unsigned _ _ _ _ _ _ H), (built_index _ _ _ _ _ _ H).
  - rewrite (built_maps _ _ _ _ _ _ H). f_equal. by apply (try_map_length _ _ _ (built_others _ _ _ _ _ _ H)).
  - destruct (built_funding _ _ _ _ _ _ H) as (m & Hm & Hfund). by exists m, funding.
Qed.

(** The host's verdict on a variant is the comparison of hashes. *)
Lemma wide_verdict world root_ self original f committed :
  wide_bench world root_ self -> wide_fixture = Ok original -> wide_variant original f ->
  key_instance f = {| evaluator := wasm_id; program := TEMPLATEHASH; parameters := committed |} ->
  fixture_witness f = [] -> len committed = DIGEST ->
  verdict_of (runtime := guest_runtime arena_base sections predicate) self f
    (if bool_decide (hash_of f = committed) then Ok tt else Err (Program Rejected)).
Proof.
  intros Hb Ho Hv Hkey Hw Hlen. destruct (wide_presents _ _ _ Hb _ _ Ho Hv) as ((action & program & intent & H) & Hcap & Hmagic).
  pose proof (presented_program _ _ _ _ _ H) as Hprog. exists action, program, intent. split; [done|].
  assert (key_parameters (fixture_key f) = committed) as Hps by exact (f_equal parameters Hkey).
  rewrite Hkey in Hprog. subst program. rewrite Hps in Hmagic. split.
  - unfold NativePolicy.parse. cbn [parameters]. by rewrite Hmagic.
  - rewrite Hw. by apply authorize_template; [..|apply H|apply H|apply H|].
Qed.

Lemma wide_hash_len f : len (hash_of f) = DIGEST.
Proof. apply Hsha. Qed.

(** A variant under the original's program that is another template is refused. *)
Lemma wide_refused world root_ self original f :
  wide_bench world root_ self -> wide_fixture = Ok original -> wide_variant original f ->
  fixture_key f = fixture_key original -> fixture_witness f = [] ->
  ~ (same_template (unsigned_tx (psbt (fixture_input f))) (unsigned_tx (psbt (fixture_input original))) /\
     input_index (fixture_input f) = input_index (fixture_input original)) ->
  verdict_of (runtime := guest_runtime arena_base sections predicate) self f (Err (Program Rejected)).
Proof.
  intros Hb Ho Hv Hk Hw Hdiff. destruct (wide_shape _ Ho) as (first & other & a & b & maps & _ & Hkey & _).
  pose proof (wide_verdict _ _ _ _ f (hash_of original) Hb Ho Hv) as H.
  unfold key_instance in H, Hkey. rewrite Hk in H. specialize (H Hkey Hw (wide_hash_len _)).
  rewrite bool_decide_eq_false_2 in H; [exact H|]. intros E.
  assert (wide_variant original original) as Hown.
  { apply (wide_edited _ (fun tx => Ok tx)); [by left|]. unfold edit_fixture. cbn. by rewrite with_own_tx. }
  destruct (wide_presents _ _ _ Hb _ _ Ho Hv) as ((? & ? & ? & Hp) & _).
  destruct (wide_presents _ _ _ Hb _ _ Ho Hown) as ((? & ? & ? & Hp') & _).
  destruct (fitting_counts _ _ (presented_native _ _ _ _ _ Hp) (presented_size _ _ _ _ _ Hp)) as (_ & _ & I1).
  destruct (fitting_counts _ _ (presented_native _ _ _ _ _ Hp') (presented_size _ _ _ _ _ Hp')) as (_ & _ & I2).
  apply presented_native in Hp, Hp'.
  apply template_hash_same in E as [?|Hcol]; [tauto| |done|apply Hp|apply Hp'|done|done].
  exact (wide_no_collision _ _ _ Hb original f Ho Hv Hcol).
Qed.

(** The edits of the committed fields change the template. *)
Lemma wide_edits_differ world root_ self original : wide_bench world root_ self -> wide_fixture = Ok original ->
  Forall (fun mutate => exists f, edit_fixture original mutate = Ok f /\
    verdict_of (runtime := guest_runtime arena_base sections predicate) self f (Err (Program Rejected))) template_mutations.
Proof.
  intros Hb Ho. destruct (wide_shape _ Ho) as (first & other & a & b & maps & Hf & _ & Hw & _ & Hu & _).
  destruct (wide_stranger _ _ _ Hb) as (stranger & Hs & Hne). rewrite Hf in Hne.
  assert (forall mutate tx, mutate ∈ template_mutations -> mutate (unsigned_tx (psbt (fixture_input original))) = Ok tx ->
    ~ same_template tx (unsigned_tx (psbt (fixture_input original))) ->
    exists f, edit_fixture original mutate = Ok f /\
      verdict_of (runtime := guest_runtime arena_base sections predicate) self f (Err (Program Rejected))) as Hno.
  { intros mutate tx Hm Htx Hdiff. assert (edit_fixture original mutate = Ok (with_unsigned_tx original tx)) as He
      by (unfold edit_fixture; by rewrite Htx).
    eexists. split; [exact He|]. eapply wide_refused; [done|done| |done|done|].
    - eapply wide_edited; [|exact He]. by right.
    - intros [H _]. by apply Hdiff. }
  rewrite Hu in Hno. unfold template_mutations in *. repeat apply Forall_cons_2; [..|constructor].
  - eapply Hno; [by left|unfold pay_to; by rewrite Hs|]. intros (_ & _ & _ & H). injection H as H. congruence.
  - eapply Hno; [by right; left|reflexivity|]. intros (_ & _ & _ & H). discriminate H.
  - eapply Hno; [by do 2 right; left|reflexivity|]. intros (_ & _ & H & _). discriminate H.
  - eapply Hno; [by do 3 right; left|reflexivity|]. intros (_ & _ & H & _). discriminate H.
  - eapply Hno; [by do 4 right; left|reflexivity|]. intros (_ & H & _). discriminate H.
  - eapply Hno; [by do 5 right; left|reflexivity|]. intros (H & _). discriminate H.
Qed.

(** The other input of the same spend has another template, *)
Lemma wide_other_refused world root_ self original : wide_bench world root_ self -> wide_fixture = Ok original ->
  exists f, at_other_index original = Ok f /\
    verdict_of (runtime := guest_runtime arena_base sections predicate) self f (Err (Program Rejected)).
Proof.
  intros Hb Ho. destruct (wide_shape _ Ho) as (first & other & a & b & maps & _ & _ & Hw & Hi & Hu & Hmaps & Hlen & m & funding & Hm & Hfund).
  assert (exists f, at_other_index original = Ok f) as [f Hf].
  { unfold at_other_index. rewrite Hmaps. unfold index. rewrite Hm. cbn [expect mbind Result_bind]. rewrite Hfund.
    destruct maps as [|m0 [|m1 [|? ?]]]; try discriminate Hlen.
    unfold edit_map, edit_txin, index_mut, index. cbn. rewrite Hmaps. cbn. rewrite Hu. cbn. by eexists. }
  exists f. split; [done|]. pose proof Hf as Hparts. unfold at_other_index in Hparts.
  repeat (let x := fresh in let H := fresh in apply bind_ok in Hparts as (x & H & Hparts)). apply Ok_inj in Hparts as <-.
  eapply wide_refused; [done|done|by apply wide_other_index|done|done|].
  intros [_ E]. cbn in E. rewrite Hi in E. discriminate E.
Qed.

Lemma flip_first_spec bs committed : flip_first bs = Ok committed -> committed <> bs /\ len committed = len bs.
Proof.
  unfold flip_first, index_mut, index. destruct bs as [|x bs]; [discriminate|]. intros H. apply Ok_inj in H as <-.
  split; [|done]. intros E. injection E as E. by destruct x.
Qed.

(** and a program that commits to another hash refuses the original. *)
Lemma wide_wrong_refused world root_ self original : wide_bench world root_ self -> wide_fixture = Ok original ->
  exists f, wrong_commitment original = Ok f /\
    verdict_of (runtime := guest_runtime arena_base sections predicate) self f (Err (Program Rejected)).
Proof.
  intros Hb Ho. destruct (wide_wrong_builds _ _ _ Hb _ Ho) as [f Hf]. exists f. split; [done|].
  pose proof (wide_wrong _ _ Hf) as Hv.
  destruct (wide_shape _ Ho) as (first & other & a & b & maps & _ & _ & _ & _ & Hu & _).
  unfold wrong_commitment in Hf. apply bind_ok in Hf as (committed & Hc & Hf). apply flip_first_spec in Hc as [Hne Hlen].
  apply bind_ok in Hf as (program_ & Hp & Hf). apply Fixture_new_built in Hf as (tx' & funding & others & H).
  unfold new_program in Hp. apply bind_ok in Hp as (id & _ & Hp). apply Ok_inj in Hp as <-.
  destruct (built_tx _ _ _ _ _ _ H) as [point Htx]. rewrite Hu in Htx. apply Ok_inj in Htx as <-.
  assert (key_instance f = {| evaluator := wasm_id; program := TEMPLATEHASH; parameters := committed |}) as Hkey
    by (unfold key_instance; by rewrite (built_evaluator _ _ _ _ _ _ H), (built_module _ _ _ _ _ _ H), (built_parameters _ _ _ _ _ _ H)).
  rewrite template_hash_client in Hne, Hlen. rewrite Hu in Hne, Hlen. 
  pose proof (wide_verdict _ _ _ _ _ committed Hb Ho Hv Hkey (built_witness _ _ _ _ _ _ H)) as Hverdict.
  rewrite bool_decide_eq_false_2 in Hverdict; [apply Hverdict; rewrite Hlen; apply Hsha|]. intros E. apply Hne.
  rewrite <- E. unfold hash_of. rewrite (built_unsigned _ _ _ _ _ _ H), (built_index _ _ _ _ _ _ H). reflexivity.
Qed.

Lemma template_fields_pass world root_ self : wide_bench world root_ self ->
  passes (templatehash_rejects_every_committed_transaction_field_before_nonce
    (runtime := guest_runtime arena_base sections predicate) world).
Proof.
  intros Hb. destruct (wide_builds _ _ _ Hb) as [original Ho]. apply wp_passes. intros st.
  pose proof (available_new _ _ (wide_signer _ _ _ Hb)) as Hav. pose proof (wide_world _ _ _ Hb) as Hworld.
  destruct (wide_shape _ Ho) as (first & other & a & b & maps & _ & Hkey & Hw & _).
  eapply wp_bind, wp_new_test_signer; [apply Hb|apply Hb|]. apply wp_bind. eapply wp_lift; [exact Ho|].
  eapply wp_bind, wp_accepted; [done|done| |].
  { pose proof (wide_verdict _ _ _ _ original (hash_of original) Hb Ho) as H.
    rewrite bool_decide_eq_true_2 in H by done. apply H; [|done|done|apply Hsha].
    apply (wide_edited _ (fun tx => Ok tx)); [by left|]. unfold edit_fixture. cbn. by rewrite with_own_tx. }
  intros _. eapply wp_bind, (wp_refusals world self Hworld Hav (edit_fixture original) (fun f => f));
    [by eapply wide_edits_differ|]. intros _ t.
  destruct (wide_other_refused _ _ _ _ Hb Ho) as (f & Hf & Hv). apply wp_bind. eapply wp_lift; [exact Hf|].
  eapply wp_bind, wp_predicate_refused; [done|done|exact Hv|].
  destruct (wide_wrong_refused _ _ _ _ Hb Ho) as (g & Hg & Hvg). apply wp_bind. eapply wp_lift; [exact Hg|].
  by eapply wp_predicate_refused.
Qed.

End Template.
End Lemmas.

(* ------------------------------------------------------------------ *)
(** ** Properties *)

Section Theorems.
  Context {outpoint_codec : OutPointCodec} {codec_laws : OutPointCodecLaws} {auth : NativeAuth}.
  Context {sapio : SapioProgram} {sapio_laws : SapioProgramLaws}.
  Context {prim : KeyPrimitives} {upstream : Upstream} {ark : ArkLib} {requests : ArkRequests}.
  Context {codec : PolicyCodec VtxoPolicy} {musig : NestedMusig} {musig_laws : NestedMusigLaws}.
  Context {ownership : OwnershipLib} {fixtures : FixtureLib} {fixture_laws : FixtureLaws}.

(** C18: The signer, the evaluator and the vault guest together pass the sweep
    test: the sweep and its variant without a fee sign, and a fee above the
    maximum, an output above the input, another destination and a second output
    are each refused by the predicate before a nonce is drawn, for every
    evaluator, key and spend of the hypotheses. *)
Theorem generic_sweep_passes arena_base sections world root_ self :
  linked arena_base sections (fun _ => vault_evaluate) VAULT ->
  sweep_bench world root_ self ->
  passes (generic_sweep_enforces_fee_and_single_complete_destination
    (runtime := guest_runtime arena_base sections (fun _ => vault_evaluate)) world).
Proof. intros Hlinked. by apply sweep_passes. Qed.

(** C19: The same stack passes the template test: the committed spend signs, and a
    change of any output, sequence, lock time or version, of the selected
    input, or of the commitment itself is refused by the predicate, unless
    the strings of the two templates collide under SHA-256. *)
Theorem templatehash_rejects_passes arena_base sections world root_ self :
  let predicate := templatehash_evaluate (fun bs => Some (sha256 bs)) in
  linked arena_base sections predicate TEMPLATEHASH -> (forall x, len (sha256 x) = DIGEST) ->
  wide_bench world root_ self ->
  passes (templatehash_rejects_every_committed_transaction_field_before_nonce
    (runtime := guest_runtime arena_base sections predicate) world).
Proof. intros predicate Hlinked Hsha. by apply template_fields_pass. Qed.

End Theorems.
