(* ===== verification/EvaluatorTests.v ===== *)
(** * EvaluatorTests: evaluators that must fail closed (src/ark_signer.rs, mod tests)

    The tests that give the signer a program it cannot run, or a guest written
    to misbehave: each request is refused before a nonce is drawn, with the
    error of its cause, and the signer goes on signing.  The guests are the WAT
    texts of the tests; what the assembler and the engine make of such a text is
    stated by [assembled], instruction by instruction of the few they use. *)

From S2P Require Import Prelude Bytes NativePolicy Bitcoin Program SignedView Guest TemplateHash Evaluator.
From S2P Require Import GuestRuntime EndToEnd Keys Deployment ArkSigner Scenario SigningProtocol SignerTests OwnershipTests.
From S2P Require Import Client Driver Wallet OracleDemo Fixtures PredicateTests.

Open Scope N_scope.

(* ------------------------------------------------------------------ *)
(** ** The guests *)

Definition TEST_ALLOCATOR : bytes :=
  lit "global.get $heap global.get $heap local.get $length i32.add global.set $heap".

(** The text of [test_program]. *)
Definition guest_text (version : WasmVersion) (allocator predicate extra : bytes) : bytes :=
  let v := match version with V1 => lit "1" | V2 => lit "2" end in
  lit "(module"
  ++ text_line 12 extra
  ++ text_line 12 (lit "(memory (export " ++ quoted "memory" ++ lit ") 1)")
  ++ text_line 12 (lit "(global $heap (mut i32) (i32.const 4096))")
  ++ text_line 12 (lit "(func (export " ++ (Byte.x22 :: lit "sapio_alloc_v" ++ v ++ [Byte.x22])
                   ++ lit ") (param $length i32) (result i32)")
  ++ text_line 16 (allocator ++ lit ")")
  ++ text_line 12 (lit "(func (export " ++ (Byte.x22 :: lit "sapio_evaluate_v" ++ v ++ [Byte.x22]) ++ lit ")")
  ++ text_line 16 (lit "(param $program i32) (param $program_len i32)")
  ++ text_line 16 (lit "(param $parameters i32) (param $parameters_len i32)")
  ++ text_line 16 (lit "(param $view i32) (param $view_len i32)")
  ++ text_line 16 (lit "(param $witness i32) (param $witness_len i32) (result i32)")
  ++ text_line 16 (predicate ++ lit "))").

Definition start_function : bytes := lit "(func $start) (start $start)".

Definition approve_import : bytes :=
  lit "(import " ++ quoted "env" ++ lit " " ++ quoted "approve" ++ lit " (func))".

(** Allocator, predicate and extra of the unsafe guests. *)
Definition unsafe_guests : list (bytes * bytes * bytes) := [
  (lit "i32.const 4096", lit "i32.const 1", []);
  (lit "i32.const -1", lit "i32.const 1", []);
  (TEST_ALLOCATOR, lit "unreachable", []);
  (TEST_ALLOCATOR, lit "i32.const 2", []);
  (TEST_ALLOCATOR, lit "i32.const 1", start_function);
  (TEST_ALLOCATOR, lit "i32.const 1", approve_import)].

(** A loop of two thousand fills of the whole page. *)
Definition burn : bytes :=
  text_line 12 (lit "(local $remaining i32)")
  ++ text_line 12 (lit "i32.const 2000 local.set $remaining")
  ++ text_line 12 (lit "loop $burn")
  ++ text_line 16 (lit "i32.const 0 i32.const 0 i32.const 65536 memory.fill")
  ++ text_line 16 (lit "local.get $remaining i32.const 1 i32.sub local.tee $remaining")
  ++ text_line 16 (lit "br_if $burn")
  ++ text_line 12 (lit "end")
  ++ text_line 8 [].

Definition allocating_burn : bytes := burn ++ lit " " ++ TEST_ALLOCATOR.
Definition evaluating_burn : bytes := burn ++ lit " i32.const 1".

Definition burning_guests : list (bytes * bytes * bytes) := [
  (TEST_ALLOCATOR, evaluating_burn, []);
  (allocating_burn, lit "i32.const 1", [])].

(** [unavailable.evaluators.clear()]. *)
Definition clear_evaluators {sapio : SapioProgram} {prim : KeyPrimitives} {upstream : Upstream} {ark : ArkLib}
    (self : ArkSigner) : ArkSigner :=
  {| root := root self; public_root := public_root self; signer_evaluators := [];
     pending := pending self; poisoned := poisoned self |}.

Section Tests.
  Context {runtime : WasmRuntime} {outpoint_codec : OutPointCodec} {auth : NativeAuth}.
  Context {sapio : SapioProgram} {prim : KeyPrimitives} {upstream : Upstream} {ark : ArkLib} {requests : ArkRequests}.
  Context {codec : PolicyCodec VtxoPolicy} {musig : NestedMusig} {ownership : OwnershipLib} {fixtures : FixtureLib}.
  Context {demo : OracleDemoLib}.
  Variable world : World.

(** [test_program]. *)
Definition test_program (version : WasmVersion) (allocator predicate extra : bytes) : Result Error TestProgram :=
  module ← unwrap_ok (wat_parse_str (guest_text version allocator predicate extra)) "parse_str";
  new_program (match version with V1 => wasm_id | V2 => wasm_v2_id end) module [Byte.x07].

Definition guest_fixture (guest : bytes * bytes * bytes) : Result Error Fixture :=
  let '(allocator, predicate, extra) := guest in
  program_ ← test_program V1 allocator predicate extra;
  tx ← transaction;
  Fixture_new program_ tx false.

Definition evaluation_refused (fixture : Fixture) : Test unit :=
  '(request, _) ← Fixture_request world fixture;
  error ← refused world request;
  assert_that (match downcast_program error with Some (Evaluation _) => true | _ => false end).

Definition private_adapter_rejects_unsafe_guests_without_exposing_a_nonce : Test unit :=
  new_test_signer;;
  mapM (fun guest => fixture ← lift (guest_fixture guest); evaluation_refused fixture) unsafe_guests;;
  mapM (fun guest => fixture ← lift (guest_fixture guest); evaluation_refused fixture) burning_guests;;
  fixture ← lift (Fixture_template false);
  Fixture_sign world fixture;;
  mret tt.

Definition is_unknown_evaluator (error : Error) : bool :=
  match downcast_program error with Some (UnknownEvaluator _) => true | _ => false end.

Definition payment_fixture : Result Error Fixture :=
  program_ ← payment_program;
  tx ← transaction;
  payment ← Fixture_new program_ tx false;
  Ok {| fixture_key := fixture_key payment; fixture_input := fixture_input payment;
        fixture_server := fixture_server payment; fixture_witness := le_bytes 4 0 |}.

Definition unknown_evaluator : bytes := sha256 (lit "uninstalled evaluator").

Definition unknown_fixture : Result Error Fixture :=
  unknown ← new_program unknown_evaluator (lit "program") [];
  tx ← transaction;
  Fixture_new unknown tx false.

(** The v1 guest under the id of the v2 interface. *)
Definition unsupported_fixture : Result Error Fixture :=
  tx ← transaction;
  unsupported ← new_program wasm_v2_id TEMPLATEHASH (Fixtures.template_hash tx 0);
  tx ← transaction;
  Fixture_new unsupported tx false.

Definition unavailable_and_unsupported_evaluators_fail_before_nonce : Test unit :=
  new_test_signer;;
  unavailable ← the_signer;
  use_signer (clear_evaluators unavailable);;
  payment ← lift payment_fixture;
  '(request, _) ← Fixture_request world payment;
  error ← refused world request;
  assert_that (is_unknown_evaluator error);;
  new_test_signer;;
  fixture ← lift unknown_fixture;
  '(request, _) ← Fixture_request world fixture;
  error ← refused world request;
  assert_that (is_unknown_evaluator error);;
  unsupported ← lift unsupported_fixture;
  invalid_evaluation world unsupported;;
  fixture ← lift (Fixture_template false);
  Fixture_sign world fixture;;
  mret tt.

End Tests.

(* ------------------------------------------------------------------ *)
(** ** What the assembler and the engine make of a guest *)

(** The declared locals of a body. *)
Definition locals_of (body : bytes) : list (Result string (N * ValType)) :=
  if starts_with burn body then [Ok (1, I32)] else [].

(** The payloads of the binary of [guest_text], in the order of the format. *)
Definition guest_sections (guest : bytes * bytes * bytes) : list Payload :=
  let '(allocator, predicate, extra) := guest in
  let start := bool_decide (extra = start_function) in
  let approve := bool_decide (extra = approve_import) in
  let own := if start || approve then [{| params := []; results := [] |}] else [] in
  let first := len own in
  [OtherPayload; TypeSection (Ok <$> own ++ [{| params := [I32]; results := [I32] |};
                                           {| params := replicate 8 I32; results := [I32] |}])]
  ++ (if approve then [ImportSection [Ok {| import_module := lit "env"; import_name := lit "approve";
                                            import_ty := Func 0 |}]] else [])
  ++ [FunctionSection ((if start then [Ok 0] else []) ++ [Ok first; Ok (first + 1)]);
      OtherPayload; OtherPayload; OtherPayload]
  ++ (if start then [StartSection] else [])
  ++ [OtherPayload] ++ (if start then [CodeSectionEntry (Ok [])] else [])
  ++ [CodeSectionEntry (Ok (locals_of allocator)); CodeSectionEntry (Ok (locals_of predicate)); OtherPayload].

Section Engine.
  Context {runtime : WasmRuntime}.

(** The allocators: a constant leaves the store alone, the bump allocator
    returns some pointer, the burning one runs out of fuel. *)
Record allocates (text : bytes) (allocate : Allocate) : Prop := {
  allocates_4096 : text = lit "i32.const 4096" -> forall s n, call_allocate allocate s n = (Ok 4096%Z, s);
  allocates_minus : text = lit "i32.const -1" -> forall s n, call_allocate allocate s n = (Ok (-1)%Z, s);
  allocates_bump : text = TEST_ALLOCATOR -> forall s n, exists p s', call_allocate allocate s n = (Ok p, s');
  allocates_burn : text = allocating_burn -> forall s n, exists e s', call_allocate allocate s n = (Err e, s');
}.

(** The predicates: [unreachable] traps, two is two, the burning one runs out
    of fuel. *)
Record decides (text : bytes) (entry : Evaluate) : Prop := {
  decides_trap : text = lit "unreachable" -> forall s args, exists e s', call_evaluate entry s args = (Err e, s');
  decides_two : text = lit "i32.const 2" -> forall s args, exists s', call_evaluate entry s args = (Ok 2%Z, s');
  decides_burn : text = evaluating_burn -> forall s args, exists e s', call_evaluate entry s args = (Err e, s');
}.

(** The module of a guest: a binary of one page of memory which, unless it wants
    an import or a start function, instantiates with the two exports. *)
Record assembled (guest : bytes * bytes * bytes) (module : bytes) : Prop := {
  assembled_bytes : starts_with WASM_HEADER module = true /\ len module <= MAX_PROGRAM_BYTES;
  assembled_payloads : parse_all module = Ok <$> guest_sections guest;
  assembled_runs : snd guest = [] -> exists instance memory allocate entry store,
    instantiated V1 module instance memory allocate entry store /\ data_size store memory = 65536 /\
    allocates (fst (fst guest)) allocate /\ decides (snd (fst guest)) entry;
}.

(** A module without the exports of the second interface. *)
Definition lacks_v2 (module : bytes) : Prop :=
  check_compilation_budget V2 module = Ok tt /\
  exists compiled crypto imports s0 instance s1 store memory e,
    module_new new_evaluator_store module = Ok compiled /\
    add_crypto_imports_v2 new_evaluator_store imports_new = (crypto, imports, s0) /\
    instance_new s0 compiled imports = Ok (instance, s1) /\ bind_crypto crypto s1 instance = Ok store /\
    get_memory instance (lit "memory") = Ok memory /\ get_allocate instance store (lit "sapio_alloc_v2") = Err e.

End Engine.

(* ------------------------------------------------------------------ *)
(** ** Refusals of the evaluator *)

Section Refusals.
  Context {runtime : WasmRuntime} {rt_laws : WasmRuntimeLaws}.
  Context {outpoint_codec : OutPointCodec} {codec_laws : OutPointCodecLaws}.

(** An empty input is not allocated. *)
Lemma allocate_empty allocate name instance memory ranges store :
  allocate_one allocate name instance memory (ranges, store) [] = Ok (ranges ++ [(0, 0)], store).
Proof. reflexivity. Qed.

(** Another one, by an allocator that leaves the store alone. *)
Lemma allocate_constant allocate name instance memory ranges store bs z :
  (forall s n, call_allocate allocate s n = (Ok z, s)) -> 0 < len bs -> data_size store memory = 65536 ->
  allocate_one allocate name instance memory (ranges, store) bs =
    let r := (i32_as_u32 z, i32_as_u32 z + len bs) in
    if 65536 <? snd r then Err "WASM evaluator allocation is outside linear memory"%string
    else if existsb (overlaps r) ranges then Err "WASM evaluator input allocations overlap"%string
    else Ok (ranges ++ [r], store).
Proof.
  intros Ha Hbs Hs. unfold allocate_one. destruct (N.eqb_spec (len bs) 0) as [|_]; [lia|]. rewrite Ha.
  cbn [map_err mbind Result_bind]. by rewrite Hs.
Qed.

(** Both inputs of an inline spend that are not empty. *)
Lemma two_inputs version instance memory allocate entry store ps view :
  run_instance version instance memory allocate entry store [[]; ps; view; []] =
  ('(ranges, store) ← try_fold (allocate_one allocate (fst (export_names version)) instance memory) ([(0, 0)], store) [ps; view];
   let ranges := ranges ++ [(0, 0)] in
   store ← copy_inputs memory store [[]; ps; view; []] ranges;
   let '(result, store) := call_evaluate entry store (call_arguments [[]; ps; view; []] ranges) in
   result ← map_err (execution_error store instance (snd (export_names version))) result;
   if (result =? 0)%Z then Ok false
   else if (result =? 1)%Z then Ok true
   else Err "WASM evaluator must return exactly zero or one"%string).
Proof.
  unfold run_instance, allocate_inputs. cbn [try_fold]. rewrite allocate_empty. cbn [mbind Result_bind Datatypes.app].
  destruct (allocate_one _ _ _ _ ([(0, 0)], store) ps) as [[r1 s1]|e|w]; cbn [mbind Result_bind]; [|done..].
  destruct (allocate_one _ _ _ _ (r1, s1) view) as [[r2 s2]|e|w]; cbn [mbind Result_bind]; [|done..].
  rewrite allocate_empty. done.
Qed.

(** An allocator that always gives the same place in the page: the second region
    overlaps the first or leaves the memory. *)
Lemma constant_allocator_refused version instance memory allocate entry store b view :
  data_size store memory = 65536 -> 0 < len view ->
  (forall s n, call_allocate allocate s n = (Ok 4096%Z, s)) ->
  exists e, run_instance version instance memory allocate entry store [[]; [b]; view; []] = Err e.
Proof.
  intros Hs Hv Ha. rewrite two_inputs. cbn [try_fold]. rewrite (allocate_constant _ _ _ _ _ _ [b] 4096%Z) by done.
  cbn [mbind Result_bind existsb]. change (_ <? _) with false at 1. cbn [mbind Result_bind].
  change (overlaps _ (0, 0) || false) with false. cbn [mbind Result_bind Datatypes.app].
  rewrite (allocate_constant _ _ _ _ _ _ view 4096%Z) by done. cbn zeta. destruct (_ <? _); [by eexists|].
  assert (existsb (overlaps (i32_as_u32 4096, i32_as_u32 4096 + len view))
            [(0, 0); (i32_as_u32 4096, i32_as_u32 4096 + len [b])] = true) as ->; [|by eexists].
  change (i32_as_u32 4096) with 4096. change (len [b]) with 1. cbn [existsb]. unfold overlaps at 2, range_is_empty.
  cbn [fst snd]. rewrite (proj2 (N.ltb_lt 4096 (4096 + len view))) by lia. apply orb_true_r.
Qed.

(** One that points past the memory. *)
Lemma far_allocator_refused version instance memory allocate entry store b view :
  data_size store memory = 65536 -> (forall s n, call_allocate allocate s n = (Ok (-1)%Z, s)) ->
  exists e, run_instance version instance memory allocate entry store [[]; [b]; view; []] = Err e.
Proof.
  intros Hs Ha. rewrite two_inputs. cbn [try_fold]. rewrite (allocate_constant _ _ _ _ _ _ [b] (-1)%Z) by done. by eexists.
Qed.

Lemma failing_allocator_refused version instance memory allocate entry store b view :
  (forall s n, exists e s', call_allocate allocate s n = (Err e, s')) ->
  exists e, run_instance version instance memory allocate entry store [[]; [b]; view; []] = Err e.
Proof.
  intros Ha. rewrite two_inputs. cbn [try_fold]. destruct (Ha store (as_i32 (len [b]))) as (e & s' & Hc).
  assert (allocate_one allocate (fst (export_names version)) instance memory ([(0, 0)], store) [b]
    = Err (execution_error s' instance (fst (export_names version)) e)) as -> by (unfold allocate_one; by rewrite Hc).
  by eexists.
Qed.

(** A guest that allocates and then traps, or answers neither zero nor one. *)
Lemma bad_answer_refused version instance memory allocate entry store inputs :
  (forall s n, exists p s', call_allocate allocate s n = (Ok p, s')) ->
  (forall s args, exists r s', call_evaluate entry s args = (r, s') /\ ((exists e, r = Err e) \/ r = Ok 2%Z)) ->
  exists e, run_instance version instance memory allocate entry store inputs = Err e.
Proof.
  intros Ha He. unfold run_instance.
  pose proof (fun w => allocate_no_panic allocate (fst (export_names version)) instance memory store inputs w) as Hnp.
  destruct (allocate_inputs _ _ _ _ _ _) as [[ranges s]|e|w] eqn:Halloc; [|by eexists|].
  - destruct (inputs_delivered _ _ _ _ _ _ _ _ Halloc) as (s' & Hcopy & _). cbn [mbind Result_bind]. rewrite Hcopy.
    cbn [mbind Result_bind]. destruct (He s' (call_arguments inputs ranges)) as (r & s'' & -> & [[e ->]| ->]); by eexists.
  - exfalso. apply (Hnp w); [|done]. intros s0 n. by destruct (Ha s0 n) as (p & s' & ->).
Qed.

(** An instance that is refused makes the evaluation fail. *)
Lemma instance_refused module input instance memory allocate entry store :
  starts_with WASM_HEADER module = true -> len module <= MAX_PROGRAM_BYTES ->
  check_compilation_budget V1 module = Ok tt ->
  instantiated V1 module instance memory allocate entry store ->
  native_context input -> view_size V1 input <= MAX_SIGNED_VIEW_BYTES ->
  (forall view, 0 < len view -> exists e,
     run_instance V1 instance memory allocate entry store [[]; [Byte.x07]; view; []] = Err e) ->
  exists e, Evaluator.evaluate V1 module [] [Byte.x07] input [] = Err e.
Proof.
  intros Hh Hl Hb Hi Hn Hs Hrun. rewrite (evaluate_instantiated V1 module [] [Byte.x07] (view_layout V1 input)
    input [] instance memory allocate entry store); [|unfold check_module_bytes|done..| |done].
  - apply Hrun. rewrite (len_view_layout _ _ Hn). unfold view_size. lia.
  - rewrite (proj2 (N.ltb_ge _ _) Hl), Hh. done.
  - rewrite encode_view_fits by done. by rewrite (proj2 (N.leb_le _ _) Hs).
Qed.

(** Each guest of the test is refused. *)
Lemma guest_refused guest module input :
  guest ∈ unsafe_guests ++ burning_guests -> assembled guest module ->
  native_context input -> view_size V1 input <= MAX_SIGNED_VIEW_BYTES ->
  exists e, Evaluator.evaluate V1 module [] [Byte.x07] input [] = Err e.
Proof.
  intros Hg [[Hh Hl] Hp Hruns] Hn Hs.
  assert (forall e, check_compilation_budget V1 module = Err e ->
    exists e, Evaluator.evaluate V1 module [] [Byte.x07] input [] = Err e) as Hstatic.
  { intros e Hb. exists e. unfold Evaluator.evaluate, check_module_bytes. rewrite (proj2 (N.ltb_ge _ _) Hl), Hh.
    cbn [negb mbind Result_bind]. by rewrite Hb. }
  assert (check_compilation_budget V1 module = _ ← try_fold (check_payload V1) ([], 0) (Ok <$> guest_sections guest); Ok tt)
    as Hbudget by (unfold check_compilation_budget; by rewrite Hp).
  unfold unsafe_guests, burning_guests in Hg. cbn [Datatypes.app] in Hg.
  repeat (apply elem_of_cons in Hg as [->|Hg]); [..|by inversion Hg].
  5,6: eapply Hstatic; rewrite Hbudget; vm_compute; reflexivity.
  all: destruct (Hruns eq_refl) as (instance & memory & allocate & entry & store & Hi & Hsize & Ha & He).
  all: assert (check_compilation_budget V1 module = Ok tt) as Hok by (rewrite Hbudget; vm_compute; reflexivity).
  all: apply (instance_refused module input instance memory allocate entry store Hh Hl Hok Hi Hn Hs); intros view Hv.
  - apply constant_allocator_refused; [done|done|]. by apply (allocates_4096 _ _ Ha).
  - apply far_allocator_refused; [done|]. by apply (allocates_minus _ _ Ha).
  - apply bad_answer_refused; [by apply (allocates_bump _ _ Ha)|]. intros s args.
    destruct (decides_trap _ _ He eq_refl s args) as (e & s' & H). exists (Err e), s'. split; [done|]. left. by exists e.
  - apply bad_answer_refused; [by apply (allocates_bump _ _ Ha)|]. intros s args.
    destruct (decides_two _ _ He eq_refl s args) as (s' & H). exists (Ok 2%Z), s'. split; [done|]. by right.
  - apply bad_answer_refused; [by apply (allocates_bump _ _ Ha)|]. intros s args.
    destruct (decides_burn _ _ He eq_refl s args) as (e & s' & H). exists (Err e), s'. split; [done|]. left. by exists e.
  - apply failing_allocator_refused. by apply (allocates_burn _ _ Ha).
Qed.

(** A guest of the first interface is no guest of the second. *)
Lemma v2_refused module ps input :
  check_module_bytes module = Ok tt -> lacks_v2 module -> len ps <= MAX_PARAMETER_BYTES -> native_context input ->
  exists e, Evaluator.evaluate V2 module [] ps input [] = Err e.
Proof.
  intros Hm (Hb & compiled & crypto & imports & s0 & instance & s1 & store & memory & e & Hnew & Himp & Hi & Hbind & Hmem & Hal) Hps Hn.
  unfold Evaluator.evaluate. rewrite Hm. cbn [mbind Result_bind]. rewrite Hb. cbn [mbind Result_bind].
  change (MAX_PROGRAM_BYTES <? len []) with false. change (MAX_WITNESS_BYTES <? len []) with false.
  rewrite (proj2 (N.ltb_ge _ _) Hps). cbn [orb negb ensure mbind Result_bind]. rewrite encode_view_fits by done.
  destruct (_ <=? _); cbn [mbind Result_bind]; [|by eexists]. rewrite Hnew. cbn [mbind Result_bind]. rewrite Himp, Hi.
  cbn [mbind Result_bind]. rewrite Hbind. cbn [mbind Result_bind]. rewrite Hmem. cbn [mbind Result_bind export_names].
  rewrite Hal. by eexists.
Qed.

End Refusals.

(* ------------------------------------------------------------------ *)
(** ** The tests *)

Section Bench.
  Context {runtime : WasmRuntime} {rt_laws : WasmRuntimeLaws}.
  Context {outpoint_codec : OutPointCodec} {codec_laws : OutPointCodecLaws} {auth : NativeAuth}.
  Context {sapio : SapioProgram} {sapio_laws : SapioProgramLaws}.
  Context {prim : KeyPrimitives} {upstream : Upstream} {ark : ArkLib} {requests : ArkRequests}.
  Context {codec : PolicyCodec VtxoPolicy} {musig : NestedMusig} {musig_laws : NestedMusigLaws}.
  Context {ownership : OwnershipLib} {fixtures : FixtureLib} {fixture_laws : FixtureLaws} {demo : OracleDemoLib}.
  Context (arena_base : N) (sections : list Payload).

Let predicate := templatehash_evaluate (fun bs => Some (sha256 bs)).

(** The spends of the two tests. *)
Inductive subject : Fixture -> Prop :=
| subject_guest guest f : guest ∈ unsafe_guests ++ burning_guests -> guest_fixture guest = Ok f -> subject f
| subject_payment f : payment_fixture = Ok f -> subject f
| subject_unknown f : unknown_fixture = Ok f -> subject f
| subject_unsupported f : unsupported_fixture = Ok f -> subject f
| subject_template f : Fixture_template false = Ok f -> subject f.

(** A world where the Ark library builds and authenticates those spends, the
    assembler and the engine treat each guest as its text says, the hash of
    the uninstalled evaluator is nobody's id, the template guest has the v1
    exports alone, and the engine runs it as the guest of [GuestRuntime]. *)
Record evaluator_bench (world : World) (root_ : Xpriv) (self : ArkSigner) : Prop := {
  ev_world : healthy world;
  ev_root : new_master Regtest (replicate 32 Byte.x41) = Ok root_;
  ev_signer : ArkSigner_new root_ = Ok self;
  ev_assembles guest : guest ∈ unsafe_guests ++ burning_guests -> exists module,
    wat_parse_str (guest_text V1 (fst (fst guest)) (snd (fst guest)) (snd guest)) = Ok module /\ assembled guest module;
  ev_guests guest : guest ∈ unsafe_guests ++ burning_guests -> exists f, guest_fixture guest = Ok f;
  ev_payment : exists f, payment_fixture = Ok f;
  ev_unknown : exists f, unknown_fixture = Ok f;
  ev_unsupported : exists f, unsupported_fixture = Ok f;
  ev_template : exists f, Fixture_template false = Ok f;
  ev_presents f : subject f -> exists action program intent, presentable self f action program intent;
  ev_uninstalled : inline_wasm_version unknown_evaluator = None /\
    unknown_evaluator ∉ evaluator_id <$> signer_evaluators self;
  ev_v1_only : lacks_v2 TEMPLATEHASH;
  ev_commitment tx : transaction = Ok tx -> strip_prefix MAGIC (Fixtures.template_hash tx 0) = None;
  ev_runs f : Fixture_template false = Ok f ->
    DIGEST + view_size V1 (fixture_input f) + scratch_size (fixture_input f) <= INPUT_CAPACITY /\
    Evaluator.evaluate V1 TEMPLATEHASH [] (key_parameters (fixture_key f)) (fixture_input f) [] =
    Evaluator.evaluate (runtime := guest_runtime arena_base sections predicate) V1 TEMPLATEHASH []
      (key_parameters (fixture_key f)) (fixture_input f) [];
}.

Hypothesis Hlinked : linked arena_base sections predicate TEMPLATEHASH.
Hypothesis Hsha : forall x, len (sha256 x) = DIGEST.
Context (world : World) (root_ : Xpriv) (self : ArkSigner).
Hypothesis Hb : evaluator_bench world root_ self.

Lemma bench_signer_available : available self.
Proof. by eapply available_new, ev_signer. Qed.

(** A program as its fixture's key holds it. *)
Lemma built_instance program_ tx claim f : Fixture_new program_ tx claim = Ok f ->
  key_instance f = {| evaluator := program_evaluator program_; program := program_module program_;
                      parameters := program_parameters program_ |} /\ fixture_witness f = [].
Proof.
  intros (tx' & funding & others & H)%Fixture_new_built. split; [|apply H].
  unfold key_instance. by rewrite (built_evaluator _ _ _ _ _ _ H), (built_module _ _ _ _ _ _ H), (built_parameters _ _ _ _ _ _ H).
Qed.

Lemma new_program_parts e m ps program_ : new_program e m ps = Ok program_ ->
  program_evaluator program_ = e /\ program_module program_ = m /\ program_parameters program_ = ps.
Proof. unfold new_program. intros H. apply bind_ok in H as (id & _ & H). by apply Ok_inj in H as <-. Qed.

(** The verdict on a spend whose parameters are no policy envelope. *)
Lemma subject_verdict f verdict :
  subject f -> NativePolicy.parse (key_parameters (fixture_key f)) = Ok None ->
  (forall message, authenticated (fixture_input f) message -> native_context (fixture_input f) ->
     view_size V1 (fixture_input f) <= MAX_SIGNED_VIEW_BYTES ->
     authorize (signer_evaluators self) (key_instance f) (fixture_input f) (fixture_witness f) message = verdict) ->
  verdict_of self f verdict.
Proof.
  intros Hs Hp Ha. destruct (ev_presents _ _ _ Hb _ Hs) as (action & program & intent & H).
  pose proof (presented_program _ _ _ _ _ H) as ->. exists action, (key_instance f), intent.
  split; [exact H|]. split; [exact Hp|]. apply Ha; apply H.
Qed.

Lemma guest_verdict guest f : guest ∈ unsafe_guests ++ burning_guests -> guest_fixture guest = Ok f ->
  exists why, verdict_of self f (Err (Program (Evaluation why))).
Proof.
  intros Hg Hf. destruct (ev_assembles _ _ _ Hb _ Hg) as (module & Hwat & Hm).
  pose proof (subject_guest _ _ Hg Hf) as Hs. destruct (ev_presents _ _ _ Hb _ Hs) as (? & ? & ? & Hpres).
  destruct (guest_refused guest module (fixture_input f) Hg Hm (presented_native _ _ _ _ _ Hpres)
              (presented_size _ _ _ _ _ Hpres)) as [why Hwhy].
  destruct guest as [[allocator body] extra]. cbn [guest_fixture fst snd] in *. unfold test_program in Hf.
  rewrite Hwat in Hf. cbn [unwrap_ok mbind Result_bind] in Hf. apply bind_ok in Hf as (program_ & Hp & Hf).
  apply bind_ok in Hf as (tx & _ & Hf). apply built_instance in Hf as [Hkey Hw].
  apply new_program_parts in Hp as (He & Hmod & Hps). rewrite He, Hmod, Hps in Hkey.
  exists why. apply subject_verdict; [exact Hs| |].
  - change (key_parameters (fixture_key f)) with (parameters (key_instance f)). by rewrite Hkey.
  - intros message Hauth _ _. rewrite Hkey, Hw, authorize_inline by done. by rewrite Hwhy.
Qed.

Lemma template_accepted f : Fixture_template false = Ok f -> verdict_of self f (Ok tt).
Proof.
  intros Hf. destruct (ev_runs _ _ _ Hb _ Hf) as [Hcap Hrun]. pose proof (ev_commitment _ _ _ Hb) as Hmagic.
  assert (exists tx, transaction = Ok tx /\
    key_instance f = {| evaluator := wasm_id; program := TEMPLATEHASH; parameters := Fixtures.template_hash tx 0 |} /\
    Fixtures.template_hash tx 0 = hash_of f /\ fixture_witness f = []) as (tx & Htx & Hkey & Hhash & Hw).
  { pose proof Hf as Hbuilt. unfold Fixture_template in Hbuilt. apply bind_ok in Hbuilt as (tx & Htx & Hbuilt).
    apply bind_ok in Hbuilt as (program_ & Hp & Hbuilt). apply new_program_parts in Hp as (He & Hm & Hps).
    exists tx. split; [done|]. destruct (built_instance _ _ _ _ Hbuilt) as [Hkey Hw]. rewrite He, Hm, Hps in Hkey.
    split; [done|]. split; [|done]. apply Fixture_new_built in Hbuilt as (tx' & funding & others & H).
    rewrite template_hash_client. unfold hash_of. rewrite (built_unsigned _ _ _ _ _ _ H), (built_index _ _ _ _ _ _ H).
    destruct (built_tx _ _ _ _ _ _ H) as [point Hedit]. unfold transaction in Htx. apply bind_ok in Htx as (d & _ & Htx).
    apply Ok_inj in Htx as <-. apply Ok_inj in Hedit as <-. reflexivity. }
  assert (key_parameters (fixture_key f) = Fixtures.template_hash tx 0) as Hps by exact (f_equal parameters Hkey).
  apply subject_verdict; [by apply subject_template| |].
  - rewrite Hps. unfold NativePolicy.parse. by rewrite (Hmagic _ Htx).
  - intros message Hauth Hn Hsize. rewrite Hkey, Hw, authorize_inline by done. rewrite <- Hps, Hrun, Hps.
    rewrite <- (authorize_inline (runtime := guest_runtime arena_base sections predicate) TEMPLATEHASH _ [] _ _ message) by done.
    etransitivity; [apply (authorize_template arena_base sections TEMPLATEHASH sha256 (Fixtures.template_hash tx 0)
      [] (fixture_input f) message Hlinked); try done; apply Hsha|].
    by rewrite bool_decide_eq_true_2 by by rewrite Hhash.
Qed.

(** A program under an evaluator the registry does not have. *)
Lemma unknown_refused registry program_ input witness message :
  authenticated input message -> inline_wasm_version (evaluator program_) = None ->
  evaluator program_ ∉ evaluator_id <$> registry ->
  authorize registry program_ input witness message = Err (Program (UnknownEvaluator (evaluator program_))).
Proof.
  intros (Hp & Hh & metadata & Hmd & Hf1 & Hf2 & Ha) Hi Hr. by eapply authorize_unknown_evaluator.
Qed.

Lemma unavailable_verdict f : payment_fixture = Ok f ->
  exists id, verdict_of (clear_evaluators self) f (Err (Program (UnknownEvaluator id))).
Proof.
  intros Hf. pose proof Hf as Hbuilt. unfold payment_fixture in Hbuilt. apply bind_ok in Hbuilt as (program_ & Hp & Hbuilt).
  apply bind_ok in Hbuilt as (tx & _ & Hbuilt). apply bind_ok in Hbuilt as (f0 & Hbuilt & E). apply Ok_inj in E as <-.
  apply built_instance in Hbuilt as [Hkey _]. unfold payment_program, OwnershipTests.payment_parameters in Hp.
  apply bind_ok in Hp as (ps & Hps & Hp). apply fmap_ok in Hps as (d & _ & <-) || (apply bind_ok in Hps as (d & _ & Hps); apply Ok_inj in Hps as <-).
  apply new_program_parts in Hp as (He & Hm & Hpar). rewrite He, Hm, Hpar in Hkey.
  destruct (ev_presents _ _ _ Hb _ (subject_payment _ Hf)) as (action & program & intent & H).
  pose proof (presented_program _ _ _ _ _ H) as Hprog.
  match type of H with presentable _ ?f _ _ _ => change (key_instance f) with (key_instance f0) in Hprog end.
  rewrite Hkey in Hprog. eexists. exists action, program, intent. split; [|split].
  - destruct H as [H1 [] H3 H4 H5 H6]. split; [exact H1|split; done|exact H3|exact H4|exact H5|exact H6].
  - by rewrite Hprog.
  - apply unknown_refused; [apply H|rewrite Hprog; apply registered_id_not_inline|]. cbn. by intros ?%not_elem_of_nil.
Qed.

Lemma unknown_verdict f : unknown_fixture = Ok f ->
  verdict_of self f (Err (Program (UnknownEvaluator unknown_evaluator))).
Proof.
  intros Hf. pose proof Hf as Hbuilt. unfold unknown_fixture in Hbuilt. apply bind_ok in Hbuilt as (program_ & Hp & Hbuilt).
  apply bind_ok in Hbuilt as (tx & _ & Hbuilt). apply built_instance in Hbuilt as [Hkey Hw].
  apply new_program_parts in Hp as (He & Hm & Hps). rewrite He, Hm, Hps in Hkey.
  apply subject_verdict; [by apply subject_unknown| |].
  - by rewrite (f_equal parameters Hkey : key_parameters (fixture_key f) = []).
  - intros message Hauth _ _. rewrite Hkey. destruct (ev_uninstalled _ _ _ Hb) as [Hi Hr].
    by rewrite unknown_refused.
Qed.

Lemma unsupported_verdict f : unsupported_fixture = Ok f ->
  exists why, verdict_of self f (Err (Program (Evaluation why))).
Proof.
  intros Hf. pose proof Hf as Hbuilt. unfold unsupported_fixture in Hbuilt. apply bind_ok in Hbuilt as (tx & Htx & Hbuilt).
  apply bind_ok in Hbuilt as (program_ & Hp & Hbuilt). rewrite Htx in Hbuilt. cbn [mbind Result_bind] in Hbuilt.
  apply built_instance in Hbuilt as [Hkey Hw]. apply new_program_parts in Hp as (He & Hm & Hps). rewrite He, Hm, Hps in Hkey.
  pose proof (subject_unsupported _ Hf) as Hs. destruct (ev_presents _ _ _ Hb _ Hs) as (? & ? & ? & Hpres).
  destruct (v2_refused TEMPLATEHASH (Fixtures.template_hash tx 0) (fixture_input f)) as [why Hwhy];
    [apply Hlinked|apply (ev_v1_only _ _ _ Hb)|unfold Fixtures.template_hash; rewrite Hsha; by vm_compute|apply Hpres|].
  exists why. apply subject_verdict; [exact Hs| |].
  - rewrite (f_equal parameters Hkey : key_parameters (fixture_key f) = _). unfold NativePolicy.parse. cbn [parameters].
    by rewrite (ev_commitment _ _ _ Hb _ Htx).
  - intros message Hauth _ _. rewrite Hkey, Hw. rewrite (authorize_inline_version _ V2) by (apply Program.inline_v2 || done). by rewrite Hwhy.
Qed.

(** The guests of a list are refused one after the other. *)
Lemma wp_guests l p t (Q : list unit -> TestState -> Prop) :
  Forall (fun guest => guest ∈ unsafe_guests ++ burning_guests) l ->
  (forall ys t', Q ys (at_ self p t')) ->
  wp (mapM (fun guest => fixture ← lift (guest_fixture guest); evaluation_refused world fixture) l) Q (at_ self p t).
Proof.
  intros Hl. revert t Q; induction Hl as [|guest l Hg _ IH]; intros t Q HQ; cbn [mapM]; [apply wp_ret, HQ|].
  destruct (ev_guests _ _ _ Hb _ Hg) as [f Hf]. destruct (guest_verdict _ _ Hg Hf) as [why Hv].
  apply wp_bind, wp_bind. eapply wp_lift; [exact Hf|].
  eapply (wp_invalid_evaluation world self (ev_world _ _ _ Hb) bench_signer_available); [exact Hv|].
  apply wp_bind, IH. intros ys t'. apply wp_ret, HQ.
Qed.

(** The signer still signs. *)
Lemma wp_still_signs t (Q : unit -> TestState -> Prop) :
  (forall st, Q tt st) ->
  wp (fixture ← lift (Fixture_template false); Fixture_sign world fixture;; mret tt) Q (at_ self ∅ t).
Proof.
  intros HQ. destruct (ev_template _ _ _ Hb) as [f Hf]. apply wp_bind. eapply wp_lift; [exact Hf|].
  eapply wp_bind, (wp_accepted world self (ev_world _ _ _ Hb) bench_signer_available); [by apply template_accepted|].
  intros _. by apply wp_ret.
Qed.

Lemma unsafe_guests_pass : passes (private_adapter_rejects_unsafe_guests_without_exposing_a_nonce world).
Proof.
  apply wp_passes. intros st. eapply wp_bind, wp_new_test_signer; [apply Hb|apply Hb|].
  apply wp_bind, wp_guests. { apply list.Forall_forall. intros x Hx. apply elem_of_app. by left. } intros _ t.
  apply wp_bind, wp_guests. { apply list.Forall_forall. intros x Hx. apply elem_of_app. by right. } intros _ t'.
  by apply wp_still_signs.
Qed.

Lemma unknown_evaluators_pass : passes (unavailable_and_unsupported_evaluators_fail_before_nonce world).
Proof.
  apply wp_passes. intros st. eapply wp_bind, wp_new_test_signer; [apply Hb|apply Hb|].
  apply wp_bind, wp_read, wp_bind. pose proof bench_signer_available as Hav.
  destruct (ev_payment _ _ _ Hb) as [payment Hpay]. destruct (unavailable_verdict _ Hpay) as [id Hv].
  change (wp (use_signer _) ?Q _) with (Q tt (at_ (clear_evaluators self) ∅ (tick st))). cbn beta.
  apply wp_bind. eapply wp_lift; [exact Hpay|].
  eapply (wp_verdict_refused world (clear_evaluators self) (ev_world _ _ _ Hb) Hav); [exact Hv|].
  apply wp_bind, wp_assert; [done|]. eapply wp_bind, wp_new_test_signer; [apply Hb|apply Hb|].
  destruct (ev_unknown _ _ _ Hb) as [unknown Hunknown]. apply wp_bind. eapply wp_lift; [exact Hunknown|].
  eapply (wp_verdict_refused world self (ev_world _ _ _ Hb) Hav); [by apply unknown_verdict|].
  apply wp_bind, wp_assert; [done|].
  destruct (ev_unsupported _ _ _ Hb) as [unsupported Hun]. destruct (unsupported_verdict _ Hun) as [why Hw].
  apply wp_bind. eapply wp_lift; [exact Hun|].
  eapply wp_bind, (wp_invalid_evaluation world self (ev_world _ _ _ Hb) Hav); [exact Hw|].
  by apply wp_still_signs.
Qed.

End Bench.

(* ------------------------------------------------------------------ *)
(** ** Properties *)

Section Theorems.
  Context {runtime : WasmRuntime} {rt_laws : WasmRuntimeLaws}.
  Context {outpoint_codec : OutPointCodec} {codec_laws : OutPointCodecLaws} {auth : NativeAuth}.
  Context {sapio : SapioProgram} {sapio_laws : SapioProgramLaws}.
  Context {prim : KeyPrimitives} {upstream : Upstream} {ark : ArkLib} {requests : ArkRequests}.
  Context {codec : PolicyCodec VtxoPolicy} {musig : NestedMusig} {musig_laws : NestedMusigLaws}.
  Context {ownership : OwnershipLib} {fixtures : FixtureLib} {fixture_laws : FixtureLaws} {demo : OracleDemoLib}.

(** C20: evaluators fail closed: a program whose evaluator is not installed,
    the bytes of a v1 guest under the v2 id, and eight guests that hand out
    overlapping or outside regions, trap, answer two, want a start function or
    an import of their own, or burn their fuel in either call are each refused
    with the error of their cause before a nonce is drawn, on any engine that
    treats the texts as WebAssembly does, and the signer then still signs. *)
Theorem evaluator_tests_pass arena_base sections world root_ self :
  linked arena_base sections (templatehash_evaluate (fun bs => Some (sha256 bs))) TEMPLATEHASH ->
  (forall x, len (sha256 x) = DIGEST) -> evaluator_bench arena_base sections world root_ self ->
  passes (unavailable_and_unsupported_evaluators_fail_before_nonce world) /\
  passes (private_adapter_rejects_unsafe_guests_without_exposing_a_nonce world).
Proof.
  intros Hl Hsha Hb. split; [by eapply unknown_evaluators_pass|by eapply unsafe_guests_pass].
Qed.

End Theorems.
