(* ===== verification/PredicateExamples.v ===== *)
(** * PredicateExamples: the predicate tests on a concrete scheme

    Signing inputs with one map per input on the scheme of [OwnershipExamples],
    where the hypotheses of the theorems of [PredicateTests] hold, and the
    tests run. *)

From S2P Require Import Prelude Bytes NativePolicy Bitcoin Program SignedView Guest Vault TemplateHash Evaluator.
From S2P Require Import GuestRuntime EndToEnd Keys Deployment ArkSigner ArkExamples Scenario SigningProtocol SignerTests.
From S2P Require Import OwnershipTests ProtocolExamples OwnershipExamples Client Driver Wallet Fixtures PredicateTests.

Open Scope N_scope.

Import SampleMusig SampleOwnership.

Module SampleFixtures.

(** Each map supplies its output, the first also the group's internal key. *)
Definition sample_map (o : TxOut) : PsbtInput :=
  set_internal_key (set_witness_utxo PsbtInput_default (Some o)) (Some (replicate 32 Byte.x07)).

#[export] Instance fixtures : FixtureLib := {|
  VAULT := SampleHost.module;
  Tree := bytes;
  taproot user server delta := user;
  tree_output_key tree := tree;
  Fixtures.new_p2tr_tweaked k := [Byte.x51; Byte.x20] ++ firstn 32 (k ++ replicate 32 Byte.x00);
  transaction_id tx := firstn 32 (SampleKeys.checksum (concat (serialize_output <$> tx_output tx)));
  key_spend tx i prevouts tree members :=
    Ok {| psbt := {| unsigned_tx := tx; psbt_inputs := sample_map <$> prevouts;
                     psbt_outputs := replicate (length (tx_output tx)) PsbtOutput_default |};
          input_index := i; script_leaf := None; participants := []; tweak := None |};
  claim_tapscript user delta := lit "claim";
  tapleaf_hash script := script;
|}.

#[export] Instance fixture_laws : FixtureLaws.
Proof.
  split.
  - intros k. cbn [OwnershipTests.new_p2tr ownership]. unfold len.
    rewrite length_app, length_firstn, length_app, length_replicate, Nat.min_l by lia. done.
  - intros tx i prevouts tree members input H. apply Ok_inj in H as <-. cbn.
    rewrite <- list_fmap_compose, length_replicate. done.
Qed.

End SampleFixtures.

Import SampleFixtures.

#[local] Instance template_runtime : WasmRuntime :=
  guest_runtime 65536 SampleHost.sections (templatehash_evaluate (fun bs => Some (SampleKeys.checksum bs))).

Example sweep_runs :
  fst (generic_sweep_enforces_fee_and_single_complete_destination (runtime := SampleHost.runtime) world start) = Ok tt.
Proof. vm_compute. reflexivity. Qed.

(* ------------------------------------------------------------------ *)
(** ** The hypotheses hold *)

(** The intent of a fixture's spend. *)
Definition intent_of (f : Fixture) : Intent :=
  ((user_pubkey (fixture_key f), snd (key_root (fixture_key f))), lit "message", keypair_public <$> fixture_server f).

(** Any spend of the test's wallet with well-formed maps is presentable. *)
Definition shown (f : Fixture) : bool :=
  bool_decide (key_root (fixture_key f) = root_) && bool_decide (user_pubkey (fixture_key f) = user)
  && bool_decide (key_program_id (fixture_key f) = program_id (key_instance f))
  && bool_decide (participants (fixture_input f) = outer_participants (intent_of f))
  && bool_decide (is_ok (signature_hash f) = true /\ is_ok (verification_key f) = true)
  && (view_size V1 (fixture_input f) <=? MAX_SIGNED_VIEW_BYTES).

Lemma shown_presentable f :
  shown f = true -> native_context (fixture_input f) ->
  (exists m, psbt_inputs (psbt (fixture_input f)) !! N.to_nat (input_index (fixture_input f)) = Some m /\
    final_script_sig m = None /\ final_script_witness m = None) ->
  presentable signer f (Spend (fixture_input f, keypair_public <$> fixture_server f, fixture_witness f)) (key_instance f) (intent_of f).
Proof.
  unfold shown. rewrite !andb_true_iff, !bool_decide_eq_true, N.leb_le.
  intros (((((Hr & Hu) & Hid) & Hp) & Hh & Hk) & Hsize) Hn (m & Hm & Hf1 & Hf2). split; try done.
  - split; try done.
    + exists user. split; [reflexivity|]. by rewrite <- Hu.
    + unfold signature_hash in *. destruct (try_map _ _) as [ps|e|w]; try discriminate Hh. cbn in Hh |- *.
      by destruct (script_leaf _).
    + unfold verification_key in *. destruct (try_map _ _) as [ps|e|w]; try discriminate Hk. cbn in Hk |- *.
      destruct (bool_decide _); [done|]. destruct (expect _ _); try discriminate Hk. cbn in Hk |- *.
      by destruct (_ <? 2).
    + intros s H. cbn in *. by case_bool_decide.
  - intros s [= <-]. done.
  - split; [reflexivity|]. split; [reflexivity|]. exists m. done.
Qed.

(** A decidable form of the native context. *)
Definition txin_check (i : TxIn) : bool :=
  (len (txid (previous_output i)) =? 32) && (vout (previous_output i) <? 2 ^ 32) && (sequence i <? 2 ^ 32)
  && bool_decide (txin_script_sig i = []) && bool_decide (txin_witness i = []).

Definition txout_check (o : TxOut) : bool := (value o <? 2 ^ 64) && (len (script_pubkey o) <? 2 ^ 32).

Definition map_check (m : PsbtInput) : bool :=
  match tap_internal_key m, witness_utxo m with
  | Some k, Some o => (len k =? 32) && txout_check o
  | _, _ => false
  end && bool_decide (final_script_sig m = None) && bool_decide (final_script_witness m = None).

Definition native_check (i : SigningInput) : bool :=
  let tx := unsigned_tx (psbt i) in
  bool_decide (length (psbt_inputs (psbt i)) = length (tx_input tx))
  && (input_index i <? len (tx_input tx))
  && ((- 2 ^ 31 <=? tx_version tx) && (tx_version tx <? 2 ^ 31))%Z && (lock_time tx <? 2 ^ 32)
  && forallb txin_check (tx_input tx) && forallb txout_check (tx_output tx) && forallb map_check (psbt_inputs (psbt i)).

Lemma forallb_Forall {A} (f : A -> bool) l : forallb f l = true -> Forall (fun x => f x = true) l.
Proof. intros H. rewrite forallb_forall in H. apply list.Forall_forall. intros x Hx. by apply H, list_elem_of_In. Qed.

Lemma native_check_sound i : native_check i = true -> native_context i /\ Forall (fun m => map_check m = true) (psbt_inputs (psbt i)).
Proof.
  unfold native_check. rewrite !andb_true_iff, bool_decide_eq_true, !N.ltb_lt, Z.leb_le, Z.ltb_lt.
  intros ((((((H1 & H2) & H3) & H4) & Hins%forallb_Forall) & Houts%forallb_Forall) & Hmaps%forallb_Forall).
  split; [|done]. split; [done| |done| | | |].
  - eapply list.Forall_impl; [exact Hmaps|]. intros m Hm. unfold map_check in Hm.
    destruct (tap_internal_key m), (witness_utxo m); try discriminate Hm. by eexists.
  - split; [done|done| |].
    + eapply list.Forall_impl; [exact Hins|]. intros x Hx. unfold txin_check in Hx.
      rewrite !andb_true_iff, N.eqb_eq, !N.ltb_lt in Hx. by destruct Hx as ((((? & ?) & ?) & _) & _).
    + eapply list.Forall_impl; [exact Houts|]. intros o Ho. unfold txout_check in Ho.
      by rewrite !andb_true_iff, !N.ltb_lt in Ho.
  - eapply list.Forall_impl; [exact Hins|]. intros x Hx. unfold txin_check in Hx.
    rewrite !andb_true_iff, !bool_decide_eq_true in Hx. by destruct Hx as ((_ & ?) & ?).
  - unfold prevout_list. clear H1. induction Hmaps as [|m maps Hm _ IH]; cbn; [constructor|]. unfold map_check in Hm.
    destruct (tap_internal_key m), (witness_utxo m) as [o|]; try discriminate Hm.
    constructor; [|exact IH]. rewrite !andb_true_iff in Hm. destruct Hm as (((_ & Ho) & _) & _).
    unfold txout_check in Ho. by rewrite !andb_true_iff, !N.ltb_lt in Ho.
  - intros m Hm. rewrite list.Forall_forall in Hmaps. specialize (Hmaps m (list_elem_of_lookup_2 _ _ _ Hm)).
    unfold map_check in Hmaps. destruct (tap_internal_key m) as [k|]; [|discriminate Hmaps].
    exists k. split; [done|]. destruct (witness_utxo m); [|discriminate Hmaps].
    rewrite !andb_true_iff, N.eqb_eq in Hmaps. tauto.
Qed.

(** One check for all of them. *)
Definition good (f : Fixture) : bool := shown f && native_check (fixture_input f).

Lemma good_presentable f : good f = true -> exists action program intent, presentable signer f action program intent.
Proof.
  unfold good. rewrite andb_true_iff. intros [Hs [Hn Hmaps]%native_check_sound]. do 3 eexists. apply shown_presentable; [done..|].
  pose proof (native_index _ Hn) as Hi. rewrite <- (native_inputs _ Hn) in Hi || (unfold len in Hi; rewrite <- (native_inputs _ Hn) in Hi).
  destruct (lookup_lt_is_Some_2 (psbt_inputs (psbt (fixture_input f))) (N.to_nat (input_index (fixture_input f)))) as [m Hm]; [lia|].
  exists m. split; [done|]. rewrite list.Forall_forall in Hmaps. specialize (Hmaps m (list_elem_of_lookup_2 _ _ _ Hm)).
  unfold map_check in Hmaps. rewrite !andb_true_iff, !bool_decide_eq_true in Hmaps. tauto.
Qed.

(** A check of everything a computation can return. *)
Definition checks {A} (r : Result Error A) (p : A -> bool) : bool := match r with Ok a => p a | _ => false end.

Lemma checks_ok {A} (r : Result Error A) p a : checks r p = true -> r = Ok a -> p a = true.
Proof. by intros H ->. Qed.

Lemma checks_some {A} (r : Result Error A) p : checks r p = true -> exists a, r = Ok a.
Proof. destruct r; [by eexists|discriminate..]. Qed.

Lemma forallb_in {A} (f : A -> bool) l x : forallb f l = true -> x ∈ l -> f x = true.
Proof. intros H Hx. rewrite forallb_forall in H. by apply H, list_elem_of_In. Qed.

Lemma sweep_checked :
  checks sweep_fixture (fun original => forallb (fun mutate =>
    checks (edit_fixture original mutate) (fun f => good (resize_outputs f))) sweep_variants) = true.
Proof. vm_compute. reflexivity. Qed.

Lemma sample_sweep : sweep_bench world root_ signer.
Proof.
  split; [exact world_healthy|reflexivity|reflexivity|eapply checks_some, sweep_checked| |].
  - intros original mutate f Ho Hm Hf. apply good_presentable.
    eapply (checks_ok (edit_fixture original mutate) (fun f => good (resize_outputs f))); [|exact Hf].
    exact (forallb_in _ _ _ (checks_ok _ _ _ sweep_checked Ho) Hm).
  - eexists. split; [reflexivity|]. vm_compute. discriminate.
Qed.

(** No two different strings of the pairs hash alike. *)
Definition separated (pairs : list (bytes * bytes)) : bool :=
  forallb (fun '(x, y) => bool_decide (x = y) || negb (bool_decide (SampleKeys.checksum x = SampleKeys.checksum y))) pairs.

Lemma separated_sound pairs : separated pairs = true -> ~ collision_among SampleKeys.checksum pairs.
Proof.
  intros H (x & y & Hin & Hne & E). pose proof (forallb_in _ _ _ H Hin) as Hp. cbn in Hp.
  rewrite orb_true_iff, negb_true_iff, bool_decide_eq_true, bool_decide_eq_false in Hp. tauto.
Qed.

Definition wide_good (original f : Fixture) : bool :=
  good f && (DIGEST + view_size V1 (fixture_input f) + scratch_size (fixture_input f) <=? INPUT_CAPACITY)
  && bool_decide (strip_prefix MAGIC (key_parameters (fixture_key f)) = None) && separated (preimages_of f original).

Lemma wide_checked :
  checks wide_fixture (fun original =>
    forallb (fun mutate => checks (edit_fixture original mutate) (wide_good original)) wide_variants
    && checks (at_other_index original) (wide_good original) && checks (wrong_commitment original) (wide_good original)) = true.
Proof. vm_compute. reflexivity. Qed.

Lemma wide_variant_good original f : wide_fixture = Ok original -> wide_variant original f -> wide_good original f = true.
Proof.
  intros Ho Hv. pose proof (checks_ok _ _ _ wide_checked Ho) as H. cbn beta in H. rewrite !andb_true_iff in H.
  destruct H as [[H1 H2] H3], Hv as [mutate f Hm Hf|f Hf|f Hf];
    [|exact (checks_ok _ _ _ H2 Hf)|exact (checks_ok _ _ _ H3 Hf)].
  exact (checks_ok _ _ _ (forallb_in _ _ _ H1 Hm) Hf).
Qed.

Lemma sample_wide : wide_bench world root_ signer.
Proof.
  split; [exact world_healthy|reflexivity|reflexivity|eapply checks_some, wide_checked| | | |].
  - intros original Ho. pose proof (checks_ok _ _ _ wide_checked Ho) as H. cbn beta in H. rewrite !andb_true_iff in H.
    destruct H as [_ H]. by eapply checks_some.
  - intros original f Ho Hv. pose proof (wide_variant_good _ _ Ho Hv) as H. unfold wide_good in H.
    rewrite !andb_true_iff, N.leb_le, bool_decide_eq_true in H. destruct H as [[[H1 H2] H3] _].
    split; [by apply good_presentable|done].
  - intros original f Ho Hv. pose proof (wide_variant_good _ _ Ho Hv) as H. unfold wide_good in H.
    rewrite !andb_true_iff in H. destruct H as [_ H]. by apply separated_sound.
  - eexists. split; [reflexivity|]. vm_compute. discriminate.
Qed.

(* ------------------------------------------------------------------ *)
(** ** Witnesses *)

Lemma sample_linked predicate : linked 65536 SampleHost.sections predicate SampleHost.module.
Proof. repeat split; vm_compute; congruence. Qed.

Lemma generic_sweep_passes_witness : exists st,
  generic_sweep_enforces_fee_and_single_complete_destination
    (runtime := guest_runtime 65536 SampleHost.sections (fun _ => vault_evaluate)) world start = (Ok tt, st).
Proof.
  exact (generic_sweep_passes 65536 SampleHost.sections world root_ signer (sample_linked _) sample_sweep start).
Defined.

Lemma templatehash_rejects_passes_witness : exists st,
  templatehash_rejects_every_committed_transaction_field_before_nonce (runtime := template_runtime) world start = (Ok tt, st).
Proof.
  exact (templatehash_rejects_passes 65536 SampleHost.sections world root_ signer (sample_linked _)
    SampleKeys.checksum_length sample_wide start).
Defined.
