(* ===== verification/EvaluatorExamples.v ===== *)
(** * EvaluatorExamples: a small engine for the guests of the tests

    An engine that knows the eight guest texts and the template guest, on which
    the hypotheses of [EvaluatorTests] hold and the tests run. *)

From S2P Require Import Prelude Bytes NativePolicy Bitcoin Program SignedView Guest TemplateHash Evaluator.
From S2P Require Import GuestRuntime EndToEnd Keys Deployment ArkSigner ArkExamples Scenario SigningProtocol SignerTests.
From S2P Require Import OwnershipTests ProtocolExamples OwnershipExamples Client Driver Wallet OracleDemo Fixtures PredicateTests.
From S2P Require Import EvaluatorTests PredicateExamples.

Open Scope N_scope.

Import SampleMusig SampleOwnership SampleFixtures.

Module SampleEngine.

Definition text_of (guest : bytes * bytes * bytes) : bytes :=
  guest_text V1 (fst (fst guest)) (snd (fst guest)) (snd guest).

#[export] Instance demo : OracleDemoLib := {|
  get_ctv_hash tx i := SampleKeys.checksum (concat (serialize_output <$> tx_output tx));
  ctv_wasm_instance hash := {| evaluator := lit "ctv"; Program.program := hash; parameters := [] |};
  wat_parse_str text := Ok (WASM_HEADER ++ text);
|}.

Definition guest_of (module : bytes) : option (bytes * bytes * bytes) :=
  snd <$> list_find (fun guest => WASM_HEADER ++ text_of guest = module) (unsafe_guests ++ burning_guests).

Definition template_predicate : Arena -> Arguments -> option bool :=
  templatehash_evaluate (fun bs => Some (SampleKeys.checksum bs)).

Definition engine_allocate (module : bytes) (s : Arena) (n : Z) : Result string Z * Arena :=
  match guest_of module with
  | None => let '(p, s') := sapio_alloc_v1 s (i32_as_u32 n) in (Ok (as_i32 p), s')
  | Some (text, _, _) =>
      if decide (text = lit "i32.const 4096") then (Ok 4096%Z, s)
      else if decide (text = lit "i32.const -1") then (Ok (-1)%Z, s)
      else if decide (text = TEST_ALLOCATOR) then
        (Ok (as_i32 (4096 + used s)), {| base := base s; used := used s + i32_as_u32 n; memory := memory s |})
      else (Err "out of fuel"%string, s)
  end.

Definition engine_evaluate (module : bytes) (s : Arena) (args : list Z) : Result string Z * Arena :=
  match guest_of module with
  | None => (guest_call template_predicate s args, s)
  | Some (_, text, _) =>
      if decide (text = lit "i32.const 1") then (Ok 1%Z, s)
      else if decide (text = lit "i32.const 2") then (Ok 2%Z, s)
      else (Err "trap"%string, s)
  end.

#[export] Instance engine : WasmRuntime := {|
  Store := Arena; Module_ := bytes; Imports := unit; Crypto := unit; Instance_ := bytes;
  Evaluator.Memory := bytes; Allocate := bytes; Evaluate := bytes;
  instance_fuel := "100000000"%string;
  parse_all m := Ok <$> match guest_of m with Some guest => guest_sections guest | None => SampleHost.sections end;
  new_evaluator_store := {| base := 65536; used := 0; memory := fun _ => Byte.x00 |};
  module_new _ m := Ok m;
  imports_new := tt;
  add_crypto_imports s _ := (tt, tt, s);
  add_crypto_imports_v2 s _ := (tt, tt, s);
  instance_new s m _ := Ok (m, s);
  bind_crypto _ s _ := Ok s;
  get_memory i _ := Ok i;
  get_allocate i _ name := if decide (name = lit "sapio_alloc_v1") then Ok i else Err "missing export"%string;
  get_evaluate i _ name := if decide (name = lit "sapio_evaluate_v1") then Ok i else Err "missing export"%string;
  call_allocate := engine_allocate;
  call_evaluate := engine_evaluate;
  metering_exhausted _ _ := false;
  data_size _ m := match guest_of m with Some _ => 65536 | None => LINEAR_MEMORY end;
  write s m start bs :=
    if start + len bs <=? match guest_of m with Some _ => 65536 | None => LINEAR_MEMORY end
    then Ok (arena_write s start bs) else Err "memory out of bounds"%string;
  contents s _ a := memory s a;
|}.

#[export] Instance engine_laws : WasmRuntimeLaws.
Proof.
  split; cbn [data_size write contents engine].
  - intros. apply N.le_refl.
  - intros s m start bs H. apply N.leb_le in H. rewrite H. eexists. split; [reflexivity|].
    split; [reflexivity|]. intros a. reflexivity.
Qed.

End SampleEngine.

Import SampleEngine.

(* ------------------------------------------------------------------ *)
(** ** The hypotheses hold *)

Definition guests : list (bytes * bytes * bytes) := unsafe_guests ++ burning_guests.

(** The engine finds each guest by its text. *)
Lemma guests_known : forallb (fun g => bool_decide (guest_of (WASM_HEADER ++ text_of g) = Some g)) guests = true.
Proof. vm_compute. reflexivity. Qed.

Lemma guests_short : forallb (fun g => len (WASM_HEADER ++ text_of g) <=? MAX_PROGRAM_BYTES) guests = true.
Proof. vm_compute. reflexivity. Qed.

Lemma guest_known g : g ∈ guests -> guest_of (WASM_HEADER ++ text_of g) = Some g.
Proof. intros Hg. pose proof (forallb_in _ _ _ guests_known Hg) as H. by apply bool_decide_eq_true in H. Qed.

Lemma guest_assembled g : g ∈ guests -> assembled g (WASM_HEADER ++ text_of g).
Proof.
  intros Hg. pose proof (guest_known _ Hg) as Hk. split.
  - split; [reflexivity|]. apply N.leb_le, (forallb_in _ _ _ guests_short Hg).
  - cbn [parse_all engine]. by rewrite Hk.
  - intros _. exists (WASM_HEADER ++ text_of g), (WASM_HEADER ++ text_of g), (WASM_HEADER ++ text_of g),
      (WASM_HEADER ++ text_of g). eexists. split; [by do 5 eexists|]. split; [cbn [data_size engine]; by rewrite Hk|].
    destruct g as [[a p] e]. cbn [fst snd]. split; split; intros ->; intros s n; cbn [call_allocate call_evaluate engine];
      unfold engine_allocate, engine_evaluate; rewrite Hk; cbv beta iota; repeat (rewrite decide_False by discriminate);
      rewrite ?decide_True by done; by repeat eexists.
Qed.

(** Every spend of the tests is presentable. *)
Lemma guests_good : forallb (fun g => checks (guest_fixture g) good) guests = true.
Proof. vm_compute. reflexivity. Qed.

Lemma others_good :
  checks payment_fixture good && checks unknown_fixture good && checks unsupported_fixture good
  && checks (Fixture_template false) good = true.
Proof. vm_compute. reflexivity. Qed.

Lemma subject_good f : subject f -> good f = true.
Proof.
  pose proof others_good as H. rewrite !andb_true_iff in H. destruct H as [[[H1 H2] H3] H4].
  intros [g f' Hg Hf|f' Hf|f' Hf|f' Hf|f' Hf];
    [exact (checks_ok _ _ _ (forallb_in _ _ _ guests_good Hg) Hf)
    |exact (checks_ok _ _ _ H1 Hf)|exact (checks_ok _ _ _ H2 Hf)|exact (checks_ok _ _ _ H3 Hf)|exact (checks_ok _ _ _ H4 Hf)].
Qed.

(** The engine and the guest runtime agree on the template spend. *)
Definition same_verdict (r1 r2 : Result string bool) : bool :=
  match r1, r2 with Ok a, Ok b => Bool.eqb a b | _, _ => false end.

Lemma same_verdict_eq r1 r2 : same_verdict r1 r2 = true -> r1 = r2.
Proof. destruct r1, r2; cbn; try discriminate. by intros ->%Bool.eqb_prop. Qed.

Definition agrees (f : Fixture) : bool :=
  (DIGEST + view_size V1 (fixture_input f) + scratch_size (fixture_input f) <=? INPUT_CAPACITY)
  && same_verdict
       (Evaluator.evaluate (runtime := engine) V1 TEMPLATEHASH [] (key_parameters (fixture_key f)) (fixture_input f) [])
       (Evaluator.evaluate (runtime := guest_runtime 65536 SampleHost.sections template_predicate) V1 TEMPLATEHASH []
         (key_parameters (fixture_key f)) (fixture_input f) []).

Lemma template_agrees : checks (Fixture_template false) agrees = true.
Proof. vm_compute. reflexivity. Qed.

Lemma template_unmarked :
  checks transaction (fun tx => bool_decide (strip_prefix MAGIC (Fixtures.template_hash tx 0) = None)) = true.
Proof. vm_compute. reflexivity. Qed.

Lemma nobody_installed :
  bool_decide (inline_wasm_version unknown_evaluator = None)
  && negb (existsb (fun e => bool_decide (evaluator_id e = unknown_evaluator)) (signer_evaluators signer)) = true.
Proof. vm_compute. reflexivity. Qed.

Lemma sample_evaluators : evaluator_bench 65536 SampleHost.sections world root_ signer.
Proof.
  pose proof others_good as Hgood. rewrite !andb_true_iff in Hgood. destruct Hgood as [[[G1 G2] G3] G4].
  split; [exact world_healthy|reflexivity|reflexivity| | |exact (checks_some _ _ G1)|exact (checks_some _ _ G2)
    |exact (checks_some _ _ G3)|exact (checks_some _ _ G4)| | | | |].
  - intros g Hg. eexists. split; [reflexivity|]. by apply guest_assembled.
  - intros g Hg. exact (checks_some _ _ (forallb_in _ _ _ guests_good Hg)).
  - intros f Hf. by apply good_presentable, subject_good.
  - pose proof nobody_installed as H. rewrite andb_true_iff, negb_true_iff, bool_decide_eq_true in H. destruct H as [H1 H2].
    split; [done|]. intros (e & He & Hin)%list_elem_of_fmap. apply not_true_iff_false in H2. apply H2, existsb_exists.
    exists e. split; [by apply list_elem_of_In|]. by apply bool_decide_eq_true.
  - split; [by vm_compute|]. exists TEMPLATEHASH. do 8 eexists. repeat (split; [reflexivity|]). reflexivity.
  - intros tx Htx. pose proof (checks_ok _ _ _ template_unmarked Htx) as H. cbn beta in H. apply bool_decide_eq_true in H. exact H.
  - intros f Hf. pose proof (checks_ok _ _ _ template_agrees Hf) as H. unfold agrees in H.
    rewrite andb_true_iff, N.leb_le in H. destruct H as [Hcap H]. split; [exact Hcap|]. exact (same_verdict_eq _ _ H).
Qed.

(* ------------------------------------------------------------------ *)
(** ** Witnesses *)

Lemma evaluator_tests_pass_witness : exists st1 st2,
  unavailable_and_unsupported_evaluators_fail_before_nonce world start = (Ok tt, st1) /\
  private_adapter_rejects_unsafe_guests_without_exposing_a_nonce world start = (Ok tt, st2).
Proof.
  assert (linked 65536 SampleHost.sections (templatehash_evaluate (fun bs => Some (sha256 bs))) TEMPLATEHASH) as Hl
    by exact (sample_linked (templatehash_evaluate (fun bs => Some (sha256 bs)))).
  destruct (evaluator_tests_pass 65536 SampleHost.sections world root_ signer Hl SampleKeys.checksum_length
    sample_evaluators) as [H1 H2].
  destruct (H1 start) as [st1 E1], (H2 start) as [st2 E2]. exists st1, st2. split; [exact E1|exact E2].
Defined.
